(* ===== verification/_CoqProject ===== *)
-Q . S2P
Prelude.v
RustStr.v
RustStrFacts.v
Paths.v
Floats.v
Platform.v
Money.v
AmountProps.v
Errors.v
ConfigTypes.v
Work.v
ConfigLayers.v
WorkProps.v
Quota.v
Schedule.v
ScheduleProps.v
ConvTypes.v
Templates.v
Conversation.v
ConversationProps.v
ReceiptTypes.v
Receipt.v
Database.v
Insight.v
Account.v
IngressTypes.v
IngressStore.v
IngressApply.v
IngressApp.v
Outbound.v
Scheduler.v
Jobs.v
Provider.v
Media.v
Http.v
Extractors.v
FsStore.v
S3Store.v
ConfigLoad.v
Update.v
AccountProps.v
System.v
Operator.v
Runtime.v
Cli.v
DebugText.v
ReceiptProps.v
ReceiptFrame.v
ReceiptInv.v
ReceiptSpec.v
ReceiptClaims.v
ReceiptIngest.v
ReceiptTheorems.v
IngressFrame.v
Isolation.v
DeletionProps.v
EndToEnd.v
SystemFrame.v
Demo.v
OutboundProps.v
SchedulerProps.v
SystemProps.v
RuntimeProps.v
CliProps.v
OperatorProps.v
Witnesses.v
ProviderProps.v
MediaProps.v
HttpProps.v
ConfigProps.v
ConfigBounds.v
ExtractorProps.v
FsStoreProps.v
S3StoreProps.v
UpdateProps.v
UpdateRollback.v
WebWitnesses.v
StoreWitnesses.v
UpdateWitnesses.v
RuntimeWitnesses.v
