(* ===== verification/Prelude.v ===== *)
(** * Verification of the zl-expense bot

    The program (Rust, under [src/src/]) is a chat bot for personal expenses on the Zalo
    messenger.  Messages come in as events, are deduplicated and decided on in one
    database transaction; receipt photos go through a durable job queue, an object store
    and an extraction service, and end as drafts that the user edits, confirms or
    rejects; schedules emit periodic summaries; quotas limit the use of the services.
    The same binary is its operator's tool: status, job recovery, diagnosis, backup,
    signed self update and rollback.

    ** Parts and files

    The data and operations first, then the files that hold theorems about them.

    - [Prelude.v] (this file): results, panics, transactions with rollback ([txn]),
      programs that commit as they go ([prog]), machine integers, tactics and the hint
      database [zl].
    - [RustStr.v], [RustStrFacts.v]: Rust strings as lists of code points with byte
      lengths; slicing off a character boundary panics.  [Paths.v]: Unix paths and their
      components.  [Floats.v]: [f64] and [f32] as bit patterns over the IEEE 754
      specification of the Standard Library.
    - [Platform.v]: the third-party crates as classes of operations with laws ([uuid],
      [imagesize], [sha2], [unicode-normalization], [chrono], [chrono-tz]), and concrete
      instances that meet the laws (the Gregorian calendar, fixed-offset zones, a zone
      with one transition, Vietnamese case mapping and decomposition).
    - [Money.v], [AmountProps.v]: [conversation/money.rs], [conversation/amount.rs].
    - [Errors.v]: error classes, exit codes and the JSON line of [error.rs].
    - [ConfigTypes.v], [ConfigLayers.v], [ConfigLoad.v]: the configuration ([config/]): the
      sections with their derived readers, the layers (defaults, file, environment) with
      the table that attributes each setting, the validations and the credential files.
      [ConfigProps.v] (attribution), [ConfigBounds.v] (bounds, credential paths).
    - [Work.v], [WorkProps.v]: the durable work queue of [work/]: tables [jobs] and
      [job_attempts] as finite maps, one definition per [WorkStore] method, the row
      locks, advisory locks and fresh ids of a claim as an argument ([ClaimEnv]).
    - [Quota.v]: the usage counters of [quota/mod.rs].
    - [Schedule.v], [ScheduleProps.v]: delivery instants and spending periods of
      [schedule/].
    - [ConvTypes.v], [Templates.v], [Conversation.v], [ConversationProps.v]: the
      conversation ([conversation/]): account context, commands, reply texts, intent
      parsing and the decision function.
    - [ReceiptTypes.v], [Receipt.v]: the receipt lifecycle of [receipt/]: states,
      validation, object store, the tables of migration 004 with their constraints, and
      every method of [ReceiptLifecycle].  [ReceiptProps.v] (legal evolution of rows),
      [ReceiptInv.v] (the invariant of the tables), [ReceiptSpec.v] (histories of
      transactions as the abstract specification), [ReceiptFrame.v], [ReceiptClaims.v],
      [ReceiptIngest.v] (lemmas) and [ReceiptTheorems.v] (theorems and witnesses).
    - [Extractors.v], [ExtractorProps.v]: [receipt/extractor.rs], [downscale.rs] and the
      Gemini adapter [gemini.rs].
    - [FsStore.v], [FsStoreProps.v]: the filesystem object store ([receipt/fs_store.rs])
      over a map of files in which every call may fail part way.  [S3Store.v],
      [S3StoreProps.v]: the S3 store with its request signing ([receipt/s3_store.rs]).
    - [Database.v]: the one database of the program: the tables of the queue, the
      counters and the receipts together with accounts, identities, events,
      conversations, messages, schedules, exports and insights, and the embedding of a
      component's transaction into it.
    - [Insight.v]: aggregates, snapshots and narratives of [insight/].  [Account.v],
      [AccountProps.v]: deletion and export of [account/mod.rs].
    - [IngressTypes.v], [IngressStore.v], [IngressApply.v], [IngressApp.v]: the
      transaction of an event ([ingress/]): recording it once, the account, the context
      of the decision, every effect, the reply; the mapping from and to the conversation;
      the follow-ups of receipts.
    - [Outbound.v], [OutboundProps.v]: delivery of messages ([outbound/mod.rs]) as
      processes whose statements and provider calls interleave.
    - [Scheduler.v], [SchedulerProps.v], [Jobs.v]: the scheduler tick, the dispatch of
      leased jobs, maintenance and roles of [runtime/].
    - [Provider.v], [ProviderProps.v], [Media.v], [MediaProps.v]: the messaging provider
      ([provider/]): redaction, the webhook secret, parsing of bodies, sending, and the
      media download.  [Http.v], [HttpProps.v]: the webhook handler, counters and
      readiness ([http/], [health/], [metrics/]).
    - [System.v]: the operations of the whole program on the database and the object
      store, and their histories ([sys_run]).
    - [Update.v]: the machine the commands run on (files, migration table, tables, output,
      and the outcomes of the calls to come), and on it [update/mod.rs],
      [operator/backup.rs] and [db/].  [UpdateProps.v] (what may end up installed),
      [UpdateRollback.v] (the way back).
    - [Operator.v], [OperatorProps.v]: status, metrics text, job commands, doctor and
      diagnostic bundle ([operator/], [metrics/mod.rs]), and the construction of the object
      store and extractor ([receipt/mod.rs]).
    - [Runtime.v], [RuntimeProps.v]: start-up as a program on the machine; the supervisor
      and the worker as transition systems; the rounds of scheduler and maintenance
      ([runtime/mod.rs], [shutdown.rs], [scheduler.rs], [maintenance.rs]).
    - [Cli.v], [CliProps.v]: the commands, their dispatch and exit codes ([cli.rs],
      [main.rs]).  [DebugText.v]: the [Debug] implementations that redact, and that they do.
    - [IngressFrame.v]: what an event may do to the database, as the interface
      [Statements], [AccountStatements], [EventStatements]: a relation on databases that
      every single statement respects is respected by [process].  [Isolation.v] and
      [SystemFrame.v] implement it for tenant isolation and for progress.
    - [DeletionProps.v], [EndToEnd.v], [SystemProps.v]: theorems about composed parts.
    - [Demo.v], [Witnesses.v], [WebWitnesses.v], [StoreWitnesses.v], [UpdateWitnesses.v],
      [RuntimeWitnesses.v]: concrete platform, database, machines, calls and histories
      on which the theorems apply.

    ** How code is modelled

    A table is a finite map from keys to rows; the body of a database transaction is a
    [txn], which either returns and commits or fails and leaves the state as it was; a
    method that runs several transactions and external calls is a [prog].  [NOW()],
    fresh identifiers and what other transactions hold are arguments.  Constraints of
    the schema (checks, unique indexes, foreign keys) are part of the statements that
    can violate them.  Timestamps are microseconds from the epoch, in [Z].  Where a query
    leaves the order of ties open the model takes the order of the map; text columns are
    assumed to hold no NUL character, which PostgreSQL refuses.  Code that may panic runs
    in [ptxn]; a panic or an error rolls the transaction back.

    A command of the operator is a [prog] over the machine of [Update.v].  Each of its
    queries, file calls and external programs takes the next outcome from a list: it works,
    or it breaks after part of its work.  Theorems quantify over the list, so they hold
    whichever calls fail.  Concurrency is a step relation: the deliveries of [Outbound.v],
    the supervisor and the worker of [Runtime.v].

    Code outside [src/] is an instance of a class: [Chrono], [UuidText], [UnicodeCase],
    [UnicodeNorm], [Postgres] (zone arithmetic), [SerdeParse], [SerdeJson], [SerdePretty],
    [TomlLib], [UrlLib], [Sha256], [HmacSha256], [Ed25519], [Base64], [ImageLib],
    [ImageCodec], [SqlxMigrate], [PgTools], [ChronoDisplay], [FmtDebug].  What a theorem
    needs of one is in the class of its laws; HTTP exchanges, DNS answers and the
    environment are arguments.

    ** What the theorems show

    - Work queue: every reachable state satisfies the schema and agrees with the audit
      log of attempts; claims are correct and make progress; a lost lease is fenced off;
      finished jobs are final; enqueueing is idempotent; the retry policy.
    - Receipts: submissions move along legal transitions only; the tables keep their
      invariant; confirmation creates exactly one expense; edits change exactly what was
      asked; ingestion stores or absorbs; methods commit only histories of transactions.
    - Amounts: parsing terminates, and returns without panic or overflow on text whose
      lowercase keeps byte lengths; round trips and their failures.
    - Quotas: a limit serves exactly that many requests.
    - Schedules: deliveries bracket the current time, spending periods adjoin.
    - Conversation: a decision has one reply and only authorised commands; confirmation
      words, stale confirmations, the gate for images.
    - System: an event changes only rows of its sender; an accepted event is handled once
      through any history; waiting messages always have a delivery job; account states
      only move forward; a message is sent again only after a definite refusal, however
      workers interleave; deletion is complete, isolated and idempotent; a confirmation
      word reaches the expense table; decisions always map to effects; a scheduler tick
      advances exactly the due schedules; exports and job payloads read back.
    - Edges: the webhook lets only authenticated calls within limits reach the database,
      and a repeated call changes nothing; downloads go to allowlisted hosts at public
      addresses only; errors of sending and the [Debug] text of values show no secret.
    - Configuration: every setting shown is in effect and attributed to the highest layer
      that names it; numbers are within bounds; credentials are read only from their
      directory.
    - Stores and extractors: the filesystem store implements the in-memory one through
      failures; a supported extraction always fits the drafts table.
    - Updates: only the old binary, a verified artifact or a kept binary is ever installed;
      a rollback restores what an update replaced.
    - Runtime: whatever the interleaving, the worker does to the system only what histories
      of the system do and keeps to its concurrency, so the invariants of the system hold
      for the runtime; the supervisor always stops, with readiness withdrawn; a runtime
      that comes up has checked its credentials and its migrations.
    - Operator: commands keep to their footprint, and the destructive ones do nothing
      without [--yes]; the status report counts the tables exactly; what is shown or
      bundled holds no forbidden text.

    ** Bounds and fuel

    [parse_amount] recurses through [try_parse_compound]; its fuel is the length of the
    lowercased text plus two, and [parse_amount_terminates] shows that it is never used
    up.  [dec] prints with [log2 n + 1] rounds, enough since a decimal digit takes more
    than three bits.  [scan_steps] is the source's own bound of 180 minutes.  The media
    download recurses on the redirects left, the source's own bound.  The search of
    [bytes_for_corpus_index] has the fuel its caller gives; [fixture_search_correct] shows
    that 2^32 rounds, the nonces there are, suffice.

    ** Not modelled

    - Failures of the database connection inside a transaction, except in the commands of
      the operator, where every query may fail.
    - A handler dropped half-way (shutdown, a lost heartbeat, a panic): in the worker such a
      handler counts as not started.  Crashes in the middle of a delivery, where the order
      of statements and calls matters most, are in the step relation of [Outbound.v].
    - Time as such: a deadline or timer is a step that may happen at any moment.
    - What belongs to libraries: argument parsing ([clap]), routing and header decoding
      ([axum]), the HTTP clients, blocking on the async runtime, the logging set-up, the
      notifications of [systemd].
    - File modes and symbolic links; the column [received_at], which only the report of its
      maximum reads; re-exports ([lib.rs], the [mod.rs] files), constructors and accessors
      that only copy fields, the conversion of rows into structs of the same fields. *)

From Stdlib Require Export ZArith Lia.
From stdpp Require Export base tactics numbers list gmap sorting.

#[global] Open Scope Z_scope.

(** ** Results of fallible Rust code *)

(** [Result<T, E>]. *)
Inductive result (T E : Type) : Type :=
| Ok (t : T)
| Err (e : E).
Arguments Ok {T E} t.
Arguments Err {T E} e.

(** The outcome of running Rust code that may panic.  [Timeout] marks a
    fuel-bounded model that ran out of fuel; theorems show it unreachable. *)
Inductive run (A : Type) : Type :=
| Ret (a : A)
| Panic
| Timeout.
Arguments Ret {A} a.
Arguments Panic {A}.
Arguments Timeout {A}.

Definition run_bind {A B} (m : run A) (f : A -> run B) : run B :=
  match m with
  | Ret a => f a
  | Panic => Panic
  | Timeout => Timeout
  end.

Definition res_bind {A B E} (m : result A E) (f : A -> result B E) : result B E :=
  match m with
  | Ok a => f a
  | Err e => Err e
  end.

Declare Scope run_scope.
Delimit Scope run_scope with run.
Notation "'let!' x := m 'in' k" := (run_bind m (fun x => k))
  (at level 10, x pattern, m at level 200, k at level 200) : run_scope.
Notation "'let?' x := m 'in' k" := (res_bind m (fun x => k))
  (at level 10, x pattern, m at level 200, k at level 200) : run_scope.
#[global] Open Scope run_scope.

(** [Option::expect]. *)
Definition expect {A} (o : option A) : run A :=
  match o with Some a => Ret a | None => Panic end.

(** [?] in a function that returns a [Result] and may panic. *)
Definition rr_bind {A B E} (m : run (result A E)) (f : A -> run (result B E)) : run (result B E) :=
  match m with
  | Ret (Ok a) => f a
  | Ret (Err e) => Ret (Err e)
  | Panic => Panic
  | Timeout => Timeout
  end.
Notation "'let!?' x := m 'in' k" := (rr_bind m (fun x => k))
  (at level 10, x pattern, m at level 200, k at level 200) : run_scope.

Lemma rr_bind_step {A B E} (m : run (result A E)) (f : A -> run (result B E)) a :
  m = Ret (Ok a) -> rr_bind m f = f a.
Proof. by intros ->. Qed.

Lemma run_bind_step {A B} (m : run A) (f : A -> run B) a : m = Ret a -> run_bind m f = f a.
Proof. by intros ->. Qed.

(** [returns m P]: [m] terminates without a panic, with a value satisfying [P]. *)
Definition returns {A} (m : run A) (P : A -> Prop) : Prop := exists a, m = Ret a /\ P a.

Lemma returns_ret {A} (P : A -> Prop) a : P a -> returns (Ret a) P.
Proof. intros. exists a. done. Qed.

Lemma returns_bind {A B} (m : run A) (f : A -> run B) P Q :
  returns m P -> (forall a, P a -> returns (f a) Q) -> returns (run_bind m f) Q.
Proof. intros (a & -> & HP) Hf. by apply Hf. Qed.

Lemma returns_weaken {A} (m : run A) (P Q : A -> Prop) :
  returns m P -> (forall a, P a -> Q a) -> returns m Q.
Proof. intros (a & -> & HP) H. exists a. auto. Qed.

(** [Option::ok_or]. *)
Definition ok_or {T E} (o : option T) (e : E) : result T E :=
  match o with Some t => Ok t | None => Err e end.

(** ** Inversion of results and options *)

Lemma res_bind_ok {A B E} (m : result A E) (f : A -> result B E) b :
  res_bind m f = Ok b -> exists a, m = Ok a /\ f a = Ok b.
Proof. destruct m as [a|e]; [by exists a | discriminate]. Qed.
Lemma ok_or_ok {A E} (o : option A) (e : E) a : ok_or o e = Ok a -> o = Some a.
Proof. destruct o; [by intros [= ->] | discriminate]. Qed.
Lemma ok_inj {A E} (x y : A) : Ok x = Ok (E := E) y -> x = y.
Proof. by intros [= ->]. Qed.
Lemma some_inj {A} (x y : A) : Some x = Some y -> x = y.
Proof. by intros [= ->]. Qed.
Lemma bind_some {A B} (m : option A) (f : A -> option B) y :
  m ≫= f = Some y -> exists x, m = Some x /\ f x = Some y.
Proof. destruct m; [eauto | discriminate]. Qed.

(** Split the binds of a successful computation. *)
Ltac split_binds H :=
  repeat match type of H with
         | _ ≫= _ = Some _ =>
             let x := fresh "x" in let E := fresh "E" in apply bind_some in H as (x & E & H)
         | res_bind _ _ = Ok _ =>
             let x := fresh "x" in let E := fresh "E" in apply res_bind_ok in H as (x & E & H)
         end.

#[global] Instance result_eq_dec {T E} `{EqDecision T, EqDecision E} : EqDecision (result T E).
Proof. solve_decision. Defined.

(** ** Stateful code with rollback

    A body that runs inside one database transaction: it reads and writes a
    state [S] and either returns a value or an error. *)
Definition txn (S E A : Type) : Type := S -> result (A * S) E.

Section Txn.
Context {S E : Type}.

Definition t_ret {A} (a : A) : txn S E A := fun s => Ok (a, s).
Definition t_err {A} (e : E) : txn S E A := fun _ => Err e.
Definition t_get : txn S E S := fun s => Ok (s, s).
Definition t_put (s : S) : txn S E unit := fun _ => Ok (tt, s).
Definition t_bind {A B} (m : txn S E A) (f : A -> txn S E B) : txn S E B :=
  fun s => match m s with
           | Ok (a, s') => f a s'
           | Err e => Err e
           end.
Definition t_lift {A} (r : result A E) : txn S E A :=
  fun s => match r with Ok a => Ok (a, s) | Err e => Err e end.

(** Commit on success, roll back on error. *)
Definition atomically {A} (m : txn S E A) (s : S) : S * result A E :=
  match m s with
  | Ok (a, s') => (s', Ok a)
  | Err e => (s, Err e)
  end.

Lemma atomically_err {A} (m : txn S E A) s s' e :
  atomically m s = (s', Err e) -> s' = s /\ m s = Err e.
Proof. unfold atomically. destruct (m s) as [[a s1]|e1]; intros [=]; subst; auto. Qed.

Lemma atomically_ok {A} (m : txn S E A) s s' a :
  atomically m s = (s', Ok a) -> m s = Ok (a, s').
Proof. unfold atomically. destruct (m s) as [[a1 s1]|e1]; intros [=]; subst; auto. Qed.

Lemma t_bind_ok {A B} (m : txn S E A) (f : A -> txn S E B) s b s2 :
  t_bind m f s = Ok (b, s2) <-> exists a s1, m s = Ok (a, s1) /\ f a s1 = Ok (b, s2).
Proof.
  unfold t_bind. split.
  - destruct (m s) as [[a s1]|e]; [eauto | discriminate].
  - intros (a & s1 & -> & H). exact H.
Qed.

Lemma t_bind_step {A B} (m : txn S E A) (f : A -> txn S E B) s a s1 :
  m s = Ok (a, s1) -> t_bind m f s = f a s1.
Proof. intros H. unfold t_bind. by rewrite H. Qed.

(** What every statement of a transaction body maintains, the body maintains. *)
Definition t_maintains {A} (R : S -> S -> Prop) (m : txn S E A) : Prop :=
  forall s a s', m s = Ok (a, s') -> R s s'.

Context (R : S -> S -> Prop) {HR : PreOrder R}.

Lemma t_maintains_ret {A} (a : A) : t_maintains R (t_ret a).
Proof. intros s b s' [=]; subst. reflexivity. Qed.
Lemma t_maintains_err {A} (e : E) : t_maintains R (@t_err A e).
Proof. intros s b s' [=]. Qed.
Lemma t_maintains_lift {A} (r : result A E) : t_maintains R (t_lift r).
Proof. intros s b s'. unfold t_lift. destruct r; intros [=]; subst. reflexivity. Qed.
Lemma t_maintains_bind {A B} (m : txn S E A) (f : A -> txn S E B) :
  t_maintains R m -> (forall a, t_maintains R (f a)) -> t_maintains R (t_bind m f).
Proof.
  intros Hm Hf s b s2 (a & s1 & H1 & H2)%t_bind_ok.
  etransitivity; [exact (Hm _ _ _ H1) | exact (Hf _ _ _ _ H2)].
Qed.
Lemma atomically_maintains {A} (m : txn S E A) s : t_maintains R m -> R s (atomically m s).1.
Proof.
  intros Hm. unfold atomically. specialize (Hm s). destruct (m s) as [[a s']|e]; [by eapply Hm | reflexivity].
Qed.

End Txn.

Notation "'let*' x := m 'in' k" := (t_bind m (fun x => k))
  (at level 10, x pattern, m at level 200, k at level 200) : run_scope.

(** ** Transactions that may panic

    A body that runs inside one database transaction and calls code that may panic.
    An error or a panic leaves the state as it was. *)
Definition ptxn (S E A : Type) : Type := S -> run (result (A * S) E).

Section Ptxn.
Context {S E : Type}.

Definition x_ret {A} (a : A) : ptxn S E A := fun s => Ret (Ok (a, s)).
Definition x_err {A} (e : E) : ptxn S E A := fun _ => Ret (Err e).
Definition x_bind {A B} (m : ptxn S E A) (f : A -> ptxn S E B) : ptxn S E B :=
  fun s => match m s with
           | Ret (Ok (a, s')) => f a s'
           | Ret (Err e) => Ret (Err e)
           | Panic => Panic
           | Timeout => Timeout
           end.
(** A query, a statement, and a computation outside the database. *)
Definition x_read {A} (f : S -> result A E) : ptxn S E A :=
  fun s => match f s with Ok a => Ret (Ok (a, s)) | Err e => Ret (Err e) end.
Definition x_exec {A} (m : txn S E A) : ptxn S E A := fun s => Ret (m s).
Definition x_call {A} (r : run (result A E)) : ptxn S E A :=
  fun s => match r with
           | Ret (Ok a) => Ret (Ok (a, s))
           | Ret (Err e) => Ret (Err e)
           | Panic => Panic
           | Timeout => Timeout
           end.

(** Commit on success; roll back on an error or a panic. *)
Definition x_atomically {A} (m : ptxn S E A) (s : S) : S * run (result A E) :=
  match m s with
  | Ret (Ok (a, s')) => (s', Ret (Ok a))
  | Ret (Err e) => (s, Ret (Err e))
  | Panic => (s, Panic)
  | Timeout => (s, Timeout)
  end.

Lemma x_bind_ok {A B} (m : ptxn S E A) (f : A -> ptxn S E B) s b s2 :
  x_bind m f s = Ret (Ok (b, s2)) <->
  exists a s1, m s = Ret (Ok (a, s1)) /\ f a s1 = Ret (Ok (b, s2)).
Proof.
  unfold x_bind. split.
  - destruct (m s) as [[[a s1]|e]| |]; [eauto | discriminate..].
  - intros (a & s1 & -> & H). exact H.
Qed.

Lemma x_bind_step {A B} (m : ptxn S E A) (f : A -> ptxn S E B) s a s1 :
  m s = Ret (Ok (a, s1)) -> x_bind m f s = f a s1.
Proof. intros H. unfold x_bind. by rewrite H. Qed.

Lemma x_read_ok {A} (f : S -> result A E) s a s1 :
  x_read f s = Ret (Ok (a, s1)) <-> f s = Ok a /\ s1 = s.
Proof. unfold x_read. destruct (f s); split; [intros [=] | intros [[=] ->] | intros [=] | intros [[=] _]]; by subst. Qed.

Lemma x_call_ok {A} (r : run (result A E)) s a s1 :
  x_call r s = Ret (Ok (a, s1)) <-> r = Ret (Ok a) /\ s1 = s.
Proof.
  unfold x_call. destruct r as [[b|e]| |];
    (split; [intros [=] | intros [[=] ->]]; by subst).
Qed.

(** What every part of a transaction maintains, the transaction maintains. *)
Definition maintains {A} (R : S -> S -> Prop) (m : ptxn S E A) : Prop :=
  forall s a s', m s = Ret (Ok (a, s')) -> R s s'.

Context (R : S -> S -> Prop) {HR : PreOrder R}.

Lemma maintains_ret {A} (a : A) : maintains R (x_ret a).
Proof. intros s b s' [=]; subst. reflexivity. Qed.
Lemma maintains_err {A} (e : E) : maintains R (@x_err A e).
Proof. intros s b s' [=]. Qed.
Lemma maintains_read {A} (f : S -> result A E) : maintains R (x_read f).
Proof. intros s b s' [_ ->]%x_read_ok. reflexivity. Qed.
Lemma maintains_call {A} (r : run (result A E)) : maintains R (x_call r).
Proof. intros s b s' [_ ->]%x_call_ok. reflexivity. Qed.
Lemma maintains_bind {A B} (m : ptxn S E A) (f : A -> ptxn S E B) :
  maintains R m -> (forall a, maintains R (f a)) -> maintains R (x_bind m f).
Proof.
  intros Hm Hf s b s2 (a & s1 & H1 & H2)%x_bind_ok.
  etransitivity; [exact (Hm _ _ _ H1) | exact (Hf _ _ _ _ H2)].
Qed.
Lemma maintains_exec {A} (m : txn S E A) : t_maintains R m -> maintains R (x_exec m).
Proof. intros H s a s' [=]. by eapply H. Qed.

Lemma x_atomically_maintains {A} (m : ptxn S E A) s : maintains R m -> R s (x_atomically m s).1.
Proof.
  intros Hm. unfold x_atomically. specialize (Hm s). destruct (m s) as [[[a s']|e]| |]; try reflexivity.
  by eapply Hm.
Qed.
End Ptxn.

(** [map_err]. *)
Definition x_map_err {S E E' A} (f : E -> E') (m : ptxn S E A) : ptxn S E' A :=
  fun s => match m s with
           | Ret (Ok r) => Ret (Ok r)
           | Ret (Err e) => Ret (Err (f e))
           | Panic => Panic
           | Timeout => Timeout
           end.

Lemma x_map_err_ok {S E E' A} (f : E -> E') (m : ptxn S E A) s r :
  x_map_err f m s = Ret (Ok r) <-> m s = Ret (Ok r).
Proof. unfold x_map_err. destruct (m s) as [[?|?]| |]; split; by intros [=]; subst. Qed.

Lemma maintains_map_err {S E E' A} (R : S -> S -> Prop) (f : E -> E') (m : ptxn S E A) :
  maintains R m -> maintains R (x_map_err f m).
Proof. intros H s a s' Hm%x_map_err_ok. by eapply H. Qed.

Notation "'let^' x := m 'in' k" := (x_bind m (fun x => k))
  (at level 10, x pattern, m at level 200, k at level 200) : run_scope.

(** Split a transaction along its binds and conditions; what its statements maintain is
    looked up in the database. *)
Create HintDb transactions.
#[export] Hint Extern 1 (t_maintains _ (t_ret _)) => apply t_maintains_ret, _ : transactions.
#[export] Hint Extern 1 (t_maintains _ (t_err _)) => apply t_maintains_err : transactions.
#[export] Hint Extern 1 (t_maintains _ (t_lift _)) => apply t_maintains_lift, _ : transactions.
#[export] Hint Extern 2 (t_maintains _ (t_bind _ _)) => apply t_maintains_bind; [apply _ | | intros ?] : transactions.
#[export] Hint Extern 1 (maintains _ (x_ret _)) => apply maintains_ret, _ : transactions.
#[export] Hint Extern 1 (maintains _ (x_err _)) => apply maintains_err : transactions.
#[export] Hint Extern 1 (maintains _ (x_read _)) => apply maintains_read, _ : transactions.
#[export] Hint Extern 1 (maintains _ (x_call _)) => apply maintains_call, _ : transactions.
#[export] Hint Extern 1 (maintains _ (x_exec _)) => apply maintains_exec : transactions.
#[export] Hint Extern 1 (maintains _ (x_map_err _ _)) => apply maintains_map_err : transactions.
#[export] Hint Extern 2 (maintains _ (x_bind _ _)) => apply maintains_bind; [apply _ | | intros ?] : transactions.

Ltac steps :=
  repeat first
  [ solve [auto 4 with transactions]
  | apply t_maintains_bind; [apply _ | | intros ?]
  | apply maintains_bind; [apply _ | | intros ?]
  | apply maintains_exec
  | apply maintains_map_err
  | match goal with
    | |- t_maintains _ (match ?x with _ => _ end) => destruct x
    | |- maintains _ (match ?x with _ => _ end) => destruct x
    end ].

(** ** Programs that commit as they go

    A method that runs several transactions and external calls in turn: an error
    ends it but does not undo what was committed before. *)
Definition prog (S E A : Type) : Type := S -> S * result A E.

Section Prog.
Context {S E : Type}.

Definition p_ret {A} (a : A) : prog S E A := fun s => (s, Ok a).
Definition p_err {A} (e : E) : prog S E A := fun s => (s, Err e).
Definition p_read {A} (f : S -> result A E) : prog S E A := fun s => (s, f s).
Definition p_bind {A B} (m : prog S E A) (f : A -> prog S E B) : prog S E B :=
  fun s => match m s with
           | (s', Ok a) => f a s'
           | (s', Err e) => (s', Err e)
           end.
(** Continue with the result of [m], error or not. *)
Definition p_try {A B} (m : prog S E A) (f : result A E -> prog S E B) : prog S E B :=
  fun s => let '(s', r) := m s in f r s'.

(** Rule for invariants of the committed states: what holds across every part of a
    program and is reflexive and transitive holds across the whole. *)
Definition preserves {A} (R : S -> S -> Prop) (m : prog S E A) : Prop := forall s, R s (m s).1.

Context (R : S -> S -> Prop) {HR : PreOrder R}.

Lemma p_bind_ok {A B} (m : prog S E A) (f : A -> prog S E B) s s' a :
  m s = (s', Ok a) -> p_bind m f s = f a s'.
Proof. intros H. unfold p_bind. by rewrite H. Qed.
Lemma p_bind_read {A B} (g : S -> result A E) (f : A -> prog S E B) s a :
  g s = Ok a -> p_bind (p_read g) f s = f a s.
Proof. intros H. unfold p_bind, p_read. by rewrite H. Qed.

Lemma preserves_ret {A} (a : A) : preserves R (p_ret a).
Proof. intros s. reflexivity. Qed.
Lemma preserves_err {A} (e : E) : preserves R (@p_err A e).
Proof. intros s. reflexivity. Qed.
Lemma preserves_read {A} (f : S -> result A E) : preserves R (p_read f).
Proof. intros s. reflexivity. Qed.
Lemma preserves_bind {A B} (m : prog S E A) (f : A -> prog S E B) :
  preserves R m -> (forall a, preserves R (f a)) -> preserves R (p_bind m f).
Proof.
  intros Hm Hf s. unfold p_bind. specialize (Hm s). destruct (m s) as [s' [a|e]]; [|exact Hm].
  etransitivity; [exact Hm | apply Hf].
Qed.
Lemma preserves_try {A B} (m : prog S E A) (f : result A E -> prog S E B) :
  preserves R m -> (forall r, preserves R (f r)) -> preserves R (p_try m f).
Proof.
  intros Hm Hf s. unfold p_try. specialize (Hm s). destruct (m s) as [s' r].
  etransitivity; [exact Hm | apply Hf].
Qed.
End Prog.

(** Taking programs apart. *)
Lemma p_bind_inv {S E A B} (m : prog S E A) (f : A -> prog S E B) s s' r : p_bind m f s = (s', r) ->
  (exists e, m s = (s', Err e) /\ r = Err e) \/ (exists s1 a, m s = (s1, Ok a) /\ f a s1 = (s', r)).
Proof. unfold p_bind. destruct (m s) as [s1 [a|e]]; [eauto|]. intros [= <- <-]. eauto. Qed.

Lemma preserves_run {S E A} (R : S -> S -> Prop) (m : prog S E A) s s' r : preserves R m -> m s = (s', r) -> R s s'.
Proof. intros H E1. specialize (H s). by rewrite E1 in H. Qed.

Notation "'let%' x := m 'in' k" := (p_bind m (fun x => k))
  (at level 10, x pattern, m at level 200, k at level 200) : run_scope.

(** ** Machine integers *)

Definition i32_max : Z := 2 ^ 31 - 1.
Definition i32_min : Z := - 2 ^ 31.
Definition i64_max : Z := 2 ^ 63 - 1.
Definition i64_min : Z := - 2 ^ 63.
Definition u64_max : Z := 2 ^ 64 - 1.
Definition u32_max : Z := 2 ^ 32 - 1.

Definition in_i64 (z : Z) : bool := (i64_min <=? z) && (z <=? i64_max).
Definition in_i32 (z : Z) : bool := (i32_min <=? z) && (z <=? i32_max).

(** Plain [a * b] on [i64]: an overflow is a panic (overflow checks on). *)
Definition i64_mul (a b : Z) : run Z :=
  if in_i64 (a * b) then Ret (a * b) else Panic.

(** [i64::checked_add]. *)
Definition i64_checked_add (a b : Z) : option Z :=
  if in_i64 (a + b) then Some (a + b) else None.

(** [x as u32], [x as u64]; [i64::try_from] of an unsigned value with [unwrap_or(MAX)]. *)
Definition as_u32 (z : Z) : Z := z mod 2 ^ 32.
Definition as_u64 (z : Z) : Z := z mod 2 ^ 64.
Definition i64_or_max (z : Z) : Z := if in_i64 z then z else i64_max.

(** [i32::saturating_sub] and [Ord::clamp]. *)
Definition i32_saturating_sub (a b : Z) : Z := Z.max i32_min (Z.min i32_max (a - b)).
Definition clamp (x lo hi : Z) : Z := if x <? lo then lo else if hi <? x then hi else x.

Lemma in_i64_spec z : in_i64 z = true <-> i64_min <= z <= i64_max.
Proof. unfold in_i64. rewrite andb_true_iff, !Z.leb_le. lia. Qed.

Lemma in_i32_spec z : in_i32 z = true <-> i32_min <= z <= i32_max.
Proof. unfold in_i32. rewrite andb_true_iff, !Z.leb_le. lia. Qed.

Lemma i64_mul_ret a b : i64_min <= a * b <= i64_max -> i64_mul a b = Ret (a * b).
Proof. intros H. unfold i64_mul. apply in_i64_spec in H. by rewrite H. Qed.

(** ** Tactics of the development *)

Create HintDb zl.
#[export] Hint Resolve t_maintains_ret t_maintains_err t_maintains_lift t_maintains_bind maintains_exec : zl.
#[export] Hint Resolve maintains_ret maintains_err maintains_read maintains_call maintains_bind maintains_map_err : zl.
#[export] Hint Resolve preserves_ret preserves_err preserves_read preserves_bind preserves_try : zl.

(** Turn boolean comparisons in the context and goal into propositions. *)
Ltac b2p :=
  repeat match goal with
  | H : andb _ _ = true |- _ => apply andb_true_iff in H as [? ?]
  | H : orb _ _ = false |- _ => apply orb_false_iff in H as [? ?]
  | H : negb _ = true |- _ => apply negb_true_iff in H
  | H : negb _ = false |- _ => apply negb_false_iff in H
  | H : Z.leb _ _ = true |- _ => apply Z.leb_le in H
  | H : Z.leb _ _ = false |- _ => apply Z.leb_gt in H
  | H : Z.ltb _ _ = true |- _ => apply Z.ltb_lt in H
  | H : Z.ltb _ _ = false |- _ => apply Z.ltb_ge in H
  | H : Z.eqb _ _ = true |- _ => apply Z.eqb_eq in H
  | H : Z.eqb _ _ = false |- _ => apply Z.eqb_neq in H
  | H : bool_decide _ = true |- _ => apply bool_decide_eq_true in H
  | H : bool_decide _ = false |- _ => apply bool_decide_eq_false in H
  end.

(** Run through every branch of the bodies in the goal and the context. *)
Ltac crush_match := repeat (case_match; simplify_eq/=).
(** The same without computing. *)
Ltac branches := repeat (case_match; simplify_eq); simplify_eq.
