(* ===== verification/RustStr.v ===== *)
(** * Rust strings

    A Rust [str] is a sequence of Unicode scalar values stored as UTF-8.  It is
    modelled as the list of its scalar values; [blen] is its length in bytes, and
    the slicing operations take byte offsets and panic off a character boundary,
    as in Rust.  Case mapping is table-driven data of the standard library
    ([UnicodeCase]); the operations the sources use of [str], [char] and integer
    parsing and printing are written out. *)

From S2P Require Import Prelude.
From Stdlib Require Strings.String Strings.Ascii.
Export Strings.String.StringSyntax.
Delimit Scope string_scope with string.

Abbreviation rstr := (list Z).

(** ** Literals *)

Fixpoint decode_utf8 (bs : list Z) : rstr :=
  match bs with
  | [] => []
  | b0 :: r0 =>
      if b0 <? 128 then b0 :: decode_utf8 r0
      else match r0 with
      | [] => []
      | b1 :: r1 =>
          if b0 <? 224 then ((b0 - 192) * 64 + (b1 - 128)) :: decode_utf8 r1
          else match r1 with
          | [] => []
          | b2 :: r2 =>
              if b0 <? 240
              then ((b0 - 224) * 4096 + (b1 - 128) * 64 + (b2 - 128)) :: decode_utf8 r2
              else match r2 with
              | [] => []
              | b3 :: r3 =>
                  ((b0 - 240) * 262144 + (b1 - 128) * 4096 + (b2 - 128) * 64 + (b3 - 128))
                    :: decode_utf8 r3
              end
          end
      end
  end.

(** The Rust string literal written [s]. *)
Definition lit (s : String.string) : rstr :=
  decode_utf8 (map (fun c => Z.of_N (Ascii.N_of_ascii c)) (String.list_ascii_of_string s)).
Notation "'s!' x" := (lit x%string) (at level 9, x at level 8) : run_scope.

(** A [char] literal. *)
Definition chr (s : String.string) : Z := hd 0 (lit s).
Notation "'c!' x" := (chr x%string) (at level 9, x at level 8) : run_scope.

(** ** Lengths, equality, prefixes *)

Definition char_len (c : Z) : Z :=
  if c <? 128 then 1 else if c <? 2048 then 2 else if c <? 65536 then 3 else 4.

(** The UTF-8 bytes of a string ([String::into_bytes]). *)
Definition encode_char (c : Z) : list Z :=
  if c <? 128 then [c]
  else if c <? 2048 then [192 + c / 64; 128 + c mod 64]
  else if c <? 65536 then [224 + c / 4096; 128 + (c / 64) mod 64; 128 + c mod 64]
  else [240 + c / 262144; 128 + (c / 4096) mod 64; 128 + (c / 64) mod 64; 128 + c mod 64].
Definition encode_utf8 (s : rstr) : list Z := concat (map encode_char s).

(** [str::len]: length in bytes. *)
Definition blen (s : rstr) : Z := foldr (fun c n => char_len c + n) 0 s.

Definition is_empty (s : rstr) : bool := match s with [] => true | _ => false end.
Definition str_eqb (a b : rstr) : bool := bool_decide (a = b).

(** The order of [str]; that of the bytes is that of the code points. *)
Fixpoint str_le (a b : rstr) : bool :=
  match a, b with
  | [], _ => true
  | _ :: _, [] => false
  | x :: a', y :: b' => (x <? y) || ((x =? y) && str_le a' b')
  end.

(** [chars().count()]. *)
Definition char_count (s : rstr) : Z := Z.of_nat (length s).

Fixpoint strip_prefix (s p : rstr) : option rstr :=
  match p, s with
  | [], _ => Some s
  | a :: p', b :: s' => if a =? b then strip_prefix s' p' else None
  | _ :: _, [] => None
  end.

Definition strip_suffix (s p : rstr) : option rstr :=
  match strip_prefix (rev s) (rev p) with
  | Some r => Some (rev r)
  | None => None
  end.

Definition starts_with (s p : rstr) : bool := bool_decide (is_Some (strip_prefix s p)).
Definition ends_with (s p : rstr) : bool := bool_decide (is_Some (strip_suffix s p)).

(** [str::find] of a string: byte offset of the first occurrence. *)
Fixpoint find_from (s p : rstr) (off : Z) : option Z :=
  if starts_with s p then Some off
  else match s with
       | [] => None
       | c :: s' => find_from s' p (off + char_len c)
       end.
Definition find (s p : rstr) : option Z := find_from s p 0.
Definition contains (s p : rstr) : bool := bool_decide (is_Some (find s p)).
Definition contains_char (s : rstr) (c : Z) : bool := existsb (Z.eqb c) s.

(** ** Slicing at byte offsets *)

(** [s.split_at(n)]: panics unless [n] is a character boundary of [s]. *)
Fixpoint split_at (s : rstr) (n : Z) : run (rstr * rstr) :=
  if n =? 0 then Ret ([], s)
  else match s with
       | [] => Panic
       | c :: s' =>
           if n <? char_len c then Panic
           else let! (a, b) := split_at s' (n - char_len c) in Ret (c :: a, b)
       end.

(** [&s[..n]] and [&s[n..]]. *)
Definition slice_to (s : rstr) (n : Z) : run rstr :=
  let! (a, _) := split_at s n in Ret a.
Definition slice_from (s : rstr) (n : Z) : run rstr :=
  let! (_, b) := split_at s n in Ret b.

(** ** Character classes *)

(** [char::is_whitespace] (the Unicode [White_Space] property). *)
Definition is_whitespace (c : Z) : bool :=
  ((9 <=? c) && (c <=? 13)) || (c =? 32) || (c =? 133) || (c =? 160) || (c =? 5760)
  || ((8192 <=? c) && (c <=? 8202)) || (c =? 8232) || (c =? 8233) || (c =? 8239)
  || (c =? 8287) || (c =? 12288).

Definition is_ascii (c : Z) : bool := (0 <=? c) && (c <? 128).
Definition is_ascii_digit (c : Z) : bool := (48 <=? c) && (c <=? 57).
Definition is_ascii_upper (c : Z) : bool := (65 <=? c) && (c <=? 90).
Definition is_ascii_lower (c : Z) : bool := (97 <=? c) && (c <=? 122).
Definition ascii_lower (c : Z) : Z := if is_ascii_upper c then c + 32 else c.
Definition ascii_upper (c : Z) : Z := if is_ascii_lower c then c - 32 else c.

(** [str::to_ascii_lowercase], [str::eq_ignore_ascii_case]. *)
Definition to_ascii_lowercase (s : rstr) : rstr := map ascii_lower s.
Definition eq_ignore_ascii_case (a b : rstr) : bool :=
  str_eqb (to_ascii_lowercase a) (to_ascii_lowercase b).

(** ** Trimming and splitting *)

Fixpoint drop_while (f : Z -> bool) (s : rstr) : rstr :=
  match s with
  | c :: s' => if f c then drop_while f s' else s
  | [] => []
  end.

Definition trim_start_matches (f : Z -> bool) (s : rstr) : rstr := drop_while f s.
Definition trim_end_matches (f : Z -> bool) (s : rstr) : rstr := rev (drop_while f (rev s)).
Definition trim_matches (f : Z -> bool) (s : rstr) : rstr :=
  trim_end_matches f (trim_start_matches f s).
Definition trim_start : rstr -> rstr := trim_start_matches is_whitespace.
Definition trim : rstr -> rstr := trim_matches is_whitespace.
Definition trim_end : rstr -> rstr := trim_end_matches is_whitespace.

(** Pieces between separators: [split(|c| f(c))]. *)
Fixpoint split_by (f : Z -> bool) (s : rstr) : list rstr :=
  match s with
  | [] => [[]]
  | c :: s' =>
      if f c then [] :: split_by f s'
      else match split_by f s' with
           | w :: ws => (c :: w) :: ws
           | [] => [[c]]
           end
  end.
Definition split_char (s : rstr) (c : Z) : list rstr := split_by (Z.eqb c) s.

(** [split_whitespace]. *)
Definition split_whitespace (s : rstr) : list rstr :=
  List.filter (fun w => negb (is_empty w)) (split_by is_whitespace s).

(** [join(" ")] and the like. *)
Fixpoint join (sep : rstr) (ws : list rstr) : rstr :=
  match ws with
  | [] => []
  | [w] => w
  | w :: ws' => w ++ sep ++ join sep ws'
  end.

(** [str::replace] of a character. *)
Definition replace_char (s : rstr) (c : Z) (r : rstr) : rstr :=
  concat (map (fun x => if x =? c then r else [x]) s).

(** ** Integers in decimal *)

Fixpoint dec_aux (fuel : nat) (n : Z) (acc : rstr) : rstr :=
  match fuel with
  | O => acc
  | S f => if n <? 10 then (48 + n) :: acc
           else dec_aux f (n / 10) ((48 + n mod 10) :: acc)
  end.

(** [format!("{n}")] of a non-negative integer; one decimal digit consumes more
    than three bits, so [log2 n + 1] rounds are enough. *)
Definition dec (n : Z) : rstr := dec_aux (S (Z.to_nat (Z.log2 n))) n [].

(** [to_string] of a signed integer. *)
Definition dec_signed (n : Z) : rstr := if n <? 0 then 45 :: dec (- n) else dec n.

(** [{:0width$}]. *)
Definition zero_pad (width : nat) (s : rstr) : rstr := repeat 48 (width - length s)%nat ++ s.

Definition digits_val (s : rstr) : Z := foldl (fun acc d => acc * 10 + (d - 48)) 0 s.
Definition all_digits (s : rstr) : bool := forallb is_ascii_digit s.

(** [str::parse] into a signed integer type with the range predicate [ok]. *)
Definition parse_int (ok : Z -> bool) (s : rstr) : option Z :=
  let '(sign, ds) := match s with
                     | 43 :: ds => (1, ds)
                     | 45 :: ds => (-1, ds)
                     | _ => (1, s)
                     end in
  if is_empty ds then None
  else if all_digits ds then
    let v := sign * digits_val ds in if ok v then Some v else None
  else None.
Definition parse_i64 : rstr -> option Z := parse_int in_i64.
Definition parse_i32 : rstr -> option Z := parse_int in_i32.

(** ** Unicode case mapping

    [str::to_lowercase] and [str::to_uppercase] follow the Unicode tables; the
    mapping is a parameter of the development.  The laws state what the standard
    library documents: both map character by character, except that the capital
    sigma (U+03A3) is lowercased in context; ASCII letters map within ASCII; the
    odd code points of the Vietnamese block U+1EA0..U+1EF9 are lowercase letters; white
    space maps to white space and nothing else does; a
    lowercased string consists of characters that lowercase to themselves. *)
Class UnicodeCase := {
  to_lowercase : rstr -> rstr;
  to_uppercase : rstr -> rstr;
}.

Definition sigma : Z := 931.

Class UnicodeCaseLaws `{UnicodeCase} : Prop := {
  lower_hom : forall s, Forall (fun c => c <> sigma) s ->
    to_lowercase s = concat (map (fun c => to_lowercase [c]) s);
  lower_ascii : forall c, is_ascii c = true -> to_lowercase [c] = [ascii_lower c];
  lower_fixed : forall s, Forall (fun c => c <> sigma /\ to_lowercase [c] = [c]) (to_lowercase s);
  lower_space : forall c, Forall (fun c' => is_whitespace c' = is_whitespace c) (to_lowercase [c]);
  lower_vi : forall c, 7840 <= c <= 7929 -> Z.odd c = true -> to_lowercase [c] = [c];
  upper_hom : forall s, to_uppercase s = concat (map (fun c => to_uppercase [c]) s);
  upper_ascii : forall c, is_ascii c = true -> to_uppercase [c] = [ascii_upper c];
}.

(** A concrete table: ASCII, the Vietnamese letters, the Kelvin sign and the
    (isolated) capital sigma. *)
Definition vi_lower (c : Z) : Z :=
  if is_ascii_upper c then c + 32
  else if (192 <=? c) && (c <=? 222) && negb (c =? 215) then c + 32
  else if existsb (Z.eqb c) [258; 272; 296; 360; 416; 431] then c + 1
  else if (7840 <=? c) && (c <=? 7929) && Z.even c then c + 1
  else if c =? 8490 then 107
  else if c =? 931 then 963
  else c.
Definition vi_upper (c : Z) : Z :=
  if is_ascii_lower c then c - 32
  else if (224 <=? c) && (c <=? 254) && negb (c =? 247) then c - 32
  else if existsb (Z.eqb c) [259; 273; 297; 361; 417; 432] then c - 1
  else if (7840 <=? c) && (c <=? 7929) && Z.odd c then c - 1
  else c.

Definition vi_case : UnicodeCase := {|
  to_lowercase := map vi_lower;
  to_uppercase := map vi_upper;
|}.
