(* ===== verification/RustStrFacts.v ===== *)
(** * Facts about Rust strings

    The lemmas on [RustStr] that the components share: prefixes and suffixes,
    byte offsets and slicing, trimming, decimal printing and parsing, and the
    laws of the concrete case table. *)

From S2P Require Import Prelude RustStr.

Lemma str_eqb_eq a b : str_eqb a b = true <-> a = b.
Proof. unfold str_eqb. apply bool_decide_eq_true. Qed.

Lemma str_eqb_refl a : str_eqb a a = true.
Proof. by apply str_eqb_eq. Qed.

Lemma is_empty_nil s : is_empty s = true <-> s = [].
Proof. destruct s; naive_solver. Qed.

(** ** Prefixes and suffixes *)

Lemma strip_prefix_spec s p r : strip_prefix s p = Some r <-> s = p ++ r.
Proof.
  revert s. induction p as [|a p IH]; intros s; simpl.
  - destruct s; naive_solver.
  - destruct s as [|b s]; simpl; [split; discriminate|].
    destruct (Z.eqb_spec a b) as [->|Hne].
    + rewrite IH. split; [by intros -> | by intros [=]].
    + split; [discriminate | intros [=]; congruence].
Qed.

Lemma strip_suffix_spec s p r : strip_suffix s p = Some r <-> s = r ++ p.
Proof.
  unfold strip_suffix. split.
  - destruct (strip_prefix (rev s) (rev p)) as [q|] eqn:E; [|discriminate].
    intros [= <-]. apply strip_prefix_spec in E.
    by rewrite <- (rev_involutive s), E, rev_app_distr, rev_involutive.
  - intros ->. rewrite rev_app_distr.
    by rewrite (proj2 (strip_prefix_spec _ (rev p) (rev r)) eq_refl), rev_involutive.
Qed.

Lemma starts_with_spec s p : starts_with s p = true <-> exists r, s = p ++ r.
Proof.
  unfold starts_with. rewrite bool_decide_eq_true. unfold is_Some.
  setoid_rewrite strip_prefix_spec. done.
Qed.

Lemma ends_with_spec s p : ends_with s p = true <-> exists r, s = r ++ p.
Proof.
  unfold ends_with. rewrite bool_decide_eq_true. unfold is_Some.
  setoid_rewrite strip_suffix_spec. done.
Qed.

(** ** Byte lengths and slices *)

Lemma char_len_pos c : 1 <= char_len c.
Proof. unfold char_len. repeat case_match; lia. Qed.

Lemma blen_nonneg s : 0 <= blen s.
Proof. induction s as [|c s IH]; simpl; [lia|]. pose proof (char_len_pos c). lia. Qed.

Lemma blen_app a b : blen (a ++ b) = blen a + blen b.
Proof. induction a as [|c a IH]; simpl; [lia|]. rewrite IH. lia. Qed.

Lemma blen_ge_length s : Z.of_nat (length s) <= blen s.
Proof. induction s as [|c s IH]; simpl length; [done|]. pose proof (char_len_pos c). simpl. lia. Qed.

Lemma blen_digits s : all_digits s = true -> blen s = Z.of_nat (length s).
Proof.
  unfold all_digits. induction s as [|c s IH]; [done|].
  simpl forallb. intros H. b2p. simpl length. simpl blen.
  rewrite IH by done. unfold is_ascii_digit in *. b2p.
  unfold char_len. rewrite (proj2 (Z.ltb_lt c 128)) by lia. lia.
Qed.

Lemma split_at_app a b : split_at (a ++ b) (blen a) = Ret (a, b).
Proof.
  induction a as [|c a IH]; simpl.
  - destruct b; done.
  - pose proof (char_len_pos c). pose proof (blen_nonneg a).
    destruct (Z.eqb_spec (char_len c + blen a) 0); [lia|].
    destruct (Z.ltb_spec (char_len c + blen a) (char_len c)); [lia|].
    replace (char_len c + blen a - char_len c) with (blen a) by lia.
    by rewrite IH.
Qed.

Lemma slice_to_app a b : slice_to (a ++ b) (blen a) = Ret a.
Proof. unfold slice_to. by rewrite split_at_app. Qed.

Lemma slice_from_app a b : slice_from (a ++ b) (blen a) = Ret b.
Proof. unfold slice_from. by rewrite split_at_app. Qed.

Lemma find_from_spec s p off r :
  find_from s p off = Some r -> exists a b, s = a ++ p ++ b /\ r = off + blen a.
Proof.
  revert off. induction s as [|c s IH]; intros off; simpl.
  - destruct (starts_with [] p) eqn:E; [|done].
    intros [= <-]. apply starts_with_spec in E as [q E].
    exists [], q. split; [done | simpl; lia].
  - destruct (starts_with (c :: s) p) eqn:E.
    + intros [= <-]. apply starts_with_spec in E as [q E].
      exists [], q. split; [done | simpl; lia].
    + intros (a & b & -> & ->)%IH. exists (c :: a), b. split; [done | simpl; lia].
Qed.

Lemma find_spec s p r :
  find s p = Some r -> exists a b, s = a ++ p ++ b /\ r = blen a.
Proof. intros (a & b & ? & ?)%find_from_spec. exists a, b. split; [done | lia]. Qed.

Lemma find_head p t : find (p ++ t) p = Some 0.
Proof.
  assert (E : starts_with (p ++ t) p = true) by (apply starts_with_spec; by exists t).
  unfold find. destruct (p ++ t); cbn [find_from]; by rewrite E.
Qed.

(** Skipping characters of a class the pattern does not start with. *)
Lemma find_from_skip (P : Z -> Prop) a t c p off :
  Forall P a -> ~ P c -> find_from (a ++ t) (c :: p) off = find_from t (c :: p) (off + blen a).
Proof.
  intros Ha Hc. revert off. induction Ha as [|x a Hx Ha IH]; intros off.
  - simpl. f_equal. lia.
  - rewrite <- app_comm_cons. cbn [find_from].
    destruct (starts_with (x :: a ++ t) (c :: p)) eqn:E.
    { apply starts_with_spec in E as [r [= -> _]]. done. }
    rewrite IH. cbn [blen foldr]. f_equal. fold (blen a). lia.
Qed.

(** A suffix without characters of [P] after a string over [P]. *)
Lemma ends_with_skip (P : Z -> Prop) a t m :
  Forall P a -> Forall (fun c => ~ P c) m -> ends_with (a ++ t) m = ends_with t m.
Proof.
  intros Ha Hm. apply eq_bool_prop_intro. rewrite !Is_true_true, !ends_with_spec.
  split; [|intros [r ->]; exists (a ++ r); by rewrite app_assoc].
  intros [r E]. apply app_eq_inv in E as [(k & -> & ->) | (k & -> & ->)].
  - rewrite Forall_app in Ha, Hm. destruct k as [|c k]; [by exists []|].
    destruct Ha as [_ Ha], Hm as [Hm _]. inversion Ha; inversion Hm; done.
  - by exists k.
Qed.

(** A pattern with a character outside [P] does not occur in a string over [P]. *)
Lemma find_none (P : Z -> Prop) s p c :
  Forall P s -> c ∈ p -> ~ P c -> find s p = None.
Proof.
  intros Hs Hc HP. destruct (find s p) as [r|] eqn:E; [|done].
  apply find_spec in E as (a & b & -> & _).
  rewrite !Forall_app, !Forall_forall in Hs. destruct Hs as (_ & Hs & _).
  destruct HP. by apply Hs.
Qed.

Lemma ends_with_none (P : Z -> Prop) s p c :
  Forall P s -> c ∈ p -> ~ P c -> ends_with s p = false.
Proof.
  intros Hs Hc HP. destruct (ends_with s p) eqn:E; [|done].
  apply ends_with_spec in E as [r ->].
  rewrite Forall_app, !Forall_forall in Hs. destruct Hs as [_ Hs].
  destruct HP. by apply Hs.
Qed.

(** ** Trimming *)

Lemma drop_while_suffix f s : exists a, s = a ++ drop_while f s.
Proof.
  induction s as [|c s [a IH]]; simpl; [by exists []|].
  destruct (f c); [|by exists []]. exists (c :: a). simpl. by rewrite <- IH.
Qed.

Lemma trim_infix s : exists a b, s = a ++ trim s ++ b.
Proof.
  unfold trim, trim_matches, trim_end_matches, trim_start_matches.
  destruct (drop_while_suffix is_whitespace s) as [a Ha].
  destruct (drop_while_suffix is_whitespace (rev (drop_while is_whitespace s))) as [b Hb].
  exists a, (rev b). rewrite <- rev_app_distr, <- Hb, rev_involutive. done.
Qed.

Lemma trim_Forall (P : Z -> Prop) s : Forall P s -> Forall P (trim s).
Proof.
  destruct (trim_infix s) as (a & b & E). rewrite E at 1. rewrite !Forall_app. tauto.
Qed.

Lemma trim_length s : (length (trim s) <= length s)%nat.
Proof.
  destruct (trim_infix s) as (a & b & E). rewrite E at 2. rewrite !length_app. lia.
Qed.

Lemma drop_while_id f c s : f c = false -> drop_while f (c :: s) = c :: s.
Proof. simpl. by intros ->. Qed.

Lemma trim_id c s d :
  is_whitespace c = false -> is_whitespace d = false -> trim (c :: s ++ [d]) = c :: s ++ [d].
Proof.
  intros Hc Hd. unfold trim, trim_matches, trim_end_matches, trim_start_matches.
  rewrite drop_while_id by done.
  change (c :: s ++ [d]) with ((c :: s) ++ [d]). rewrite rev_app_distr.
  change (rev [d] ++ rev (c :: s)) with (d :: rev (c :: s)).
  rewrite drop_while_id by done.
  change (rev (d :: rev (c :: s))) with (rev (rev (c :: s)) ++ [d]).
  by rewrite rev_involutive.
Qed.

Lemma trim_id_one c : is_whitespace c = false -> trim [c] = [c].
Proof. unfold trim, trim_matches, trim_end_matches, trim_start_matches. intros H. simpl. rewrite H. simpl. by rewrite H. Qed.

(** Nothing to trim at either end. *)
Lemma trim_no_ws s : Forall (fun c => is_whitespace c = false) s -> trim s = s.
Proof.
  intros H. destruct s as [|c s]; [done|].
  destruct (decide (s = [])) as [->|Hne].
  - apply trim_id_one. by inversion H.
  - destruct (exists_last Hne) as (s' & d & ->).
    apply trim_id; [by inversion H|].
    rewrite Forall_cons, Forall_app, Forall_singleton in H. tauto.
Qed.

(** Blanks after a word are trimmed. *)
Lemma trim_snoc_ws s c : is_whitespace c = true -> s <> [] ->
  Forall (fun c => is_whitespace c = false) s -> trim (s ++ [c]) = s.
Proof.
  intros Hc Hne Hs. unfold trim, trim_matches, trim_end_matches, trim_start_matches.
  destruct s as [|a s]; [done|]. inversion Hs; subst.
  rewrite <- app_comm_cons, drop_while_id, app_comm_cons by done.
  rewrite rev_app_distr. change (rev [c] ++ rev (a :: s)) with (c :: rev (a :: s)).
  cbn [drop_while]. rewrite Hc.
  destruct (rev (a :: s)) as [|z zs] eqn:E.
  - apply (f_equal (@rev Z)) in E. rewrite rev_involutive in E. discriminate.
  - rewrite drop_while_id.
    + rewrite <- E. apply rev_involutive.
    + rewrite Forall_forall in Hs. apply Hs.
      apply list_elem_of_In. apply in_rev. rewrite E. by left.
Qed.

(** ** Decimal digits *)

Lemma digits_val_from acc s :
  foldl (fun acc d => acc * 10 + (d - 48)) acc s = acc * 10 ^ Z.of_nat (length s) + digits_val s.
Proof.
  unfold digits_val. revert acc. induction s as [|d s IH]; intros acc.
  - simpl. lia.
  - cbn [foldl length]. rewrite (IH (acc * 10 + (d - 48))), (IH (0 * 10 + (d - 48))).
    rewrite Nat2Z.inj_succ, Z.pow_succ_r by lia. lia.
Qed.

Lemma digits_val_app a b :
  digits_val (a ++ b) = digits_val a * 10 ^ Z.of_nat (length b) + digits_val b.
Proof. unfold digits_val at 1. rewrite foldl_app. apply digits_val_from. Qed.

Lemma digits_val_snoc a d : digits_val (a ++ [d]) = digits_val a * 10 + (d - 48).
Proof. unfold digits_val. by rewrite foldl_app. Qed.

Lemma digits_val_bound s :
  all_digits s = true -> 0 <= digits_val s < 10 ^ Z.of_nat (length s).
Proof.
  unfold all_digits. induction s as [|d s IH] using rev_ind; [intros _; unfold digits_val; simpl; lia|].
  rewrite forallb_app, digits_val_snoc, length_app. simpl forallb. intros H. b2p.
  rewrite Nat2Z.inj_add, Z.pow_add_r by lia.
  specialize (IH ltac:(done)). unfold is_ascii_digit in *. b2p.
  change (Z.of_nat (length [d])) with 1. rewrite Z.pow_1_r. lia.
Qed.

Lemma dec_aux_spec fuel n acc : 0 <= n < 2 ^ Z.of_nat fuel ->
  exists ds, dec_aux fuel n acc = ds ++ acc /\ all_digits ds = true
    /\ digits_val ds = n /\ (fuel <> O -> ds <> [])
    /\ (forall k, n < 10 ^ Z.of_nat (S k) -> (length ds <= S k)%nat).
Proof.
  revert n acc. induction fuel as [|f IH]; intros n acc Hn.
  - exists []. unfold digits_val. simpl in *. repeat split; try done; lia.
  - cbn [dec_aux]. destruct (Z.ltb_spec n 10) as [Hlt|Hge].
    + exists [48 + n]. repeat split; simpl; try done; try lia.
      * unfold is_ascii_digit. rewrite !(proj2 (Z.leb_le _ _)) by lia. done.
      * unfold digits_val. simpl. lia.
    + rewrite Nat2Z.inj_succ, Z.pow_succ_r in Hn by lia.
      assert (Hd : 0 <= n / 10 < 2 ^ Z.of_nat f).
      { split; [apply Z.div_pos; lia | apply Z.div_lt_upper_bound; lia]. }
      pose proof (Z.mod_pos_bound n 10 ltac:(lia)) as Hm.
      destruct (IH (n / 10) ((48 + n mod 10) :: acc) Hd) as (ds & -> & Had & Hv & _ & Hl).
      exists (ds ++ [48 + n mod 10]). repeat split.
      * by rewrite <- app_assoc.
      * unfold all_digits in *. rewrite forallb_app, Had. simpl.
        unfold is_ascii_digit. rewrite !(proj2 (Z.leb_le _ _)) by lia. done.
      * rewrite digits_val_snoc, Hv. pose proof (Z.div_mod n 10). lia.
      * intros _ E. by destruct ds.
      * intros k Hk. rewrite length_app. simpl.
        destruct k as [|k]; [simpl in Hk; lia|].
        rewrite Nat2Z.inj_succ, Z.pow_succ_r in Hk by lia.
        pose proof (Hl k ltac:(apply Z.div_lt_upper_bound; lia)). lia.
Qed.

Lemma dec_fuel n : 0 <= n -> n < 2 ^ Z.of_nat (S (Z.to_nat (Z.log2 n))).
Proof.
  intros H. rewrite Nat2Z.inj_succ, Z2Nat.id by apply Z.log2_nonneg.
  destruct (Z.eq_dec n 0) as [->|]; [done|]. apply Z.log2_spec. lia.
Qed.

Lemma dec_spec n : 0 <= n ->
  all_digits (dec n) = true /\ digits_val (dec n) = n /\ dec n <> [].
Proof.
  intros H. unfold dec. edestruct dec_aux_spec as (ds & E & ? & ? & ? & _);
    [split; [done | by apply dec_fuel] |].
  rewrite E, app_nil_r. auto.
Qed.

Lemma dec_length n k : 0 <= n < 10 ^ Z.of_nat (S k) -> (length (dec n) <= S k)%nat.
Proof.
  intros H. unfold dec. edestruct dec_aux_spec as (ds & E & _ & _ & _ & Hl);
    [split; [exact (proj1 H) | apply dec_fuel, H] |].
  rewrite E, app_nil_r. apply Hl, H.
Qed.

Lemma digit_not_sign s : all_digits s = true -> s <> [] ->
  exists d s', s = d :: s' /\ 48 <= d <= 57.
Proof.
  destruct s as [|d s]; [done|]. unfold all_digits, is_ascii_digit. simpl.
  intros H _. b2p. eauto.
Qed.

Lemma parse_int_digits ok s : all_digits s = true -> s <> [] -> ok (digits_val s) = true ->
  parse_int ok s = Some (digits_val s).
Proof.
  intros Hd Hne Hok. destruct (digit_not_sign s Hd Hne) as (d & s' & -> & Hb).
  unfold parse_int.
  assert (E : match d :: s' with
              | 43 :: ds => (1, ds) | 45 :: ds => (-1, ds) | _ => (1, d :: s')
              end = (1, d :: s')) by (repeat case_match; try done; lia).
  rewrite E. cbn [is_empty]. rewrite Hd, Z.mul_1_l, Hok. done.
Qed.

(** ** Case mapping *)

Lemma lower_map `{UnicodeCaseLaws} s :
  Forall (fun c => is_ascii c = true) s -> to_lowercase s = map ascii_lower s.
Proof.
  intros Hs. rewrite lower_hom.
  - induction Hs as [|c s Hc Hs IH]; simpl; [done|].
    rewrite lower_ascii by done. simpl. by rewrite IH.
  - eapply Forall_impl; [exact Hs|]. unfold is_ascii, sigma. intros c Hc. simpl in Hc. b2p. lia.
Qed.

Lemma upper_map `{UnicodeCaseLaws} s :
  Forall (fun c => is_ascii c = true) s -> to_uppercase s = map ascii_upper s.
Proof.
  intros Hs. rewrite upper_hom.
  induction Hs as [|c s Hc Hs IH]; simpl; [done|].
  rewrite upper_ascii by done. simpl. by rewrite IH.
Qed.

(** Closed facts about finitely many characters. *)
Ltac char_cases :=
  repeat match goal with
  | |- context [if ?b then _ else _] => destruct b eqn:?
  | H : context [if ?b then _ else _] |- _ => destruct b eqn:?
  end.

Lemma vi_lower_fixed c : vi_lower c <> sigma /\ vi_lower (vi_lower c) = vi_lower c.
Proof.
  assert (Hfix : forall x, is_ascii_upper x = false ->
    (192 <=? x) && (x <=? 222) && negb (x =? 215) = false ->
    existsb (Z.eqb x) [258; 272; 296; 360; 416; 431] = false ->
    (7840 <=? x) && (x <=? 7929) && Z.even x = false ->
    x <> 8490 -> x <> 931 -> vi_lower x = x).
  { intros x H1 H2 H3 H4 H5 H6. unfold vi_lower. rewrite H1, H2, H3, H4.
    rewrite (proj2 (Z.eqb_neq x 8490)), (proj2 (Z.eqb_neq x 931)) by done. done. }
  enough (H : vi_lower c <> sigma /\ (vi_lower (vi_lower c) = vi_lower c)) by exact H.
  unfold vi_lower at 1 3 4. unfold sigma.
  destruct (is_ascii_upper c) eqn:E1.
  { unfold is_ascii_upper in E1. b2p. split; [lia|]. apply Hfix; try lia.
    all: unfold is_ascii_upper; cbn [existsb]; lia. }
  destruct ((192 <=? c) && (c <=? 222) && negb (c =? 215)) eqn:E2.
  { b2p. split; [lia|]. apply Hfix; try lia. all: unfold is_ascii_upper; cbn [existsb]; lia. }
  destruct (existsb (Z.eqb c) [258; 272; 296; 360; 416; 431]) eqn:E3.
  { cbn [existsb] in E3. split; [lia|].
    assert (c = 258 \/ c = 272 \/ c = 296 \/ c = 360 \/ c = 416 \/ c = 431) as Hc by lia.
    destruct Hc as [-> | [-> | [-> | [-> | [-> | ->]]]]]; done. }
  destruct ((7840 <=? c) && (c <=? 7929) && Z.even c) eqn:E4.
  { b2p. split; [lia|]. apply Hfix; try lia.
    - unfold is_ascii_upper. lia.
    - cbn [existsb]. lia.
    - rewrite Z.add_1_r, Z.even_succ, <- Z.negb_even. rewrite H0. by rewrite andb_false_r. }
  destruct (Z.eqb_spec c 8490) as [->|]; [done|].
  destruct (Z.eqb_spec c 931) as [->|]; [done|].
  split; [done|]. by apply Hfix.
Qed.

Lemma vi_case_laws : @UnicodeCaseLaws vi_case.
Proof.
  constructor; simpl; unfold is_ascii.
  - intros s _. induction s as [|c s IH]; simpl; [done|]. by rewrite IH.
  - intros c H. b2p. f_equal. unfold vi_lower, ascii_lower, is_ascii_upper. cbn [existsb].
    repeat case_match; lia.
  - intros s. apply Forall_forall. intros c Hc. apply list_elem_of_fmap in Hc as (c' & -> & _).
    destruct (vi_lower_fixed c') as [? E]. by rewrite E.
  - intros c. constructor; [|constructor]. unfold vi_lower, is_ascii_upper, is_whitespace. cbn [existsb].
    repeat case_match; lia.
  - intros c Hc Ho. f_equal. unfold vi_lower, is_ascii_upper. cbn [existsb].
    rewrite <- Z.negb_even, negb_true_iff in Ho. rewrite Ho, andb_false_r.
    repeat case_match; lia.
  - intros s. induction s as [|c s IH]; simpl; [done|]. by rewrite IH.
  - intros c H. b2p. f_equal. unfold vi_upper, ascii_upper, is_ascii_lower. cbn [existsb].
    repeat case_match; lia.
Qed.

(** ** Words *)

(** The number of words of [s], where [b] says that a word is already open. *)
Fixpoint words_from (b : bool) (s : rstr) : nat :=
  match s with
  | [] => 0
  | c :: s' => if is_whitespace c then words_from false s'
               else ((if b then 0 else 1) + words_from true s')%nat
  end.

Lemma split_whitespace_words s : length (split_whitespace s) = words_from false s.
Proof.
  unfold split_whitespace.
  enough (H : exists w ws, split_by is_whitespace s = w :: ws
    /\ length (List.filter (fun w => negb (is_empty w)) (w :: ws)) = words_from false s
    /\ length (List.filter (fun w => negb (is_empty w)) ws) = words_from true s).
  { destruct H as (w & ws & -> & H & _). exact H. }
  induction s as [|c s (w & ws & E & H1 & H2)]; [by exists [], []|].
  cbn [split_by words_from]. rewrite E. destruct (is_whitespace c).
  - exists [], (w :: ws). done.
  - exists (c :: w), ws. split; [done|]. cbn [List.filter is_empty negb length]. split; lia.
Qed.

Lemma words_from_open s : (words_from true s <= words_from false s <= S (words_from true s))%nat.
Proof. destruct s as [|c s]; cbn; [lia|]. destruct (is_whitespace c); lia. Qed.

(** Replacing characters by strings of the same kind creates no words. *)
Lemma words_concat_map (g : Z -> rstr) s :
  (forall c, Forall (fun x => is_whitespace x = is_whitespace c) (g c)) ->
  (length (split_whitespace (concat (map g s))) <= length (split_whitespace s))%nat.
Proof.
  intros Hg. rewrite !split_whitespace_words. generalize false as b.
  assert (Hopen : forall t u b, Forall (fun x => is_whitespace x = false) t ->
    words_from b (t ++ u) = (match t with [] => words_from b u
                             | _ => (if b then 0 else 1) + words_from true u end)%nat).
  { induction t as [|x t IH]; intros u b Ht; [done|]. inversion Ht as [|?? Hx Ht']; subst. cbn.
    rewrite Hx, IH by done. destruct t; destruct b; cbn; lia. }
  assert (Hspace : forall t u b, Forall (fun x => is_whitespace x = true) t ->
    words_from b (t ++ u) = match t with [] => words_from b u | _ => words_from false u end).
  { induction t as [|x t IH]; intros u b Ht; [done|]. inversion Ht as [|?? Hx Ht']; subst. cbn.
    rewrite Hx, IH by done. by destruct t. }
  induction s as [|c s IH]; intros b; cbn [map concat words_from]; [lia|].
  specialize (Hg c). pose proof (words_from_open (concat (map g s))).
  pose proof (IH true). pose proof (IH false).
  destruct (is_whitespace c).
  - rewrite Hspace by done. destruct (g c), b; lia.
  - rewrite Hopen by done. destruct (g c), b; lia.
Qed.

Lemma words_filter (p : Z -> bool) s :
  (length (split_whitespace (List.filter p s)) <= length (split_whitespace s))%nat.
Proof.
  replace (List.filter p s) with (concat (map (fun c => if p c then [c] else []) s)).
  - apply words_concat_map. intros c. destruct (p c); repeat constructor.
  - induction s as [|c s IH]; [done|]. cbn. destruct (p c); cbn; by rewrite IH.
Qed.
