(* ===== verification/Paths.v ===== *)
(** * Paths and files ([std::path], [std::fs])

    Unix paths as text, their components as the standard library reads them, and [join]. *)

From S2P Require Import Prelude RustStr RustStrFacts.

Module Paths.

Inductive Component := RootDir | CurDir | ParentDir | Normal (name : rstr).
#[export] Instance Component_eq_dec : EqDecision Component.
Proof. solve_decision. Defined.

Definition is_slash (c : Z) : bool := Z.eqb (c! "/") c.
Definition is_absolute (p : rstr) : bool := starts_with p (s! "/").

(** One segment between separators: empty ones and dots inside the path vanish. *)
Definition component_of (seg : rstr) : option Component :=
  if is_empty seg || str_eqb seg (s! ".") then None
  else if str_eqb seg (s! "..") then Some ParentDir
  else Some (Normal seg).

Definition leading (p : rstr) (segs : list rstr) : list Component :=
  if is_absolute p then [RootDir]
  else match segs with seg :: _ => if str_eqb seg (s! ".") then [CurDir] else [] | [] => [] end.

Definition components (p : rstr) : list Component :=
  let segs := split_by is_slash p in
  leading p segs ++ omap component_of segs.

(** [Path::join]. *)
Definition path_join (base p : rstr) : rstr :=
  if is_absolute p then p
  else if is_empty base || ends_with base (s! "/") then base ++ p
  else base ++ s! "/" ++ p.

(** [Path::file_name], [Path::parent] of a path of plain names. *)
Definition file_name (p : rstr) : option rstr :=
  match rev (components p) with Normal n :: _ => Some n | _ => None end.

(** ** Plain names: one segment that is neither empty nor a dot name *)

Definition plain_name (n : rstr) : Prop :=
  n <> [] /\ n <> s! "." /\ n <> s! ".." /\ Forall (fun c => is_slash c = false) n.

Lemma split_by_plain f s : Forall (fun c => f c = false) s -> split_by f s = [s].
Proof. induction 1 as [|c s Hc _ IH]; [done|]. simpl. by rewrite Hc, IH. Qed.

Lemma split_by_app_sep f s c t : Forall (fun c => f c = false) s -> f c = true ->
  split_by f (s ++ c :: t) = s :: split_by f t.
Proof.
  intros Hs Hc. induction Hs as [|d s Hd _ IH]; simpl; [by rewrite Hc|].
  by rewrite Hd, IH.
Qed.

Lemma plain_not_absolute n : Forall (fun c => is_slash c = false) n -> is_absolute n = false.
Proof.
  destruct n as [|c n]; [reflexivity|]. intros [H _]%Forall_cons. unfold is_absolute, starts_with.
  apply bool_decide_eq_false. intros [x Hx]. change (s! "/") with [c! "/"] in Hx.
  cbn [strip_prefix] in Hx. unfold is_slash in H. by rewrite H in Hx.
Qed.

Lemma components_plain n : plain_name n -> components n = [Normal n].
Proof.
  intros (H0 & H1 & H2 & Hs). unfold components, leading.
  rewrite (plain_not_absolute n Hs), (split_by_plain is_slash n Hs).
  unfold str_eqb. rewrite (bool_decide_eq_false_2 _ H1). simpl.
  unfold component_of, str_eqb.
  rewrite (bool_decide_eq_false_2 _ H1), (bool_decide_eq_false_2 _ H2).
  by destruct n.
Qed.

(** ** Joining a plain name adds one component *)

Lemma split_by_app f s c t : f c = true -> split_by f (s ++ c :: t) = split_by f s ++ split_by f t.
Proof.
  intros Hc. induction s as [|d s IH]; simpl; [by rewrite Hc|]. rewrite IH. destruct (f d); [done|].
  destruct (split_by f s) as [|w ws] eqn:E; [|done]. by destruct s as [|e s']; simpl in E; repeat case_match.
Qed.

Lemma split_by_nonempty f s : split_by f s <> [].
Proof. destruct s as [|c s]; simpl; repeat case_match; done. Qed.

Lemma is_absolute_app b s : b <> [] -> is_absolute (b ++ s) = is_absolute b.
Proof.
  destruct b as [|c b]; [done|]. intros _. unfold is_absolute, starts_with. change (s! "/") with [c! "/"].
  cbn [app strip_prefix]. destruct (_ =? c); [|reflexivity]. 
  assert (H : forall t, is_Some (strip_prefix t [])) by (intros []; eauto).
  by rewrite !bool_decide_eq_true_2 by apply H.
Qed.

Lemma leading_app p q xs ys : xs <> [] -> is_absolute p = is_absolute q -> leading p (xs ++ ys) = leading q xs.
Proof. intros Hx Ha. unfold leading. rewrite Ha. by destruct xs. Qed.

Lemma component_of_plain n : plain_name n -> component_of n = Some (Normal n).
Proof.
  intros (H0 & H1 & H2 & _). unfold component_of, str_eqb.
  rewrite (bool_decide_eq_false_2 _ H1), (bool_decide_eq_false_2 _ H2). by destruct n.
Qed.

Lemma components_slash b p : b <> [] ->
  components (b ++ c! "/" :: p) = components b ++ omap component_of (split_by is_slash p).
Proof.
  intros Hb. unfold components. rewrite split_by_app by reflexivity.
  rewrite (leading_app _ b) by (apply split_by_nonempty || by apply is_absolute_app).
  by rewrite omap_app, app_assoc.
Qed.

Lemma components_root p : components (c! "/" :: p) = RootDir :: omap component_of (split_by is_slash p).
Proof.
  unfold components, leading. change (c! "/" :: p) with ([] ++ c! "/" :: p).
  rewrite (split_by_app is_slash [] (c! "/") p eq_refl).
  assert (Ha : is_absolute ([] ++ c! "/" :: p) = true) by exact (is_absolute_app [c! "/"] p ltac:(discriminate)).
  by rewrite Ha.
Qed.

(** Joining a relative path adds its components. *)
Lemma join_relative b p : b <> [] -> is_absolute p = false ->
  components (path_join b p) = components b ++ omap component_of (split_by is_slash p).
Proof.
  intros Hb Hp. unfold path_join. rewrite Hp. destruct (ends_with b (s! "/")) eqn:E.
  - rewrite orb_true_r. apply bool_decide_eq_true in E as [x ->%strip_suffix_spec].
    change (s! "/") with [c! "/"] in *. rewrite <- app_assoc. cbn [app].
    destruct x as [|c x]; [cbn [app]; by rewrite !components_root|].
    rewrite !(components_slash (c :: x)) by done. cbn. by rewrite app_nil_r.
  - destruct b as [|c b]; [done|]. cbn [is_empty orb]. by apply (components_slash (c :: b)).
Qed.

Lemma join_components b n : b <> [] -> plain_name n ->
  components (path_join b n) = components b ++ [Normal n].
Proof.
  intros Hb Hn. pose proof Hn as (_ & _ & _ & Hs). rewrite join_relative by (done || by apply plain_not_absolute).
  rewrite (split_by_plain is_slash n Hs). cbn. by rewrite (component_of_plain n).
Qed.

End Paths.
