(* ===== verification/Floats.v ===== *)
(** * Floating-point numbers

    [f64] and [f32] as bit patterns, on top of the Standard Library's specification of
    IEEE 754 arithmetic: conversions, [clamp], and the rounding of a product to [u32]. *)

From S2P Require Import Prelude.
From Stdlib Require Import Floats.SpecFloat.

Module Floats.

Definition f64_round (s : bool) (m : positive) (e : Z) : spec_float := binary_round 53 1024 s m e.
Definition f32_round (s : bool) (m : positive) (e : Z) : spec_float := binary_round 24 128 s m e.

Definition finite_or_zero (s : bool) (m e : Z) : spec_float :=
  match m with Z.pos p => S754_finite s p e | _ => S754_zero s end.
(** [f64::from_bits]. *)
Definition f64_of_bits (bits : Z) : spec_float :=
  let s := Z.testbit bits 63 in
  let exponent := Z.land (Z.shiftr bits 52) 2047 in
  let mantissa := Z.land bits (2 ^ 52 - 1) in
  if exponent =? 0 then finite_or_zero s mantissa (-1074)
  else if exponent =? 2047 then (if mantissa =? 0 then S754_infinity s else S754_nan)
  else finite_or_zero s (mantissa + 2 ^ 52) (exponent - 1075).

(** [z as f64]. *)
Definition f64_of_int (z : Z) : spec_float := binary_normalize 53 1024 z 0 false.

(** [as f32]. *)
Definition f32_of_f64 (x : spec_float) : spec_float :=
  match x with S754_finite s m e => f32_round s m e | _ => x end.

(** [f32::to_bits] of a canonical value. *)
Definition f32_bits (x : spec_float) : Z :=
  match x with
  | S754_zero s => if s then 2 ^ 31 else 0
  | S754_infinity s => (if s then 2 ^ 31 else 0) + 255 * 2 ^ 23
  | S754_nan => 511 * 2 ^ 22
  | S754_finite s m e =>
      (if s then 2 ^ 31 else 0)
      + (if Z.pos m <? 2 ^ 23 then Z.pos m else (e + 150) * 2 ^ 23 + (Z.pos m - 2 ^ 23))
  end.

(** [f32::clamp] with bounds that are not NaN. *)
Definition clamp (x lo hi : spec_float) : spec_float :=
  if SFltb x lo then lo else if SFltb hi x then hi else x.
Definition f32_zero : spec_float := S754_zero false.
Definition f32_one : spec_float := S754_finite false 8388608 (-23).

(** [x.round() as u32]: halves away from zero, saturating. *)
Definition round_half_away (m : positive) (e : Z) : Z :=
  if 0 <=? e then Z.shiftl (Z.pos m) e else Z.shiftr (Z.pos m + Z.shiftl 1 (- e - 1)) (- e).
Definition round_as_u32 (x : spec_float) : Z :=
  match x with
  | S754_finite false m e => Z.min u32_max (round_half_away m e)
  | S754_infinity false => u32_max
  | _ => 0
  end.
Definition f64_mul (x y : spec_float) : spec_float := SFmul 53 1024 x y.
Definition f64_div (x y : spec_float) : spec_float := SFdiv 53 1024 x y.

(** ** Rounding a number gives a number in canonical form *)

Lemma shr_1_nonneg r : 0 <= shr_m r -> 0 <= shr_m (shr_1 r).
Proof. destruct r as [m b s]. destruct m as [|[]|[]]; cbn; lia. Qed.

Lemma iter_pos_inv {A} (f : A -> A) (P : A -> Prop) (Hf : forall x, P x -> P (f x)) p x : P x -> P (iter_pos f p x).
Proof. revert x. induction p as [p IH|p IH|]; intros x Hx; cbn; auto. Qed.

Lemma shr_nonneg r e n : 0 <= shr_m r -> 0 <= shr_m (shr r e n).1.
Proof.
  intros H. unfold shr. destruct n; cbn [fst]; [exact H| |exact H].
  by apply (iter_pos_inv shr_1 (fun r => 0 <= shr_m r) shr_1_nonneg).
Qed.

Lemma round_nonneg m l : 0 <= m -> 0 <= round_nearest_even m l.
Proof. intros H. destruct l as [|[]]; cbn; try case_match; lia. Qed.

Lemma round_aux_not_nan prec emax s m e l : 0 <= m -> binary_round_aux prec emax s m e l <> S754_nan.
Proof.
  intros Hm. unfold binary_round_aux.
  destruct (shr_fexp prec emax m e l) as [r1 e1] eqn:E1.
  destruct (shr_fexp prec emax _ e1 loc_Exact) as [r2 e2] eqn:E2.
  assert (H1 : 0 <= shr_m r1).
  { change r1 with (r1, e1).1. rewrite <- E1. apply shr_nonneg. by destruct l as [|[]]. }
  assert (H2 : 0 <= shr_m r2).
  { change r2 with (r2, e2).1. rewrite <- E2. apply shr_nonneg. cbn. by apply round_nonneg. }
  destruct (shr_m r2); [discriminate|by destruct (_ <=? _)|lia].
Qed.

Lemma binary_round_not_nan prec emax s m e : binary_round prec emax s m e <> S754_nan.
Proof. unfold binary_round. destruct (shl_align _ _ _). by apply round_aux_not_nan. Qed.

Lemma f64_of_int_not_nan z : f64_of_int z <> S754_nan.
Proof. unfold f64_of_int, binary_normalize. destruct z; [discriminate|apply binary_round_not_nan..]. Qed.

Lemma f32_of_f64_not_nan x : x <> S754_nan -> f32_of_f64 x <> S754_nan.
Proof. destruct x; cbn; try done. intros _. apply binary_round_not_nan. Qed.

Lemma shr_1_half r : 0 <= shr_m r -> shr_m (shr_1 r) = shr_m r / 2.
Proof.
  destruct r as [m b s]. destruct m as [|[p|p|]|p]; cbn [shr_1 shr_m]; intros H; try reflexivity; try lia.
  - apply Z.div_unique with 1; lia.
  - apply Z.div_unique with 0; lia.
Qed.

Lemma iter_shr_half p r : 0 <= shr_m r -> shr_m (iter_pos shr_1 p r) = shr_m r / 2 ^ Z.pos p.
Proof.
  assert (Hpos : forall q r, 0 <= shr_m r -> 0 <= shr_m (iter_pos shr_1 q r)).
  { intros q r'. apply (iter_pos_inv shr_1 (fun r => 0 <= shr_m r) shr_1_nonneg). }
  revert r. induction p as [p IH|p IH|]; intros r Hr; cbn [iter_pos].
  - rewrite !IH by auto using shr_1_nonneg. rewrite shr_1_half by done.
    rewrite !Z.div_div by lia. f_equal.
    replace (Z.pos p~1) with (1 + Z.pos p + Z.pos p) by lia. rewrite !Z.pow_add_r by lia. lia.
  - rewrite !IH by auto. rewrite Z.div_div by lia. f_equal.
    replace (Z.pos p~0) with (Z.pos p + Z.pos p) by lia. by rewrite Z.pow_add_r by lia.
  - by apply shr_1_half.
Qed.

Lemma digits2_bound p : Z.pos p < 2 ^ Z.pos (digits2_pos p).
Proof.
  induction p as [p IH|p IH|]; cbn [digits2_pos]; [| |reflexivity];
    rewrite Pos2Z.inj_succ, Z.pow_succ_r by lia; lia.
Qed.
Lemma Zdigits2_bound m : 0 <= m -> m < 2 ^ Zdigits2 m.
Proof. destruct m; cbn [Zdigits2]; [reflexivity|intros _; apply digits2_bound|lia]. Qed.

(** Aligned to the format, a mantissa has at most [prec] bits and the exponent is in range. *)
Lemma shr_fexp_canonical prec emax m e l r e' : 0 < prec -> 0 <= m -> shr_fexp prec emax m e l = (r, e') ->
  0 <= shr_m r < 2 ^ prec /\ emin prec emax <= e'.
Proof.
  intros Hp Hm. unfold shr_fexp. set (n := fexp prec emax (Zdigits2 m + e) - e).
  assert (Hr : shr_m (shr_record_of_loc m l) = m) by (by destruct l as [|[]]).
  assert (Hn : emin prec emax <= e + n /\ Zdigits2 m <= prec + n) by (unfold n, fexp; lia).
  assert (Hb := Zdigits2_bound m Hm). assert (Hmono : 2 ^ Zdigits2 m <= 2 ^ (prec + n) \/ n < 0).
  { destruct (Z.lt_ge_cases n 0); [by right|left]. apply Z.pow_le_mono_r; lia. }
  unfold shr. destruct n as [|q|q] eqn:En; intros H; injection H as <- <-.
  - rewrite Hr. replace (prec + 0) with prec in * by lia. lia.
  - rewrite iter_shr_half by lia. rewrite Hr. split; [|lia]. split; [apply Z.div_pos; lia|].
    apply Z.div_lt_upper_bound; [lia|]. rewrite <- Z.pow_add_r by lia.
    destruct Hmono; [|lia]. replace (Z.pos q + prec) with (prec + Z.pos q) by lia. lia.
  - rewrite Hr. split; [|lia]. split; [lia|]. apply Z.lt_le_trans with (2 ^ Zdigits2 m); [exact Hb|].
    apply Z.pow_le_mono_r; lia.
Qed.

(** A binary32 value in the form its bits are read from. *)
Definition canonical32 (x : spec_float) : Prop :=
  match x with S754_finite _ m e => Z.pos m < 2 ^ 24 /\ -149 <= e | _ => True end.

Lemma f32_round_canonical s m e : canonical32 (f32_round s m e).
Proof.
  unfold f32_round, binary_round. destruct (shl_align _ _ _) as [mz ez]. unfold binary_round_aux.
  destruct (shr_fexp 24 128 (Z.pos mz) ez loc_Exact) as [r1 e1] eqn:E1.
  destruct (shr_fexp 24 128 _ e1 loc_Exact) as [r2 e2] eqn:E2.
  apply shr_fexp_canonical in E1 as [[H1 _] _]; [|lia..].
  apply shr_fexp_canonical in E2 as [[H2 H3] H4]; [|lia|by apply round_nonneg].
  destruct (shr_m r2) as [|q|q]; [exact I| |exact I]. destruct (e2 <=? _); [|exact I]. cbn. split; [lia|].
  change (emin 24 128) with (-149) in H4. lia.
Qed.

Lemma f32_of_f64_canonical x : canonical32 (f32_of_f64 x).
Proof. destruct x; try exact I. apply f32_round_canonical. Qed.

(** The bits of a clamped number lie between those of 0 and 1, or are those of -0. *)
Lemma clamp_bits x : x <> S754_nan -> canonical32 x ->
  0 <= f32_bits (clamp x f32_zero f32_one) <= 1065353216 \/ f32_bits (clamp x f32_zero f32_one) = 2147483648.
Proof.
  intros Hn Hc. unfold clamp. destruct (SFltb x f32_zero) eqn:E0; [left; vm_compute; split; discriminate|].
  destruct (SFltb f32_one x) eqn:E1; [left; vm_compute; split; discriminate|].
  destruct x as [[]|[]| |[] m e]; [right; reflexivity|left; vm_compute; split; discriminate|discriminate E0
    |discriminate E1|destruct (Hn eq_refl)|discriminate E0|].
  left. destruct Hc as [Hm He]. unfold f32_bits. change (2 ^ 31) with 2147483648.
  change (2 ^ 23) with 8388608. change (2 ^ 24) with 16777216 in Hm.
  destruct (Z.pos m <? 8388608) eqn:Es; [lia|]. unfold SFltb, f32_one in E1. cbn [SFcompare] in E1.
  destruct (Z.compare_spec (-23) e) as [<-|Hlt|Hgt]; [|discriminate|lia].
  destruct (Pos.compare_cont Eq 8388608 m) eqn:Ec; [|discriminate|].
  - apply Pos.compare_eq_iff in Ec. subst m. vm_compute. split; discriminate.
  - change (Pos.compare 8388608 m = Gt) in Ec. apply Pos.compare_gt_iff in Ec. apply Z.ltb_ge in Es.
    exfalso. apply (Z.lt_irrefl 8388608). apply Z.le_lt_trans with (Z.pos m); [exact Es|exact Ec].
Qed.

End Floats.
