(* ===== verification/Platform.v ===== *)
(** * Interfaces of the libraries the program calls

    Third-party crates are parameters of the model: each class names the functions
    the sources call, each [...Laws] class the documented behaviour that theorems
    rely on.  Concrete instances at the end show that the laws can be met; the
    witnesses of the properties use them. *)

From S2P Require Import Prelude RustStr RustStrFacts.

(** ** [uuid]: the text form of an identifier *)

Class UuidText := {
  uuid_str : N -> rstr;               (* [Uuid]'s [Display] *)
  parse_uuid : rstr -> option N;      (* [Uuid::parse_str] *)
}.

(** 128-bit identifiers. *)
Definition uuid_range (a : N) : Prop := (a < 2 ^ 128)%N.

Class UuidTextLaws `{UuidText} : Prop := {
  uuid_str_inj : forall a b, uuid_range a -> uuid_range b -> uuid_str a = uuid_str b -> a = b;
  uuid_str_length : forall a, length (uuid_str a) = 36%nat;
  parse_uuid_str : forall a, uuid_range a -> parse_uuid (uuid_str a) = Some a;
}.

(** ** [imagesize], [sha2], [hex]: what image validation reads off the bytes *)

Class ImageLib := {
  blob_size : list Z -> option (Z * Z);   (* width and height, [usize] *)
  sha256_hex : list Z -> rstr;
}.

(** ** [unicode-normalization] *)

Class UnicodeNorm := {
  nfd : rstr -> rstr;
  is_combining_mark : Z -> bool;
}.

(** Canonical decomposition of lowercase text gives lowercase text, it creates no word
    breaks, and white space is not a combining mark. *)
Class UnicodeNormLaws `{UnicodeCase, UnicodeNorm} : Prop := {
  nfd_fixed : forall s, Forall (fun c => c <> sigma /\ to_lowercase [c] = [c]) s ->
    Forall (fun c => c <> sigma /\ to_lowercase [c] = [c]) (nfd s);
  nfd_words : forall s, (length (split_whitespace (nfd s)) <= length (split_whitespace s))%nat;
  nfd_nil : nfd [] = [];
  mark_not_space : forall c, is_whitespace c = true -> is_combining_mark c = false;
}.

(** ** [chrono], [chrono-tz]

    An instant ([DateTime<Utc>]) and a wall-clock time ([NaiveDateTime]) are
    microsecond counts from the epoch, a [NaiveDate] is a day count. *)

Inductive LocalResult := LNone | LSingle (t : Z) | LAmbiguous (earlier later : Z).

Class Chrono := {
  Tz : Type;
  parse_tz : rstr -> option Tz;           (* [str::parse::<Tz>] *)
  tz_utc : Tz;                            (* [chrono_tz::UTC] *)
  to_local : Tz -> Z -> Z;                (* [with_timezone], as wall-clock time *)
  from_local : Tz -> Z -> LocalResult;    (* [TimeZone::from_local_datetime] *)
  civil : Z -> Z * Z * Z;                 (* [year, month, day] of a [NaiveDate] *)
  from_ymd_opt : Z -> Z -> Z -> option Z; (* [NaiveDate::from_ymd_opt] *)
  weekday : Z -> Z;                       (* [weekday().num_days_from_monday()] *)
  date_ok : Z -> bool;                    (* the days [NaiveDate] holds; [+] and [-] panic outside *)
  fmt_date : Z -> rstr;                   (* [format("%Y-%m-%d")] *)
  fmt_month : Z -> rstr;                  (* [format("%Y-%m")] *)
  fmt_vn : Z -> rstr;                     (* [format("%d/%m/%Y")] *)
  parse_from_str : rstr -> rstr -> option Z; (* [NaiveDate::parse_from_str(text, format)] *)
  to_rfc3339 : Z -> rstr;
}.

Definition second : Z := 1000000.
Definition minute : Z := 60 * second.
Definition hour : Z := 60 * minute.
Definition day : Z := 24 * hour.

(** The [NaiveDate] of a wall-clock time. *)
Definition date_naive (l : Z) : Z := l / day.

Definition succ_month (y m : Z) : Z * Z := if m =? 12 then (y + 1, 1) else (y, m + 1).
Definition pred_month (y m : Z) : Z * Z := if m =? 1 then (y - 1, 12) else (y, m - 1).

(** The calendar as documented: [from_ymd_opt] is the inverse of [year, month, day] on
    the days in range; a month has 28 to 31 days in a row and is followed and preceded
    by its neighbours; weeks have seven days and the epoch was a Thursday. *)
Class CalendarLaws `{Chrono} : Prop := {
  civil_month : forall d y m dd, civil d = (y, m, dd) -> 1 <= m <= 12 /\ 1 <= dd;
  from_ymd_civil : forall d y m dd, civil d = (y, m, dd) ->
    from_ymd_opt y m dd = if date_ok d then Some d else None;
  civil_span : forall d y m dd, civil d = (y, m, dd) ->
    exists k, 28 <= k <= 31 /\ dd <= k
      /\ (forall j, 0 <= j < k -> civil (d - dd + 1 + j) = (y, m, j + 1))
      /\ civil (d - dd + 1 + k) = (succ_month y m, 1);
  civil_prev : forall d y m, civil d = (y, m, 1) ->
    exists k, 28 <= k <= 31 /\ forall j, 0 <= j < k -> civil (d - k + j) = (pred_month y m, j + 1);
  weekday_mod : forall d, weekday d = (d + 3) mod 7;
}.

(** Conversion between instants and wall-clock times: what [from_local] returns has
    that wall-clock time, and it returns something for every wall-clock time shown. *)
Class ZoneLaws `{Chrono} : Prop := {
  from_local_single : forall tz l t, from_local tz l = LSingle t -> to_local tz t = l;
  from_local_ambiguous : forall tz l t u, from_local tz l = LAmbiguous t u ->
    to_local tz t = l /\ to_local tz u = l /\ t < u;
  from_local_complete : forall tz t, from_local tz (to_local tz t) <> LNone;
}.

(** ** Text forms of instants in payloads and keys *)

Class ChronoText := {
  datetime_json : Z -> rstr;             (* [DateTime<Utc>] as [serde] writes it *)
  parse_datetime : rstr -> option Z;     (* and reads it *)
  fmt_compact : Z -> rstr;               (* [format("%Y%m%dT%H%M%SZ")] *)
}.

Class ChronoTextLaws `{ChronoText} : Prop := {
  parse_datetime_json : forall t, parse_datetime (datetime_json t) = Some t;
}.

(** ** PostgreSQL: [(t AT TIME ZONE zone)::date], and [<=] of the database collation *)

Class Postgres := {
  pg_date : rstr -> Z -> option Z;       (* [None]: the zone is unknown, an error *)
  collate_le : rstr -> rstr -> bool;
}.

(** ** Concrete instances *)

(** The hyphenated lowercase form of [uuid]'s [Display]. *)
Definition hex_digit (n : N) : Z := if (n <? 10)%N then Z.of_N n + 48 else Z.of_N n + 87.

Fixpoint hex_text (width : nat) (n : N) : rstr :=
  match width with
  | O => []
  | S w => hex_text w (n / 16) ++ [hex_digit (n mod 16)]
  end.

Definition hyphenated (s : rstr) : rstr :=
  take 8 s ++ [45] ++ take 4 (drop 8 s) ++ [45] ++ take 4 (drop 12 s) ++ [45]
  ++ take 4 (drop 16 s) ++ [45] ++ drop 20 s.

Definition hex_value (c : Z) : option N :=
  if (48 <=? c) && (c <=? 57) then Some (Z.to_N (c - 48))
  else if (97 <=? c) && (c <=? 102) then Some (Z.to_N (c - 87))
  else None.

(** The number a hexadecimal text denotes. *)
Definition hex_number (s : rstr) : option N :=
  foldl (fun acc c => match acc, hex_value c with
                      | Some n, Some d => Some (16 * n + d)%N
                      | _, _ => None
                      end) (Some 0%N) s.

Definition hyphenated_uuid : UuidText := {|
  uuid_str := fun n => hyphenated (hex_text 32 n);
  parse_uuid := fun s => if (length s =? 36)%nat then hex_number (List.filter (fun c => negb (c =? 45)) s)
                         else None;
|}.

Lemma hex_digit_inj a b : (a < 16)%N -> (b < 16)%N -> hex_digit a = hex_digit b -> a = b.
Proof. unfold hex_digit. intros. repeat case_match; rewrite ?N.ltb_lt, ?N.ltb_ge in *; lia. Qed.

Lemma hex_text_length w n : length (hex_text w n) = w.
Proof. revert n. induction w; intros n; [done|]. cbn. rewrite length_app, IHw. cbn. lia. Qed.

Lemma hex_text_inj w a b :
  (a < 16 ^ N.of_nat w)%N -> (b < 16 ^ N.of_nat w)%N -> hex_text w a = hex_text w b -> a = b.
Proof.
  revert a b. induction w as [|w IH]; intros a b Ha Hb E; [cbn in *; lia|].
  cbn [hex_text] in E. apply app_inj_2 in E as [E1 E2]; [|done]. injection E2 as E2.
  apply hex_digit_inj in E2; [|apply N.mod_lt; lia..].
  rewrite Nat2N.inj_succ, N.pow_succ_r' in *.
  apply IH in E1; [|apply N.Div0.div_lt_upper_bound; lia..].
  pose proof (N.div_mod a 16). pose proof (N.div_mod b 16). lia.
Qed.

Lemma hyphenated_inj s t :
  length s = 32%nat -> length t = 32%nat -> hyphenated s = hyphenated t -> s = t.
Proof.
  intros Hs Ht E. unfold hyphenated in E.
  assert (Hcut : forall (u : rstr), u = take 8 u ++ take 4 (drop 8 u) ++ take 4 (drop 12 u)
                               ++ take 4 (drop 16 u) ++ drop 20 u).
  { intros u. rewrite <- (take_drop 8 u) at 1. f_equal.
    rewrite <- (take_drop 4 (drop 8 u)) at 1. rewrite drop_drop. f_equal. cbn.
    rewrite <- (take_drop 4 (drop 12 u)) at 1. rewrite drop_drop. f_equal. cbn.
    rewrite <- (take_drop 4 (drop 16 u)) at 1. by rewrite drop_drop. }
  assert (Hlen : forall n k, length (take n (drop k s)) = length (take n (drop k t))).
  { intros n k. rewrite !length_take, !length_drop. by rewrite Hs, Ht. }
  apply app_inj_1 in E as [E1 E]; [|apply (Hlen 8%nat 0%nat)]. apply app_inj_1 in E as [_ E]; [|done].
  apply app_inj_1 in E as [E2 E]; [|apply Hlen]. apply app_inj_1 in E as [_ E]; [|done].
  apply app_inj_1 in E as [E3 E]; [|apply Hlen]. apply app_inj_1 in E as [_ E]; [|done].
  apply app_inj_1 in E as [E4 E]; [|apply Hlen]. apply app_inj_1 in E as [_ E]; [|done].
  by rewrite (Hcut s), (Hcut t), E1, E2, E3, E4, E.
Qed.

Lemma hex_digit_value n : (n < 16)%N -> hex_value (hex_digit n) = Some n /\ hex_digit n <> 45.
Proof.
  unfold hex_value, hex_digit. intros. destruct (N.ltb_spec n 10).
  - rewrite (proj2 (Z.leb_le 48 _)), (proj2 (Z.leb_le _ 57)) by lia. cbn [andb]. split; [f_equal|]; lia.
  - rewrite (proj2 (Z.leb_gt _ 57)), andb_false_r, (proj2 (Z.leb_le 97 _)), (proj2 (Z.leb_le _ 102)) by lia.
    cbn [andb]. split; [f_equal|]; lia.
Qed.

Lemma hex_text_number w n : (n < 16 ^ N.of_nat w)%N -> hex_number (hex_text w n) = Some n.
Proof.
  revert n. induction w as [|w IH]; intros n Hn; [cbn in *; f_equal; lia|].
  rewrite Nat2N.inj_succ, N.pow_succ_r' in Hn. unfold hex_number in *. cbn [hex_text].
  rewrite foldl_app, IH by (apply N.Div0.div_lt_upper_bound; lia).
  cbn [foldl]. rewrite (proj1 (hex_digit_value (n mod 16) ltac:(apply N.mod_lt; lia))).
  f_equal. pose proof (N.div_mod n 16). lia.
Qed.

Lemma hex_text_no_hyphen w n : Forall (fun c => c <> 45) (hex_text w n).
Proof.
  revert n. induction w as [|w IH]; intros n; [constructor|]. cbn [hex_text].
  apply Forall_app. split; [apply IH|]. repeat constructor. apply hex_digit_value, N.mod_lt. lia.
Qed.

Lemma filter_hyphens (s : rstr) :
  Forall (fun c => c <> 45) s -> List.filter (fun c => negb (c =? 45)) s = s.
Proof.
  induction 1 as [|c s Hc _ IH]; [done|]. cbn [List.filter].
  rewrite (proj2 (Z.eqb_neq _ _) Hc). cbn [negb]. by rewrite IH.
Qed.

Lemma unhyphenated s :
  Forall (fun c => c <> 45) s -> List.filter (fun c => negb (c =? 45)) (hyphenated s) = s.
Proof.
  intros H. unfold hyphenated. rewrite !List.filter_app.
  cbn [List.filter]. rewrite Z.eqb_refl. cbn [negb app].
  rewrite !filter_hyphens by (repeat first [apply Forall_take | apply Forall_drop]; exact H).
  rewrite <- (take_drop 8 s) at 6. f_equal. rewrite <- (take_drop 4 (drop 8 s)) at 2. rewrite drop_drop. f_equal.
  rewrite <- (take_drop 4 (drop (8 + 4) s)) at 1. rewrite drop_drop. f_equal.
  rewrite <- (take_drop 4 (drop (8 + 4 + 4) s)) at 1. by rewrite drop_drop.
Qed.

Lemma hyphenated_uuid_laws : @UuidTextLaws hyphenated_uuid.
Proof.
  split.
  - intros a b Ha Hb E. cbn [uuid_str hyphenated_uuid] in E.
    apply hyphenated_inj in E; [|apply hex_text_length..].
    by apply (hex_text_inj 32) in E.
  - intros a. cbn [uuid_str hyphenated_uuid]. unfold hyphenated.
    rewrite !length_app, !length_take, !length_drop, hex_text_length. done.
  - intros a Ha. cbn [uuid_str parse_uuid hyphenated_uuid].
    rewrite unhyphenated by apply hex_text_no_hyphen.
    unfold hyphenated. rewrite !length_app, !length_take, !length_drop, hex_text_length.
    apply hex_text_number. exact Ha.
Qed.

(** A calendar: the proleptic Gregorian one, with fixed-offset zones.  Months are
    counted from March of the year 0; [month_start n] is the first day of month [n]. *)
Definition month_start (n : Z) : Z :=
  let y := n / 12 in
  365 * y + y / 4 - y / 100 + y / 400 + (153 * (n mod 12) + 2) / 5 - 719468.

Definition month_of (d : Z) : Z :=
  let n := (d + 719468) * 4800 / 146097 in
  if d <? month_start n then n - 1 else if month_start (n + 1) <=? d then n + 1 else n.

Definition gregorian_civil (d : Z) : Z * Z * Z :=
  let n := month_of d in
  ((n + 2) / 12, (n + 2) mod 12 + 1, d - month_start n + 1).

Definition gregorian_days (y m dd : Z) : option Z :=
  let n := 12 * y + m - 3 in
  if (1 <=? m) && (m <=? 12) && (1 <=? dd) && (dd <=? month_start (n + 1) - month_start n)
  then Some (month_start n + dd - 1) else None.

Definition gregorian_weekday (d : Z) : Z := (d + 3) mod 7.
Definition gregorian_in_range (d : Z) : bool := (-95000000 <=? d) && (d <=? 95000000).
Definition gregorian_ymd (y m d : Z) : option Z :=
  match gregorian_days y m d with
  | Some n => if gregorian_in_range n then Some n else None
  | None => None
  end.
Definition gregorian_fmt_date (d : Z) : rstr :=
  let '(y, m, dd) := gregorian_civil d in
  zero_pad 4 (dec y) ++ s! "-" ++ zero_pad 2 (dec m) ++ s! "-" ++ zero_pad 2 (dec dd).
Definition gregorian_fmt_month (d : Z) : rstr :=
  let '(y, m, _) := gregorian_civil d in zero_pad 4 (dec y) ++ s! "-" ++ zero_pad 2 (dec m).
Definition gregorian_fmt_vn (d : Z) : rstr :=
  let '(y, m, dd) := gregorian_civil d in
  zero_pad 2 (dec dd) ++ s! "/" ++ zero_pad 2 (dec m) ++ s! "/" ++ zero_pad 4 (dec y).

(** Dates in the formats the program uses. *)
Definition gregorian_parse (text format : rstr) : option Z :=
  match map parse_i32 (split_char text (c! "-")), map parse_i32 (split_char text (c! "/")) with
  | [Some a; Some m; Some b], _ =>
      if str_eqb format (s! "%Y-%m-%d") then gregorian_ymd a m b
      else if str_eqb format (s! "%d-%m-%Y") then gregorian_ymd b m a
      else None
  | _, [Some a; Some m; Some b] =>
      if str_eqb format (s! "%d/%m/%Y") then gregorian_ymd b m a
      else if str_eqb format (s! "%d/%m/%y") && (0 <=? b) && (b <=? 99)
      then gregorian_ymd (if b <? 70 then 2000 + b else 1900 + b) m a
      else None
  | _, _ => None
  end.

Definition fixed_offset_chrono : Chrono := {|
  Tz := Z;
  parse_tz := fun s => if str_eqb s (s! "UTC") then Some 0
                       else if str_eqb s (s! "Asia/Ho_Chi_Minh") then Some (7 * hour) else None;
  tz_utc := 0;
  to_local := fun tz t => t + tz;
  from_local := fun tz l => LSingle (l - tz);
  civil := gregorian_civil;
  from_ymd_opt := gregorian_ymd;
  weekday := gregorian_weekday;
  date_ok := gregorian_in_range;
  fmt_date := gregorian_fmt_date;
  fmt_month := gregorian_fmt_month;
  fmt_vn := gregorian_fmt_vn;
  parse_from_str := gregorian_parse;
  to_rfc3339 := dec_signed;
|}.

(** ** The laws for this instance *)

Lemma month_length n : 28 <= month_start (n + 1) - month_start n <= 31.
Proof. unfold month_start. cbv zeta. Z.to_euclidean_division_equations; lia. Qed.

Lemma month_start_mono a b : a < b -> month_start a < month_start b.
Proof.
  intros Hab. replace b with (a + 1 + Z.of_nat (Z.to_nat (b - a - 1))) by lia.
  induction (Z.to_nat (b - a - 1)) as [|n IH].
  - pose proof (month_length a). rewrite Z.add_0_r. lia.
  - pose proof (month_length (a + 1 + Z.of_nat n)).
    replace (a + 1 + Z.of_nat (S n)) with (a + 1 + Z.of_nat n + 1) by lia. lia.
Qed.

Lemma month_estimate d :
  let n := (d + 719468) * 4800 / 146097 in month_start (n - 1) <= d < month_start (n + 2).
Proof. unfold month_start. cbv zeta. Z.to_euclidean_division_equations; lia. Qed.

Lemma month_of_spec d : month_start (month_of d) <= d < month_start (month_of d + 1).
Proof.
  pose proof (month_estimate d) as H. unfold month_of. cbv zeta in *.
  set (n := (d + 719468) * 4800 / 146097) in *.
  repeat case_match; b2p.
  - replace (n - 1 + 1) with n by lia. lia.
  - replace (n + 1 + 1) with (n + 2) by lia. lia.
  - lia.
Qed.

Lemma month_of_unique d n : month_start n <= d < month_start (n + 1) -> month_of d = n.
Proof.
  intros H. pose proof (month_of_spec d) as H2.
  destruct (Z.lt_trichotomy (month_of d) n) as [L|[L|L]]; [|done|].
  - destruct (decide (month_of d + 1 = n)) as [<-|]; [lia|].
    pose proof (month_start_mono (month_of d + 1) n). lia.
  - destruct (decide (n + 1 = month_of d)) as [E|]; [rewrite E in *; lia|].
    pose proof (month_start_mono (n + 1) (month_of d)). lia.
Qed.

(** The month of a date, and the date within its month. *)
Lemma gregorian_civil_at n k :
  0 <= k < month_start (n + 1) - month_start n ->
  gregorian_civil (month_start n + k) = ((n + 2) / 12, (n + 2) mod 12 + 1, k + 1).
Proof.
  intros Hk. unfold gregorian_civil. cbv zeta. rewrite (month_of_unique _ n) by lia.
  do 2 f_equal; lia.
Qed.

Lemma gregorian_civil_inv d y m dd : gregorian_civil d = (y, m, dd) ->
  let n := 12 * y + m - 3 in
  n = month_of d /\ 1 <= m <= 12 /\ d = month_start n + (dd - 1)
  /\ 0 <= dd - 1 < month_start (n + 1) - month_start n.
Proof.
  intros E. unfold gregorian_civil in E. cbv zeta in E. injection E as <- <- <-. cbv zeta.
  pose proof (month_of_spec d). pose proof (Z.mod_pos_bound (month_of d + 2) 12).
  pose proof (Z.div_mod (month_of d + 2) 12).
  replace (12 * ((month_of d + 2) / 12) + ((month_of d + 2) mod 12 + 1) - 3) with (month_of d) by lia.
  lia.
Qed.

Lemma month_index_succ y m : 1 <= m <= 12 ->
  let n := 12 * y + m - 3 in ((n + 1 + 2) / 12, (n + 1 + 2) mod 12 + 1) = succ_month y m.
Proof.
  intros Hm. cbv zeta. unfold succ_month. case_match; b2p; f_equal;
    Z.to_euclidean_division_equations; lia.
Qed.
Lemma month_index_pred y m : 1 <= m <= 12 ->
  let n := 12 * y + m - 3 in ((n - 1 + 2) / 12, (n - 1 + 2) mod 12 + 1) = pred_month y m.
Proof.
  intros Hm. cbv zeta. unfold pred_month. case_match; b2p; f_equal;
    Z.to_euclidean_division_equations; lia.
Qed.
Lemma month_index y m : 1 <= m <= 12 ->
  let n := 12 * y + m - 3 in ((n + 2) / 12, (n + 2) mod 12 + 1) = (y, m).
Proof. intros Hm. cbv zeta. f_equal; Z.to_euclidean_division_equations; lia. Qed.

Lemma gregorian_calendar (C : Chrono) :
  @civil C = gregorian_civil -> @from_ymd_opt C = gregorian_ymd ->
  @weekday C = gregorian_weekday -> @date_ok C = gregorian_in_range -> @CalendarLaws C.
Proof.
  intros E1 E2 E3 E4. split; rewrite ?E1, ?E2, ?E3, ?E4.
  - intros d y m dd (_ & Hm & _ & Hd)%gregorian_civil_inv. lia.
  - intros d y m dd E. apply gregorian_civil_inv in E as (_ & Hm & E & Hd). cbv zeta in *.
    unfold gregorian_ymd, gregorian_days. cbv zeta. rewrite (proj2 (andb_true_iff _ _)).
    + replace (month_start (12 * y + m - 3) + dd - 1) with d by lia. done.
    + rewrite !andb_true_iff, !Z.leb_le. lia.
  - intros d y m dd (_ & Hm & E & Hd)%gregorian_civil_inv. cbv zeta in *.
    pose proof (month_index_succ y m Hm) as Hs. pose proof (month_index y m Hm) as Hi. cbv zeta in *.
    set (n := 12 * y + m - 3) in *. pose proof (month_length n). pose proof (month_length (n + 1)).
    exists (month_start (n + 1) - month_start n).
    replace (d - dd + 1) with (month_start n) by lia. repeat split; try lia.
    + intros j Hj. rewrite gregorian_civil_at by lia. by rewrite Hi.
    + replace (month_start n + (month_start (n + 1) - month_start n))
        with (month_start (n + 1) + 0) by lia.
      rewrite gregorian_civil_at by lia. by rewrite Hs.
  - intros d y m (_ & Hm & E & Hd)%gregorian_civil_inv. cbv zeta in *.
    pose proof (month_index_pred y m Hm) as Hs. cbv zeta in Hs.
    set (n := 12 * y + m - 3) in *. pose proof (month_length (n - 1)) as L.
    replace (n - 1 + 1) with n in L by lia.
    exists (month_start n - month_start (n - 1)). split; [lia|]. intros j Hj.
    replace (d - (month_start n - month_start (n - 1)) + j) with (month_start (n - 1) + j) by lia.
    rewrite gregorian_civil_at by (replace (n - 1 + 1) with n by lia; lia). by rewrite Hs.
  - done.
Qed.

Lemma fixed_offset_calendar : @CalendarLaws fixed_offset_chrono.
Proof. by apply gregorian_calendar. Qed.

Lemma fixed_offset_zone : @ZoneLaws fixed_offset_chrono.
Proof. split; cbn; intros; simplify_eq; try done; lia. Qed.

(** A zone with one change of offset, at instant [T] from [before] to [after]. *)
Definition transition_local (T before after t : Z) : Z := t + (if t <? T then before else after).
Definition transition_from (T before after l : Z) : LocalResult :=
  match l - before <? T, T <=? l - after with
  | true, true => LAmbiguous (l - before) (l - after)
  | true, false => LSingle (l - before)
  | false, true => LSingle (l - after)
  | false, false => LNone
  end.

Definition transition_chrono (name : rstr) (T before after : Z) : Chrono := {|
  Tz := unit;
  parse_tz := fun s => if str_eqb s name then Some tt else None;
  tz_utc := tt;
  to_local := fun _ => transition_local T before after;
  from_local := fun _ => transition_from T before after;
  civil := gregorian_civil;
  from_ymd_opt := gregorian_ymd;
  weekday := gregorian_weekday;
  date_ok := gregorian_in_range;
  fmt_date := gregorian_fmt_date;
  fmt_month := gregorian_fmt_month;
  fmt_vn := gregorian_fmt_vn;
  parse_from_str := gregorian_parse;
  to_rfc3339 := dec_signed;
|}.

Lemma transition_zone name T before after : @ZoneLaws (transition_chrono name T before after).
Proof.
  split; cbn; unfold transition_from, transition_local; intros _ l.
  - intros t. repeat case_match; intros; simplify_eq; b2p; lia.
  - intros t u. repeat case_match; intros; simplify_eq; b2p; lia.
  - destruct (Z.ltb_spec l T); repeat case_match; try done; b2p; lia.
Qed.
Lemma transition_calendar name T before after : @CalendarLaws (transition_chrono name T before after).
Proof. by apply gregorian_calendar. Qed.

(** Decomposition of the lowercase Vietnamese letters. *)
Definition vi_decompositions : list (Z * rstr) :=
  [(224, [97; 768]); (225, [97; 769]); (226, [97; 770]); (227, [97; 771]); (232, [101; 768]);
   (233, [101; 769]); (234, [101; 770]); (236, [105; 768]); (237, [105; 769]); (242, [111; 768]);
   (243, [111; 769]); (244, [111; 770]); (245, [111; 771]); (249, [117; 768]); (250, [117; 769]);
   (253, [121; 769]); (259, [97; 774]); (297, [105; 771]); (361, [117; 771]); (417, [111; 795]);
   (432, [117; 795]); (7841, [97; 803]); (7843, [97; 777]); (7845, [97; 770; 769]);
   (7847, [97; 770; 768]); (7849, [97; 770; 777]); (7851, [97; 770; 771]);
   (7853, [97; 803; 770]); (7855, [97; 774; 769]); (7857, [97; 774; 768]);
   (7859, [97; 774; 777]); (7861, [97; 774; 771]); (7863, [97; 803; 774]); (7865, [101; 803]);
   (7867, [101; 777]); (7869, [101; 771]); (7871, [101; 770; 769]); (7873, [101; 770; 768]);
   (7875, [101; 770; 777]); (7877, [101; 770; 771]); (7879, [101; 803; 770]); (7881, [105; 777]);
   (7883, [105; 803]); (7885, [111; 803]); (7887, [111; 777]); (7889, [111; 770; 769]);
   (7891, [111; 770; 768]); (7893, [111; 770; 777]); (7895, [111; 770; 771]);
   (7897, [111; 803; 770]); (7899, [111; 795; 769]); (7901, [111; 795; 768]);
   (7903, [111; 795; 777]); (7905, [111; 795; 771]); (7907, [111; 795; 803]); (7909, [117; 803]);
   (7911, [117; 777]); (7913, [117; 795; 769]); (7915, [117; 795; 768]); (7917, [117; 795; 777]);
   (7919, [117; 795; 771]); (7921, [117; 795; 803]); (7923, [121; 768]); (7925, [121; 803]);
   (7927, [121; 777]); (7929, [121; 771]); (229, [97; 778])].

Definition vi_decompose (c : Z) : rstr :=
  match List.find (fun p => p.1 =? c) vi_decompositions with
  | Some (_, d) => d
  | None => [c]
  end.

Definition vi_norm : UnicodeNorm := {|
  nfd := fun s => concat (map vi_decompose s);
  is_combining_mark := fun c => (768 <=? c) && (c <=? 879);
|}.

Lemma vi_decompose_cases c :
  vi_decompose c = [c]
  \/ is_whitespace c = false
     /\ Forall (fun x => x <> sigma /\ vi_lower x = x /\ is_whitespace x = false) (vi_decompose c).
Proof.
  unfold vi_decompose. destruct (List.find _ _) as [[k d]|] eqn:E; [right | by left].
  apply List.find_some in E as [Hin Hk]. cbn in Hk. apply Z.eqb_eq in Hk. subst k.
  assert (Hall : forallb (fun p => negb (is_whitespace p.1)
      && forallb (fun x => negb (x =? sigma) && (vi_lower x =? x) && negb (is_whitespace x)) p.2)
      vi_decompositions = true) by (vm_compute; reflexivity).
  rewrite forallb_forall in Hall. specialize (Hall _ Hin). cbn in Hall.
  apply andb_true_iff in Hall as [H1 H2]. split; [by apply negb_true_iff|].
  rewrite forallb_forall in H2. apply List.Forall_forall. intros x Hx. specialize (H2 x Hx). b2p. done.
Qed.

Lemma vi_norm_laws : @UnicodeNormLaws vi_case vi_norm.
Proof.
  split; cbn.
  - intros s Hs. induction Hs as [|c s [H1 H2] Hs IH]; cbn; [constructor|].
    apply Forall_app. split; [|exact IH].
    destruct (vi_decompose_cases c) as [-> | [_ H]]; [by constructor|].
    eapply Forall_impl; [exact H|]. intros x (? & E & _). cbn. by rewrite E.
  - intros s. apply words_concat_map. intros c.
    destruct (vi_decompose_cases c) as [-> | [Hc H]]; [by constructor|].
    eapply Forall_impl; [exact H|]. intros x (_ & _ & E). cbn. congruence.
  - done.
  - intros c H. unfold is_whitespace in H. apply andb_false_iff. rewrite !Z.leb_gt. lia.
Qed.

(** Instants in payloads as decimal microseconds; dates of a zone known to [chrono] as
    [chrono] gives them, and the order of code points as collation. *)
Definition parse_micros (s : rstr) : option Z :=
  let value ds := if all_digits ds && negb (is_empty ds) then Some (digits_val ds) else None in
  match s with
  | c :: ds => if c =? 45 then Z.opp <$> value ds else value s
  | [] => None
  end.
Definition micros_text : ChronoText := {|
  datetime_json := dec_signed; parse_datetime := parse_micros; fmt_compact := dec_signed |}.

Lemma micros_text_laws : @ChronoTextLaws micros_text.
Proof.
  assert (Hv : forall n, 0 <= n -> all_digits (dec n) && negb (is_empty (dec n)) = true).
  { intros n Hn. destruct (dec_spec n Hn) as (Hd & _ & Hne). rewrite Hd. by destruct (dec n). }
  split. intros t. cbn [datetime_json parse_datetime micros_text]. unfold dec_signed, parse_micros.
  destruct (Z.ltb_spec t 0) as [Ht|Ht].
  - cbn [Z.eqb Pos.eqb]. rewrite Hv by lia. cbn [fmap option_fmap option_map].
    destruct (dec_spec (- t)) as (_ & -> & _); [lia|]. f_equal. lia.
  - pose proof (dec_spec t Ht) as (Hd & Hval & Hne). specialize (Hv t Ht).
    destruct (dec t) as [|c ds] eqn:E; [done|].
    rewrite (proj2 (Z.eqb_neq c 45))
      by (cbn in Hd; unfold is_ascii_digit in Hd; clear Hv; b2p; lia).
    rewrite Hv. by rewrite Hval.
Qed.

Fixpoint code_point_le (a b : rstr) : bool :=
  match a, b with
  | [], _ => true
  | _, [] => false
  | x :: a', y :: b' => (x <? y) || ((x =? y) && code_point_le a' b')
  end.

Definition chrono_postgres (C : Chrono) : Postgres := {|
  pg_date := fun zone t => (fun tz => date_naive (to_local tz t)) <$> parse_tz zone;
  collate_le := code_point_le;
|}.
