(* ===== verification/Money.v ===== *)
(** * Chat-facing money: formatting and parsing of amounts

    [src/src/conversation/money.rs] (module [Money]) and
    [src/src/conversation/amount.rs] (module [Amount]). *)

From S2P Require Import Prelude RustStr RustStrFacts.

Module Money.
Section WithUnicode.
Context `{U : UnicodeCase}.

Definition currency_decimal_places (currency : rstr) : Z :=
  let c := to_uppercase currency in
  if str_eqb c (s! "VND") || str_eqb c (s! "JPY") || str_eqb c (s! "KRW") then 0 else 2.

(** The loop of [group_digits]: [i] is the index of the next digit, [n] the
    number of digits. *)
Fixpoint group_loop (n i : nat) (ds : rstr) : rstr :=
  match ds with
  | [] => []
  | d :: ds' =>
      (if (0 <? i)%nat && ((n - i) mod 3 =? 0)%nat then [c! "."] else [])
      ++ d :: group_loop n (S i) ds'
  end.
Definition group_digits (int_part : rstr) : rstr := group_loop (length int_part) 0 int_part.

Definition currency_symbol (cur : rstr) : rstr :=
  if str_eqb cur (s! "VND") then s! "₫"
  else if str_eqb cur (s! "AUD") then s! "A$"
  else if str_eqb cur (s! "USD") then s! "$"
  else [].

Definition format_minor (amount : Z) (currency : rstr) : rstr :=
  let cur := to_uppercase currency in
  let neg := amount <? 0 in
  let value := Z.abs amount in
  let places := currency_decimal_places cur in
  let '(int_part, frac_part) :=
    if places =? 0 then (dec value, [])
    else
      let scale := 10 ^ places in
      let int := value / scale in
      let frac := value mod scale in
      (dec int, s! "," ++ zero_pad (Z.to_nat places) (dec frac)) in
  let grouped := group_digits int_part in
  let sign := if neg then s! "-" else [] in
  let symbol := currency_symbol cur in
  if is_empty symbol then sign ++ grouped ++ frac_part ++ s! " " ++ cur
  else sign ++ grouped ++ frac_part ++ s! " " ++ symbol.

End WithUnicode.
End Money.

Module Amount.
Import Money.

Inductive AmountError :=
| Empty
| Negative
| InvalidCharacter
| NoDigits
| TooLarge
| NotWholeMinorUnit.

#[export] Instance AmountError_eq_dec : EqDecision AmountError.
Proof. solve_decision. Defined.

Definition MULTIPLIERS : list (rstr * Z) :=
  [(s! "triệu", 1000000); (s! "trieu", 1000000); (s! "củ", 1000000);
   (s! "cu", 1000000); (s! "tr", 1000000); (s! "k", 1000)].

Definition CURRENCY_SYMBOLS : list (rstr * rstr) :=
  [(s! "A$", s! "AUD"); (s! "₫", s! "VND"); (s! "$", s! "USD")].

Abbreviation amount_result := (result (Z * rstr) AmountError).

Definition strip_separators (s : rstr) : rstr := List.filter is_ascii_digit s.

Definition parse_digits (digits : rstr) : result Z AmountError :=
  ok_or (parse_i64 digits) TooLarge.

Section WithUnicode.
Context `{U : UnicodeCase}.

Fixpoint detect_currency_loop (syms : list (rstr * rstr)) (s hint : rstr) : rstr * rstr :=
  match syms with
  | [] => (if is_empty hint then s! "VND" else to_uppercase hint, s)
  | (token, currency) :: rest =>
      match strip_prefix s token with
      | Some r => (currency, trim r)
      | None =>
          match strip_suffix s token with
          | Some r => (currency, trim r)
          | None => detect_currency_loop rest s hint
          end
      end
  end.
Definition detect_currency (s hint : rstr) : rstr * rstr :=
  detect_currency_loop CURRENCY_SYMBOLS s hint.

Definition finish_amount (digits currency : rstr) (factor : Z) : run amount_result :=
  if is_empty digits then Ret (Err NoDigits)
  else if 15 <? blen digits then Ret (Err TooLarge)
  else match parse_digits digits with
  | Err e => Ret (Err e)
  | Ok value0 =>
      let two := currency_decimal_places currency =? 2 in
      if two && (i64_max / 100 <? value0) then Ret (Err TooLarge)
      else
        let! value := (if two then i64_mul value0 100 else Ret value0) in
        if (1 <? factor) && (Z.quot i64_max factor <? value) then Ret (Err TooLarge)
        else
          let! v := i64_mul value factor in
          Ret (Ok (v, to_uppercase currency))
  end.

(** The multiplier-suffix loop: the factor and the remaining body. *)
Fixpoint strip_multiplier (ms : list (rstr * Z)) (body lower : rstr) : run (Z * rstr) :=
  match ms with
  | [] => Ret (1, body)
  | (suffix, mult) :: rest =>
      if ends_with lower suffix then
        let! b := slice_to body (blen body - blen suffix) in
        Ret (mult, trim b)
      else strip_multiplier rest body lower
  end.

(** The character loop that fills [digits_only]. *)
Fixpoint collect_digits (s : rstr) : result rstr AmountError :=
  match s with
  | [] => Ok []
  | ch :: s' =>
      if is_ascii_digit ch || (ch =? c! ".") || (ch =? c! ",")
      then let? r := collect_digits s' in Ok (ch :: r)
      else if ch =? c! " " then collect_digits s'
      else Err InvalidCharacter
  end.

(** Index of the last ['.'] or [','], counting from [i]. *)
Fixpoint last_separator (i : nat) (s : rstr) : option nat :=
  match s with
  | [] => None
  | ch :: s' =>
      match last_separator (S i) s' with
      | Some j => Some j
      | None => if (ch =? c! ".") || (ch =? c! ",") then Some i else None
      end
  end.

Definition decimal_at (digits_only currency : rstr) : option nat :=
  match last_separator 0 digits_only with
  | None => None
  | Some last_idx =>
      let sep := nth last_idx digits_only 0 in
      let frac := strip_separators (skipn (S last_idx) digits_only) in
      if currency_decimal_places currency =? 0 then
        if negb (is_empty frac) && negb (blen frac =? 3) then Some last_idx else None
      else if (sep =? c! ".") && (blen frac =? 2) then Some last_idx
      else None
  end.

(** [for _ in n..places]: multiply by ten, guarded. *)
Fixpoint scale_up (k : nat) (minor : Z) : run (result Z AmountError) :=
  match k with
  | O => Ret (Ok minor)
  | S k' =>
      if Z.quot i64_max 10 <? minor then Ret (Err TooLarge)
      else let! m := i64_mul minor 10 in scale_up k' m
  end.

Definition parse_single_amount (body0 currency : rstr) : run amount_result :=
  let body1 := trim body0 in
  let lower := to_lowercase body1 in
  let! (factor, body) := strip_multiplier MULTIPLIERS body1 lower in
  match collect_digits body with
  | Err e => Ret (Err e)
  | Ok digits_only =>
  if is_empty digits_only then Ret (Err NoDigits)
  else if (currency_decimal_places currency =? 0) && (factor =? 1)
  then finish_amount (strip_separators digits_only) currency factor
  else
  match decimal_at digits_only currency with
  | None => finish_amount (strip_separators digits_only) currency factor
  | Some at_ =>
  let int_digits := strip_separators (firstn at_ digits_only) in
  let frac_digits := strip_separators (skipn (S at_) digits_only) in
  if 4 <? blen frac_digits then Ret (Err TooLarge)
  else if 15 <? blen int_digits + blen frac_digits then Ret (Err TooLarge)
  else
  match parse_digits (int_digits ++ frac_digits) with
  | Err e => Ret (Err e)
  | Ok combined =>
  let n := blen frac_digits in
  if currency_decimal_places currency =? 0 then
    let scale := 10 ^ n in
    if (1 <? factor) && (Z.quot i64_max factor <? combined) then Ret (Err TooLarge)
    else
      let! value := i64_mul combined factor in
      if negb (Z.rem value scale =? 0) then Ret (Err NotWholeMinorUnit)
      else Ret (Ok (Z.quot value scale, currency))
  else
    let places := currency_decimal_places currency in
    if places <? n then Ret (Err NotWholeMinorUnit)
    else
      let! scaled := scale_up (Z.to_nat (places - n)) combined in
      match scaled with
      | Err e => Ret (Err e)
      | Ok minor =>
          if (1 <? factor) && (Z.quot i64_max factor <? minor) then Ret (Err TooLarge)
          else let! v := i64_mul minor factor in Ret (Ok (v, currency))
      end
  end
  end
  end.

Definition digit_or_sep (c : Z) : bool := is_ascii_digit c || (c =? c! ".") || (c =? c! ",").

(** [try_parse_compound]; [rec] is the recursive call to [parse_amount]. *)
Fixpoint compound_loop (rec : rstr -> rstr -> run amount_result)
    (ms : list (rstr * Z)) (lower currency : rstr) : run (option amount_result) :=
  match ms with
  | [] => Ret None
  | (mult_str, _) :: rest =>
      let continue := compound_loop rec rest lower currency in
      match find lower mult_str with
      | None => continue
      | Some pos =>
          if pos =? 0 then continue
          else
          let! b := slice_to lower pos in
          let before := trim b in
          let! a := slice_from lower (pos + blen mult_str) in
          let after := trim a in
          if is_empty before || is_empty after then continue
          else if negb (forallb digit_or_sep before) then continue
          else if all_digits after then
            let! r := parse_single_amount (before ++ s! "." ++ after ++ mult_str) currency in
            Ret (Some r)
          else
            let! rb := parse_single_amount (before ++ mult_str) currency in
            match rb with
            | Err _ => continue
            | Ok (val_before, _) =>
                let! ra := rec after currency in
                match ra with
                | Err _ => continue
                | Ok (val_after, _) =>
                    Ret (Some (match i64_checked_add val_before val_after with
                               | Some v => Ok (v, currency)
                               | None => Err TooLarge
                               end))
                end
            end
      end
  end.
Definition try_parse_compound (rec : rstr -> rstr -> run amount_result)
    (body currency : rstr) : run (option amount_result) :=
  compound_loop rec MULTIPLIERS (to_lowercase body) currency.

Fixpoint parse_amount_fuel (fuel : nat) (raw currency_hint : rstr) : run amount_result :=
  match fuel with
  | O => Timeout
  | S f =>
      let s := trim raw in
      if is_empty s then Ret (Err Empty)
      else if contains_char s (c! "-") then Ret (Err Negative)
      else
        let '(currency, body) := detect_currency s currency_hint in
        let! compound := try_parse_compound (parse_amount_fuel f) body currency in
        match compound with
        | Some r => Ret r
        | None => parse_single_amount body currency
        end
  end.

(** Each recursive call is on a strictly shorter suffix of the lowercased body. *)
Definition amount_fuel (raw currency_hint : rstr) : nat :=
  S (S (length (to_lowercase (snd (detect_currency (trim raw) currency_hint))))).
Definition parse_amount (raw currency_hint : rstr) : run amount_result :=
  parse_amount_fuel (amount_fuel raw currency_hint) raw currency_hint.

End WithUnicode.
End Amount.

(** ** Grouping digits *)

Section MoneyFacts.
Import Money Amount.

Definition digit_or_dot (c : Z) : Prop := is_ascii_digit c = true \/ c = 46.

Lemma group_loop_strip n i ds :
  all_digits ds = true -> strip_separators (group_loop n i ds) = ds.
Proof.
  unfold all_digits, strip_separators.
  revert i. induction ds as [|d ds IH]; intros i Hd; [done|].
  simpl in Hd. b2p. cbn [group_loop]. rewrite List.filter_app.
  case_match; simpl; rewrite H, IH by done; done.
Qed.

Lemma group_loop_chars n i ds :
  all_digits ds = true -> Forall digit_or_dot (group_loop n i ds).
Proof.
  unfold all_digits. revert i. induction ds as [|d ds IH]; intros i Hd; [constructor|].
  simpl in Hd. b2p. cbn [group_loop]. apply Forall_app. split.
  - case_match; [constructor; [by right | constructor] | constructor].
  - constructor; [by left | by apply IH].
Qed.

Lemma group_digits_cons d ds :
  group_digits (d :: ds) = d :: group_loop (S (length ds)) 1 ds.
Proof. reflexivity. Qed.

Lemma digit_or_dot_char c : digit_or_dot c ->
  is_ascii c = true /\ is_whitespace c = false /\ ascii_lower c = c /\ c <> 45.
Proof.
  unfold digit_or_dot, is_ascii_digit, is_ascii, is_whitespace, ascii_lower, is_ascii_upper.
  intros H. assert (c = 46 \/ 48 <= c <= 57) as Hc by lia. clear H.
  repeat split; try lia. case_match; lia.
Qed.

End MoneyFacts.
