(* ===== verification/AmountProps.v ===== *)
(** * Correctness of amount parsing

    Theorems about [Money.v]: parsing never overflows, panics or diverges on text
    whose lowercase keeps the byte length of every character; what the bot prints
    for a VND amount parses back; how multipliers, compound amounts and the
    two-decimal currencies are read. *)

From S2P Require Import Prelude RustStr RustStrFacts Money.
Import Money Amount.

(** A character whose lowercase is one character of the same byte length (all of
    ASCII and all Vietnamese letters are such). *)
Definition benign `{UnicodeCase} (c : Z) : Prop :=
  c <> sigma /\ exists c', to_lowercase [c] = [c'] /\ char_len c' = char_len c.

(** Case on the condition at the head of a [returns] goal. *)
Ltac ret_if E :=
  match goal with |- returns (if ?b then _ else _) _ => destruct b eqn:E end;
  [try by apply returns_ret |].

(** Membership in the multiplier table. *)
Ltac in_mult := by (unfold MULTIPLIERS; rewrite !elem_of_cons; auto 8).

(** A parse result that is an error or an amount in range. *)
Definition amount_ok (r : amount_result) : Prop :=
  match r with Ok (v, _) => 0 <= v <= i64_max | Err _ => True end.

Section Safety.
Context {U : UnicodeCase} {UL : UnicodeCaseLaws}.

Lemma fixed_benign c : c <> sigma -> to_lowercase [c] = [c] -> benign c.
Proof. intros ? E. split; [done|]. exists c. done. Qed.

Lemma ascii_benign c : is_ascii c = true -> benign c.
Proof.
  intros H. split.
  - unfold is_ascii, sigma in *. b2p. lia.
  - exists (ascii_lower c). rewrite lower_ascii by done. split; [done|].
    unfold is_ascii in H. b2p. unfold ascii_lower, is_ascii_upper, char_len.
    repeat case_match; lia.
Qed.

Lemma benign_lower s : Forall benign s ->
  Forall2 (fun c c' => char_len c' = char_len c) s (to_lowercase s).
Proof.
  intros Hs. rewrite lower_hom.
  - induction Hs as [|c s (Hne & c' & E & Hl) Hs IH]; simpl; [constructor|].
    rewrite E. by constructor.
  - eapply Forall_impl; [exact Hs|]. by intros c [? _].
Qed.

Lemma same_blen s l : Forall2 (fun c c' => char_len c' = char_len c) s l -> blen l = blen s.
Proof. induction 1; simpl; congruence. Qed.

(** The multiplier suffix of the lowercased body is a suffix of the body. *)
Lemma strip_multiplier_returns ms body :
  Forall benign body -> Forall (fun m => 1 <= m.2) ms ->
  returns (strip_multiplier ms body (to_lowercase body)) (fun fb => 1 <= fb.1).
Proof.
  intros Hb Hms. induction Hms as [|[suf m] ms Hm Hms IH]; simpl.
  { apply returns_ret. simpl. lia. }
  destruct (ends_with _ suf) eqn:E; [|exact IH].
  apply ends_with_spec in E as [l E].
  pose proof (benign_lower body Hb) as H2. rewrite E in H2.
  apply Forall2_app_inv_r in H2 as (b1 & b2 & _ & H2 & ->).
  apply same_blen in H2. rewrite blen_app, H2.
  replace (blen b1 + blen b2 - blen b2) with (blen b1) by lia.
  rewrite slice_to_app. by apply returns_ret.
Qed.

Lemma parse_digits_ok ds : all_digits ds = true -> ds <> [] -> (length ds <= 15)%nat ->
  parse_digits ds = Ok (digits_val ds).
Proof.
  intros Hd Hne Hl. unfold parse_digits, parse_i64.
  pose proof (digits_val_bound ds Hd) as Hb.
  assert (10 ^ Z.of_nat (length ds) <= 10 ^ 15) by (apply Z.pow_le_mono_r; lia).
  rewrite parse_int_digits; [done | done | done |].
  apply in_i64_spec. unfold i64_min, i64_max. lia.
Qed.

Lemma quot_guard m f : 0 <= m -> 1 <= f ->
  (1 <? f) && (Z.quot i64_max f <? m) = false -> m <= i64_max -> 0 <= m * f <= i64_max.
Proof.
  intros Hm Hf Hg Hle. destruct (Z.ltb_spec 1 f).
  - simpl in Hg. b2p. rewrite Z.quot_div_nonneg in Hg by (unfold i64_max; lia).
    assert (f * m <= f * (i64_max / f)) by (apply Z.mul_le_mono_nonneg_l; lia).
    pose proof (Z.mul_div_le i64_max f ltac:(lia)). lia.
  - assert (f = 1) as -> by lia. lia.
Qed.

Lemma i64_mul_guarded m f : 0 <= m <= i64_max -> 1 <= f ->
  (1 <? f) && (Z.quot i64_max f <? m) = false ->
  i64_mul m f = Ret (m * f) /\ 0 <= m * f <= i64_max.
Proof.
  intros Hm Hf Hg. pose proof (quot_guard m f ltac:(lia) Hf Hg ltac:(lia)).
  split; [|done]. apply i64_mul_ret. unfold i64_min. lia.
Qed.

Lemma strip_all_digits s : all_digits (strip_separators s) = true.
Proof.
  unfold all_digits, strip_separators. induction s as [|c s IH]; simpl; [done|].
  destruct (is_ascii_digit c) eqn:E; simpl; [by rewrite E|done].
Qed.

(** The product of at most 15 digits, one hundred and any factor that passes the
    guard stays within [i64]. *)
Lemma finish_amount_returns digits cur factor :
  all_digits digits = true -> 1 <= factor ->
  returns (finish_amount digits cur factor) amount_ok.
Proof.
  intros Hd Hf. unfold finish_amount.
  destruct (is_empty digits) eqn:Ee; [by apply returns_ret|].
  assert (digits <> []) by (by intros ->).
  rewrite blen_digits by done.
  destruct (Z.ltb_spec 15 (Z.of_nat (length digits))); [by apply returns_ret|].
  rewrite parse_digits_ok by (done || lia).
  pose proof (digits_val_bound digits Hd).
  assert (10 ^ Z.of_nat (length digits) <= 10 ^ 15) by (apply Z.pow_le_mono_r; lia).
  cbv zeta. set (two := currency_decimal_places cur =? 2).
  destruct (two && _); [by apply returns_ret|].
  eapply (returns_bind _ _ (fun v => 0 <= v <= i64_max)).
  { destruct two.
    - rewrite i64_mul_ret by (unfold i64_min, i64_max; lia).
      apply returns_ret. unfold i64_max. lia.
    - apply returns_ret. unfold i64_max. lia. }
  intros v Hv. destruct (_ && _) eqn:E3; [by apply returns_ret|].
  destruct (i64_mul_guarded v factor Hv Hf E3) as [-> ?]. by apply returns_ret.
Qed.

Lemma scale_up_returns k m : 0 <= m <= i64_max ->
  returns (scale_up k m) (fun r => match r with Ok v => 0 <= v <= i64_max | Err _ => True end).
Proof.
  revert m. induction k as [|k IH]; intros m Hm; simpl; [by apply returns_ret|].
  destruct (Z.ltb_spec (Z.quot i64_max 10) m) as [?|Hle]; [by apply returns_ret|].
  rewrite Z.quot_div_nonneg in Hle by (unfold i64_max; lia).
  pose proof (Z.mul_div_le i64_max 10 ltac:(lia)).
  rewrite i64_mul_ret by (unfold i64_min; lia). simpl. apply IH. lia.
Qed.

Lemma blen_strip s : blen (strip_separators s) = Z.of_nat (length (strip_separators s)).
Proof. apply blen_digits, strip_all_digits. Qed.

Lemma all_digits_app a b : all_digits a = true -> all_digits b = true -> all_digits (a ++ b) = true.
Proof. unfold all_digits. rewrite forallb_app. by intros -> ->. Qed.

(** The decimal branch: the amount written with a fraction. *)
Lemma parse_digits_pair a b : (15 <? blen (strip_separators a) + blen (strip_separators b)) = false ->
  match parse_digits (strip_separators a ++ strip_separators b) with
  | Ok v => 0 <= v <= 10 ^ 15
  | Err _ => True
  end.
Proof.
  intros Hl. b2p. rewrite !blen_strip in Hl.
  assert (Hd : all_digits (strip_separators a ++ strip_separators b) = true)
    by (apply all_digits_app; apply strip_all_digits).
  destruct (strip_separators a ++ strip_separators b) as [|d ds] eqn:E; [done|].
  rewrite <- E in *. assert (length (strip_separators a ++ strip_separators b) <= 15)%nat
    by (rewrite length_app; lia).
  rewrite parse_digits_ok by (done || by rewrite E).
  pose proof (digits_val_bound _ Hd).
  assert (10 ^ Z.of_nat (length (strip_separators a ++ strip_separators b)) <= 10 ^ 15)
    by (apply Z.pow_le_mono_r; lia). lia.
Qed.

Lemma multipliers_ge_1 : Forall (fun m : rstr * Z => 1 <= m.2) MULTIPLIERS.
Proof. unfold MULTIPLIERS. repeat (constructor; [simpl; lia|]). constructor. Qed.

Lemma parse_single_returns body cur :
  Forall benign body -> returns (parse_single_amount body cur) amount_ok.
Proof.
  intros Hb. unfold parse_single_amount.
  eapply returns_bind.
  { apply strip_multiplier_returns; [by apply trim_Forall | apply multipliers_ge_1]. }
  intros [factor b] Hf. cbn in Hf.
  destruct (collect_digits b) as [ds|e]; [|by apply returns_ret].
  ret_if Ee.
  ret_if Es; [by apply finish_amount_returns; [apply strip_all_digits|] |].
  destruct (decimal_at ds cur) as [at_|]; [|by apply finish_amount_returns; [apply strip_all_digits|]].
  ret_if E4.
  ret_if E15.
  pose proof (parse_digits_pair _ _ E15) as Hp.
  destruct (parse_digits _) as [v|e]; [|by apply returns_ret].
  assert (Hv : 0 <= v <= i64_max) by (unfold i64_max; lia).
  match goal with |- returns (if ?b then _ else _) _ => destruct b end.
  - ret_if Eg.
    destruct (i64_mul_guarded v factor Hv Hf Eg) as [-> Hm]. cbn [run_bind].
    ret_if En. apply returns_ret. cbn.
    pose proof (Z.pow_pos_nonneg 10 (blen (strip_separators (skipn (S at_) ds))) ltac:(lia)
      (blen_nonneg _)).
    split; [apply Z.quot_pos; lia|].
    etransitivity; [apply Z.quot_le_upper_bound with (q := v * factor)|]; nia.
  - ret_if Ep.
    eapply returns_bind; [by apply scale_up_returns|].
    intros [m|e] Hm; [|by apply returns_ret].
    ret_if Eg.
    destruct (i64_mul_guarded m factor Hm Hf Eg) as [-> ?]. by apply returns_ret.
Qed.

(** ** The whole parser *)

Definition fixed (c : Z) : Prop := c <> sigma /\ to_lowercase [c] = [c].

Lemma fixed_is_benign s : Forall fixed s -> Forall benign s.
Proof. intros H. eapply Forall_impl; [exact H|]. intros c [? ?]. by apply fixed_benign. Qed.

Lemma fixed_lower s : Forall fixed s -> to_lowercase s = s.
Proof.
  intros H. rewrite lower_hom.
  - induction H as [|c s [_ E] H IH]; simpl; [done|]. by rewrite E, IH.
  - eapply Forall_impl; [exact H|]. by intros c [? _].
Qed.

Lemma detect_loop_infix syms s hint :
  exists a b, s = a ++ snd (detect_currency_loop syms s hint) ++ b.
Proof.
  induction syms as [|[tok cur] syms IH]; simpl.
  { exists [], []. by rewrite app_nil_r. }
  destruct (strip_prefix s tok) as [r|] eqn:E1.
  { apply strip_prefix_spec in E1 as ->. destruct (trim_infix r) as (a & b & E).
    exists (tok ++ a), b. simpl. rewrite <- app_assoc. by rewrite <- E. }
  destruct (strip_suffix s tok) as [r|] eqn:E2; [|exact IH].
  apply strip_suffix_spec in E2 as ->. destruct (trim_infix r) as (a & b & E).
  exists a, (b ++ tok). simpl. rewrite !app_assoc, <- (app_assoc a), <- E. done.
Qed.

Lemma detect_Forall (P : Z -> Prop) s hint :
  Forall P s -> Forall P (snd (detect_currency s hint)).
Proof.
  destruct (detect_loop_infix CURRENCY_SYMBOLS s hint) as (a & b & E).
  unfold detect_currency. rewrite E at 1. rewrite !Forall_app. tauto.
Qed.

Lemma detect_length s hint : (length (snd (detect_currency s hint)) <= length s)%nat.
Proof.
  destruct (detect_loop_infix CURRENCY_SYMBOLS s hint) as (a & b & E).
  unfold detect_currency. rewrite E at 2. rewrite !length_app. lia.
Qed.

Definition opt_amount_ok (o : option amount_result) : Prop :=
  match o with Some r => amount_ok r | None => True end.

Lemma checked_sum_ok a b cur : 0 <= a <= i64_max -> 0 <= b <= i64_max ->
  amount_ok (match i64_checked_add a b with Some v => Ok (v, cur) | None => Err TooLarge end).
Proof.
  intros. unfold i64_checked_add. destruct (in_i64 (a + b)) eqn:E; [|done].
  apply in_i64_spec in E. simpl. lia.
Qed.

(** The compound loop, given a recursive parser good on shorter suffixes. *)
Lemma compound_returns rec ms lower cur :
  Forall fixed lower -> Forall (fun m : rstr * Z => m.1 <> []) ms ->
  (forall a, Forall fixed a -> (length a < length lower)%nat -> returns (rec a cur) amount_ok) ->
  returns (compound_loop rec ms lower cur) opt_amount_ok.
Proof.
  intros Hl Hms Hrec. induction Hms as [|[ms_ m] ms Hne Hms IH]; simpl.
  { by apply returns_ret. }
  destruct (find lower ms_) as [pos|] eqn:Ef; [|exact IH].
  destruct (pos =? 0); [exact IH|].
  apply find_spec in Ef as (b & a & -> & ->).
  rewrite slice_to_app. cbn [run_bind].
  rewrite app_assoc, <- blen_app, slice_from_app. cbn [run_bind].
  rewrite <- app_assoc in *. rewrite !Forall_app in Hl. destruct Hl as (Hb & Hm & Ha).
  destruct (is_empty (trim b) || is_empty (trim a)); [exact IH|].
  destruct (negb (forallb digit_or_sep (trim b))); [exact IH|].
  apply (trim_Forall fixed) in Ha. apply (trim_Forall fixed) in Hb.
  destruct (all_digits (trim a)).
  - eapply returns_bind; [apply parse_single_returns|].
    + apply Forall_app. split; [by apply fixed_is_benign|].
      simpl. constructor; [by apply ascii_benign|].
      apply Forall_app. split; by apply fixed_is_benign.
    + intros r Hr. by apply returns_ret.
  - eapply returns_bind; [apply parse_single_returns|].
    { apply Forall_app. split; by apply fixed_is_benign. }
    intros [[vb c1]|e] Hvb; [|exact IH].
    eapply returns_bind; [apply Hrec; [done|] |].
    { pose proof (trim_length a). rewrite !length_app. destruct ms_; [done|]. simpl. lia. }
    intros [[va c2]|e] Hva; [|exact IH].
    apply returns_ret. simpl in *. by apply checked_sum_ok.
Qed.

Lemma multipliers_nonempty : Forall (fun m : rstr * Z => m.1 <> []) MULTIPLIERS.
Proof. unfold MULTIPLIERS. repeat (constructor; [done|]). constructor. Qed.

(** One level of the parser, given a good recursive parser on shorter suffixes of
    the lowercased body. *)
Lemma parse_amount_level f raw hint :
  Forall benign raw ->
  (forall a cur, Forall fixed a ->
     (length a < length (to_lowercase (snd (detect_currency (trim raw) hint))))%nat ->
     returns (parse_amount_fuel f a cur) amount_ok) ->
  returns (parse_amount_fuel (S f) raw hint) amount_ok.
Proof.
  intros Hb Hrec. cbn [parse_amount_fuel].
  ret_if Ee. ret_if En.
  apply (trim_Forall benign) in Hb. apply (detect_Forall benign _ hint) in Hb.
  destruct (detect_currency (trim raw) hint) as [cur body]. simpl in *.
  eapply returns_bind.
  { apply compound_returns; [apply lower_fixed | apply multipliers_nonempty |].
    intros a Ha Hlt. by apply Hrec. }
  intros [r|] Hr; [by apply returns_ret|]. by apply parse_single_returns.
Qed.

Lemma parse_amount_fixed f raw hint :
  Forall fixed raw -> (length raw < f)%nat -> returns (parse_amount_fuel f raw hint) amount_ok.
Proof.
  revert raw hint. induction f as [|f IH]; intros raw hint Hr Hl; [lia|].
  apply parse_amount_level; [by apply fixed_is_benign|].
  intros a cur Ha Hlt. apply IH; [done|].
  rewrite fixed_lower in Hlt by (by apply detect_Forall, trim_Forall).
  pose proof (detect_length (trim raw) hint). pose proof (trim_length raw). lia.
Qed.

Lemma parse_amount_returns raw hint :
  Forall benign raw -> returns (parse_amount raw hint) amount_ok.
Proof.
  intros Hb. unfold parse_amount, amount_fuel. apply parse_amount_level; [done|].
  intros a cur Ha Hlt. by apply parse_amount_fixed; [|lia].
Qed.

End Safety.

(** ** Plain amounts: digits and separators only *)

Section Plain.
Context {U : UnicodeCase} {UL : UnicodeCaseLaws}.

Definition plain (c : Z) : Prop := digit_or_sep c = true.

Lemma plain_range c : plain c -> c = 44 \/ c = 46 \/ 48 <= c <= 57.
Proof.
  unfold plain, digit_or_sep, is_ascii_digit. change (c! ".") with 46. change (c! ",") with 44. lia.
Qed.

Lemma plain_char c : plain c ->
  is_ascii c = true /\ is_whitespace c = false /\ ascii_lower c = c.
Proof.
  intros H%plain_range. unfold is_ascii, is_whitespace, ascii_lower, is_ascii_upper.
  repeat split; try lia. case_match; lia.
Qed.

Lemma digit_or_dot_plain s : Forall digit_or_dot s -> Forall plain s.
Proof.
  intros H. eapply Forall_impl; [exact H|]. unfold digit_or_dot, plain, digit_or_sep.
  intros c [Hc| ->]; [by rewrite Hc | done].
Qed.

Lemma plain_lower s : Forall plain s -> to_lowercase s = s.
Proof.
  intros H. rewrite lower_map.
  - induction H as [|c s Hc H IH]; simpl; [done|].
    destruct (plain_char c Hc) as (_ & _ & ->). by rewrite IH.
  - eapply Forall_impl; [exact H|]. intros c Hc. apply (plain_char c Hc).
Qed.

Lemma plain_trim s : Forall plain s -> trim s = s.
Proof.
  intros H. apply trim_no_ws. eapply Forall_impl; [exact H|].
  intros c Hc. apply (plain_char c Hc).
Qed.

(** No multiplier occurs in plain text. *)
Lemma multiplier_letters : Forall (fun m : rstr * Z => exists c, c ∈ m.1 /\ ~ plain c) MULTIPLIERS.
Proof.
  assert (H : forallb (fun m : rstr * Z => existsb (fun c => negb (digit_or_sep c)) m.1)
    MULTIPLIERS = true) by reflexivity.
  rewrite forallb_forall in H. apply Forall_forall. intros m Hm%list_elem_of_In%H.
  apply existsb_exists in Hm as (c & Hc & Hn). exists c. unfold plain.
  split; [by apply list_elem_of_In | by destruct (digit_or_sep c)].
Qed.

Lemma plain_compound rec s cur : Forall plain s ->
  compound_loop rec MULTIPLIERS s cur = Ret None.
Proof.
  intros Hs. induction multiplier_letters as [|[m k] ms (c & Hc & Hn) _ IH]; simpl; [done|].
  by rewrite (find_none plain s m c).
Qed.

Lemma plain_no_multiplier s body : Forall plain s ->
  strip_multiplier MULTIPLIERS body s = Ret (1, body).
Proof.
  intros Hs. induction multiplier_letters as [|[m k] ms (c & Hc & Hn) _ IH]; simpl; [done|].
  by rewrite (ends_with_none plain s m c).
Qed.

Lemma plain_collect s : Forall plain s -> collect_digits s = Ok s.
Proof.
  induction 1 as [|c s Hc Hs IH]; simpl; [done|]. unfold plain, digit_or_sep in Hc.
  by rewrite Hc, IH.
Qed.

Lemma plain_single s cur : Forall plain s -> s <> [] ->
  decimal_at s cur = None \/ currency_decimal_places cur = 0 ->
  parse_single_amount s cur = finish_amount (strip_separators s) cur 1.
Proof.
  intros Hs Hne Hd. unfold parse_single_amount.
  rewrite plain_trim, plain_lower, plain_no_multiplier by done. cbn [run_bind].
  rewrite plain_collect by done. destruct s as [|c s]; [done|]. cbn [is_empty].
  destruct Hd as [-> | ->]; [by destruct (_ && _) | done].
Qed.

(** What the parser does with [body] when no currency sign is attached. *)
Lemma plain_fuel f raw cur hint body :
  trim raw <> [] -> contains_char (trim raw) 45 = false ->
  detect_currency (trim raw) hint = (cur, body) -> Forall plain body -> body <> [] ->
  decimal_at body cur = None \/ currency_decimal_places cur = 0 ->
  parse_amount_fuel (S f) raw hint = finish_amount (strip_separators body) cur 1.
Proof.
  intros Hne Hm Hd Hb Hbne Hdec. cbn [parse_amount_fuel].
  destruct (is_empty (trim raw)) eqn:E; [by apply is_empty_nil in E|].
  change (c! "-") with 45. rewrite Hm, Hd. unfold try_parse_compound.
  rewrite plain_lower, plain_compound by done. cbn [run_bind]. by apply plain_single.
Qed.

Lemma finish_small digits cur places factor :
  all_digits digits = true -> digits <> [] -> (length digits <= 15)%nat ->
  currency_decimal_places cur = places -> (places = 0 \/ places = 2) -> 1 <= factor <= 10 ->
  finish_amount digits cur factor =
    Ret (Ok (digits_val digits * 10 ^ places * factor, to_uppercase cur)).
Proof.
  intros Hd Hne Hl Hp Hp2 Hf. unfold finish_amount. cbv zeta.
  assert (He : is_empty digits = false) by (by destruct digits).
  rewrite He. clear He.
  rewrite blen_digits, (proj2 (Z.ltb_ge _ _)) by (done || lia).
  rewrite parse_digits_ok by done.
  pose proof (digits_val_bound digits Hd).
  assert (10 ^ Z.of_nat (length digits) <= 10 ^ 15) by (apply Z.pow_le_mono_r; lia).
  rewrite Hp. unfold i64_max in *.
  assert (Hg : forall v, 0 <= v <= 10 ^ 17 ->
    (1 <? factor) && (Z.quot (2 ^ 63 - 1) factor <? v) = false /\ i64_mul v factor = Ret (v * factor)).
  { intros v Hv. split.
    - rewrite Z.quot_div_nonneg by lia. destruct (1 <? factor) eqn:?; [|done]. simpl.
      apply Z.ltb_ge. apply Z.div_le_lower_bound; nia.
    - apply i64_mul_ret. unfold i64_min, i64_max. nia. }
  destruct Hp2 as [-> | ->].
  - destruct (Hg (digits_val digits)) as [Hg1 Hg2]; [lia|]. simpl (0 =? 2). cbn [andb run_bind].
    rewrite Hg1, Hg2. cbn [run_bind]. by rewrite Z.mul_1_r.
  - simpl (2 =? 2). cbn [andb]. rewrite (proj2 (Z.ltb_ge _ _)) by (apply Z.div_le_lower_bound; lia).
    rewrite i64_mul_ret by (unfold i64_min, i64_max; lia). cbn [run_bind].
    destruct (Hg (digits_val digits * 100)) as [Hg1 Hg2]; [lia|]. by rewrite Hg1, Hg2.
Qed.

End Plain.

(** ** Printed amounts *)

Section Printed.
Context {U : UnicodeCase} {UL : UnicodeCaseLaws}.

Lemma upper_ascii_lit s : forallb is_ascii s = true -> to_uppercase s = map ascii_upper s.
Proof.
  intros H. apply upper_map. apply Forall_forall. intros c Hc%list_elem_of_In.
  rewrite forallb_forall in H. by apply H.
Qed.

Lemma places_vnd : currency_decimal_places (s! "VND") = 0.
Proof. unfold currency_decimal_places. by rewrite upper_ascii_lit. Qed.

Lemma places_two cur : cur = s! "USD" \/ cur = s! "AUD" -> currency_decimal_places cur = 2.
Proof. intros [-> | ->]; unfold currency_decimal_places; by rewrite upper_ascii_lit. Qed.

(** A digit never starts a currency sign. *)
Lemma no_sign_prefix d b tok cur :
  (tok, cur) ∈ CURRENCY_SYMBOLS -> 48 <= d <= 57 -> strip_prefix (d :: b) tok = None.
Proof.
  unfold CURRENCY_SYMBOLS. rewrite !elem_of_cons, elem_of_nil.
  intros [[= -> ->] | [[= -> ->] | [[= -> ->] | []]]] Hd;
    [change (s! "A$") with [65; 36] | change (s! "₫") with [8363] | change (s! "$") with [36]];
    cbn [strip_prefix]; by rewrite (proj2 (Z.eqb_neq _ d)) by lia.
Qed.

Lemma strip_suffix_last s a p q :
  s = a ++ p -> length p = length q -> p <> q -> strip_suffix s q = None.
Proof.
  intros -> Hl Hne. destruct (strip_suffix (a ++ p) q) as [r|] eqn:E; [|done].
  apply strip_suffix_spec, app_inj_2 in E as [_ ?]; done.
Qed.

(** A sign after a blank is recognised and removed with the blank. *)
Lemma detect_sign d b tok cur hint :
  (tok, cur) ∈ CURRENCY_SYMBOLS -> 48 <= d <= 57 -> Forall plain (d :: b) ->
  detect_currency ((d :: b) ++ 32 :: tok) hint = (cur, d :: b).
Proof.
  intros Hin Hd Hp.
  assert (Htrim : trim ((d :: b) ++ [32]) = d :: b).
  { apply trim_snoc_ws; [done | done |]. eapply Forall_impl; [exact Hp|].
    intros c Hc. apply (plain_char c Hc). }
  assert (Hpre : forall t c, (t, c) ∈ CURRENCY_SYMBOLS -> strip_prefix ((d :: b) ++ 32 :: tok) t = None)
    by (intros t c Ht; rewrite <- app_comm_cons; by eapply no_sign_prefix).
  assert (Hsuf : forall t, tok = t -> strip_suffix ((d :: b) ++ 32 :: tok) t = Some ((d :: b) ++ [32])).
  { intros t ->. apply strip_suffix_spec. by rewrite <- app_assoc. }
  unfold detect_currency. unfold CURRENCY_SYMBOLS in *.
  rewrite !elem_of_cons, elem_of_nil in Hin. cbn [detect_currency_loop].
  repeat rewrite (Hpre _ _) by (rewrite !elem_of_cons; eauto 6).
  destruct Hin as [[= -> ->] | [[= -> ->] | [[= -> ->] | []]]].
  - by rewrite (Hsuf (s! "A$") eq_refl), Htrim.
  - rewrite (strip_suffix_last _ (d :: b) (32 :: s! "₫") (s! "A$")) by done.
    by rewrite (Hsuf (s! "₫") eq_refl), Htrim.
  - rewrite (strip_suffix_last _ (d :: b) (32 :: s! "$") (s! "A$")) by done.
    rewrite (strip_suffix_last _ ((d :: b) ++ [32]) (s! "$") (s! "₫"))
      by (done || by rewrite <- app_assoc).
    by rewrite (Hsuf (s! "$") eq_refl), Htrim.
Qed.

(** Parsing a plain body followed by a blank and a currency sign. *)
Lemma parse_signed_body d b tok cur hint :
  (tok, cur) ∈ CURRENCY_SYMBOLS -> 48 <= d <= 57 -> Forall plain (d :: b) ->
  decimal_at (d :: b) cur = None \/ currency_decimal_places cur = 0 ->
  parse_amount ((d :: b) ++ 32 :: tok) hint = finish_amount (strip_separators (d :: b)) cur 1.
Proof.
  intros Hin Hd Hp Hdec.
  assert (Htok : exists t z, tok = t ++ [z] /\ is_whitespace z = false /\ contains_char tok 45 = false).
  { unfold CURRENCY_SYMBOLS in Hin. rewrite !elem_of_cons, elem_of_nil in Hin.
    destruct Hin as [[= -> ->] | [[= -> ->] | [[= -> ->] | []]]];
      [exists [65], 36 | exists [], 8363 | exists [], 36]; done. }
  destruct Htok as (t & z & Et & Hz & Hminus).
  assert (Htrim : trim ((d :: b) ++ 32 :: tok) = (d :: b) ++ 32 :: tok).
  { subst tok. change (32 :: t ++ [z]) with ((32 :: t) ++ [z]). rewrite app_assoc.
    rewrite <- app_comm_cons. apply trim_id; [|done].
    apply (plain_char d). by inversion Hp. }
  unfold parse_amount, amount_fuel. apply plain_fuel; rewrite ?Htrim; try done.
  - unfold contains_char in *. rewrite existsb_app.
    change (existsb (Z.eqb 45) (32 :: tok)) with (existsb (Z.eqb 45) tok).
    rewrite Hminus, orb_false_r. apply not_true_iff_false.
    intros (c & Hc & E)%existsb_exists. b2p. subst c.
    rewrite Forall_forall in Hp. apply list_elem_of_In, Hp, plain_range in Hc. lia.
  - by apply detect_sign.
Qed.

Lemma group_dec_shape a : 0 <= a ->
  exists d b, group_digits (dec a) = d :: b /\ 48 <= d <= 57 /\ Forall plain (d :: b)
    /\ strip_separators (d :: b) = dec a.
Proof.
  intros Ha. destruct (dec_spec a Ha) as (Hd & _ & Hne).
  destruct (digit_not_sign _ Hd Hne) as (d & ds & E & Hr).
  exists d, (group_loop (S (length ds)) 1 ds).
  rewrite <- group_digits_cons, <- E. repeat split; try lia.
  - apply digit_or_dot_plain. apply group_loop_chars. done.
  - by apply group_loop_strip.
Qed.

Lemma format_vnd a : 0 <= a -> format_minor a (s! "VND") = group_digits (dec a) ++ 32 :: s! "₫".
Proof.
  intros Ha. unfold format_minor. rewrite upper_ascii_lit by done.
  change (map ascii_upper (s! "VND")) with (s! "VND"). rewrite places_vnd. cbn [Z.eqb].
  rewrite (proj2 (Z.ltb_ge a 0)), Z.abs_eq by lia. reflexivity.
Qed.

Lemma parse_format_vnd a hint : 0 <= a < 10 ^ 15 ->
  parse_amount (format_minor a (s! "VND")) hint = Ret (Ok (a, s! "VND")).
Proof.
  intros Ha. rewrite format_vnd by lia.
  destruct (group_dec_shape a ltac:(lia)) as (d & b & E & Hd & Hp & Hs).
  destruct (dec_spec a ltac:(lia)) as (Hdig & Hv & Hne).
  rewrite E, (parse_signed_body d b _ (s! "VND")); try done.
  - pose proof (dec_length a 14 Ha) as Hlen.
    rewrite Hs, (finish_small _ _ 0) by (auto using places_vnd; lia).
    rewrite Hv, upper_ascii_lit by done. simpl (10 ^ 0). by rewrite !Z.mul_1_r.
  - right. left.
  - right. apply places_vnd.
Qed.

End Printed.

(** ** Two-decimal currencies, as printed *)

Section PrintedCents.
Context {U : UnicodeCase} {UL : UnicodeCaseLaws}.

Lemma last_separator_digits i p : all_digits p = true -> last_separator i p = None.
Proof.
  unfold all_digits. revert i. induction p as [|c p IH]; intros i H; [done|].
  simpl in H. b2p. cbn [last_separator]. rewrite IH by done.
  unfold is_ascii_digit in *. b2p. change (c! ".") with 46. change (c! ",") with 44.
  by rewrite !(proj2 (Z.eqb_neq _ _)) by lia.
Qed.

Lemma last_separator_app i g sep p : all_digits p = true -> sep = 44 \/ sep = 46 ->
  last_separator i (g ++ sep :: p) = Some (i + length g)%nat.
Proof.
  intros Hp Hs. revert i. induction g as [|c g IH]; intros i.
  - cbn [app last_separator]. rewrite last_separator_digits by done.
    simpl. rewrite Nat.add_0_r. by destruct Hs as [-> | ->].
  - rewrite <- app_comm_cons. cbn [last_separator]. rewrite IH. simpl. f_equal. lia.
Qed.

Lemma digits_val_zeros k s : digits_val (repeat 48 k ++ s) = digits_val s.
Proof. induction k as [|k IH]; [done|]. by rewrite <- IH. Qed.

Lemma all_digits_zeros k : all_digits (repeat 48 k) = true.
Proof. by induction k. Qed.

Lemma cents_pad n : 0 <= n < 100 ->
  all_digits (zero_pad 2 (dec n)) = true /\ length (zero_pad 2 (dec n)) = 2%nat
  /\ digits_val (zero_pad 2 (dec n)) = n.
Proof.
  intros Hn. destruct (dec_spec n ltac:(lia)) as (Hd & Hv & _).
  pose proof (dec_length n 1 Hn). unfold zero_pad. repeat split.
  - apply all_digits_app; [apply all_digits_zeros | done].
  - rewrite length_app, repeat_length. lia.
  - by rewrite digits_val_zeros.
Qed.

Definition cents_sign (cur : rstr) : rstr := if str_eqb cur (s! "AUD") then s! "A$" else s! "$".

Lemma format_cents a cur : cur = s! "USD" \/ cur = s! "AUD" -> 0 <= a ->
  format_minor a cur =
    (group_digits (dec (a / 100)) ++ 44 :: zero_pad 2 (dec (a mod 100))) ++ 32 :: cents_sign cur.
Proof.
  intros Hc Ha. unfold format_minor.
  assert (Hu : to_uppercase cur = cur)
    by (destruct Hc as [-> | ->]; rewrite upper_ascii_lit by done; done).
  rewrite Hu, (places_two cur Hc). cbn [Z.eqb].
  rewrite (proj2 (Z.ltb_ge a 0)), Z.abs_eq by lia.
  change (10 ^ 2) with 100. rewrite <- !app_assoc. destruct Hc as [-> | ->]; reflexivity.
Qed.

Lemma plain_digits p : all_digits p = true -> Forall plain p.
Proof.
  unfold all_digits. rewrite forallb_forall. intros H. apply Forall_forall.
  intros c Hc%list_elem_of_In%H. unfold plain, digit_or_sep. by rewrite Hc.
Qed.

Lemma strip_digits p : all_digits p = true -> strip_separators p = p.
Proof.
  unfold all_digits, strip_separators. induction p as [|c p IH]; simpl; [done|].
  intros H. b2p. rewrite H. f_equal. auto.
Qed.

Lemma parse_format_cents a cur hint :
  cur = s! "USD" \/ cur = s! "AUD" -> 0 <= a < 10 ^ 15 ->
  parse_amount (format_minor a cur) hint = Ret (Ok (a * 100, cur)).
Proof.
  intros Hc Ha. rewrite format_cents by (done || lia).
  assert (Hq : 0 <= a / 100 < 10 ^ 13)
    by (split; [apply Z.div_pos | apply Z.div_lt_upper_bound]; lia).
  pose proof (Z.mod_pos_bound a 100 ltac:(lia)) as Hm.
  destruct (group_dec_shape (a / 100) ltac:(lia)) as (d & b & E & Hd & Hp & Hs).
  destruct (dec_spec (a / 100) ltac:(lia)) as (Hqd & Hqv & Hqne).
  destruct (cents_pad _ Hm) as (Hpd & Hpl & Hpv). pose proof (dec_length (a / 100) 12 Hq) as Hql.
  set (pad := zero_pad 2 (dec (a mod 100))) in *.
  assert (Hs2 : strip_separators (d :: b ++ 44 :: pad) = dec (a / 100) ++ pad).
  { change (d :: b ++ 44 :: pad) with ((d :: b) ++ 44 :: pad). unfold strip_separators in *.
    rewrite List.filter_app, Hs. f_equal. simpl. by apply strip_digits. }
  rewrite E, <- (app_comm_cons b). rewrite (parse_signed_body d (b ++ 44 :: pad) _ cur); try done.
  - rewrite Hs2, (finish_small _ _ 2).
    + assert (Hu : to_uppercase cur = cur)
        by (destruct Hc as [-> | ->]; rewrite upper_ascii_lit by done; done).
      rewrite Hu, digits_val_app, Hqv, Hpv, Hpl. change (10 ^ Z.of_nat 2) with 100.
      change (10 ^ 2) with 100. do 3 f_equal. pose proof (Z.div_mod a 100). lia.
    + by apply all_digits_app.
    + by destruct (dec (a / 100)).
    + rewrite length_app, Hpl. lia.
    + by apply places_two.
    + by right.
    + lia.
  - destruct Hc as [-> | ->]; unfold CURRENCY_SYMBOLS; rewrite !elem_of_cons; cbn; auto.
  - rewrite app_comm_cons. apply Forall_app. split; [done|].
    constructor; [done | by apply plain_digits].
  - left. unfold decimal_at.
    change (d :: b ++ 44 :: pad) with ((d :: b) ++ 44 :: pad).
    rewrite last_separator_app by auto. rewrite (places_two cur Hc). cbn [Z.eqb Nat.add].
    rewrite app_nth2, Nat.sub_diag by lia. done.
Qed.

End PrintedCents.

(** ** Amounts with multipliers *)

Section Multiplied.
Context {U : UnicodeCase} {UL : UnicodeCaseLaws}.

Definition letters (s : rstr) : Prop := Forall (fun c => ~ plain c) s.

Lemma multiplier_all_letters : Forall (fun m : rstr * Z => letters m.1) MULTIPLIERS.
Proof.
  assert (H : forallb (fun m : rstr * Z => forallb (fun c => negb (digit_or_sep c)) m.1)
    MULTIPLIERS = true) by reflexivity.
  rewrite forallb_forall in H. apply Forall_forall. intros m Hm%list_elem_of_In%H.
  rewrite forallb_forall in Hm. apply Forall_forall. intros c Hc%list_elem_of_In%Hm.
  unfold plain. by destruct (digit_or_sep c).
Qed.

(** Text of digits, separators, lowercase ASCII and Vietnamese letters. *)
Definition lowered (c : Z) : bool :=
  (is_ascii c && negb (is_ascii_upper c)) || ((7840 <=? c) && (c <=? 7929) && Z.odd c).

Lemma lowered_lower s : forallb lowered s = true -> to_lowercase s = s.
Proof.
  intros H. assert (Hf : Forall fixed s).
  { rewrite forallb_forall in H. apply Forall_forall. intros c Hc%list_elem_of_In%H.
    unfold lowered in Hc. split.
    - unfold sigma, is_ascii in *. lia.
    - apply orb_true_iff in Hc as [Hc|Hc]; b2p.
      + rewrite lower_ascii by done. unfold ascii_lower. by rewrite H1.
      + by apply lower_vi. }
  by apply fixed_lower.
Qed.

Lemma lowered_app a b : forallb lowered a = true -> forallb lowered b = true ->
  forallb lowered (a ++ b) = true.
Proof. rewrite forallb_app. by intros -> ->. Qed.

Lemma lowered_plain s : Forall plain s -> forallb lowered s = true.
Proof.
  intros H. apply forallb_forall. intros c Hc. rewrite Forall_forall in H.
  apply list_elem_of_In, H, plain_range in Hc.
  unfold lowered, is_ascii, is_ascii_upper. lia.
Qed.

Lemma find_skip ds t m k : Forall plain ds -> (m, k) ∈ MULTIPLIERS ->
  find (ds ++ t) m = (fun o => blen ds + o) <$> find t m.
Proof.
  intros Hds Hm. pose proof multiplier_all_letters as Hl. rewrite Forall_forall in Hl.
  specialize (Hl _ Hm). pose proof multipliers_nonempty as Hn. rewrite Forall_forall in Hn.
  specialize (Hn _ Hm). simpl in *. destruct m as [|c m]; [done|]. inversion Hl; subst.
  unfold find. rewrite (find_from_skip plain) by done.
  rewrite Z.add_0_l. generalize (blen ds) as o. intros o. clear.
  enough (forall x, find_from t (c :: m) (o + x) = (fun y => o + y) <$> find_from t (c :: m) x) as E
    by (rewrite <- (Z.add_0_r o) at 1; apply E).
  induction t as [|z t IH]; intros x; cbn [find_from].
  - by destruct (starts_with [] _).
  - destruct (starts_with (z :: t) _); [done|].
    rewrite <- IH. f_equal. lia.
Qed.

(** [ds ++ t] is trimmed, is not negative and carries no currency sign. *)
Definition bare_tail (t : rstr) : bool :=
  negb (contains_char t 45) &&
  match rev t with
  | [] => true
  | z :: _ => negb (is_whitespace z) && negb (z =? 36) && negb (z =? 8363)
  end.

Lemma bare_trim ds t : all_digits ds = true -> ds <> [] -> bare_tail t = true ->
  trim (ds ++ t) = ds ++ t.
Proof.
  intros Hd Hne Ht. destruct (digit_not_sign ds Hd Hne) as (d & ds' & -> & Hr).
  assert (Hp : Forall plain (d :: ds')) by (by apply plain_digits).
  destruct (decide (t = [])) as [->|Htne]; [rewrite app_nil_r; by apply plain_trim|].
  destruct (exists_last Htne) as (t' & z & ->).
  unfold bare_tail in Ht. rewrite rev_app_distr in Ht. simpl in Ht. b2p.
  rewrite app_assoc, <- app_comm_cons. apply trim_id; [|done].
  apply (plain_char d). by inversion Hp.
Qed.

Lemma bare_no_minus ds t : all_digits ds = true -> bare_tail t = true ->
  contains_char (ds ++ t) 45 = false.
Proof.
  intros Hd Ht. unfold bare_tail, contains_char in *. b2p. rewrite existsb_app, H, orb_false_r.
  apply not_true_iff_false. intros (c & Hc & E)%existsb_exists. b2p. subst c.
  unfold all_digits in Hd. rewrite forallb_forall in Hd. by apply Hd in Hc.
Qed.

Lemma bare_detect ds t cur : all_digits ds = true -> ds <> [] -> bare_tail t = true -> cur <> [] ->
  detect_currency (ds ++ t) cur = (to_uppercase cur, ds ++ t).
Proof.
  intros Hd Hne Ht Hcur. destruct (digit_not_sign ds Hd Hne) as (d & ds' & E & Hr).
  assert (Hlast : exists r z, ds ++ t = r ++ [z] /\ z <> 36 /\ z <> 8363).
  { destruct (decide (t = [])) as [->|Htne].
    - rewrite app_nil_r. destruct (exists_last Hne) as (r & z & ->). exists r, z.
      unfold all_digits in Hd. rewrite forallb_app in Hd. simpl in Hd.
      unfold is_ascii_digit in Hd. b2p. repeat split; lia.
    - destruct (exists_last Htne) as (t' & z & ->). exists (ds ++ t'), z.
      unfold bare_tail in Ht. rewrite rev_app_distr in Ht. simpl in Ht. b2p.
      by rewrite app_assoc. }
  destruct Hlast as (r & z & El & Hz1 & Hz2).
  assert (Hs1 : forall q y, y <> z -> strip_suffix (ds ++ t) (q ++ [y]) = None).
  { intros q y Hy. destruct (strip_suffix (ds ++ t) (q ++ [y])) as [x|] eqn:Ex; [|done].
    apply strip_suffix_spec in Ex. rewrite El, app_assoc in Ex. apply app_inj_tail in Ex as [_ Ex]. congruence. }
  unfold detect_currency, CURRENCY_SYMBOLS. cbn [detect_currency_loop].
  rewrite E, <- app_comm_cons, !(no_sign_prefix d _ _ (s! "AUD")), app_comm_cons, <- E
    by (unfold CURRENCY_SYMBOLS; rewrite ?elem_of_cons; auto).
  change (s! "A$") with ([65] ++ [36]). rewrite Hs1 by congruence.
  rewrite E, <- app_comm_cons, !(no_sign_prefix d _ _ (s! "VND")), app_comm_cons, <- E
    by (unfold CURRENCY_SYMBOLS; rewrite ?elem_of_cons; auto).
  change (s! "₫") with ([] ++ [8363]). rewrite Hs1 by congruence.
  rewrite E, <- app_comm_cons, !(no_sign_prefix d _ _ (s! "USD")), app_comm_cons, <- E
    by (unfold CURRENCY_SYMBOLS; rewrite ?elem_of_cons; auto).
  change (s! "$") with ([] ++ [36]). rewrite Hs1 by congruence.
  by destruct cur.
Qed.

Lemma strip_multiplier_skip ms ds m : Forall plain ds ->
  Forall (fun e : rstr * Z => letters e.1) ms ->
  strip_multiplier ms (ds ++ m) (ds ++ m) =
  match List.find (fun e : rstr * Z => ends_with m e.1) ms with
  | Some (e, k) => let! b := slice_to (ds ++ m) (blen (ds ++ m) - blen e) in Ret (k, trim b)
  | None => Ret (1, ds ++ m)
  end.
Proof.
  intros Hds Hms. induction Hms as [|[e k] ms He Hms IH]; [done|]. cbn [strip_multiplier List.find].
  rewrite (ends_with_skip plain) by done. by destruct (ends_with m _).
Qed.

Lemma finish_vnd ds k : all_digits ds = true -> ds <> [] -> (length ds <= 15)%nat -> 1 < k ->
  finish_amount ds (s! "VND") k =
    Ret (if digits_val ds * k <=? i64_max then Ok (digits_val ds * k, s! "VND") else Err TooLarge).
Proof.
  intros Hd Hne Hl Hk. unfold finish_amount. cbv zeta.
  assert (He : is_empty ds = false) by (by destruct ds). rewrite He.
  rewrite blen_digits, (proj2 (Z.ltb_ge _ _)), parse_digits_ok by (done || lia).
  rewrite places_vnd. cbn [Z.eqb andb run_bind].
  pose proof (digits_val_bound ds Hd).
  rewrite (proj2 (Z.ltb_lt 1 k)), Z.quot_div_nonneg by (unfold i64_max; lia). cbn [andb].
  destruct (Z.leb_spec (digits_val ds * k) i64_max) as [Hle|Hgt].
  - rewrite (proj2 (Z.ltb_ge _ _)) by (apply Z.div_le_lower_bound; lia).
    rewrite i64_mul_ret by (unfold i64_min; nia). cbn [run_bind].
    by rewrite upper_ascii_lit.
  - rewrite (proj2 (Z.ltb_lt _ _)); [done|]. apply Z.div_lt_upper_bound; lia.
Qed.

(** The first multiplier that ends a multiplier word is the word itself. *)
Lemma multiplier_self m k : (m, k) ∈ MULTIPLIERS ->
  List.find (fun e : rstr * Z => ends_with m e.1) MULTIPLIERS = Some (m, k)
  /\ bare_tail m = true /\ forallb lowered m = true /\ 1 < k.
Proof.
  unfold MULTIPLIERS. rewrite !elem_of_cons, elem_of_nil.
  intros Hm. repeat destruct Hm as [[= -> ->] | Hm]; [split_and!; reflexivity.. | done].
Qed.

Lemma multiplied_single ds m k : (m, k) ∈ MULTIPLIERS ->
  all_digits ds = true -> ds <> [] -> (length ds <= 15)%nat ->
  parse_single_amount (ds ++ m) (s! "VND") = finish_amount ds (s! "VND") k.
Proof.
  intros Hm Hd Hne Hl. destruct (multiplier_self m k Hm) as (Hf & Hb & Hlo & Hk).
  pose proof (plain_digits ds Hd) as Hp. unfold parse_single_amount.
  rewrite bare_trim, lowered_lower by (done || by apply lowered_app; [apply lowered_plain|]).
  rewrite strip_multiplier_skip by (done || apply multiplier_all_letters). rewrite Hf.
  rewrite blen_app. replace (blen ds + blen m - blen m) with (blen ds) by lia.
  rewrite slice_to_app. cbn [run_bind]. rewrite plain_trim, plain_collect by done.
  destruct ds as [|d ds']; [done|]. cbn [is_empty].
  rewrite (proj2 (Z.eqb_neq k 1)), andb_false_r by lia.
  unfold decimal_at. rewrite last_separator_digits by done. by rewrite strip_digits.
Qed.

Lemma compound_skip rec e k ms ds t cur :
  (e, k) ∈ MULTIPLIERS -> Forall plain ds -> find t e = None ->
  compound_loop rec ((e, k) :: ms) (ds ++ t) cur = compound_loop rec ms (ds ++ t) cur.
Proof. intros He Hds Hf. cbn [compound_loop]. by rewrite (find_skip _ _ _ k), Hf. Qed.

(** A multiplier right after the digits: what follows decides. *)
Lemma compound_at rec e k ms ds t cur :
  (e, k) ∈ MULTIPLIERS -> all_digits ds = true -> ds <> [] -> find (e ++ t) e = Some 0 ->
  trim t = t ->
  compound_loop rec ((e, k) :: ms) (ds ++ e ++ t) cur =
    if is_empty t then compound_loop rec ms (ds ++ e ++ t) cur
    else if all_digits t then
      let! r := parse_single_amount (ds ++ s! "." ++ t ++ e) cur in Ret (Some r)
    else
      let! rb := parse_single_amount (ds ++ e) cur in
      match rb with
      | Err _ => compound_loop rec ms (ds ++ e ++ t) cur
      | Ok (val_before, _) =>
          let! ra := rec t cur in
          match ra with
          | Err _ => compound_loop rec ms (ds ++ e ++ t) cur
          | Ok (val_after, _) =>
              Ret (Some (match i64_checked_add val_before val_after with
                         | Some v => Ok (v, cur)
                         | None => Err TooLarge
                         end))
          end
      end.
Proof.
  intros He Hd Hne Hf Ht. pose proof (plain_digits ds Hd) as Hp. cbn [compound_loop].
  rewrite (find_skip _ _ _ k), Hf by done. cbn [fmap option_fmap option_map].
  rewrite Z.add_0_r. rewrite (proj2 (Z.eqb_neq _ 0)).
  2: { destruct ds as [|d ds']; [done|]. pose proof (char_len_pos d). pose proof (blen_nonneg ds').
       simpl. lia. }
  rewrite slice_to_app, <- blen_app. cbn [run_bind].
  rewrite (app_assoc ds e t), slice_from_app. cbn [run_bind]. rewrite <- app_assoc.
  rewrite (plain_trim ds), Ht by done.
  assert (Hed : is_empty ds = false) by (by destruct ds). rewrite Hed. cbn [orb].
  assert (Hall : forallb digit_or_sep ds = true).
  { apply forallb_forall. intros c Hc. rewrite Forall_forall in Hp. by apply Hp, list_elem_of_In. }
  rewrite Hall. done.
Qed.

(** The rest of a spelled-out "triệu" is not an amount. *)
Lemma trieu_rest f t : t = s! "iệu" \/ t = s! "ieu" ->
  parse_amount_fuel (S f) t (s! "VND") = Ret (Err InvalidCharacter).
Proof.
  intros Ht.
  assert (Hl : to_lowercase t = t) by (apply lowered_lower; by destruct Ht as [-> | ->]).
  assert (Htr : trim t = t) by (by destruct Ht as [-> | ->]).
  assert (Hdet : detect_currency t (s! "VND") = (s! "VND", t)).
  { unfold detect_currency. cbn [detect_currency_loop CURRENCY_SYMBOLS].
    destruct Ht as [-> | ->]; cbn; rewrite upper_ascii_lit by done; reflexivity. }
  cbn [parse_amount_fuel]. rewrite Htr, Hdet. unfold try_parse_compound, parse_single_amount.
  rewrite Htr, Hl. by destruct Ht as [-> | ->].
Qed.

Lemma compound_word f ds m k : (m, k) ∈ MULTIPLIERS ->
  all_digits ds = true -> ds <> [] -> (length ds <= 15)%nat ->
  compound_loop (parse_amount_fuel (S f)) MULTIPLIERS (ds ++ m) (s! "VND") = Ret None.
Proof.
  intros Hm Hd Hne Hl. pose proof (plain_digits ds Hd) as Hp.
  assert (Htr : forall t ms, t = s! "iệu" \/ t = s! "ieu" ->
    compound_loop (parse_amount_fuel (S f)) ((s! "tr", 1000000) :: ms) (ds ++ s! "tr" ++ t) (s! "VND")
    = compound_loop (parse_amount_fuel (S f)) ms (ds ++ s! "tr" ++ t) (s! "VND")).
  { intros t ms Ht. rewrite compound_at by first [done | in_mult | (by destruct Ht as [-> | ->])].
    assert (He : is_empty t = false /\ all_digits t = false) by (by destruct Ht as [-> | ->]).
    destruct He as [-> ->].
    rewrite (multiplied_single ds _ 1000000) by first [done | in_mult].
    rewrite finish_vnd by (done || lia). cbn [run_bind].
    case_match; [|done]. rewrite trieu_rest by done. cbn [run_bind]. by destruct t0. }
  assert (Hself : forall e kk ms, (e, kk) ∈ MULTIPLIERS -> find e e = Some 0 ->
    compound_loop (parse_amount_fuel (S f)) ((e, kk) :: ms) (ds ++ e) (s! "VND")
    = compound_loop (parse_amount_fuel (S f)) ms (ds ++ e) (s! "VND")).
  { intros e kk ms He Hfe. pose proof (compound_at (parse_amount_fuel (S f)) e kk ms ds [] (s! "VND") He Hd Hne) as Hc.
    rewrite app_nil_r in Hc. by apply Hc. }
  pose proof Hm as Hin. unfold MULTIPLIERS in Hm. rewrite !elem_of_cons, elem_of_nil in Hm.
  unfold MULTIPLIERS at 1.
  repeat destruct Hm as [[= -> ->] | Hm]; [.. | done];
  repeat first
    [ rewrite compound_skip by first [done | in_mult]
    | rewrite Hself by done
    | rewrite (Htr (s! "iệu")) by auto | rewrite (Htr (s! "ieu")) by auto ];
  done.
Qed.

(** ** Compound amounts such as "1tr5" *)

Lemma parse_amount_step f raw hint cur body :
  trim raw <> [] -> contains_char (trim raw) 45 = false ->
  detect_currency (trim raw) hint = (cur, body) ->
  parse_amount_fuel (S f) raw hint =
    let! compound := try_parse_compound (parse_amount_fuel f) body cur in
    match compound with Some r => Ret r | None => parse_single_amount body cur end.
Proof.
  intros Hne Hm Hd. change (parse_amount_fuel (S f) raw hint) with
    (let s := trim raw in
     if is_empty s then Ret (Err Empty)
     else if contains_char s (c! "-") then Ret (Err Negative)
     else
       let '(currency, body) := detect_currency s hint in
       let! compound := try_parse_compound (parse_amount_fuel f) body currency in
       match compound with Some r => Ret r | None => parse_single_amount body currency end).
  cbv zeta. destruct (is_empty (trim raw)) eqn:E; [by apply is_empty_nil in E|].
  change (c! "-") with 45. by rewrite Hm, Hd.
Qed.

(** Digits followed by a bare tail, with the currency taken from the VND hint. *)
Lemma parse_bare f ds t : all_digits ds = true -> ds <> [] -> bare_tail t = true ->
  forallb lowered t = true ->
  parse_amount_fuel (S f) (ds ++ t) (s! "VND") =
    let! compound := compound_loop (parse_amount_fuel f) MULTIPLIERS (ds ++ t) (s! "VND") in
    match compound with Some r => Ret r | None => parse_single_amount (ds ++ t) (s! "VND") end.
Proof.
  intros Hd Hne Ht Hlo. rewrite (parse_amount_step f _ _ (s! "VND") (ds ++ t)).
  - unfold try_parse_compound. rewrite lowered_lower; [done|].
    apply lowered_app; [by apply lowered_plain, plain_digits | done].
  - rewrite bare_trim by done. by destruct ds.
  - rewrite bare_trim by done. by apply bare_no_minus.
  - rewrite bare_trim, bare_detect by done. by rewrite upper_ascii_lit by done.
Qed.

Lemma plain_bare_trim a t : Forall plain a -> a <> [] -> bare_tail t = true -> trim (a ++ t) = a ++ t.
Proof.
  intros Hp Hne Ht. destruct a as [|d a]; [done|].
  destruct (decide (t = [])) as [->|Htne]; [rewrite app_nil_r; by apply plain_trim|].
  destruct (exists_last Htne) as (t' & z & ->).
  unfold bare_tail in Ht. rewrite rev_app_distr in Ht. simpl in Ht. b2p.
  rewrite app_assoc, <- app_comm_cons. apply trim_id; [|done].
  apply (plain_char d). by inversion Hp.
Qed.

(** [tr] is the only multiplier of a text of digits, separators, [t] and [r]. *)
Lemma find_tr_only ds2 e : Forall plain ds2 ->
  e = s! "triệu" \/ e = s! "trieu" \/ e = s! "củ" \/ e = s! "cu" ->
  find (s! "tr" ++ ds2) e = None.
Proof.
  intros Hp He. set (P := fun c => plain c \/ c = 116 \/ c = 114).
  assert (Hs : Forall P (s! "tr" ++ ds2)).
  { apply Forall_app. split.
    - change (s! "tr") with [116; 114]. do 2 (apply Forall_cons; split; [unfold P; auto|]). done.
    - eapply Forall_impl; [exact Hp|]. unfold P. auto. }
  assert (Hc : forall c, c = 105 \/ c = 99 -> ~ P c).
  { intros c Hc [Hpl%plain_range | Hx]; lia. }
  destruct He as [-> | [-> | [-> | ->]]];
    [apply (find_none P _ _ 105) | apply (find_none P _ _ 105)
    | apply (find_none P _ _ 99) | apply (find_none P _ _ 99)]; auto;
    apply list_elem_of_In; vm_compute; tauto.
Qed.

Definition pair_text (ds1 ds2 : rstr) : rstr := ds1 ++ s! "tr" ++ ds2.

Lemma pair_compound f ds1 ds2 :
  all_digits ds1 = true -> ds1 <> [] -> all_digits ds2 = true -> ds2 <> [] ->
  compound_loop (parse_amount_fuel f) MULTIPLIERS (pair_text ds1 ds2) (s! "VND") =
  let! r := parse_single_amount (ds1 ++ s! "." ++ ds2 ++ s! "tr") (s! "VND") in Ret (Some r).
Proof.
  intros H1 Hn1 H2 Hn2. unfold pair_text, MULTIPLIERS at 1.
  pose proof (plain_digits _ H1). pose proof (plain_digits _ H2).
  do 4 (rewrite compound_skip by first [done | in_mult | (by apply find_tr_only; auto)]).
  rewrite compound_at by first [done | in_mult | (by apply plain_trim) | apply find_head].
  assert (He : is_empty ds2 = false) by (by destruct ds2). by rewrite He, H2.
Qed.

(** Digits around a decimal point: what follows it, what is left without it, and how large
    the number without it can be. *)
Lemma skip_pair ds1 ds2 : skipn (S (length ds1)) (ds1 ++ 46 :: ds2) = ds2.
Proof.
  rewrite skipn_app, skipn_all2 by lia. by replace (S (length ds1) - length ds1)%nat with 1%nat by lia.
Qed.
Lemma strip_pair ds1 ds2 : all_digits ds1 = true -> all_digits ds2 = true ->
  strip_separators (ds1 ++ 46 :: ds2) = ds1 ++ ds2.
Proof.
  intros H1 H2. unfold strip_separators. rewrite List.filter_app. cbn [List.filter].
  change (is_ascii_digit 46) with false. cbv iota.
  fold (strip_separators ds1) (strip_separators ds2). by rewrite !strip_digits.
Qed.
Lemma digits_below ds n : all_digits ds = true -> (length ds <= n)%nat -> 0 <= digits_val ds < 10 ^ Z.of_nat n.
Proof.
  intros Hd Hl. pose proof (digits_val_bound _ Hd).
  assert (10 ^ Z.of_nat (length ds) <= 10 ^ Z.of_nat n) by (apply Z.pow_le_mono_r; lia). lia.
Qed.

Lemma pair_single ds1 ds2 :
  all_digits ds1 = true -> ds1 <> [] -> all_digits ds2 = true -> ds2 <> [] ->
  (length ds1 + length ds2 <= 12)%nat -> (length ds2 <= 4)%nat ->
  let v := digits_val ds1 * 10 ^ Z.of_nat (length ds2) + digits_val ds2 in
  parse_single_amount (ds1 ++ s! "." ++ ds2 ++ s! "tr") (s! "VND") =
  Ret (Ok (if (length ds2 =? 3)%nat then v * 1000000
           else v * 10 ^ (6 - Z.of_nat (length ds2)), s! "VND")).
Proof.
  intros H1 Hn1 H2 Hn2 Hl12 Hl2 v. change (s! ".") with [46].
  set (a := ds1 ++ 46 :: ds2).
  replace (ds1 ++ [46] ++ ds2 ++ s! "tr") with (a ++ s! "tr") by (unfold a; by rewrite <- app_assoc).
  assert (Hpa : Forall plain a).
  { apply Forall_app. split; [by apply plain_digits|]. constructor; [done | by apply plain_digits]. }
  assert (Hane : a <> []) by (by destruct ds1).
  unfold parse_single_amount.
  rewrite plain_bare_trim, lowered_lower by (done || (apply lowered_app; [by apply lowered_plain | done])).
  rewrite strip_multiplier_skip by (done || apply multiplier_all_letters).
  change (List.find (fun e : rstr * Z => ends_with (s! "tr") e.1) MULTIPLIERS)
    with (Some (s! "tr", 1000000)).
  rewrite blen_app. replace (blen a + _ - _) with (blen a) by lia.
  rewrite slice_to_app. cbn [run_bind]. rewrite plain_trim, plain_collect by done.
  assert (Hea : is_empty a = false) by (by destruct a). rewrite Hea, places_vnd.
  cbn [Z.eqb Pos.eqb andb]. unfold decimal_at, a. rewrite last_separator_app by auto. cbn [Nat.add].
  rewrite skip_pair, strip_digits, blen_digits, places_vnd by done. cbn [Z.eqb].
  assert (He2 : is_empty ds2 = false) by (by destruct ds2). rewrite He2. cbn [negb andb].
  assert (Hd : all_digits (ds1 ++ ds2) = true) by (by apply all_digits_app).
  assert (Hne : ds1 ++ ds2 <> []) by (by destruct ds1).
  assert (Hv : digits_val (ds1 ++ ds2) = v) by apply digits_val_app.
  assert (Hl : (length (ds1 ++ ds2) <= 12)%nat) by (rewrite length_app; lia).
  pose proof (digits_below _ 12 Hd Hl) as Hb. rewrite Hv in Hb.
  destruct (Nat.eqb_spec (length ds2) 3) as [E3|E3].
  - rewrite E3. cbn [Z.of_nat Pos.of_succ_nat Pos.succ Z.eqb Pos.eqb negb].
    rewrite strip_pair, finish_vnd by (done || lia). rewrite Hv.
    by rewrite (proj2 (Z.leb_le _ _)) by (unfold i64_max; lia).
  - rewrite (proj2 (Z.eqb_neq _ 3)) by lia. cbn [negb].
    rewrite skip_pair, firstn_app, firstn_all, Nat.sub_diag, firstn_O, app_nil_r.
    rewrite !strip_digits, !blen_digits by done.
    rewrite (proj2 (Z.ltb_ge 4 _)), (proj2 (Z.ltb_ge 15 _)) by lia.
    rewrite parse_digits_ok by (done || lia). rewrite Hv. cbv zeta.
    change (1 <? 1000000) with true. change (Z.quot i64_max 1000000) with 9223372036854. cbn [andb].
    rewrite (proj2 (Z.ltb_ge _ _)) by lia.
    rewrite i64_mul_ret by (unfold i64_min, i64_max; lia). cbn [run_bind].
    set (n := Z.of_nat (length ds2)).
    assert (Hn : 0 <= n <= 4) by (unfold n; lia).
    assert (E6 : v * 1000000 = v * 10 ^ (6 - n) * 10 ^ n)
      by (rewrite <- Z.mul_assoc, <- Z.pow_add_r, Z.sub_add by lia; done).
    assert (Hpos : 10 ^ n <> 0) by (apply Z.pow_nonzero; lia).
    rewrite E6, Z.rem_mul, Z.quot_mul by done. done.
Qed.

Lemma pair_parse ds1 ds2 :
  all_digits ds1 = true -> ds1 <> [] -> all_digits ds2 = true -> ds2 <> [] ->
  (length ds1 + length ds2 <= 12)%nat -> (length ds2 <= 4)%nat ->
  let v := digits_val ds1 * 10 ^ Z.of_nat (length ds2) + digits_val ds2 in
  parse_amount (pair_text ds1 ds2) (s! "VND") =
  Ret (Ok (if (length ds2 =? 3)%nat then v * 1000000
           else v * 10 ^ (6 - Z.of_nat (length ds2)), s! "VND")).
Proof.
  intros H1 Hn1 H2 Hn2 Hl12 Hl2 v. unfold parse_amount, amount_fuel.
  pose proof (plain_digits _ H2) as Hp2.
  assert (Hbt : bare_tail (s! "tr" ++ ds2) = true).
  { unfold bare_tail. apply andb_true_iff. split.
    - unfold contains_char. rewrite existsb_app. apply negb_true_iff.
      change (existsb (Z.eqb 45) (s! "tr")) with false. cbn [orb]. apply not_true_iff_false.
      intros (c & Hc & E)%existsb_exists. b2p. subst c.
      rewrite Forall_forall in Hp2. apply list_elem_of_In, Hp2, plain_range in Hc. lia.
    - destruct (exists_last Hn2) as (r & z & ->). rewrite app_assoc, rev_app_distr. simpl.
      rewrite Forall_app, Forall_singleton in Hp2. destruct Hp2 as [_ Hz].
      destruct (plain_char z Hz) as (_ & -> & _). apply plain_range in Hz.
      rewrite !(proj2 (Z.eqb_neq _ _)) by lia. done. }
  unfold pair_text at 2. rewrite parse_bare; [|done|done|done|].
  - fold (pair_text ds1 ds2). by rewrite pair_compound, pair_single by done.
  - apply lowered_app; [done | by apply lowered_plain].
Qed.

Lemma multiplied_parse ds m k : (m, k) ∈ MULTIPLIERS ->
  all_digits ds = true -> ds <> [] -> (length ds <= 15)%nat ->
  parse_amount (ds ++ m) (s! "VND") =
    Ret (if digits_val ds * k <=? i64_max then Ok (digits_val ds * k, s! "VND") else Err TooLarge).
Proof.
  intros Hm Hd Hne Hl. destruct (multiplier_self m k Hm) as (_ & Hb & Hlo & Hk).
  unfold parse_amount, amount_fuel. rewrite parse_bare, (compound_word _ ds m k) by done.
  cbn [run_bind]. by rewrite (multiplied_single ds m k), finish_vnd by done.
Qed.

End Multiplied.

(** ** Termination, and where slicing panics *)

Section Termination.
Context {U : UnicodeCase} {UL : UnicodeCaseLaws}.

Definition stops {A} (m : run A) : Prop := m <> Timeout.

Lemma stops_bind {A B} (m : run A) (f : A -> run B) :
  stops m -> (forall a, stops (f a)) -> stops (run_bind m f).
Proof. unfold stops. destruct m; simpl; auto; discriminate. Qed.

Lemma stops_ret {A} (a : A) : stops (Ret a).
Proof. discriminate. Qed.

Lemma stops_mul a b : stops (i64_mul a b).
Proof. unfold i64_mul. by destruct (in_i64 _). Qed.

Lemma stops_split s n : stops (split_at s n).
Proof.
  revert n. induction s as [|c s IH]; intros n; simpl; repeat case_match; try discriminate.
  apply stops_bind; [apply IH|]. intros [? ?]. apply stops_ret.
Qed.

Lemma stops_slice_to s n : stops (slice_to s n).
Proof. apply stops_bind; [apply stops_split | intros [? ?]; apply stops_ret]. Qed.

Lemma stops_slice_from s n : stops (slice_from s n).
Proof. apply stops_bind; [apply stops_split | intros [? ?]; apply stops_ret]. Qed.

Lemma stops_multiplier ms b l : stops (strip_multiplier ms b l).
Proof.
  induction ms as [|[e k] ms IH]; simpl; [apply stops_ret|]. case_match; [|done].
  apply stops_bind; [apply stops_slice_to | intros; apply stops_ret].
Qed.

Lemma stops_scale k m : stops (scale_up k m).
Proof.
  revert m. induction k as [|k IH]; intros m; simpl; [apply stops_ret|].
  case_match; [apply stops_ret|]. apply stops_bind; [apply stops_mul | apply IH].
Qed.

(** Walk the code: every branch is a value, a total operation or a bind of such. *)
Ltac stop_tac :=
  repeat first
    [ apply stops_ret | apply stops_mul | apply stops_scale | apply stops_multiplier
    | apply stops_slice_to | apply stops_slice_from
    | apply stops_bind; [|intros ?]
    | case_match ].

Lemma stops_finish d c f : stops (finish_amount d c f).
Proof. unfold finish_amount. cbv zeta. stop_tac. Qed.

Lemma stops_single b c : stops (parse_single_amount b c).
Proof.
  unfold parse_single_amount. cbv zeta. apply stops_bind; [apply stops_multiplier|].
  intros [f x]. case_match; [|apply stops_ret]. case_match; [apply stops_ret|].
  case_match; [apply stops_finish|]. case_match; [|apply stops_finish]. stop_tac.
Qed.

Lemma stops_compound rec ms lower cur :
  Forall (fun m : rstr * Z => m.1 <> []) ms ->
  (forall a, (exists b e, lower = b ++ e ++ a /\ e <> []) -> forall x y, a = x ++ trim a ++ y ->
     stops (rec (trim a) cur)) ->
  stops (compound_loop rec ms lower cur).
Proof.
  intros Hms Hrec. induction Hms as [|[e k] ms Hne Hms IH]; simpl; [apply stops_ret|].
  destruct (find lower e) as [pos|] eqn:Ef; [|done]. case_match; [done|].
  apply find_spec in Ef as (b & a & El & ->). subst lower.
  rewrite slice_to_app. cbn [run_bind]. rewrite app_assoc, <- blen_app, slice_from_app.
  cbn [run_bind]. rewrite <- app_assoc. case_match; [done|]. case_match; [done|]. case_match.
  - apply stops_bind; [apply stops_single | intros; apply stops_ret].
  - apply stops_bind; [apply stops_single|]. intros [[? ?]|?]; [|done].
    apply stops_bind; [|intros [[? ?]|?]; [apply stops_ret | done]].
    destruct (trim_infix a) as (x & y & E). eapply Hrec; eauto.
Qed.

Lemma infix_fixed a x y : a = x ++ trim a ++ y -> Forall fixed a -> Forall fixed (trim a).
Proof. intros E H. rewrite E, !Forall_app in H. tauto. Qed.

Lemma stops_level f raw hint :
  (forall a cur, Forall fixed a ->
     (length a < length (to_lowercase (snd (detect_currency (trim raw) hint))))%nat ->
     stops (parse_amount_fuel f a cur)) ->
  stops (parse_amount_fuel (S f) raw hint).
Proof.
  intros Hrec. cbn [parse_amount_fuel]. case_match; [apply stops_ret|]. case_match; [apply stops_ret|].
  destruct (detect_currency (trim raw) hint) as [cur body]. simpl in Hrec.
  apply stops_bind; [|intros [r|]; [apply stops_ret | apply stops_single]].
  apply stops_compound; [apply multipliers_nonempty|].
  intros a (b & e & El & Hne) x y E. pose proof (lower_fixed body) as Hf.
  rewrite El, !Forall_app in Hf. destruct Hf as (_ & _ & Hf).
  apply Hrec; [by eapply infix_fixed|]. rewrite El, !length_app.
  pose proof (trim_length a). destruct e; [done|]. simpl. lia.
Qed.

Lemma stops_fixed f raw hint : Forall fixed raw -> (length raw < f)%nat ->
  stops (parse_amount_fuel f raw hint).
Proof.
  revert raw hint. induction f as [|f IH]; intros raw hint Hr Hl; [lia|].
  apply stops_level. intros a cur Ha Hlt. apply IH; [done|].
  rewrite fixed_lower in Hlt by (by apply detect_Forall, trim_Forall).
  pose proof (detect_length (trim raw) hint). pose proof (trim_length raw). lia.
Qed.

(** A slice that ends inside the last character. *)
Lemma split_at_inside a c n : 0 < n < char_len c -> split_at (a ++ [c]) (blen a + n) = Panic.
Proof.
  intros Hn. induction a as [|x a IH]; simpl.
  - rewrite (proj2 (Z.eqb_neq _ _)), (proj2 (Z.ltb_lt _ _)) by lia. done.
  - pose proof (char_len_pos x). pose proof (blen_nonneg a).
    rewrite (proj2 (Z.eqb_neq _ _)), (proj2 (Z.ltb_ge _ _)) by lia.
    replace (char_len x + blen a + n - char_len x) with (blen a + n) by lia. by rewrite IH.
Qed.

(** A digit string followed by the Kelvin sign lowercases to one followed by k. *)
Lemma kelvin_lower ds : to_lowercase [8490] = [107] -> Forall plain ds ->
  to_lowercase (ds ++ [8490]) = ds ++ [107].
Proof.
  intros Hk Hp.
  assert (Hs : Forall (fun c => c <> sigma) ds).
  { eapply Forall_impl; [exact Hp|]. intros c Hc%plain_range. unfold sigma. lia. }
  rewrite lower_hom.
  - rewrite map_app, concat_app. simpl. rewrite Hk. f_equal.
    rewrite <- lower_hom by done. by apply plain_lower.
  - apply Forall_app. split; [done | by repeat constructor].
Qed.

Lemma kelvin_single ds cur :
  to_lowercase [8490] = [107] -> all_digits ds = true -> ds <> [] ->
  parse_single_amount (ds ++ [8490]) cur = Panic.
Proof.
  intros Hk Hd Hne. pose proof (plain_digits ds Hd) as Hp. unfold parse_single_amount.
  rewrite plain_bare_trim by done.
  rewrite kelvin_lower by done.
  assert (Hend : forall e k, (e, k) ∈ MULTIPLIERS -> ends_with (ds ++ [107]) e = ends_with [107] e).
  { intros e k He. apply (ends_with_skip plain); [done|].
    pose proof multiplier_all_letters as Hm. rewrite Forall_forall in Hm. exact (Hm _ He). }
  assert (Hs : slice_to (ds ++ [8490]) (blen (ds ++ [8490]) - 1) = Panic).
  { unfold slice_to. rewrite blen_app. change (blen [8490]) with 3.
    replace (blen ds + 3 - 1) with (blen ds + 2) by lia. by rewrite split_at_inside. }
  unfold MULTIPLIERS at 1. cbn [strip_multiplier].
  do 6 (erewrite Hend by in_mult).
  do 5 (match goal with |- context [ends_with [107] ?e] =>
          change (ends_with [107] e) with false; cbv iota end).
  change (ends_with [107] (s! "k")) with true. cbv iota.
  change (blen (s! "k")) with 1. by rewrite Hs.
Qed.

End Termination.

(** ** Properties *)

(** C35. On every text whose characters keep their byte length when lowercased (in
    particular ASCII and Vietnamese text), [parse_amount] terminates without a
    panic, an out-of-boundary slice or an integer overflow, and an accepted amount
    is a non-negative [i64]. *)
Theorem parse_amount_total (U : UnicodeCase) (UL : UnicodeCaseLaws) raw hint :
  Forall benign raw ->
  exists r, parse_amount raw hint = Ret r /\
    match r with Ok (v, _) => 0 <= v <= i64_max | Err _ => True end.
Proof. intros Hb. exact (parse_amount_returns raw hint Hb). Qed.

Example parse_amount_total_witness :
  exists r, @parse_amount vi_case (s! "1tr500k") (s! "VND") = Ret r /\
    match r with Ok (v, _) => 0 <= v <= i64_max | Err _ => True end.
Proof.
  apply (parse_amount_total vi_case vi_case_laws).
  repeat (constructor; [by apply (@ascii_benign vi_case vi_case_laws)|]). constructor.
Defined.

(** [parse_amount] terminates on every input: the mutual recursion with
    [try_parse_compound] is on strictly shorter suffixes of the lowercased text, so
    the fuel [amount_fuel] is never exhausted. *)
Theorem parse_amount_terminates (U : UnicodeCase) (UL : UnicodeCaseLaws) raw hint :
  parse_amount raw hint <> Timeout.
Proof.
  unfold parse_amount, amount_fuel. apply stops_level.
  intros a cur Ha Hlt. apply stops_fixed; [done | lia].
Qed.

Example parse_amount_terminates_witness : @parse_amount vi_case [53; 8490] (s! "VND") <> Timeout.
Proof. apply (parse_amount_terminates vi_case vi_case_laws). Defined.



(** The two-decimal currencies do not round-trip: the display uses a decimal
    comma, which the parser takes for a grouping separator, so the text printed for
    a USD or AUD amount parses to one hundred times that amount. *)
Theorem format_parse_cents_hundredfold (U : UnicodeCase) (UL : UnicodeCaseLaws) a cur hint :
  cur = s! "USD" \/ cur = s! "AUD" -> 0 <= a < 10 ^ 15 ->
  parse_amount (format_minor a cur) hint = Ret (Ok (a * 100, cur)).
Proof. apply parse_format_cents. Qed.

Example format_parse_cents_hundredfold_witness :
  @parse_amount vi_case (@format_minor vi_case 123456 (s! "USD")) (s! "USD")
  = Ret (Ok (123456 * 100, s! "USD")).
Proof. apply (format_parse_cents_hundredfold vi_case vi_case_laws); [by left | lia]. Defined.

(** Multipliers: a number of at most 15 digits followed by one of the
    multiplier words (triệu, trieu, củ, cu, tr, k) is that number times the
    multiplier, and is rejected as too large exactly when the product leaves i64. *)
Theorem parse_amount_multiplier (U : UnicodeCase) (UL : UnicodeCaseLaws) ds m k :
  (m, k) ∈ MULTIPLIERS -> all_digits ds = true -> ds <> [] -> (length ds <= 15)%nat ->
  parse_amount (ds ++ m) (s! "VND") =
    Ret (if digits_val ds * k <=? i64_max then Ok (digits_val ds * k, s! "VND") else Err TooLarge).
Proof. apply multiplied_parse. Qed.

Example parse_amount_multiplier_witness :
  @parse_amount vi_case (s! "45" ++ s! "k") (s! "VND") = Ret (Ok (45000, s! "VND")).
Proof. apply (parse_amount_multiplier vi_case vi_case_laws (s! "45") (s! "k") 1000); [in_mult | done | done | simpl; lia]. Defined.

(** Compound amounts: "XtrY" with one, two or four digits Y reads as X million
    plus the decimal fraction Y of a million ("1tr5" is 1 500 000). *)
Theorem parse_amount_compound (U : UnicodeCase) (UL : UnicodeCaseLaws) ds1 ds2 :
  all_digits ds1 = true -> ds1 <> [] -> all_digits ds2 = true ->
  length ds2 ∈ [1; 2; 4]%nat -> (length ds1 + length ds2 <= 12)%nat ->
  parse_amount (ds1 ++ s! "tr" ++ ds2) (s! "VND") =
    Ret (Ok (digits_val ds1 * 10 ^ 6 + digits_val ds2 * 10 ^ (6 - Z.of_nat (length ds2)), s! "VND")).
Proof.
  intros H1 Hn1 H2 Hl Hl12. rewrite !elem_of_cons, elem_of_nil in Hl.
  assert (ds2 <> []) by (intros ->; simpl in Hl; lia).
  pose proof (pair_parse ds1 ds2) as Hp. unfold pair_text in Hp. rewrite Hp by (done || lia).
  destruct (Nat.eqb_spec (length ds2) 3) as [?|_]; [lia|].
  replace (10 ^ 6) with (10 ^ Z.of_nat (length ds2) * 10 ^ (6 - Z.of_nat (length ds2)))
    by (rewrite <- Z.pow_add_r by lia; f_equal; lia).
  do 3 f_equal. lia.
Qed.

Example parse_amount_compound_witness :
  @parse_amount vi_case (s! "1" ++ s! "tr" ++ s! "5") (s! "VND") = Ret (Ok (1500000, s! "VND")).
Proof.
  apply (parse_amount_compound vi_case vi_case_laws (s! "1") (s! "5"));
    [done | done | done | left | simpl; lia].
Defined.

(** With exactly three digits after the multiplier the fraction is read as a
    thousands group instead: "XtrYYY" is (1000 X + YYY) million, a thousand times
    the amount the other forms would give ("1tr500" is 1 500 000 000). *)
Theorem parse_amount_compound_three (U : UnicodeCase) (UL : UnicodeCaseLaws) ds1 ds2 :
  all_digits ds1 = true -> ds1 <> [] -> all_digits ds2 = true -> length ds2 = 3%nat ->
  (length ds1 <= 9)%nat ->
  parse_amount (ds1 ++ s! "tr" ++ ds2) (s! "VND") =
    Ret (Ok (1000 * (digits_val ds1 * 10 ^ 6 + digits_val ds2 * 10 ^ 3), s! "VND")).
Proof.
  intros H1 Hn1 H2 Hl Hl1. assert (ds2 <> []) by (by intros ->).
  pose proof (pair_parse ds1 ds2) as Hp. unfold pair_text in Hp. rewrite Hp by (done || lia).
  rewrite Hl. simpl (_ =? _)%nat. cbv iota. change (10 ^ Z.of_nat 3) with 1000.
  do 3 f_equal. lia.
Qed.

Example parse_amount_compound_three_witness :
  @parse_amount vi_case (s! "1" ++ s! "tr" ++ s! "500") (s! "VND") = Ret (Ok (1500000000, s! "VND")).
Proof.
  apply (parse_amount_compound_three vi_case vi_case_laws (s! "1") (s! "500"));
    [done | done | done | done | simpl; lia].
Defined.

(** The byte-length hypothesis of totality is needed: the Kelvin sign U+212A (three
    bytes) lowercases to the one-byte letter k, and a number followed by it makes
    the suffix stripping of [parse_single_amount] slice inside that character, so
    [parse_amount] panics. *)
Theorem parse_amount_kelvin_panics (U : UnicodeCase) (UL : UnicodeCaseLaws) ds :
  to_lowercase [8490] = [107] -> all_digits ds = true -> ds <> [] -> (length ds <= 15)%nat ->
  parse_amount (ds ++ [8490]) (s! "VND") = Panic.
Proof.
  intros Hk Hd Hne Hl. unfold parse_amount, amount_fuel.
  rewrite (parse_amount_step _ _ _ (s! "VND") (ds ++ [8490])).
  - unfold try_parse_compound. rewrite kelvin_lower by (done || by apply plain_digits).
    change [107] with (s! "k"). rewrite (compound_word _ ds _ 1000) by first [done | in_mult].
    cbn [run_bind]. by apply kelvin_single.
  - rewrite bare_trim by done. by destruct ds.
  - rewrite bare_trim by done. by apply bare_no_minus.
  - rewrite bare_trim, bare_detect by done. by rewrite upper_ascii_lit by done.
Qed.

Example parse_amount_kelvin_panics_witness :
  @parse_amount vi_case (s! "5" ++ [8490]) (s! "VND") = Panic.
Proof. apply (parse_amount_kelvin_panics vi_case vi_case_laws); [done | done | done | simpl; lia]. Defined.
