(* ===== verification/Errors.v ===== *)
(** * Error classes and exit codes ([src/src/error.rs]) *)

From S2P Require Import Prelude RustStr.

Module Errors.

Inductive ErrorClass :=
| Validation | NotFound | Conflict | Forbidden | ConsentRequired | QuotaExceeded
| Unsupported | Duplicate | Auth | RateLimited | Timeout | ProviderError
| ProviderAmbiguous | Transient | KillSwitch | Internal | Config | Dependency
| Migration | Permission | Cancelled | PreflightFailed | HealthFailed.

#[export] Instance ErrorClass_eq_dec : EqDecision ErrorClass.
Proof. solve_decision. Defined.

(** [ErrorClass::as_str]. *)
Definition as_str (c : ErrorClass) : rstr :=
  match c with
  | Validation => s! "validation"
  | NotFound => s! "not_found"
  | Conflict => s! "conflict"
  | Forbidden => s! "forbidden"
  | ConsentRequired => s! "consent_required"
  | QuotaExceeded => s! "quota_exceeded"
  | Unsupported => s! "unsupported"
  | Duplicate => s! "duplicate"
  | Auth => s! "auth"
  | RateLimited => s! "rate_limited"
  | Timeout => s! "timeout"
  | ProviderError => s! "provider_error"
  | ProviderAmbiguous => s! "provider_ambiguous"
  | Transient => s! "transient"
  | KillSwitch => s! "kill_switch"
  | Internal => s! "internal"
  | Config => s! "config_error"
  | Dependency => s! "dependency_error"
  | Migration => s! "migration_error"
  | Permission => s! "permission_error"
  | Cancelled => s! "cancelled"
  | PreflightFailed => s! "preflight_failed"
  | HealthFailed => s! "health_failed"
  end.

(** [ExitCode] with its discriminants. *)
Inductive ExitCode :=
| Success | RuntimeError | UsageError | ConfigError | DependencyError | MigrationError
| PermissionError | ConflictError | CancelledExit | PreflightFailedExit | HealthFailedExit.

Definition as_i32 (e : ExitCode) : Z :=
  match e with
  | Success => 0
  | RuntimeError => 1
  | UsageError => 2
  | ConfigError => 3
  | DependencyError => 4
  | MigrationError => 5
  | PermissionError => 6
  | ConflictError => 7
  | CancelledExit => 8
  | PreflightFailedExit => 10
  | HealthFailedExit => 11
  end.

(** [AppError::exit_code], by the class of the error. *)
Definition exit_code (c : ErrorClass) : ExitCode :=
  match c with
  | Config => ConfigError
  | Dependency => DependencyError
  | Migration => MigrationError
  | Permission => PermissionError
  | Conflict => ConflictError
  | Cancelled => CancelledExit
  | PreflightFailed => PreflightFailedExit
  | HealthFailed => HealthFailedExit
  | Validation => UsageError
  | Internal => RuntimeError
  | _ => RuntimeError
  end.

(** ** [AppError] *)

Module AppError.
Record AppError := { class : ErrorClass; message : rstr }.

Definition new (class : ErrorClass) (message : rstr) : AppError := {| class := class; message := message |}.
Definition config : rstr -> AppError := new Config.
Definition dependency : rstr -> AppError := new Dependency.
Definition migration : rstr -> AppError := new Migration.
Definition usage : rstr -> AppError := new Validation.
Definition internal : rstr -> AppError := new Internal.
Definition preflight : rstr -> AppError := new PreflightFailed.
Definition health : rstr -> AppError := new HealthFailed.
Definition permission : rstr -> AppError := new Permission.
Definition conflict : rstr -> AppError := new Conflict.

(** [AppError::exit_code] of the error, and its [Display]. *)
Definition exit (e : AppError) : ExitCode := exit_code (class e).
Definition text (e : AppError) : rstr := as_str (class e) ++ s! ": " ++ message e.

(** [if bad { return Err(...) }]. *)
Definition refuse_if (bad : bool) (e : AppError) : result unit AppError := if bad then Err e else Ok tt.

Lemma refuse_if_ok bad e : refuse_if bad e = Ok tt -> bad = false.
Proof. by destruct bad. Qed.
End AppError.
Abbreviation AppError := AppError.AppError.

Lemma as_str_inj c1 c2 : as_str c1 = as_str c2 -> c1 = c2.
Proof. destruct c1, c2; (reflexivity || discriminate). Qed.

Lemma exit_code_nonzero c : as_i32 (exit_code c) <> 0.
Proof. by destruct c. Qed.

End Errors.
