(* ===== verification/ConfigTypes.v ===== *)
(** * Configuration file types ([src/src/config/types.rs])

    The sections with their defaults, and the derived [Deserialize] code over the values
    of a TOML document: unknown keys are refused, missing ones take their defaults, and
    a section written as an array gives its fields by position. *)

From S2P Require Import Prelude RustStr.

(** ** [toml::Value]; the keys of a table are distinct *)

#[local] Unset Elimination Schemes.
Inductive toml :=
| TString (s : rstr)
| TInteger (z : Z)
| TFloat (bits : Z)
| TBoolean (b : bool)
| TDatetime (s : rstr)
| TArray (l : list toml)
| TTable (fields : list (rstr * toml)).
#[local] Set Elimination Schemes.

(** [Value::get] with a string. *)
Fixpoint table_get (k : rstr) (fields : list (rstr * toml)) : option toml :=
  match fields with
  | [] => None
  | (k', v) :: fields' => if str_eqb k k' then Some v else table_get k fields'
  end.
Definition toml_get (v : toml) (k : rstr) : option toml :=
  match v with TTable fields => table_get k fields | _ => None end.

(** The [toml] crate's reader. *)
Class TomlLib := { toml_parse : rstr -> option toml }.

Module ConfigTypes.

(** ** The sections *)

Record AccessConfig := { allowed_provider_sender_ids : list rstr }.
Definition default_access : AccessConfig := {| allowed_provider_sender_ids := [] |}.

Record ServerConfig := { listen_address : rstr }.
Definition default_listen_address : rstr := s! "127.0.0.1:8080".
Definition default_server : ServerConfig := {| listen_address := default_listen_address |}.

Record DatabaseConfig := { url_credential : rstr; max_connections : Z }.
Definition default_url_credential : rstr := s! "database".
Definition default_max_connections : Z := 5.
Definition default_database : DatabaseConfig := {|
  url_credential := default_url_credential; max_connections := default_max_connections |}.

Record ConcurrencyConfig := { receipt_extraction : Z; outbound_delivery : Z }.
Definition default_receipt_extraction : Z := 1.
Definition default_outbound_delivery : Z := 4.
Definition default_concurrency : ConcurrencyConfig := {|
  receipt_extraction := default_receipt_extraction; outbound_delivery := default_outbound_delivery |}.

Record RetentionConfig := { original_receipt_days : Z }.
Definition default_retention_days : Z := 7.
Definition default_retention : RetentionConfig := {| original_receipt_days := default_retention_days |}.

Record CredentialsConfig := { credentials_directory : rstr }.
Definition default_credentials_dir : rstr := s! "/etc/zl-expense/credentials".
Definition default_credentials : CredentialsConfig := {| credentials_directory := default_credentials_dir |}.

Record ZaloConfig := {
  bot_token_credential : rstr;
  webhook_secret_credential : rstr;
  zalo_api_base : rstr;
  send_timeout_seconds : Z;
  webhook_max_body_bytes : Z;
}.
Definition default_bot_token_credential : rstr := s! "zalo-bot".
Definition default_webhook_secret_credential : rstr := s! "webhook-secret".
Definition default_api_base : rstr := s! "https://bot-api.zaloplatforms.com".
Definition default_send_timeout_seconds : Z := 10.
Definition default_webhook_max_body_bytes : Z := 1048576.
Definition default_zalo : ZaloConfig := {|
  bot_token_credential := default_bot_token_credential;
  webhook_secret_credential := default_webhook_secret_credential; zalo_api_base := default_api_base;
  send_timeout_seconds := default_send_timeout_seconds;
  webhook_max_body_bytes := default_webhook_max_body_bytes |}.

Record StorageConfig := {
  storage_backend : rstr;
  storage_directory : rstr;
  endpoint : option rstr;
  bucket : option rstr;
  region : rstr;
  access_key_credential : option rstr;
  secret_key_credential : option rstr;
  force_path_style : bool;
}.
Definition default_storage_backend : rstr := s! "filesystem".
Definition default_storage_directory : rstr := s! "/var/lib/zl-expense/objects".
Definition default_storage_region : rstr := s! "us-east-1".
Definition default_force_path_style : bool := true.
Definition default_storage : StorageConfig := {|
  storage_backend := default_storage_backend; storage_directory := default_storage_directory;
  endpoint := None; bucket := None; region := default_storage_region; access_key_credential := None;
  secret_key_credential := None; force_path_style := default_force_path_style |}.

Record ExtractionConfig := { extraction_backend : rstr; default_profile : rstr; extraction_api_base : rstr }.
Definition default_extraction_backend : rstr := s! "fake".
Definition default_extraction_profile : rstr := s! "receipt-fast".
Definition default_gemini_api_base : rstr := s! "https://generativelanguage.googleapis.com".
Definition default_extraction : ExtractionConfig := {|
  extraction_backend := default_extraction_backend; default_profile := default_extraction_profile;
  extraction_api_base := default_gemini_api_base |}.

Record AiProfileConfig := {
  name : rstr;
  provider : rstr;
  model : rstr;
  credential : rstr;
  task : rstr;
  timeout_seconds : Z;
  max_attempts : Z;
  max_input_bytes : Z;
  max_output_tokens : Z;
  thinking_effort : rstr;
  schema_version : rstr;
}.
Definition default_ai_timeout_seconds : Z := 30.
Definition default_ai_max_attempts : Z := 3.
Definition default_ai_max_input_bytes : Z := 4194304.
Definition default_ai_max_output_tokens : Z := 2048.
Definition default_thinking_effort : rstr := s! "none".
Definition default_schema_version : rstr := s! "v1".

Record AiConfig := { profiles : list AiProfileConfig }.
Definition default_ai : AiConfig := {| profiles := [] |}.

Record QuotasConfig := {
  per_user_daily_receipts : Z;
  monthly_extraction_pages : Z;
  zalo_monthly_messages : Z;
  monthly_insight_narratives : Z;
}.
Definition default_per_user_daily_receipts : Z := 20.
Definition default_monthly_extraction_pages : Z := 80.
Definition default_zalo_monthly_messages : Z := 3000.
Definition default_monthly_insight_narratives : Z := 30.
Definition default_quotas : QuotasConfig := {|
  per_user_daily_receipts := default_per_user_daily_receipts;
  monthly_extraction_pages := default_monthly_extraction_pages;
  zalo_monthly_messages := default_zalo_monthly_messages;
  monthly_insight_narratives := default_monthly_insight_narratives |}.

Record InsightsConfig := { llm_enabled : bool }.
Definition default_insights_llm_enabled : bool := false.
Definition default_insights : InsightsConfig := {| llm_enabled := default_insights_llm_enabled |}.

Record FeaturesConfig := { extraction_enabled : bool; outbound_enabled : bool }.
Definition default_extraction_enabled : bool := true.
Definition default_outbound_enabled : bool := true.
Definition default_features : FeaturesConfig := {|
  extraction_enabled := default_extraction_enabled; outbound_enabled := default_outbound_enabled |}.

Record MetricsConfig := { metrics_enabled : bool; metrics_bind : rstr }.
Definition default_metrics_enabled : bool := false.
Definition default_metrics_bind : rstr := s! "127.0.0.1:9090".
Definition default_metrics : MetricsConfig := {|
  metrics_enabled := default_metrics_enabled; metrics_bind := default_metrics_bind |}.

Record UpdateConfig := { public_keys_directory : rstr; install_path : rstr; state_directory : rstr }.
Definition default_update_public_keys_directory : rstr := s! "/etc/zl-expense/update-keys".
Definition default_update_install_path : rstr := s! "/usr/bin/zl-expense".
Definition default_update_state_directory : rstr := s! "/var/lib/zl-expense/update".
Definition default_update : UpdateConfig := {|
  public_keys_directory := default_update_public_keys_directory;
  install_path := default_update_install_path; state_directory := default_update_state_directory |}.

Record Config := {
  server : ServerConfig;
  database : DatabaseConfig;
  concurrency : ConcurrencyConfig;
  retention : RetentionConfig;
  credentials : CredentialsConfig;
  access : AccessConfig;
  zalo : ZaloConfig;
  storage : StorageConfig;
  extraction : ExtractionConfig;
  ai : AiConfig;
  quotas : QuotasConfig;
  insights : InsightsConfig;
  features : FeaturesConfig;
  metrics : MetricsConfig;
  update : UpdateConfig;
}.
Definition default_config : Config := {|
  server := default_server; database := default_database; concurrency := default_concurrency;
  retention := default_retention; credentials := default_credentials; access := default_access;
  zalo := default_zalo; storage := default_storage; extraction := default_extraction; ai := default_ai;
  quotas := default_quotas; insights := default_insights; features := default_features;
  metrics := default_metrics; update := default_update |}.

(** ** Derived [Deserialize] *)

(** The fields of a struct in order.  By position an array must reach its last field
    without a default, and what follows the last field is not read. *)
Definition struct_from_toml (required : nat) (names : list rstr) (v : toml) : option (list (option toml)) :=
  match v with
  | TTable fields =>
      if forallb (fun p => existsb (str_eqb p.1) names) fields
      then Some (map (fun k => table_get k fields) names) else None
  | TArray l =>
      if (length l <? required)%nat then None
      else Some (map (fun i => l !! i) (seq 0 (length names)))
  | _ => None
  end.

Definition de_string (v : toml) : option rstr := match v with TString s => Some s | _ => None end.
Definition de_bool (v : toml) : option bool := match v with TBoolean b => Some b | _ => None end.
Definition de_uint (max : Z) (v : toml) : option Z :=
  match v with TInteger z => if (0 <=? z) && (z <=? max) then Some z else None | _ => None end.
Definition de_u32 : toml -> option Z := de_uint u32_max.
Definition de_u64 : toml -> option Z := de_uint u64_max.
Definition de_vec {A} (de : toml -> option A) (v : toml) : option (list A) :=
  match v with TArray l => mapM de l | _ => None end.

(** [#[serde(default = ...)]], an [Option] field, and a field that must be there. *)
Definition or_default {A} (d : A) (de : toml -> option A) (o : option toml) : option A :=
  match o with None => Some d | Some v => de v end.
Definition optional {A} (de : toml -> option A) (o : option toml) : option (option A) :=
  match o with None => Some None | Some v => Some <$> de v end.
Definition required {A} (de : toml -> option A) (o : option toml) : option A := o ≫= de.

Definition de_access (v : toml) : option AccessConfig :=
  fs ← struct_from_toml 0 [s! "allowed_provider_sender_ids"] v;
  match fs with
  | [a] => ids ← or_default [] (de_vec de_string) a; Some {| allowed_provider_sender_ids := ids |}
  | _ => None
  end.

Definition de_server (v : toml) : option ServerConfig :=
  fs ← struct_from_toml 0 [s! "listen_address"] v;
  match fs with
  | [a] => x ← or_default default_listen_address de_string a; Some {| listen_address := x |}
  | _ => None
  end.

Definition de_database (v : toml) : option DatabaseConfig :=
  fs ← struct_from_toml 0 [s! "url_credential"; s! "max_connections"] v;
  match fs with
  | [a; b] =>
      x ← or_default default_url_credential de_string a; y ← or_default default_max_connections de_u32 b;
      Some {| url_credential := x; max_connections := y |}
  | _ => None
  end.

Definition de_concurrency (v : toml) : option ConcurrencyConfig :=
  fs ← struct_from_toml 0 [s! "receipt_extraction"; s! "outbound_delivery"] v;
  match fs with
  | [a; b] =>
      x ← or_default default_receipt_extraction de_u32 a; y ← or_default default_outbound_delivery de_u32 b;
      Some {| receipt_extraction := x; outbound_delivery := y |}
  | _ => None
  end.

Definition de_retention (v : toml) : option RetentionConfig :=
  fs ← struct_from_toml 0 [s! "original_receipt_days"] v;
  match fs with
  | [a] => x ← or_default default_retention_days de_u32 a; Some {| original_receipt_days := x |}
  | _ => None
  end.

Definition de_credentials (v : toml) : option CredentialsConfig :=
  fs ← struct_from_toml 0 [s! "directory"] v;
  match fs with
  | [a] => x ← or_default default_credentials_dir de_string a; Some {| credentials_directory := x |}
  | _ => None
  end.

Definition de_zalo (v : toml) : option ZaloConfig :=
  fs ← struct_from_toml 0 [s! "bot_token_credential"; s! "webhook_secret_credential"; s! "api_base";
                           s! "send_timeout_seconds"; s! "webhook_max_body_bytes"] v;
  match fs with
  | [a; b; c; d; e] =>
      token ← or_default default_bot_token_credential de_string a;
      secret ← or_default default_webhook_secret_credential de_string b;
      base ← or_default default_api_base de_string c;
      timeout ← or_default default_send_timeout_seconds de_u64 d;
      body ← or_default default_webhook_max_body_bytes de_u64 e;
      Some {| bot_token_credential := token; webhook_secret_credential := secret; zalo_api_base := base;
              send_timeout_seconds := timeout; webhook_max_body_bytes := body |}
  | _ => None
  end.

Definition de_storage (v : toml) : option StorageConfig :=
  fs ← struct_from_toml 7 [s! "backend"; s! "directory"; s! "endpoint"; s! "bucket"; s! "region";
                           s! "access_key_credential"; s! "secret_key_credential"; s! "force_path_style"] v;
  match fs with
  | [a; b; c; d; e; f; g; h] =>
      backend ← or_default default_storage_backend de_string a;
      directory ← or_default default_storage_directory de_string b;
      endpoint ← optional de_string c; bucket ← optional de_string d;
      region ← or_default default_storage_region de_string e;
      access ← optional de_string f; secret ← optional de_string g;
      path_style ← or_default default_force_path_style de_bool h;
      Some {| storage_backend := backend; storage_directory := directory; endpoint := endpoint;
              bucket := bucket; region := region; access_key_credential := access;
              secret_key_credential := secret; force_path_style := path_style |}
  | _ => None
  end.

Definition de_extraction (v : toml) : option ExtractionConfig :=
  fs ← struct_from_toml 0 [s! "backend"; s! "default_profile"; s! "api_base"] v;
  match fs with
  | [a; b; c] =>
      backend ← or_default default_extraction_backend de_string a;
      profile ← or_default default_extraction_profile de_string b;
      base ← or_default default_gemini_api_base de_string c;
      Some {| extraction_backend := backend; default_profile := profile; extraction_api_base := base |}
  | _ => None
  end.

Definition de_ai_profile (v : toml) : option AiProfileConfig :=
  fs ← struct_from_toml 5 [s! "name"; s! "provider"; s! "model"; s! "credential"; s! "task";
                           s! "timeout_seconds"; s! "max_attempts"; s! "max_input_bytes";
                           s! "max_output_tokens"; s! "thinking_effort"; s! "schema_version"] v;
  match fs with
  | [a; b; c; d; e; f; g; h; i; j; k] =>
      name ← required de_string a; provider ← required de_string b; model ← required de_string c;
      credential ← required de_string d; task ← required de_string e;
      timeout ← or_default default_ai_timeout_seconds de_u64 f;
      attempts ← or_default default_ai_max_attempts de_u32 g;
      input ← or_default default_ai_max_input_bytes de_u64 h;
      output ← or_default default_ai_max_output_tokens de_u32 i;
      effort ← or_default default_thinking_effort de_string j;
      schema ← or_default default_schema_version de_string k;
      Some {| name := name; provider := provider; model := model; credential := credential; task := task;
              timeout_seconds := timeout; max_attempts := attempts; max_input_bytes := input;
              max_output_tokens := output; thinking_effort := effort; schema_version := schema |}
  | _ => None
  end.

Definition de_ai (v : toml) : option AiConfig :=
  fs ← struct_from_toml 0 [s! "profiles"] v;
  match fs with
  | [a] => ps ← or_default [] (de_vec de_ai_profile) a; Some {| profiles := ps |}
  | _ => None
  end.

Definition de_quotas (v : toml) : option QuotasConfig :=
  fs ← struct_from_toml 0 [s! "per_user_daily_receipts"; s! "monthly_extraction_pages";
                           s! "zalo_monthly_messages"; s! "monthly_insight_narratives"] v;
  match fs with
  | [a; b; c; d] =>
      daily ← or_default default_per_user_daily_receipts de_u64 a;
      pages ← or_default default_monthly_extraction_pages de_u64 b;
      messages ← or_default default_zalo_monthly_messages de_u64 c;
      narratives ← or_default default_monthly_insight_narratives de_u64 d;
      Some {| per_user_daily_receipts := daily; monthly_extraction_pages := pages;
              zalo_monthly_messages := messages; monthly_insight_narratives := narratives |}
  | _ => None
  end.

Definition de_insights (v : toml) : option InsightsConfig :=
  fs ← struct_from_toml 0 [s! "llm_enabled"] v;
  match fs with
  | [a] => x ← or_default default_insights_llm_enabled de_bool a; Some {| llm_enabled := x |}
  | _ => None
  end.

Definition de_features (v : toml) : option FeaturesConfig :=
  fs ← struct_from_toml 0 [s! "extraction_enabled"; s! "outbound_enabled"] v;
  match fs with
  | [a; b] =>
      x ← or_default default_extraction_enabled de_bool a; y ← or_default default_outbound_enabled de_bool b;
      Some {| extraction_enabled := x; outbound_enabled := y |}
  | _ => None
  end.

Definition de_metrics (v : toml) : option MetricsConfig :=
  fs ← struct_from_toml 0 [s! "enabled"; s! "bind"] v;
  match fs with
  | [a; b] =>
      x ← or_default default_metrics_enabled de_bool a; y ← or_default default_metrics_bind de_string b;
      Some {| metrics_enabled := x; metrics_bind := y |}
  | _ => None
  end.

Definition de_update (v : toml) : option UpdateConfig :=
  fs ← struct_from_toml 0 [s! "public_keys_directory"; s! "install_path"; s! "state_directory"] v;
  match fs with
  | [a; b; c] =>
      keys ← or_default default_update_public_keys_directory de_string a;
      path ← or_default default_update_install_path de_string b;
      state ← or_default default_update_state_directory de_string c;
      Some {| public_keys_directory := keys; install_path := path; state_directory := state |}
  | _ => None
  end.

Definition SECTIONS : list rstr :=
  [s! "server"; s! "database"; s! "concurrency"; s! "retention"; s! "credentials"; s! "access"; s! "zalo";
   s! "storage"; s! "extraction"; s! "ai"; s! "quotas"; s! "insights"; s! "features"; s! "metrics"; s! "update"].

Definition de_config (v : toml) : option Config :=
  fs ← struct_from_toml 0 SECTIONS v;
  match fs with
  | [a; b; c; d; e; f; g; h; i; j; k; l; m; n; o] =>
      server ← or_default default_server de_server a; database ← or_default default_database de_database b;
      concurrency ← or_default default_concurrency de_concurrency c;
      retention ← or_default default_retention de_retention d;
      credentials ← or_default default_credentials de_credentials e;
      access ← or_default default_access de_access f; zalo ← or_default default_zalo de_zalo g;
      storage ← or_default default_storage de_storage h;
      extraction ← or_default default_extraction de_extraction i; ai ← or_default default_ai de_ai j;
      quotas ← or_default default_quotas de_quotas k; insights ← or_default default_insights de_insights l;
      features ← or_default default_features de_features m; metrics ← or_default default_metrics de_metrics n;
      update ← or_default default_update de_update o;
      Some {| server := server; database := database; concurrency := concurrency; retention := retention;
              credentials := credentials; access := access; zalo := zalo; storage := storage;
              extraction := extraction; ai := ai; quotas := quotas; insights := insights;
              features := features; metrics := metrics; update := update |}
  | _ => None
  end.

(** ** Assignment to a section, and to a field *)

Definition put_server (x : ServerConfig) (c : Config) : Config := {|
  server := x; database := database c; concurrency := concurrency c; retention := retention c;
  credentials := credentials c; access := access c; zalo := zalo c; storage := storage c;
  extraction := extraction c; ai := ai c; quotas := quotas c; insights := insights c;
  features := features c; metrics := metrics c; update := update c |}.
Definition put_database (x : DatabaseConfig) (c : Config) : Config := {|
  database := x; server := server c; concurrency := concurrency c; retention := retention c;
  credentials := credentials c; access := access c; zalo := zalo c; storage := storage c;
  extraction := extraction c; ai := ai c; quotas := quotas c; insights := insights c;
  features := features c; metrics := metrics c; update := update c |}.
Definition put_concurrency (x : ConcurrencyConfig) (c : Config) : Config := {|
  concurrency := x; server := server c; database := database c; retention := retention c;
  credentials := credentials c; access := access c; zalo := zalo c; storage := storage c;
  extraction := extraction c; ai := ai c; quotas := quotas c; insights := insights c;
  features := features c; metrics := metrics c; update := update c |}.
Definition put_retention (x : RetentionConfig) (c : Config) : Config := {|
  retention := x; server := server c; database := database c; concurrency := concurrency c;
  credentials := credentials c; access := access c; zalo := zalo c; storage := storage c;
  extraction := extraction c; ai := ai c; quotas := quotas c; insights := insights c;
  features := features c; metrics := metrics c; update := update c |}.
Definition put_credentials (x : CredentialsConfig) (c : Config) : Config := {|
  credentials := x; server := server c; database := database c; concurrency := concurrency c;
  retention := retention c; access := access c; zalo := zalo c; storage := storage c;
  extraction := extraction c; ai := ai c; quotas := quotas c; insights := insights c;
  features := features c; metrics := metrics c; update := update c |}.
Definition put_access (x : AccessConfig) (c : Config) : Config := {|
  access := x; server := server c; database := database c; concurrency := concurrency c;
  retention := retention c; credentials := credentials c; zalo := zalo c; storage := storage c;
  extraction := extraction c; ai := ai c; quotas := quotas c; insights := insights c;
  features := features c; metrics := metrics c; update := update c |}.
Definition put_zalo (x : ZaloConfig) (c : Config) : Config := {|
  zalo := x; server := server c; database := database c; concurrency := concurrency c;
  retention := retention c; credentials := credentials c; access := access c; storage := storage c;
  extraction := extraction c; ai := ai c; quotas := quotas c; insights := insights c;
  features := features c; metrics := metrics c; update := update c |}.
Definition put_storage (x : StorageConfig) (c : Config) : Config := {|
  storage := x; server := server c; database := database c; concurrency := concurrency c;
  retention := retention c; credentials := credentials c; access := access c; zalo := zalo c;
  extraction := extraction c; ai := ai c; quotas := quotas c; insights := insights c;
  features := features c; metrics := metrics c; update := update c |}.
Definition put_extraction (x : ExtractionConfig) (c : Config) : Config := {|
  extraction := x; server := server c; database := database c; concurrency := concurrency c;
  retention := retention c; credentials := credentials c; access := access c; zalo := zalo c;
  storage := storage c; ai := ai c; quotas := quotas c; insights := insights c;
  features := features c; metrics := metrics c; update := update c |}.
Definition put_quotas (x : QuotasConfig) (c : Config) : Config := {|
  quotas := x; server := server c; database := database c; concurrency := concurrency c;
  retention := retention c; credentials := credentials c; access := access c; zalo := zalo c;
  storage := storage c; extraction := extraction c; ai := ai c; insights := insights c;
  features := features c; metrics := metrics c; update := update c |}.
Definition put_insights (x : InsightsConfig) (c : Config) : Config := {|
  insights := x; server := server c; database := database c; concurrency := concurrency c;
  retention := retention c; credentials := credentials c; access := access c; zalo := zalo c;
  storage := storage c; extraction := extraction c; ai := ai c; quotas := quotas c;
  features := features c; metrics := metrics c; update := update c |}.
Definition put_features (x : FeaturesConfig) (c : Config) : Config := {|
  features := x; server := server c; database := database c; concurrency := concurrency c;
  retention := retention c; credentials := credentials c; access := access c; zalo := zalo c;
  storage := storage c; extraction := extraction c; ai := ai c; quotas := quotas c;
  insights := insights c; metrics := metrics c; update := update c |}.

Definition set_listen_address (x : rstr) (c : Config) : Config := put_server {| listen_address := x |} c.
Definition set_url_credential (x : rstr) (c : Config) : Config := put_database {|
  url_credential := x; max_connections := max_connections (database c) |} c.
Definition set_max_connections (x : Z) (c : Config) : Config := put_database {|
  url_credential := url_credential (database c); max_connections := x |} c.
Definition set_receipt_extraction (x : Z) (c : Config) : Config := put_concurrency {|
  receipt_extraction := x; outbound_delivery := outbound_delivery (concurrency c) |} c.
Definition set_outbound_delivery (x : Z) (c : Config) : Config := put_concurrency {|
  receipt_extraction := receipt_extraction (concurrency c); outbound_delivery := x |} c.
Definition set_original_receipt_days (x : Z) (c : Config) : Config := put_retention {|
  original_receipt_days := x |} c.
Definition set_credentials_directory (x : rstr) (c : Config) : Config := put_credentials {|
  credentials_directory := x |} c.
Definition set_allowed_provider_sender_ids (x : list rstr) (c : Config) : Config := put_access {|
  allowed_provider_sender_ids := x |} c.
Definition set_zalo_api_base (x : rstr) (c : Config) : Config := put_zalo {|
  bot_token_credential := bot_token_credential (zalo c);
  webhook_secret_credential := webhook_secret_credential (zalo c); zalo_api_base := x;
  send_timeout_seconds := send_timeout_seconds (zalo c);
  webhook_max_body_bytes := webhook_max_body_bytes (zalo c) |} c.
Definition set_storage_backend (x : rstr) (c : Config) : Config := put_storage {|
  storage_backend := x; storage_directory := storage_directory (storage c);
  endpoint := endpoint (storage c); bucket := bucket (storage c); region := region (storage c);
  access_key_credential := access_key_credential (storage c);
  secret_key_credential := secret_key_credential (storage c);
  force_path_style := force_path_style (storage c) |} c.
Definition set_storage_directory (x : rstr) (c : Config) : Config := put_storage {|
  storage_backend := storage_backend (storage c); storage_directory := x;
  endpoint := endpoint (storage c); bucket := bucket (storage c); region := region (storage c);
  access_key_credential := access_key_credential (storage c);
  secret_key_credential := secret_key_credential (storage c);
  force_path_style := force_path_style (storage c) |} c.
Definition set_endpoint (x : option rstr) (c : Config) : Config := put_storage {|
  storage_backend := storage_backend (storage c); storage_directory := storage_directory (storage c);
  endpoint := x; bucket := bucket (storage c); region := region (storage c);
  access_key_credential := access_key_credential (storage c);
  secret_key_credential := secret_key_credential (storage c);
  force_path_style := force_path_style (storage c) |} c.
Definition set_bucket (x : option rstr) (c : Config) : Config := put_storage {|
  storage_backend := storage_backend (storage c); storage_directory := storage_directory (storage c);
  endpoint := endpoint (storage c); bucket := x; region := region (storage c);
  access_key_credential := access_key_credential (storage c);
  secret_key_credential := secret_key_credential (storage c);
  force_path_style := force_path_style (storage c) |} c.
Definition set_region (x : rstr) (c : Config) : Config := put_storage {|
  storage_backend := storage_backend (storage c); storage_directory := storage_directory (storage c);
  endpoint := endpoint (storage c); bucket := bucket (storage c); region := x;
  access_key_credential := access_key_credential (storage c);
  secret_key_credential := secret_key_credential (storage c);
  force_path_style := force_path_style (storage c) |} c.
Definition set_access_key_credential (x : option rstr) (c : Config) : Config := put_storage {|
  storage_backend := storage_backend (storage c); storage_directory := storage_directory (storage c);
  endpoint := endpoint (storage c); bucket := bucket (storage c); region := region (storage c);
  access_key_credential := x; secret_key_credential := secret_key_credential (storage c);
  force_path_style := force_path_style (storage c) |} c.
Definition set_secret_key_credential (x : option rstr) (c : Config) : Config := put_storage {|
  storage_backend := storage_backend (storage c); storage_directory := storage_directory (storage c);
  endpoint := endpoint (storage c); bucket := bucket (storage c); region := region (storage c);
  access_key_credential := access_key_credential (storage c); secret_key_credential := x;
  force_path_style := force_path_style (storage c) |} c.
Definition set_force_path_style (x : bool) (c : Config) : Config := put_storage {|
  storage_backend := storage_backend (storage c); storage_directory := storage_directory (storage c);
  endpoint := endpoint (storage c); bucket := bucket (storage c); region := region (storage c);
  access_key_credential := access_key_credential (storage c);
  secret_key_credential := secret_key_credential (storage c); force_path_style := x |} c.
Definition set_extraction_backend (x : rstr) (c : Config) : Config := put_extraction {|
  extraction_backend := x; default_profile := default_profile (extraction c);
  extraction_api_base := extraction_api_base (extraction c) |} c.
Definition set_default_profile (x : rstr) (c : Config) : Config := put_extraction {|
  extraction_backend := extraction_backend (extraction c); default_profile := x;
  extraction_api_base := extraction_api_base (extraction c) |} c.
Definition set_extraction_api_base (x : rstr) (c : Config) : Config := put_extraction {|
  extraction_backend := extraction_backend (extraction c);
  default_profile := default_profile (extraction c); extraction_api_base := x |} c.
Definition set_per_user_daily_receipts (x : Z) (c : Config) : Config := put_quotas {|
  per_user_daily_receipts := x; monthly_extraction_pages := monthly_extraction_pages (quotas c);
  zalo_monthly_messages := zalo_monthly_messages (quotas c);
  monthly_insight_narratives := monthly_insight_narratives (quotas c) |} c.
Definition set_monthly_extraction_pages (x : Z) (c : Config) : Config := put_quotas {|
  per_user_daily_receipts := per_user_daily_receipts (quotas c); monthly_extraction_pages := x;
  zalo_monthly_messages := zalo_monthly_messages (quotas c);
  monthly_insight_narratives := monthly_insight_narratives (quotas c) |} c.
Definition set_zalo_monthly_messages (x : Z) (c : Config) : Config := put_quotas {|
  per_user_daily_receipts := per_user_daily_receipts (quotas c);
  monthly_extraction_pages := monthly_extraction_pages (quotas c); zalo_monthly_messages := x;
  monthly_insight_narratives := monthly_insight_narratives (quotas c) |} c.
Definition set_monthly_insight_narratives (x : Z) (c : Config) : Config := put_quotas {|
  per_user_daily_receipts := per_user_daily_receipts (quotas c);
  monthly_extraction_pages := monthly_extraction_pages (quotas c);
  zalo_monthly_messages := zalo_monthly_messages (quotas c); monthly_insight_narratives := x |} c.
Definition set_llm_enabled (x : bool) (c : Config) : Config := put_insights {| llm_enabled := x |} c.
Definition set_extraction_enabled (x : bool) (c : Config) : Config := put_features {|
  extraction_enabled := x; outbound_enabled := outbound_enabled (features c) |} c.
Definition set_outbound_enabled (x : bool) (c : Config) : Config := put_features {|
  extraction_enabled := extraction_enabled (features c); outbound_enabled := x |} c.

End ConfigTypes.
