(* ===== verification/Work.v ===== *)
(** * The durable work queue ([src/src/work/])

    The [jobs] and [job_attempts] tables of migration 003 are finite maps; each
    [WorkStore] method is one transaction body over them ([NOW()] is the start time
    of the transaction, an argument).  Column constraints that an operation relies
    on (unique indexes) are part of the statements that can violate them; the table
    CHECKs are the invariant of [WorkProps.v].  Failures of the database connection
    itself are not modelled. *)

From S2P Require Import Prelude RustStr RustStrFacts Platform Errors.

Module Work.
Import Errors.

Abbreviation uuid := N.
Abbreviation time := Z (only parsing).   (* microseconds, as in timestamptz *)

(** ** [work/types.rs] *)

Inductive JobState := Queued | Leased | Completed | JobCancelled | Dead.
#[export] Instance JobState_eq_dec : EqDecision JobState.
Proof. solve_decision. Defined.

Definition JobState_as_str (s : JobState) : rstr :=
  match s with
  | Queued => s! "queued"
  | Leased => s! "leased"
  | Completed => s! "completed"
  | JobCancelled => s! "cancelled"
  | Dead => s! "dead"
  end.

Definition JobState_parse (v : rstr) : option JobState :=
  if str_eqb v (s! "queued") then Some Queued
  else if str_eqb v (s! "leased") then Some Leased
  else if str_eqb v (s! "completed") then Some Completed
  else if str_eqb v (s! "cancelled") then Some JobCancelled
  else if str_eqb v (s! "dead") then Some Dead
  else None.

Inductive AttemptOutcome := ACompleted | AFailed | ACancelled | ALostLease | ASuperseded.
#[export] Instance AttemptOutcome_eq_dec : EqDecision AttemptOutcome.
Proof. solve_decision. Defined.

Inductive EnqueueOutcome := Enqueued | DuplicateJob.
#[export] Instance EnqueueOutcome_eq_dec : EqDecision EnqueueOutcome.
Proof. solve_decision. Defined.
Inductive FailOutcome := Retried | DeadLettered.

Definition is_retryable (class : ErrorClass) : bool :=
  match class with
  | Transient | Errors.Timeout | RateLimited | Dependency | ProviderError => true
  | _ => false
  end.

Definition retry_delay_secs (attempt_count : Z) : Z :=
  let base := 1 in
  let max := 300 in
  let exponent := clamp (i32_saturating_sub attempt_count 1) 0 8 in
  Z.min (Z.min i64_max (base * Z.shiftl 1 exponent)) max.

(** JSON values ([serde_json::Value]); numbers are the integers of a payload. *)
#[local] Unset Elimination Schemes.
Inductive json :=
| JNull
| JBool (b : bool)
| JInt (z : Z)
| JFloat (bits : Z)
| JString (s : rstr)
| JArray (l : list json)
| JObject (fields : list (rstr * json)).
#[local] Set Elimination Schemes.

Fixpoint assoc (k : rstr) (l : list (rstr * json)) : option json :=
  match l with
  | [] => None
  | (k', v) :: l' => if str_eqb k k' then Some v else assoc k l'
  end.
Definition json_get (v : json) (k : rstr) : option json :=
  match v with JObject fields => assoc k fields | _ => None end.
Definition json_as_i64 (v : json) : option Z :=
  match v with JInt z => if in_i64 z then Some z else None | _ => None end.

Record EnqueueRequest := {
  req_id : uuid;
  req_job_type : rstr;
  req_payload : json;
  req_dedupe_key : rstr;
  req_serialization_key : option rstr;
  req_priority : Z;
  req_run_at : Z;
  req_max_attempts : Z;
}.

Record ClaimOptions := {
  batch_limit : Z;
  opt_lease_owner : rstr;
  lease_duration_secs : Z;
}.

(** A row of [jobs]. *)
Record job := {
  job_type : rstr;
  payload : json;
  payload_version : Z;
  state : JobState;
  priority : Z;
  run_at : Z;
  dedupe_key : rstr;
  serialization_key : option rstr;
  attempt_count : Z;
  max_attempts : Z;
  lease_token : option uuid;
  lease_owner : option rstr;
  lease_deadline : option Z;
  last_error_class : option rstr;
  created_at : Z;
  updated_at : Z;
  completed_at : option Z;
}.

(** A row of [job_attempts], keyed by [(job_id, attempt_number)]. *)
Record attempt := {
  at_id : uuid;
  at_lease_token : uuid;
  at_lease_owner : rstr;
  started_at : Z;
  ended_at : option Z;
  outcome : option AttemptOutcome;
  at_error_class : option rstr;
}.

Record ClaimedJob := {
  cl_id : uuid;
  cl_job_type : rstr;
  cl_payload : json;
  cl_payload_version : Z;
  cl_attempt_number : Z;
  cl_lease_token : uuid;
  cl_lease_owner : rstr;
  cl_lease_deadline : Z;
  cl_dedupe_key : rstr;
  cl_serialization_key : option rstr;
}.

Record WorkError := { we_class : ErrorClass; we_message : rstr }.
Definition validation (m : rstr) : WorkError := {| we_class := Validation; we_message := m |}.
Definition not_found (m : rstr) : WorkError := {| we_class := NotFound; we_message := m |}.
Definition conflict (m : rstr) : WorkError := {| we_class := Conflict; we_message := m |}.
Definition dependency (m : rstr) : WorkError := {| we_class := Dependency; we_message := m |}.

Record db := { jobs : gmap uuid job; attempts : gmap (uuid * Z) attempt }.
Definition empty_db : db := {| jobs := ∅; attempts := ∅ |}.

Abbreviation wtxn A := (txn db WorkError A).

Definition set_job (id : uuid) (j : job) (d : db) : db :=
  {| jobs := <[id := j]> (jobs d); attempts := attempts d |}.

(** ** Enqueueing *)

(** The free function [payload_version] of [store.rs]. *)
Definition payload_version_of (p : json) : result Z WorkError :=
  ok_or (match json_get p (s! "schema_version") with
         | Some v => match json_as_i64 v with
                     | Some z => if (0 <? z) && in_i32 z then Some z else None
                     | None => None
                     end
         | None => None
         end)
        (validation (s! "payload must include positive schema_version")).

Definition bad_length (s : rstr) (limit : Z) : bool :=
  is_empty (trim s) || (limit <? char_count s).

Definition validate_enqueue_request (r : EnqueueRequest) : result Z WorkError :=
  let? version := payload_version_of (req_payload r) in
  if req_max_attempts r <=? 0 then Err (validation (s! "max_attempts must be positive"))
  else if bad_length (req_job_type r) 128 then Err (validation (s! "job_type has invalid length"))
  else if bad_length (req_dedupe_key r) 512 then Err (validation (s! "dedupe_key has invalid length"))
  else match req_serialization_key r with
       | Some key => if bad_length key 512
                     then Err (validation (s! "serialization_key has invalid length"))
                     else Ok version
       | None => Ok version
       end.

Definition has_dedupe_key (d : db) (k : rstr) : bool :=
  existsb (fun p => str_eqb (dedupe_key p.2) k) (map_to_list (jobs d)).

(** [enqueue_in_transaction]: a conflict on [dedupe_key] inserts nothing; a reused
    primary key is the unique violation that [map_insert_error] maps. *)
Definition enqueue_in_transaction (now : Z) (r : EnqueueRequest) : wtxn EnqueueOutcome :=
  fun d =>
    let? version := validate_enqueue_request r in
    if has_dedupe_key d (req_dedupe_key r) then Ok (DuplicateJob, d)
    else match jobs d !! req_id r with
    | Some _ => Err (conflict (s! "active serialization key already reserved"))
    | None =>
        Ok (Enqueued, set_job (req_id r) {|
          job_type := req_job_type r; payload := req_payload r; payload_version := version;
          state := Queued; priority := req_priority r; run_at := req_run_at r;
          dedupe_key := req_dedupe_key r; serialization_key := req_serialization_key r;
          attempt_count := 0; max_attempts := req_max_attempts r;
          lease_token := None; lease_owner := None; lease_deadline := None;
          last_error_class := None; created_at := now; updated_at := now; completed_at := None;
        |} d)
    end.

Definition enqueue (now : Z) (r : EnqueueRequest) : db -> db * result EnqueueOutcome WorkError :=
  atomically (enqueue_in_transaction now r).

(** ** Closing attempts *)

Definition close_attempt (now : Z) (o : AttemptOutcome) (ec : option rstr) (a : attempt) : attempt :=
  {| at_id := at_id a; at_lease_token := at_lease_token a; at_lease_owner := at_lease_owner a;
     started_at := started_at a; ended_at := Some now; outcome := Some o;
     at_error_class := match ec with Some _ => ec | None => at_error_class a end |}.

(** [close_open_attempt]: every open attempt of the job. *)
Definition close_open_attempt (now : Z) (job_id : uuid) (o : AttemptOutcome) (ec : option rstr)
    (d : db) : db :=
  {| jobs := jobs d;
     attempts := map_imap (fun k a =>
       Some (if bool_decide (k.1 = job_id) && bool_decide (ended_at a = None)
             then close_attempt now o ec a else a)) (attempts d) |}.

(** ** Claiming *)

(** [lease_deadline < NOW()], false on NULL. *)
Definition deadline_passed (now : Z) (j : job) : bool :=
  match lease_deadline j with Some dl => dl <? now | None => false end.

(** [(state = 'queued' AND run_at <= NOW()) OR (state = 'leased' AND lease_deadline < NOW())]. *)
Definition claimable (now : Z) (j : job) : bool :=
  (bool_decide (state j = Queued) && (run_at j <=? now))
  || (bool_decide (state j = Leased) && deadline_passed now j).

(** Is another job than [except] leased under key [k]? *)
Definition key_leased (d : db) (k : rstr) (except : option uuid) : bool :=
  existsb (fun p => bool_decide (serialization_key p.2 = Some k)
                    && bool_decide (state p.2 = Leased)
                    && negb (bool_decide (except = Some p.1)))
          (map_to_list (jobs d)).

Definition candidate (d : db) (now : Z) (j : job) : bool :=
  claimable now j &&
  match serialization_key j with
  | None => true
  | Some k => bool_decide (state j = Leased) || negb (key_leased d k None)
  end.

(** [ORDER BY priority DESC, run_at ASC, created_at ASC]. *)
Definition claim_before (p q : uuid * job) : bool :=
  let a := p.2 in
  let b := q.2 in
  (priority b <? priority a)
  || ((priority a =? priority b) &&
      ((run_at a <? run_at b) || ((run_at a =? run_at b) && (created_at a <=? created_at b)))).

Definition claim_order (p q : uuid * job) : Prop := claim_before p q = true.
#[export] Instance claim_order_dec p q : Decision (claim_order p q).
Proof. unfold claim_order. apply _. Defined.

(** What a claim draws from outside the database: the rows other transactions hold
    ([SKIP LOCKED]), whether the advisory lock of a key is free, and the fresh lease
    token and attempt id for a job. *)
Record ClaimEnv := {
  row_locked : uuid -> bool;
  advisory_free : rstr -> bool;
  fresh_ids : uuid -> uuid * uuid;
}.

Definition select_candidates (d : db) (now limit : Z) (env : ClaimEnv) : list (uuid * job) :=
  take (Z.to_nat limit)
    (merge_sort claim_order
       (List.filter (fun p => candidate d now p.2 && negb (row_locked env p.1))
          (map_to_list (jobs d)))).

(** The per-key guard of the loop: the keys claimed so far and whether to go on. *)
Definition serialization_guard (d : db) (env : ClaimEnv) (id : uuid) (key : option rstr)
    (seen : gset rstr) : gset rstr * bool :=
  match key with
  | None => (seen, true)
  | Some k =>
      if bool_decide (k ∈ seen) then (seen, false)
      else ({[k]} ∪ seen, advisory_free env k && negb (key_leased d k (Some id)))
  end.

Definition dead_letter_expired (now : Z) (j : job) : job :=
  {| job_type := job_type j; payload := payload j; payload_version := payload_version j;
     state := Dead; priority := priority j; run_at := run_at j;
     dedupe_key := dedupe_key j; serialization_key := serialization_key j;
     attempt_count := attempt_count j; max_attempts := max_attempts j;
     lease_token := None; lease_owner := None; lease_deadline := None;
     last_error_class := Some (s! "timeout"); created_at := created_at j;
     updated_at := now; completed_at := Some now |}.

Definition lease_job (now attempt_number : Z) (token : uuid) (owner : rstr) (dur : Z) (j : job) : job :=
  {| job_type := job_type j; payload := payload j; payload_version := payload_version j;
     state := Leased; priority := priority j; run_at := run_at j;
     dedupe_key := dedupe_key j; serialization_key := serialization_key j;
     attempt_count := attempt_number; max_attempts := max_attempts j;
     lease_token := Some token; lease_owner := Some owner;
     lease_deadline := Some (now + dur * second);
     last_error_class := last_error_class j; created_at := created_at j;
     updated_at := now; completed_at := completed_at j |}.

(** Lease one candidate: the [UPDATE ... RETURNING] with its WHERE clause and the
    partial unique index on leased serialization keys, then the attempt row. *)
Definition take_lease (now : Z) (o : ClaimOptions) (env : ClaimEnv) (id : uuid) (snap : job)
    (claimed : list ClaimedJob) : wtxn (list ClaimedJob) :=
  fun d =>
    let attempt_number := attempt_count snap + 1 in
    let '(token, attempt_id) := fresh_ids env id in
    match jobs d !! id with
    | None => Ok (claimed, d)
    | Some j =>
        if negb (claimable now j) then Ok (claimed, d)
        else if match serialization_key j with
                | Some k => key_leased d k (Some id)
                | None => false
                end
        then Err (dependency (s! "claim update failed"))
        else
        let j' := lease_job now attempt_number token (opt_lease_owner o) (lease_duration_secs o) j in
        match attempts d !! (id, attempt_number) with
        | Some _ => Err (dependency (s! "claim attempt insert failed"))
        | None =>
            let a := {| at_id := attempt_id; at_lease_token := token;
                        at_lease_owner := opt_lease_owner o; started_at := now;
                        ended_at := None; outcome := None; at_error_class := None |} in
            Ok (claimed ++ [{|
                  cl_id := id; cl_job_type := job_type snap; cl_payload := payload snap;
                  cl_payload_version := payload_version snap;
                  cl_attempt_number := attempt_number; cl_lease_token := token;
                  cl_lease_owner := opt_lease_owner o;
                  cl_lease_deadline := now + lease_duration_secs o * second;
                  cl_dedupe_key := dedupe_key snap;
                  cl_serialization_key := serialization_key snap |}],
                {| jobs := <[id := j']> (jobs d);
                   attempts := <[(id, attempt_number) := a]> (attempts d) |})
        end
    end.

(** The UPDATE that dead-letters an expired lease. *)
Definition bury_expired (now : Z) (id : uuid) (d : db) : db :=
  match jobs d !! id with
  | Some j => if bool_decide (state j = Leased) && deadline_passed now j
              then set_job id (dead_letter_expired now j) d else d
  | None => d
  end.

Definition claim_step (now : Z) (o : ClaimOptions) (env : ClaimEnv)
    (seen : gset rstr) (claimed : list ClaimedJob) (c : uuid * job)
    : wtxn (gset rstr * list ClaimedJob) :=
  fun d =>
    let '(id, snap) := c in
    let '(seen', go) := serialization_guard d env id (serialization_key snap) seen in
    if negb go then Ok ((seen', claimed), d)
    else
      let expired := bool_decide (state snap = Leased) in
      let d1 := if expired then close_open_attempt now id ALostLease None d else d in
      if expired && (max_attempts snap <=? attempt_count snap)
      then Ok ((seen', claimed), bury_expired now id d1)
      else match take_lease now o env id snap claimed d1 with
           | Ok (claimed', d2) => Ok ((seen', claimed'), d2)
           | Err e => Err e
           end.

Fixpoint claim_loop (now : Z) (o : ClaimOptions) (env : ClaimEnv)
    (seen : gset rstr) (claimed : list ClaimedJob) (cs : list (uuid * job))
    : wtxn (list ClaimedJob) :=
  match cs with
  | [] => t_ret claimed
  | c :: cs' =>
      let* (seen', claimed') := claim_step now o env seen claimed c in
      claim_loop now o env seen' claimed' cs'
  end.

Definition claim (now : Z) (o : ClaimOptions) (env : ClaimEnv)
    : db -> db * result (list ClaimedJob) WorkError :=
  if batch_limit o <=? 0 then
    fun d => (d, Err (validation (s! "batch_limit must be positive")))
  else if is_empty (opt_lease_owner o) then
    fun d => (d, Err (validation (s! "lease_owner must not be empty")))
  else if lease_duration_secs o <=? 0 then
    fun d => (d, Err (validation (s! "lease_duration_secs must be positive")))
  else
    fun d => atomically
      (claim_loop now o env ∅ [] (select_candidates d now (batch_limit o) env)) d.

(** ** Operations of the lease holder *)

(** [id = $1 AND lease_token = $2 AND state = 'leased' AND lease_deadline >= NOW()]. *)
Definition lease_live (now : Z) (token : uuid) (j : job) : bool :=
  bool_decide (lease_token j = Some token) && bool_decide (state j = Leased)
  && match lease_deadline j with Some dl => now <=? dl | None => false end.

Definition live_job (now : Z) (id token : uuid) (d : db) : option job :=
  match jobs d !! id with
  | Some j => if lease_live now token j then Some j else None
  | None => None
  end.

Definition extend_lease (now dur : Z) (j : job) : job :=
  {| job_type := job_type j; payload := payload j; payload_version := payload_version j;
     state := state j; priority := priority j; run_at := run_at j;
     dedupe_key := dedupe_key j; serialization_key := serialization_key j;
     attempt_count := attempt_count j; max_attempts := max_attempts j;
     lease_token := lease_token j; lease_owner := lease_owner j;
     lease_deadline := Some (now + dur * second);
     last_error_class := last_error_class j; created_at := created_at j;
     updated_at := now; completed_at := completed_at j |}.

Definition heartbeat (now : Z) (job_id token : uuid) (dur : Z) (d : db) : db * result Z WorkError :=
  if dur <=? 0 then (d, Err (validation (s! "lease_duration_secs must be positive")))
  else match live_job now job_id token d with
       | Some j => (set_job job_id (extend_lease now dur j) d, Ok (now + dur * second))
       | None => (d, Err (conflict (s! "heartbeat rejected for stale lease token")))
       end.

(** Leave the leased state for [s], with the columns every such UPDATE sets. *)
Definition finish_job (now : Z) (s : JobState) (err : option rstr) (j : job) : job :=
  {| job_type := job_type j; payload := payload j; payload_version := payload_version j;
     state := s; priority := priority j; run_at := run_at j;
     dedupe_key := dedupe_key j; serialization_key := serialization_key j;
     attempt_count := attempt_count j; max_attempts := max_attempts j;
     lease_token := None; lease_owner := None; lease_deadline := None;
     last_error_class := match err with Some _ => err | None => last_error_class j end;
     created_at := created_at j; updated_at := now; completed_at := Some now |}.

Definition complete (now : Z) (job_id token : uuid) : db -> db * result unit WorkError :=
  atomically (fun d =>
    match live_job now job_id token d with
    | Some j =>
        Ok (tt, close_open_attempt now job_id ACompleted None
                  (set_job job_id (finish_job now Completed None j) d))
    | None => Err (conflict (s! "complete rejected for stale or expired lease token"))
    end).

Definition retry_job (now delay : Z) (err : rstr) (j : job) : job :=
  {| job_type := job_type j; payload := payload j; payload_version := payload_version j;
     state := Queued; priority := priority j; run_at := now + delay * second;
     dedupe_key := dedupe_key j; serialization_key := serialization_key j;
     attempt_count := attempt_count j; max_attempts := max_attempts j;
     lease_token := None; lease_owner := None; lease_deadline := None;
     last_error_class := Some err; created_at := created_at j;
     updated_at := now; completed_at := completed_at j |}.

Definition fail (now : Z) (job_id token : uuid) (class : ErrorClass)
    : db -> db * result FailOutcome WorkError :=
  atomically (fun d =>
    match live_job now job_id token d with
    | None => Err (conflict (s! "fail rejected for stale or expired lease token"))
    | Some j =>
        let ec := as_str class in
        let d1 := close_open_attempt now job_id AFailed (Some ec) d in
        if is_retryable class && (attempt_count j <? max_attempts j)
        then Ok (Retried, set_job job_id (retry_job now (retry_delay_secs (attempt_count j)) ec j) d1)
        else Ok (DeadLettered, set_job job_id (finish_job now Dead (Some ec) j) d1)
    end).

(** ** Cancelling and recovering *)

Definition cancel_queued_job (now : Z) (j : job) : job :=
  {| job_type := job_type j; payload := payload j; payload_version := payload_version j;
     state := JobCancelled; priority := priority j; run_at := run_at j;
     dedupe_key := dedupe_key j; serialization_key := serialization_key j;
     attempt_count := attempt_count j; max_attempts := max_attempts j;
     lease_token := lease_token j; lease_owner := lease_owner j; lease_deadline := lease_deadline j;
     last_error_class := last_error_class j; created_at := created_at j;
     updated_at := now; completed_at := Some now |}.

Definition cancel_active (now : Z) (job_id : uuid) (token : option uuid) (operator_override : bool)
    : db -> db * result unit WorkError :=
  atomically (fun d =>
    match jobs d !! job_id with
    | None => Err (not_found (s! "job not found"))
    | Some j =>
        match state j with
        | Queued =>
            match token with
            | Some _ => Err (validation (s! "queued cancellation must not include a lease token"))
            | None => Ok (tt, set_job job_id (cancel_queued_job now j) d)
            end
        | Leased =>
            let cancelled := close_open_attempt now job_id ACancelled None
                               (set_job job_id (finish_job now JobCancelled None j) d) in
            if operator_override then Ok (tt, cancelled)
            else match token with
            | None => Err (validation (s! "leased cancellation requires the current lease token"))
            | Some t =>
                match live_job now job_id t d with
                | Some _ => Ok (tt, cancelled)
                | None => Err (conflict (s! "cancel rejected for stale or expired lease token"))
                end
            end
        | _ => Err (conflict (s! "cancel rejected for non-active job state"))
        end
    end).
Definition cancel (now : Z) (job_id : uuid) (token : option uuid) := cancel_active now job_id token false.
Definition cancel_by_operator (now : Z) (job_id : uuid) := cancel_active now job_id None true.

Definition queued_with_key (key : rstr) (j : job) : bool :=
  bool_decide (serialization_key j = Some key) && bool_decide (state j = Queued).

Definition cancel_queued_by_serialization_key_in_transaction (now : Z) (key : rstr) : wtxn Z :=
  fun d =>
    Ok (Z.of_nat (length (List.filter (fun p => queued_with_key key p.2) (map_to_list (jobs d)))),
        {| jobs := (fun j => if queued_with_key key j then cancel_queued_job now j else j) <$> jobs d;
           attempts := attempts d |}).

Definition revive_job (now : Z) (j : job) : job :=
  {| job_type := job_type j; payload := payload j; payload_version := payload_version j;
     state := Queued; priority := priority j; run_at := now;
     dedupe_key := dedupe_key j; serialization_key := serialization_key j;
     attempt_count := attempt_count j; max_attempts := Z.max (max_attempts j) (attempt_count j + 1);
     lease_token := None; lease_owner := None; lease_deadline := None;
     last_error_class := None; created_at := created_at j; updated_at := now; completed_at := None |}.

Definition recover_dead (now : Z) (job_id : uuid) (d : db) : db * result unit WorkError :=
  match jobs d !! job_id with
  | Some j =>
      if bool_decide (state j = Dead) then (set_job job_id (revive_job now j) d, Ok tt)
      else (d, Err (conflict (s! "recover rejected for non-dead job")))
  | None => (d, Err (conflict (s! "recover rejected for non-dead job")))
  end.

(** ** Reading *)

Definition JobSummary : Type := uuid * job.
Definition get_job_summary (job_id : uuid) (d : db) : result JobSummary WorkError :=
  match jobs d !! job_id with
  | Some j => Ok (job_id, j)
  | None => Err (not_found (s! "job not found"))
  end.

Definition run_at_order (p q : uuid * job) : Prop := run_at p.2 <= run_at q.2.
#[export] Instance run_at_order_dec p q : Decision (run_at_order p q).
Proof. unfold run_at_order. apply _. Defined.

Definition list_jobs (filter_state : option rstr) (limit : Z) (d : db) : list (uuid * job) :=
  take (Z.to_nat limit)
    (merge_sort run_at_order
       (List.filter (fun p => match filter_state with
                              | Some s => str_eqb (JobState_as_str (state p.2)) s
                              | None => true
                              end) (map_to_list (jobs d)))).

(** ** The transition system of the store *)

Inductive op :=
| OEnqueue (r : EnqueueRequest)
| OClaim (o : ClaimOptions) (env : ClaimEnv)
| OHeartbeat (id token : uuid) (dur : Z)
| OComplete (id token : uuid)
| OFail (id token : uuid) (class : ErrorClass)
| OCancel (id : uuid) (token : option uuid)
| OCancelByOperator (id : uuid)
| OCancelQueued (key : rstr)
| ORecoverDead (id : uuid).

(** The committed effect of one operation started at [now]. *)
Definition exec (now : Z) (o : op) (d : db) : db :=
  match o with
  | OEnqueue r => (enqueue now r d).1
  | OClaim opts env => (claim now opts env d).1
  | OHeartbeat id t dur => (heartbeat now id t dur d).1
  | OComplete id t => (complete now id t d).1
  | OFail id t c => (fail now id t c d).1
  | OCancel id t => (cancel now id t d).1
  | OCancelByOperator id => (cancel_by_operator now id d).1
  | OCancelQueued key => (atomically (cancel_queued_by_serialization_key_in_transaction now key) d).1
  | ORecoverDead id => (recover_dead now id d).1
  end.

Inductive reachable : db -> Prop :=
| reach_init : reachable empty_db
| reach_step d now o : reachable d -> reachable (exec now o d).

End Work.
