(* ===== verification/ConfigLayers.v ===== *)
(** * Layers of the configuration ([src/src/config/load.rs], first half)

    Defaults, file and environment, with the table that attributes each setting to the
    layer it came from.  Each of [record_default_sources], [record_file_sources] and
    [apply_env_overrides] is a list of rows in the order of the code and the loop over
    it. *)

From S2P Require Import Prelude RustStr Platform Errors Work ConfigTypes.

Module ConfigLayers.
Import ConfigTypes.
Import Work (json(..)).
Import Errors (AppError).
Import Errors.AppError (config).

Inductive ConfigSource := Default | File | Env.
#[export] Instance ConfigSource_eq_dec : EqDecision ConfigSource.
Proof. solve_decision. Defined.

Record ResolvedValue := { value : json; source : ConfigSource }.

(** [BTreeMap<String, ResolvedValue>]. *)
Definition attribution : Type := gmap rstr ResolvedValue.

Definition insert_attr (key : rstr) (value : json) (source : ConfigSource) (a : attribution) : attribution :=
  <[key := {| value := value; source := source |}]> a.

Definition count_json {A} (l : list A) : json := JObject [(s! "count", JInt (Z.of_nat (length l)))].
(** [insert_allowlist_attr] shows how many identifiers there are. *)
Definition allowlist_count (c : Config) : json := count_json (allowed_provider_sender_ids (access c)).
Definition profile_count (c : Config) : json := count_json (profiles (ai c)).
Definition opt_json (o : option rstr) : json := match o with Some s => JString s | None => JNull end.
Definition REDACTED : rstr := s! "[REDACTED]".

(** ** Defaults *)

Definition DEFAULT_SETTINGS_1 : list (rstr * (Config -> json)) :=
  [(s! "server.listen_address", fun c => JString (listen_address (server c)));
   (s! "database.url_credential", fun c => JString (url_credential (database c)));
   (s! "database.max_connections", fun c => JInt (max_connections (database c)));
   (s! "concurrency.receipt_extraction", fun c => JInt (receipt_extraction (concurrency c)));
   (s! "concurrency.outbound_delivery", fun c => JInt (outbound_delivery (concurrency c)));
   (s! "retention.original_receipt_days", fun c => JInt (original_receipt_days (retention c)));
   (s! "credentials.directory", fun c => JString (credentials_directory (credentials c)));
   (s! "access.allowed_provider_sender_ids", allowlist_count);
   (s! "zalo.bot_token_credential", fun c => JString (bot_token_credential (zalo c)));
   (s! "zalo.webhook_secret_credential", fun c => JString (webhook_secret_credential (zalo c)));
   (s! "zalo.api_base", fun c => JString (zalo_api_base (zalo c)));
   (s! "zalo.send_timeout_seconds", fun c => JInt (send_timeout_seconds (zalo c)));
   (s! "zalo.webhook_max_body_bytes", fun c => JInt (webhook_max_body_bytes (zalo c)));
   (s! "storage.backend", fun c => JString (storage_backend (storage c)));
   (s! "storage.directory", fun c => JString (storage_directory (storage c)));
   (s! "storage.region", fun c => JString (region (storage c)));
   (s! "storage.force_path_style", fun c => JBool (force_path_style (storage c)))].
Definition DEFAULT_SETTINGS_2 : list (rstr * (Config -> json)) :=
  [(s! "extraction.backend", fun c => JString (extraction_backend (extraction c)));
   (s! "extraction.default_profile", fun c => JString (default_profile (extraction c)));
   (s! "extraction.api_base", fun c => JString (extraction_api_base (extraction c)));
   (s! "ai.profiles", profile_count);
   (s! "quotas.per_user_daily_receipts", fun c => JInt (per_user_daily_receipts (quotas c)));
   (s! "quotas.monthly_extraction_pages", fun c => JInt (monthly_extraction_pages (quotas c)));
   (s! "quotas.zalo_monthly_messages", fun c => JInt (zalo_monthly_messages (quotas c)));
   (s! "quotas.monthly_insight_narratives", fun c => JInt (monthly_insight_narratives (quotas c)));
   (s! "insights.llm_enabled", fun c => JBool (llm_enabled (insights c)));
   (s! "features.extraction_enabled", fun c => JBool (extraction_enabled (features c)));
   (s! "features.outbound_enabled", fun c => JBool (outbound_enabled (features c)));
   (s! "metrics.enabled", fun c => JBool (metrics_enabled (metrics c)));
   (s! "metrics.bind", fun c => JString (metrics_bind (metrics c)));
   (s! "update.public_keys_directory", fun c => JString (public_keys_directory (update c)));
   (s! "update.install_path", fun c => JString (install_path (update c)));
   (s! "update.state_directory", fun c => JString (state_directory (update c)))].
Definition DEFAULT_SETTINGS : list (rstr * (Config -> json)) := DEFAULT_SETTINGS_1 ++ DEFAULT_SETTINGS_2.

Definition record_default_sources (a : attribution) : attribution :=
  foldl (fun a row => insert_attr row.1 (row.2 default_config) Default a) a DEFAULT_SETTINGS.

(** ** File *)

Definition merge_config (target source : Config) : Config :=
  {| server := server source; database := database source; concurrency := concurrency source;
     retention := retention source; credentials := credentials source; access := access source;
     zalo := zalo source; storage := storage source; extraction := extraction source; ai := ai source;
     quotas := quotas source; insights := insights source; features := features source;
     metrics := metrics source; update := update source |}.

Record file_row := { fr_present : Config -> toml -> bool; fr_key : rstr; fr_shown : Config -> json }.

Definition has_field (document : toml) (section field : rstr) : bool :=
  bool_decide (is_Some (toml_get document section ≫= (fun s => toml_get s field))).
(** The macro [record!]. *)
Definition record (section field : rstr) (shown : Config -> json) : file_row :=
  {| fr_present := fun _ document => has_field document section field;
     fr_key := section ++ s! "." ++ field; fr_shown := shown |}.

Definition FILE_ROWS_1 : list file_row :=
  [record (s! "server") (s! "listen_address") (fun c => JString (listen_address (server c)));
   record (s! "database") (s! "url_credential") (fun c => JString (url_credential (database c)));
   record (s! "database") (s! "max_connections") (fun c => JInt (max_connections (database c)));
   record (s! "concurrency") (s! "receipt_extraction") (fun c => JInt (receipt_extraction (concurrency c)));
   record (s! "concurrency") (s! "outbound_delivery") (fun c => JInt (outbound_delivery (concurrency c)));
   record (s! "retention") (s! "original_receipt_days") (fun c => JInt (original_receipt_days (retention c)));
   record (s! "credentials") (s! "directory") (fun c => JString (credentials_directory (credentials c)));
   record (s! "access") (s! "allowed_provider_sender_ids") allowlist_count;
   record (s! "zalo") (s! "bot_token_credential") (fun c => JString (bot_token_credential (zalo c)));
   record (s! "zalo") (s! "webhook_secret_credential") (fun c => JString (webhook_secret_credential (zalo c)));
   record (s! "zalo") (s! "api_base") (fun c => JString (zalo_api_base (zalo c)));
   record (s! "zalo") (s! "send_timeout_seconds") (fun c => JInt (send_timeout_seconds (zalo c)));
   record (s! "zalo") (s! "webhook_max_body_bytes") (fun c => JInt (webhook_max_body_bytes (zalo c)));
   record (s! "storage") (s! "backend") (fun c => JString (storage_backend (storage c)));
   record (s! "storage") (s! "directory") (fun c => JString (storage_directory (storage c)));
   {| fr_present := fun c _ => bool_decide (is_Some (endpoint (storage c)));
      fr_key := s! "storage.endpoint"; fr_shown := fun _ => JString REDACTED |};
   record (s! "storage") (s! "bucket") (fun c => opt_json (bucket (storage c)));
   record (s! "storage") (s! "region") (fun c => JString (region (storage c)));
   {| fr_present := fun c _ => bool_decide (is_Some (access_key_credential (storage c)));
      fr_key := s! "storage.access_key_credential"; fr_shown := fun c => opt_json (access_key_credential (storage c)) |};
   {| fr_present := fun c _ => bool_decide (is_Some (secret_key_credential (storage c)));
      fr_key := s! "storage.secret_key_credential"; fr_shown := fun c => opt_json (secret_key_credential (storage c)) |};
   record (s! "storage") (s! "force_path_style") (fun c => JBool (force_path_style (storage c)))].
Definition FILE_ROWS_2 : list file_row :=
  [record (s! "extraction") (s! "backend") (fun c => JString (extraction_backend (extraction c)));
   record (s! "extraction") (s! "default_profile") (fun c => JString (default_profile (extraction c)));
   record (s! "extraction") (s! "api_base") (fun c => JString (extraction_api_base (extraction c)));
   {| fr_present := fun _ document => bool_decide (is_Some (toml_get document (s! "ai")));
      fr_key := s! "ai.profiles"; fr_shown := profile_count |};
   record (s! "quotas") (s! "per_user_daily_receipts") (fun c => JInt (per_user_daily_receipts (quotas c)));
   record (s! "quotas") (s! "monthly_extraction_pages") (fun c => JInt (monthly_extraction_pages (quotas c)));
   record (s! "quotas") (s! "zalo_monthly_messages") (fun c => JInt (zalo_monthly_messages (quotas c)));
   record (s! "quotas") (s! "monthly_insight_narratives") (fun c => JInt (monthly_insight_narratives (quotas c)));
   record (s! "insights") (s! "llm_enabled") (fun c => JBool (llm_enabled (insights c)));
   record (s! "features") (s! "extraction_enabled") (fun c => JBool (extraction_enabled (features c)));
   record (s! "features") (s! "outbound_enabled") (fun c => JBool (outbound_enabled (features c)));
   record (s! "metrics") (s! "enabled") (fun c => JBool (metrics_enabled (metrics c)));
   record (s! "metrics") (s! "bind") (fun c => JString (metrics_bind (metrics c)));
   record (s! "update") (s! "public_keys_directory") (fun c => JString (public_keys_directory (update c)));
   record (s! "update") (s! "install_path") (fun c => JString (install_path (update c)));
   record (s! "update") (s! "state_directory") (fun c => JString (state_directory (update c)))].
Definition FILE_ROWS : list file_row := FILE_ROWS_1 ++ FILE_ROWS_2.

Definition record_file_sources (cfg : Config) (document : toml) (a : attribution) : attribution :=
  foldl (fun a row => if fr_present row cfg document
                      then insert_attr (fr_key row) (fr_shown row cfg) File a else a) a FILE_ROWS.

(** ** Environment *)

Definition parse_env_bool (name value : rstr) : result bool AppError :=
  let v := to_ascii_lowercase (trim value) in
  if existsb (str_eqb v) [s! "true"; s! "1"; s! "yes"] then Ok true
  else if existsb (str_eqb v) [s! "false"; s! "0"; s! "no"] then Ok false
  else Err (config (name ++ s! " must be a boolean")).

(** [str::parse] into an unsigned type. *)
Definition parse_uint (max : Z) (s : rstr) : option Z :=
  let ds := match s with 43 :: ds => ds | _ => s end in
  if is_empty ds then None
  else if all_digits ds && (digits_val ds <=? max) then Some (digits_val ds) else None.

Definition parse_env_u32 (name value : rstr) : result Z AppError :=
  ok_or (parse_uint u32_max value) (config (name ++ s! " must be a positive integer")).
Definition parse_env_u64 (name value : rstr) : result Z AppError :=
  let? parsed := ok_or (parse_uint u64_max value) (config (name ++ s! " must be a positive integer")) in
  if parsed =? 0 then Err (config (name ++ s! " must be greater than zero")) else Ok parsed.

(** [env::var]: the variables that are set to valid Unicode. *)
Abbreviation environment := (rstr -> option rstr).

Record env_row := {
  ov_var : rstr;
  ov_key : rstr;
  ov_set : rstr -> Config -> result Config AppError;
  ov_shown : Config -> json;
}.
Definition text (set : rstr -> Config -> Config) (v : rstr) (c : Config) : result Config AppError := Ok (set v c).
Definition boolean (name : rstr) (set : bool -> Config -> Config) (v : rstr) (c : Config) : result Config AppError :=
  let? b := parse_env_bool name v in Ok (set b c).
Definition unsigned32 (name : rstr) (set : Z -> Config -> Config) (v : rstr) (c : Config) : result Config AppError :=
  let? n := parse_env_u32 name v in Ok (set n c).
Definition unsigned64 (name : rstr) (set : Z -> Config -> Config) (v : rstr) (c : Config) : result Config AppError :=
  let? n := parse_env_u64 name v in Ok (set n c).
Definition sender_list (v : rstr) : list rstr :=
  List.filter (fun s => negb (is_empty s)) (map trim (split_char v (c! ","))).

Definition ENV_ROWS_1 : list env_row :=
  [{| ov_var := s! "ZL_EXPENSE_LISTEN_ADDRESS"; ov_key := s! "server.listen_address";
      ov_set := text set_listen_address;
      ov_shown := fun c => JString (listen_address (server c)) |};
   {| ov_var := s! "ZL_EXPENSE_DATABASE_URL_CREDENTIAL"; ov_key := s! "database.url_credential";
      ov_set := text set_url_credential;
      ov_shown := fun c => JString (url_credential (database c)) |};
   {| ov_var := s! "ZL_EXPENSE_DATABASE_MAX_CONNECTIONS"; ov_key := s! "database.max_connections";
      ov_set := unsigned32 (s! "ZL_EXPENSE_DATABASE_MAX_CONNECTIONS") set_max_connections;
      ov_shown := fun c => JInt (max_connections (database c)) |};
   {| ov_var := s! "ZL_EXPENSE_RECEIPT_EXTRACTION_CONCURRENCY"; ov_key := s! "concurrency.receipt_extraction";
      ov_set := unsigned32 (s! "ZL_EXPENSE_RECEIPT_EXTRACTION_CONCURRENCY") set_receipt_extraction;
      ov_shown := fun c => JInt (receipt_extraction (concurrency c)) |};
   {| ov_var := s! "ZL_EXPENSE_OUTBOUND_DELIVERY_CONCURRENCY"; ov_key := s! "concurrency.outbound_delivery";
      ov_set := unsigned32 (s! "ZL_EXPENSE_OUTBOUND_DELIVERY_CONCURRENCY") set_outbound_delivery;
      ov_shown := fun c => JInt (outbound_delivery (concurrency c)) |};
   {| ov_var := s! "ZL_EXPENSE_RETENTION_ORIGINAL_RECEIPT_DAYS"; ov_key := s! "retention.original_receipt_days";
      ov_set := unsigned32 (s! "ZL_EXPENSE_RETENTION_ORIGINAL_RECEIPT_DAYS") set_original_receipt_days;
      ov_shown := fun c => JInt (original_receipt_days (retention c)) |};
   {| ov_var := s! "ZL_EXPENSE_CREDENTIALS_DIRECTORY"; ov_key := s! "credentials.directory";
      ov_set := text set_credentials_directory;
      ov_shown := fun c => JString (credentials_directory (credentials c)) |};
   {| ov_var := s! "ZL_EXPENSE_ALLOWED_PROVIDER_SENDER_IDS"; ov_key := s! "access.allowed_provider_sender_ids";
      ov_set := fun v c => Ok (set_allowed_provider_sender_ids (sender_list v) c);
      ov_shown := allowlist_count |};
   {| ov_var := s! "ZL_EXPENSE_ZALO_API_BASE"; ov_key := s! "zalo.api_base";
      ov_set := text set_zalo_api_base;
      ov_shown := fun c => JString (zalo_api_base (zalo c)) |};
   {| ov_var := s! "ZL_EXPENSE_STORAGE_BACKEND"; ov_key := s! "storage.backend";
      ov_set := text set_storage_backend;
      ov_shown := fun c => JString (storage_backend (storage c)) |};
   {| ov_var := s! "ZL_EXPENSE_STORAGE_DIRECTORY"; ov_key := s! "storage.directory";
      ov_set := text set_storage_directory;
      ov_shown := fun c => JString (storage_directory (storage c)) |};
   {| ov_var := s! "ZL_EXPENSE_STORAGE_ENDPOINT"; ov_key := s! "storage.endpoint";
      ov_set := text (fun v => set_endpoint (Some v));
      ov_shown := fun _ => JString REDACTED |};
   {| ov_var := s! "ZL_EXPENSE_STORAGE_BUCKET"; ov_key := s! "storage.bucket";
      ov_set := text (fun v => set_bucket (Some v));
      ov_shown := fun c => opt_json (bucket (storage c)) |}].
Definition ENV_ROWS_2 : list env_row :=
  [{| ov_var := s! "ZL_EXPENSE_STORAGE_REGION"; ov_key := s! "storage.region";
      ov_set := text set_region;
      ov_shown := fun c => JString (region (storage c)) |};
   {| ov_var := s! "ZL_EXPENSE_STORAGE_ACCESS_KEY_CREDENTIAL"; ov_key := s! "storage.access_key_credential";
      ov_set := text (fun v => set_access_key_credential (Some v));
      ov_shown := fun c => opt_json (access_key_credential (storage c)) |};
   {| ov_var := s! "ZL_EXPENSE_STORAGE_SECRET_KEY_CREDENTIAL"; ov_key := s! "storage.secret_key_credential";
      ov_set := text (fun v => set_secret_key_credential (Some v));
      ov_shown := fun c => opt_json (secret_key_credential (storage c)) |};
   {| ov_var := s! "ZL_EXPENSE_STORAGE_FORCE_PATH_STYLE"; ov_key := s! "storage.force_path_style";
      ov_set := boolean (s! "ZL_EXPENSE_STORAGE_FORCE_PATH_STYLE") set_force_path_style;
      ov_shown := fun c => JBool (force_path_style (storage c)) |};
   {| ov_var := s! "ZL_EXPENSE_EXTRACTION_BACKEND"; ov_key := s! "extraction.backend";
      ov_set := text set_extraction_backend;
      ov_shown := fun c => JString (extraction_backend (extraction c)) |};
   {| ov_var := s! "ZL_EXPENSE_EXTRACTION_DEFAULT_PROFILE"; ov_key := s! "extraction.default_profile";
      ov_set := text set_default_profile;
      ov_shown := fun c => JString (default_profile (extraction c)) |};
   {| ov_var := s! "ZL_EXPENSE_GEMINI_API_BASE"; ov_key := s! "extraction.api_base";
      ov_set := text set_extraction_api_base;
      ov_shown := fun c => JString (extraction_api_base (extraction c)) |};
   {| ov_var := s! "ZL_EXPENSE_PER_USER_DAILY_RECEIPTS"; ov_key := s! "quotas.per_user_daily_receipts";
      ov_set := unsigned64 (s! "ZL_EXPENSE_PER_USER_DAILY_RECEIPTS") set_per_user_daily_receipts;
      ov_shown := fun c => JInt (per_user_daily_receipts (quotas c)) |};
   {| ov_var := s! "ZL_EXPENSE_MONTHLY_EXTRACTION_PAGES"; ov_key := s! "quotas.monthly_extraction_pages";
      ov_set := unsigned64 (s! "ZL_EXPENSE_MONTHLY_EXTRACTION_PAGES") set_monthly_extraction_pages;
      ov_shown := fun c => JInt (monthly_extraction_pages (quotas c)) |};
   {| ov_var := s! "ZL_EXPENSE_ZALO_MONTHLY_MESSAGES"; ov_key := s! "quotas.zalo_monthly_messages";
      ov_set := unsigned64 (s! "ZL_EXPENSE_ZALO_MONTHLY_MESSAGES") set_zalo_monthly_messages;
      ov_shown := fun c => JInt (zalo_monthly_messages (quotas c)) |};
   {| ov_var := s! "ZL_EXPENSE_MONTHLY_INSIGHT_NARRATIVES"; ov_key := s! "quotas.monthly_insight_narratives";
      ov_set := unsigned64 (s! "ZL_EXPENSE_MONTHLY_INSIGHT_NARRATIVES") set_monthly_insight_narratives;
      ov_shown := fun c => JInt (monthly_insight_narratives (quotas c)) |};
   {| ov_var := s! "ZL_EXPENSE_INSIGHTS_LLM_ENABLED"; ov_key := s! "insights.llm_enabled";
      ov_set := boolean (s! "ZL_EXPENSE_INSIGHTS_LLM_ENABLED") set_llm_enabled;
      ov_shown := fun c => JBool (llm_enabled (insights c)) |};
   {| ov_var := s! "ZL_EXPENSE_EXTRACTION_ENABLED"; ov_key := s! "features.extraction_enabled";
      ov_set := boolean (s! "ZL_EXPENSE_EXTRACTION_ENABLED") set_extraction_enabled;
      ov_shown := fun c => JBool (extraction_enabled (features c)) |};
   {| ov_var := s! "ZL_EXPENSE_OUTBOUND_ENABLED"; ov_key := s! "features.outbound_enabled";
      ov_set := boolean (s! "ZL_EXPENSE_OUTBOUND_ENABLED") set_outbound_enabled;
      ov_shown := fun c => JBool (outbound_enabled (features c)) |}].
Definition ENV_ROWS : list env_row := ENV_ROWS_1 ++ ENV_ROWS_2.

Definition apply_row (env : environment) (row : env_row) (st : Config * attribution)
    : result (Config * attribution) AppError :=
  match env (ov_var row) with
  | None => Ok st
  | Some v =>
      let? c := ov_set row v st.1 in
      Ok (c, insert_attr (ov_key row) (ov_shown row c) Env st.2)
  end.
Fixpoint apply_rows (env : environment) (rows : list env_row) (st : Config * attribution)
    : result (Config * attribution) AppError :=
  match rows with
  | [] => Ok st
  | row :: rows' => let? st' := apply_row env row st in apply_rows env rows' st'
  end.
Definition apply_env_overrides (env : environment) (cfg : Config) (a : attribution)
    : result (Config * attribution) AppError := apply_rows env ENV_ROWS (cfg, a).

End ConfigLayers.
