(* ===== verification/WorkProps.v ===== *)
(** * Correctness of the durable work queue

    The invariant of the tables (the CHECKs and unique indexes of migration 003 and
    the agreement of [jobs] with its audit trail [job_attempts]) holds in every
    reachable state; leases fence stale workers; claims respect serialization keys,
    limits and attempt budgets; finished jobs stay finished. *)

From S2P Require Import Prelude RustStr RustStrFacts Platform Errors Work.
Import Errors Work.

(** ** The invariant *)

(** CHECK: the three lease columns are set exactly in state [leased]. *)
Definition lease_check (j : job) : Prop :=
  if decide (state j = Leased)
  then is_Some (lease_token j) /\ is_Some (lease_owner j) /\ is_Some (lease_deadline j)
  else lease_token j = None /\ lease_owner j = None /\ lease_deadline j = None.

Definition terminal (s : JobState) : bool :=
  match s with Completed | JobCancelled | Dead => true | _ => false end.

(** CHECK: [completed_at] is set exactly in the terminal states. *)
Definition completed_check (j : job) : Prop :=
  if terminal (state j) then is_Some (completed_at j) else completed_at j = None.

Record job_ok (j : job) : Prop := {
  ok_lease : lease_check j;
  ok_completed : completed_check j;
  ok_version : 0 < payload_version j;
  ok_max : 0 < max_attempts j;
  ok_attempts : 0 <= attempt_count j <= max_attempts j;
  ok_queued : state j = Queued -> attempt_count j < max_attempts j;
  ok_leased : state j = Leased -> 1 <= attempt_count j;
}.

Record wf (d : db) : Prop := {
  wf_jobs : forall id j, jobs d !! id = Some j -> job_ok j;
  wf_dedupe : forall id1 id2 j1 j2, jobs d !! id1 = Some j1 -> jobs d !! id2 = Some j2 ->
    dedupe_key j1 = dedupe_key j2 -> id1 = id2;
  wf_serial : forall id1 id2 j1 j2 k, jobs d !! id1 = Some j1 -> jobs d !! id2 = Some j2 ->
    state j1 = Leased -> state j2 = Leased ->
    serialization_key j1 = Some k -> serialization_key j2 = Some k -> id1 = id2;
  wf_att : forall id n a, attempts d !! (id, n) = Some a ->
    exists j, jobs d !! id = Some j /\ 1 <= n <= attempt_count j /\
      (ended_at a = None -> state j = Leased /\ n = attempt_count j
                            /\ lease_token j = Some (at_lease_token a));
  wf_log : forall id j n, jobs d !! id = Some j -> 1 <= n <= attempt_count j ->
    is_Some (attempts d !! (id, n));
  wf_open : forall id j, jobs d !! id = Some j -> state j = Leased ->
    exists a, attempts d !! (id, attempt_count j) = Some a /\ ended_at a = None;
}.

Lemma wf_empty : wf empty_db.
Proof. by constructor; intros *; rewrite ?lookup_empty. Qed.

(** ** Updating one job *)

Lemma lookup_close now id o ec d k :
  attempts (close_open_attempt now id o ec d) !! k =
  (fun a => if bool_decide (k.1 = id) && bool_decide (ended_at a = None)
            then close_attempt now o ec a else a) <$> attempts d !! k.
Proof. simpl. rewrite map_lookup_imap. by destruct (attempts d !! k). Qed.

(** Two jobs of the updated table, seen through the old one. *)
Ltac look H :=
  match type of H with
  | (<[?i := _]> _) !! ?k = Some _ =>
      rewrite lookup_insert in H; destruct (decide (i = k)) as [?|?]; simplify_eq
  end.

(** A job leaves (or stays out of) the leased state; its open attempts are closed. *)
Lemma wf_leave now id o ec d j j' :
  wf d -> jobs d !! id = Some j -> job_ok j' -> state j' <> Leased ->
  dedupe_key j' = dedupe_key j -> attempt_count j' = attempt_count j ->
  wf (close_open_attempt now id o ec (set_job id j' d)).
Proof.
  intros W Hj Hok Hs Hd Ha. constructor; cbn [jobs close_open_attempt set_job].
  - intros i x Hx. look Hx; [done | by eapply wf_jobs].
  - intros i1 i2 j1 j2 H1 H2 E. look H1; look H2; try done;
      eapply (wf_dedupe d W); eauto; congruence.
  - intros i1 i2 j1 j2 k H1 H2 L1 L2. look H1; look H2; try done. by eapply (wf_serial d W).
  - intros i n a. rewrite lookup_close. cbn [attempts set_job fst]. intros Hl.
    apply fmap_Some in Hl as (a0 & Ha0 & ->).
    destruct (wf_att d W _ _ _ Ha0) as (x & Hx & Hn & Hop).
    rewrite lookup_insert. destruct (decide (id = i)) as [<-|Hne].
    + assert (x = j) as -> by congruence. exists j'. split; [done|]. rewrite Ha. split; [done|].
      rewrite bool_decide_eq_true_2 by done. cbn [andb].
      case_bool_decide; [done|]. intros; contradiction.
    + exists x. split; [done|]. split; [done|]. by rewrite bool_decide_eq_false_2 by congruence.
  - intros i x n Hx Hn. rewrite lookup_close. cbn [attempts set_job]. apply fmap_is_Some.
    look Hx; [|by eapply wf_log]. eapply wf_log; eauto. congruence.
  - intros i x Hx Hl. look Hx; try done.
    destruct (wf_open d W _ _ Hx Hl) as (a & Hat & He). exists a. split; [|done].
    rewrite lookup_close. cbn [attempts set_job fst]. rewrite Hat. simpl.
    by rewrite bool_decide_eq_false_2 by congruence.
Qed.

(** Closing is void for a job without a lease. *)
Lemma close_noop now id o ec d j :
  wf d -> jobs d !! id = Some j -> state j <> Leased -> close_open_attempt now id o ec d = d.
Proof.
  intros W Hj Hs. destruct d as [js ats] eqn:Ed. rewrite <- Ed in *. rewrite Ed at 2.
  assert (attempts (close_open_attempt now id o ec d) = attempts d) as E.
  { apply map_eq. intros [i n]. rewrite lookup_close. cbn [fst].
    destruct (attempts d !! (i, n)) as [a|] eqn:Ha; [|done]. simpl. f_equal.
    case_bool_decide; [|done]. subst i. cbn [andb]. case_bool_decide; [|done].
    destruct (wf_att d W _ _ _ Ha) as (x & Hx & _ & Hop).
    destruct Hop as [? _]; [done|]. congruence. }
  subst d. unfold close_open_attempt in *. simpl in *. by rewrite E.
Qed.

Lemma wf_leave_unleased id d j j' :
  wf d -> jobs d !! id = Some j -> state j <> Leased -> job_ok j' -> state j' <> Leased ->
  dedupe_key j' = dedupe_key j -> attempt_count j' = attempt_count j ->
  wf (set_job id j' d).
Proof.
  intros W Hj Hns Hok Hs Hd Ha.
  pose proof (wf_leave 0 id ALostLease None d j j' W Hj Hok Hs Hd Ha) as H.
  pose proof (close_noop 0 id ALostLease None d j W Hj Hns) as E.
  destruct d as [js ats]. unfold close_open_attempt, set_job in *. simpl in *.
  injection E as E. by rewrite E in H.
Qed.

(** The lease of a job is prolonged. *)
Lemma wf_extend id now dur d j :
  wf d -> jobs d !! id = Some j -> state j = Leased -> wf (set_job id (extend_lease now dur j) d).
Proof.
  intros W Hj Hs. pose proof (wf_jobs d W _ _ Hj) as Hok. constructor; cbn [jobs attempts set_job].
  - intros i x Hx. look Hx; [|by eapply wf_jobs].
    destruct Hok as [Hl Hc ? ? ? ? ?]. constructor; try done.
    unfold lease_check in *. cbn. rewrite Hs in *. rewrite decide_True in * by done.
    destruct Hl as (? & ? & _). eauto.
  - intros i1 i2 j1 j2 H1 H2 E. look H1; look H2; try done;
      eapply (wf_dedupe d W); eauto; congruence.
  - intros i1 i2 j1 j2 k H1 H2 L1 L2 K1 K2. look H1; look H2; try done;
      eapply (wf_serial d W); eauto.
  - intros i n a Hat. destruct (wf_att d W _ _ _ Hat) as (x & Hx & Hn & Hop).
    rewrite lookup_insert. destruct (decide (id = i)) as [<-|Hne]; [|eauto].
    assert (x = j) as -> by congruence. eauto.
  - intros i x n Hx Hn. look Hx; eapply (wf_log d W); eauto.
  - intros i x Hx Hl. look Hx; [|by eapply (wf_open d W)]. exact (wf_open d W _ _ Hj Hs).
Qed.

(** ** Claiming *)

Lemma key_leased_false d k ex :
  key_leased d k ex = false <->
  forall id j, jobs d !! id = Some j -> serialization_key j = Some k -> state j = Leased -> ex = Some id.
Proof.
  unfold key_leased. rewrite <- not_true_iff_false, existsb_exists. split.
  - intros H id j Hj Hk Hs. destruct (decide (ex = Some id)) as [|Hne]; [done|].
    destruct H. exists (id, j). split; [by apply list_elem_of_In, elem_of_map_to_list|].
    cbn. by rewrite (bool_decide_eq_true_2 _ Hk), (bool_decide_eq_true_2 _ Hs), (bool_decide_eq_false_2 _ Hne).
  - intros H ([id j] & Hin & E). apply list_elem_of_In, elem_of_map_to_list in Hin.
    b2p. simpl in *. eauto.
Qed.

Lemma claimable_states now j : claimable now j = true -> state j = Queued \/ state j = Leased.
Proof. unfold claimable. intros [?|?]%orb_true_iff; b2p; auto. Qed.

(** Whether the claim loop first closes the attempts of an expired lease. *)
Definition closed_if_leased (now : Z) (id : uuid) (j : job) (d : db) : db :=
  if bool_decide (state j = Leased) then close_open_attempt now id ALostLease None d else d.

Lemma jobs_closed_if now id j d : jobs (closed_if_leased now id j d) = jobs d.
Proof. unfold closed_if_leased. by case_bool_decide. Qed.

Lemma lookup_closed_if now id j d k :
  wf d -> jobs d !! id = Some j -> exists f, attempts (closed_if_leased now id j d) !! k = f <$> attempts d !! k
    /\ (forall a, k.1 = id -> ended_at (f a) = None -> attempts d !! k = Some a -> False)
    /\ (forall a, k.1 <> id -> f a = a).
Proof.
  intros W Hj. unfold closed_if_leased. case_bool_decide as Hs.
  - rewrite lookup_close. eexists. split; [done|]. split.
    + intros a E. rewrite bool_decide_eq_true_2 by done. cbn [andb]. by case_bool_decide.
    + intros a Hne. by rewrite bool_decide_eq_false_2.
  - exists (fun a => a). split; [by rewrite option_fmap_id|]. split; [|done].
    intros a Ek He Ha. destruct k as [i n]. simpl in Ek. subst i.
    destruct (wf_att d W _ _ _ Ha) as (x & Hx & _ & Hop). destruct (Hop He) as [? _]. congruence.
Qed.

Definition lease_row (now : Z) (o : ClaimOptions) (ids : uuid * uuid) : attempt :=
  {| at_id := ids.2; at_lease_token := ids.1; at_lease_owner := opt_lease_owner o;
     started_at := now; ended_at := None; outcome := None; at_error_class := None |}.

Definition leased_db (now : Z) (o : ClaimOptions) (ids : uuid * uuid) (id : uuid) (j : job) (d : db) : db :=
  {| jobs := <[id := lease_job now (attempt_count j + 1) ids.1 (opt_lease_owner o) (lease_duration_secs o) j]>
               (jobs d);
     attempts := <[(id, attempt_count j + 1) := lease_row now o ids]>
                   (attempts (closed_if_leased now id j d)) |}.

Lemma lease_job_ok now n tok owner dur j :
  job_ok j -> claimable now j = true -> 1 <= n <= max_attempts j ->
  job_ok (lease_job now n tok owner dur j).
Proof.
  intros [Hl Hc Hv Hm Ha Hq Hlo] Hcl Hn. constructor; cbn; try done; try lia.
  unfold completed_check in Hc.
  destruct (claimable_states _ _ Hcl) as [E|E]; rewrite E in Hc; exact Hc.
Qed.

Lemma wf_leased now o ids id j d :
  wf d -> jobs d !! id = Some j -> claimable now j = true -> attempt_count j < max_attempts j ->
  (forall k, serialization_key j = Some k -> key_leased d k (Some id) = false) ->
  wf (leased_db now o ids id j d).
Proof.
  intros W Hj Hcl Hlt Hkey. pose proof (wf_jobs d W _ _ Hj) as Hok.
  assert (Hother : forall i x k, jobs d !! i = Some x -> state x = Leased ->
    serialization_key x = Some k -> serialization_key j = Some k -> id = i).
  { intros i x k Hx Hs Hk Hjk. specialize (Hkey k Hjk). rewrite key_leased_false in Hkey.
    specialize (Hkey i x Hx Hk Hs). congruence. }
  constructor; cbn [jobs attempts leased_db].
  - intros i x Hx. look Hx; [|by eapply wf_jobs]. apply lease_job_ok; [done..|].
    pose proof (ok_attempts _ Hok). lia.
  - intros i1 i2 j1 j2 H1 H2 E. look H1; look H2; try done;
      eapply (wf_dedupe d W); eauto; congruence.
  - intros i1 i2 j1 j2 k H1 H2 L1 L2 K1 K2. look H1; look H2; try done.
    + by eapply Hother.
    + symmetry. by eapply Hother.
    + by eapply (wf_serial d W).
  - intros i n a. rewrite lookup_insert. destruct (decide ((id, attempt_count j + 1) = (i, n))) as [E|E].
    + injection E as <- <-. intros [= <-]. eexists. rewrite lookup_insert_eq. split; [done|]. cbn.
      pose proof (ok_attempts _ Hok). split; [lia | done].
    + destruct (lookup_closed_if now id j d (i, n) W Hj) as (f & -> & Hcl1 & Hcl2).
      intros (a0 & Ha0 & ->)%fmap_Some.
      destruct (wf_att d W _ _ _ Ha0) as (x & Hx & Hn & Hop).
      rewrite lookup_insert. destruct (decide (id = i)) as [<-|Hne].
      * eexists. split; [done|]. cbn. assert (x = j) as -> by congruence.
        split; [lia|]. intros He. destruct (Hcl1 a0 eq_refl He Ha0).
      * rewrite (Hcl2 a0) by (simpl; congruence). eauto.
  - intros i x n Hx Hn. rewrite lookup_insert. case_decide as E; [done|].
    destruct (lookup_closed_if now id j d (i, n) W Hj) as (f & -> & _ & _). apply fmap_is_Some.
    look Hx; [|by eapply (wf_log d W)]. cbn in Hn. eapply (wf_log d W); [done|].
    destruct (decide (n = attempt_count j + 1)); [congruence | lia].
  - intros i x Hx Hl. rewrite lookup_insert. look Hx.
    + cbn. rewrite decide_True by done. eexists. split; done.
    + rewrite decide_False by congruence.
      destruct (lookup_closed_if now id j d (i, attempt_count x) W Hj) as (f & -> & _ & Hf).
      destruct (wf_open d W _ _ Hx Hl) as (a & -> & He). exists a. split; [|done].
      simpl. rewrite Hf; [done | simpl; congruence].
Qed.

(** [take_lease] on the current row succeeds and produces [leased_db]. *)
Lemma take_lease_ok now o env id j d claimed :
  wf d -> jobs d !! id = Some j -> claimable now j = true ->
  (forall k, serialization_key j = Some k -> key_leased d k (Some id) = false) ->
  take_lease now o env id j claimed (closed_if_leased now id j d) =
  Ok (claimed ++ [{| cl_id := id; cl_job_type := job_type j; cl_payload := payload j;
                     cl_payload_version := payload_version j;
                     cl_attempt_number := attempt_count j + 1;
                     cl_lease_token := (fresh_ids env id).1; cl_lease_owner := opt_lease_owner o;
                     cl_lease_deadline := now + lease_duration_secs o * second;
                     cl_dedupe_key := dedupe_key j; cl_serialization_key := serialization_key j |}],
      leased_db now o (fresh_ids env id) id j d).
Proof.
  intros W Hj Hcl Hkey. unfold take_lease. destruct (fresh_ids env id) as [tok aid] eqn:Ef.
  rewrite jobs_closed_if, Hj, Hcl. cbn [negb].
  assert (match serialization_key j with
          | Some k => key_leased (closed_if_leased now id j d) k (Some id) | None => false end = false) as ->.
  { destruct (serialization_key j) as [k|] eqn:Ek; [|done].
    unfold key_leased. rewrite jobs_closed_if. by apply (Hkey k). }
  destruct (lookup_closed_if now id j d (id, attempt_count j + 1) W Hj) as (f & E & _ & _).
  assert (attempts d !! (id, attempt_count j + 1) = None) as Hn.
  { destruct (attempts d !! _) as [a|] eqn:Ha; [|done].
    destruct (wf_att d W _ _ _ Ha) as (x & Hx & Hn & _). assert (x = j) as -> by congruence. lia. }
  rewrite E, Hn. cbn [fmap option_fmap option_map]. unfold leased_db, lease_row. done.
Qed.

(** What one round of the claim loop can do with the row [j] of job [id]. *)
Inductive claim_round (now : Z) (o : ClaimOptions) (env : ClaimEnv) (id : uuid) (j : job)
    (d : db) (claimed : list ClaimedJob) : list ClaimedJob -> db -> Prop :=
| round_skip : claim_round now o env id j d claimed claimed d
| round_bury :
    state j = Leased -> max_attempts j <= attempt_count j ->
    claim_round now o env id j d claimed claimed
      (close_open_attempt now id ALostLease None (set_job id (dead_letter_expired now j) d))
| round_lease c :
    attempt_count j < max_attempts j ->
    (forall k, serialization_key j = Some k -> key_leased d k (Some id) = false) ->
    c = {| cl_id := id; cl_job_type := job_type j; cl_payload := payload j;
           cl_payload_version := payload_version j;
           cl_attempt_number := attempt_count j + 1;
           cl_lease_token := (fresh_ids env id).1; cl_lease_owner := opt_lease_owner o;
           cl_lease_deadline := now + lease_duration_secs o * second;
           cl_dedupe_key := dedupe_key j; cl_serialization_key := serialization_key j |} ->
    claim_round now o env id j d claimed (claimed ++ [c])
      (leased_db now o (fresh_ids env id) id j d).

Lemma guard_go d env id key seen seen' :
  serialization_guard d env id key seen = (seen', true) ->
  forall k, key = Some k -> key_leased d k (Some id) = false.
Proof.
  unfold serialization_guard. destruct key as [k0|]; [|congruence].
  case_bool_decide; [congruence|]. intros [= _ Hg] k [= <-]. b2p. done.
Qed.

Lemma claim_step_round now o env seen claimed id j d :
  wf d -> jobs d !! id = Some j -> claimable now j = true ->
  exists seen' claimed' d', claim_step now o env seen claimed (id, j) d = Ok ((seen', claimed'), d')
    /\ claim_round now o env id j d claimed claimed' d'.
Proof.
  intros W Hj Hcl. unfold claim_step.
  destruct (serialization_guard d env id (serialization_key j) seen) as [seen' go] eqn:Eg.
  destruct go; cbn [negb]; [|by eauto using round_skip].
  pose proof (guard_go _ _ _ _ _ _ Eg) as Hkey.
  fold (closed_if_leased now id j d).
  destruct (bool_decide (state j = Leased) && (max_attempts j <=? attempt_count j)) eqn:Eb.
  - b2p. eexists _, _, _. split; [done|].
    assert (Hd : deadline_passed now j = true).
    { unfold claimable in Hcl. rewrite H in Hcl. simpl in Hcl. exact Hcl. }
    unfold bury_expired, closed_if_leased. rewrite bool_decide_eq_true_2 by done.
    cbn [jobs close_open_attempt]. rewrite Hj, bool_decide_eq_true_2, Hd by done. cbn [andb].
    by apply round_bury.
  - rewrite take_lease_ok by done. eexists _, _, _. split; [done|].
    apply round_lease; [|done|done]. pose proof (wf_jobs d W _ _ Hj) as Hok.
    destruct (claimable_states _ _ Hcl) as [E|E]; [by apply (ok_queued _ Hok)|].
    rewrite bool_decide_eq_true_2 in Eb by done. cbn [andb] in Eb. b2p. lia.
Qed.

Lemma dead_letter_ok now j : job_ok j -> job_ok (dead_letter_expired now j).
Proof. intros [? ? ? ? ? ? ?]. constructor; cbn; try done. Qed.

Lemma claim_round_wf now o env id j d claimed claimed' d' :
  wf d -> jobs d !! id = Some j -> claimable now j = true ->
  claim_round now o env id j d claimed claimed' d' -> wf d'.
Proof.
  intros W Hj Hcl [|Hs Hm|c Hlt Hk _]; [done | | by apply wf_leased].
  apply (wf_leave _ _ _ _ d j); try done. eapply dead_letter_ok, wf_jobs; eauto.
Qed.

Lemma claim_round_frame now o env id j d claimed claimed' d' i :
  claim_round now o env id j d claimed claimed' d' -> i <> id -> jobs d' !! i = jobs d !! i.
Proof. intros [] Hne; cbn; [done|..]; by rewrite lookup_insert_ne. Qed.

(** The rows still to be visited are the current rows, each once. *)
Definition pending (now : Z) (d : db) (cs : list (uuid * job)) : Prop :=
  NoDup (cs.*1) /\ Forall (fun c => jobs d !! c.1 = Some c.2 /\ claimable now c.2 = true) cs.

(** The entry [c] of a claim, with the row [j] it was made from. *)
Definition claimed_from (now : Z) (o : ClaimOptions) (env : ClaimEnv) (d d' : db) (c : ClaimedJob) : Prop :=
  exists j, jobs d !! cl_id c = Some j /\ claimable now j = true
    /\ attempt_count j < max_attempts j
    /\ cl_attempt_number c = attempt_count j + 1
    /\ cl_lease_token c = (fresh_ids env (cl_id c)).1
    /\ cl_payload c = payload j /\ cl_serialization_key c = serialization_key j
    /\ cl_lease_deadline c = now + lease_duration_secs o * second
    /\ jobs d' !! cl_id c =
         Some (lease_job now (cl_attempt_number c) (cl_lease_token c) (opt_lease_owner o)
                 (lease_duration_secs o) j).

Lemma pending_tail now o env id j d claimed claimed' d' cs :
  pending now d ((id, j) :: cs) -> claim_round now o env id j d claimed claimed' d' -> pending now d' cs.
Proof.
  intros [Hnd Hall] Hr. cbn in Hnd. apply NoDup_cons in Hnd as [Hnin Hnd].
  apply Forall_cons in Hall as [_ Hall]. split; [done|].
  rewrite Forall_forall in *. intros c Hc. specialize (Hall c Hc).
  rewrite (claim_round_frame _ _ _ _ _ _ _ _ _ (c.1) Hr); [done|].
  intros E. destruct Hnin. rewrite <- E. apply list_elem_of_fmap. eauto.
Qed.

Lemma claim_loop_spec now o env cs d seen claimed :
  wf d -> pending now d cs ->
  exists new d', claim_loop now o env seen claimed cs d = Ok (claimed ++ new, d')
    /\ wf d' /\ (forall i, i ∉ cs.*1 -> jobs d' !! i = jobs d !! i)
    /\ Forall (claimed_from now o env d d') new
    /\ NoDup (cl_id <$> new) /\ (length new <= length cs)%nat
    /\ Forall (fun c => cl_id c ∈ cs.*1) new.
Proof.
  revert d seen claimed. induction cs as [|[id j] cs IH]; intros d seen claimed W Hp.
  { exists [], d. rewrite app_nil_r. split_and!; try done; constructor. }
  pose proof Hp as [Hnd Hall]. cbn in Hnd. apply NoDup_cons in Hnd as [Hnin Hnd].
  apply Forall_cons in Hall as [[Hj Hcl] Hall]. cbn [fst snd] in *.
  destruct (claim_step_round now o env seen claimed id j d W Hj Hcl) as (s1 & c1 & d1 & E & Hr).
  pose proof (claim_round_wf _ _ _ _ _ _ _ _ _ W Hj Hcl Hr) as W1.
  destruct (IH d1 s1 c1 W1 (pending_tail _ _ _ _ _ _ _ _ _ _ Hp Hr))
    as (new & d' & E' & W' & Hf & Hfrom & Hnodup & Hlen & Hin).
  assert (Hfr : forall i, i ∉ id :: cs.*1 -> jobs d' !! i = jobs d !! i).
  { intros i [Hi1 Hi2]%not_elem_of_cons. rewrite Hf by done. by eapply claim_round_frame. }
  assert (Hfrom' : Forall (claimed_from now o env d d') new).
  { rewrite Forall_forall in *. intros c Hc. specialize (Hfrom c Hc). specialize (Hin c Hc).
    destruct Hfrom as (x & Hx & Hrest). exists x. split; [|done].
    rewrite <- Hx. symmetry. eapply claim_round_frame; [done|]. intros E2. by rewrite E2 in Hin. }
  assert (Hin' : Forall (fun c => cl_id c ∈ id :: cs.*1) new).
  { eapply Forall_impl; [exact Hin|]. intros c Hc. by right. }
  cbn [claim_loop]. unfold t_bind. rewrite E. inversion Hr; subst.
  - exists new, d'. split_and!; try done. cbn. lia.
  - exists new, d'. split_and!; try done. cbn. lia.
  - rewrite <- app_assoc in E'. eexists _, d'. split; [exact E'|].
    split_and!; try done.
    + constructor; [|done]. exists j. cbn. split_and!; try done.
      rewrite Hf by done. cbn. by rewrite lookup_insert_eq.
    + cbn. constructor; [|done]. intros Hc. apply list_elem_of_fmap in Hc as (c & Ec & Hc).
      rewrite Forall_forall in Hin. specialize (Hin c Hc). rewrite <- Ec in Hin. done.
    + cbn. lia.
    + constructor; [by left | done].
Qed.

Lemma select_candidates_pending d now limit env :
  pending now d (select_candidates d now limit env)
  /\ (length (select_candidates d now limit env) <= Z.to_nat limit)%nat.
Proof.
  unfold select_candidates. set (l := List.filter _ _).
  assert (Hl : Forall (fun c => jobs d !! c.1 = Some c.2 /\ claimable now c.2 = true) l).
  { rewrite Forall_forall. intros [i x] Hx%list_elem_of_In. unfold l in Hx.
    apply List.filter_In in Hx as [Hx Hc]. apply list_elem_of_In, elem_of_map_to_list in Hx.
    unfold candidate in Hc. b2p. done. }
  assert (Hnd : NoDup (l.*1)).
  { assert (Hsub : l `sublist_of` map_to_list (jobs d)).
    { unfold l. generalize (map_to_list (jobs d)) as xs. clear. intros xs.
      induction xs as [|x xs IH]; cbn; [constructor|]. case_match; by constructor. }
    eapply sublist_NoDup; [apply (NoDup_fst_map_to_list (jobs d))|]. by apply fmap_sublist. }
  pose proof (merge_sort_Permutation claim_order l) as Hperm.
  split; [|rewrite length_take; lia]. split.
  - eapply sublist_NoDup; [|apply fmap_sublist, sublist_take].
    by rewrite Hperm.
  - apply Forall_take. by rewrite Hperm.
Qed.

Lemma claim_spec now o env d :
  wf d -> 0 < batch_limit o -> is_empty (opt_lease_owner o) = false -> 0 < lease_duration_secs o ->
  exists new d', claim now o env d = (d', Ok new) /\ wf d'
    /\ Forall (claimed_from now o env d d') new /\ NoDup (cl_id <$> new)
    /\ Z.of_nat (length new) <= batch_limit o
    /\ (forall i, jobs d' !! i = jobs d !! i \/ exists j, jobs d !! i = Some j /\ claimable now j = true).
Proof.
  intros W Hb Ho Hl. unfold claim.
  rewrite (proj2 (Z.leb_gt _ _)), Ho, (proj2 (Z.leb_gt _ _)) by lia.
  destruct (select_candidates_pending d now (batch_limit o) env) as [Hp Hlen].
  destruct (claim_loop_spec now o env _ d ∅ [] W Hp) as (new & d' & E & W' & Hf & Hfr & Hnd & Hn & _).
  exists new, d'. unfold atomically. rewrite E. split_and!; try done; [lia|].
  intros i. destruct (decide (i ∈ (select_candidates d now (batch_limit o) env).*1)) as [Hin|Hin].
  - right. apply list_elem_of_fmap in Hin as (c & -> & Hc). destruct Hp as [_ Hp].
    rewrite Forall_forall in Hp. destruct (Hp c Hc). eauto.
  - left. by rewrite Hf.
Qed.

(** ** Every operation keeps the invariant *)

Lemma has_dedupe_false d k :
  has_dedupe_key d k = false <-> forall id j, jobs d !! id = Some j -> dedupe_key j <> k.
Proof.
  unfold has_dedupe_key. rewrite <- not_true_iff_false, existsb_exists. split.
  - intros H id j Hj E. apply H. exists (id, j).
    split; [by apply list_elem_of_In, elem_of_map_to_list | by apply str_eqb_eq].
  - intros H ([id j] & Hin & E). apply list_elem_of_In, elem_of_map_to_list in Hin.
    apply str_eqb_eq in E. by apply (H id j).
Qed.

Lemma payload_version_pos p v : payload_version_of p = Ok v -> 0 < v.
Proof.
  unfold payload_version_of, ok_or. destruct (json_get _ _) as [x|]; [|discriminate].
  destruct (json_as_i64 x) as [z|]; [|discriminate].
  destruct ((0 <? z) && in_i32 z) eqn:E; [|discriminate]. intros [= <-]. b2p. lia.
Qed.

Lemma validate_ok r v : validate_enqueue_request r = Ok v -> 0 < v /\ 0 < req_max_attempts r.
Proof.
  unfold validate_enqueue_request, res_bind.
  destruct (payload_version_of (req_payload r)) as [v0|e] eqn:E; [|discriminate].
  apply payload_version_pos in E. intros H.
  destruct (Z.leb_spec (req_max_attempts r) 0); [discriminate|].
  repeat (case_match; try discriminate); simplify_eq; lia.
Qed.

Lemma wf_enqueue now r d : wf d -> wf (enqueue now r d).1.
Proof.
  intros W. unfold enqueue, atomically, enqueue_in_transaction, res_bind.
  destruct (validate_enqueue_request r) as [v|e] eqn:Ev; [|done].
  apply validate_ok in Ev as [Hv Hm].
  destruct (has_dedupe_key d (req_dedupe_key r)) eqn:Ed; [done|].
  destruct (jobs d !! req_id r) as [x|] eqn:Ej; [done|]. cbn [fst].
  rewrite has_dedupe_false in Ed. constructor; cbn [jobs attempts set_job].
  - intros i j Hj. look Hj; [|by eapply wf_jobs]. constructor; cbn; try done; lia.
  - intros i1 i2 j1 j2 H1 H2 E. look H1; look H2; try done.
    + destruct (Ed _ _ H2). done.
    + destruct (Ed _ _ H1). done.
    + by eapply (wf_dedupe d W).
  - intros i1 i2 j1 j2 k H1 H2 L1 L2 K1 K2. look H1; look H2; try done.
    by eapply (wf_serial d W).
  - intros i n a Ha. destruct (wf_att d W _ _ _ Ha) as (j & Hj & Hrest).
    exists j. rewrite lookup_insert_ne by congruence. done.
  - intros i j n Hj Hn. look Hj; [cbn in Hn; lia | by eapply (wf_log d W)].
  - intros i j Hj Hs. look Hj. by eapply (wf_open d W).
Qed.

Lemma live_job_spec now id token d j :
  live_job now id token d = Some j <->
  jobs d !! id = Some j /\ state j = Leased /\ lease_token j = Some token
    /\ exists dl, lease_deadline j = Some dl /\ now <= dl.
Proof.
  unfold live_job, lease_live. destruct (jobs d !! id) as [x|]; [|by split; [|intros [? _]]].
  split.
  - intros H. case_match eqn:E; [|done]. simplify_eq. b2p. repeat split; try done.
    destruct (lease_deadline j) as [dl|]; [|done]. b2p. eauto.
  - intros ([= ->] & Hs & Ht & dl & Hd & Hle).
    by rewrite Hs, Ht, Hd, !bool_decide_eq_true_2, (proj2 (Z.leb_le _ _)).
Qed.

Lemma finish_ok now s err j : job_ok j -> terminal s = true -> job_ok (finish_job now s err j).
Proof.
  intros [? ? ? ? ? ? ?] Hs. constructor; cbn; try done.
  - unfold lease_check. cbn. rewrite decide_False by (by destruct s). done.
  - unfold completed_check. cbn. rewrite Hs. done.
  - by destruct s.
  - by destruct s.
Qed.

Lemma wf_finish now id o ec s err d j :
  wf d -> jobs d !! id = Some j -> terminal s = true ->
  wf (close_open_attempt now id o ec (set_job id (finish_job now s err j) d)).
Proof.
  intros W Hj Hs. apply (wf_leave _ _ _ _ d j); try done; [|by destruct s].
  apply finish_ok; [by eapply wf_jobs | done].
Qed.

Lemma wf_fail now id token class d : wf d -> wf (fail now id token class d).1.
Proof.
  intros W. unfold fail, atomically.
  destruct (live_job now id token d) as [j|] eqn:E; [|done].
  apply live_job_spec in E as (Hj & Hs & _ & _). pose proof (wf_jobs d W _ _ Hj) as Hok.
  destruct (is_retryable class && (attempt_count j <? max_attempts j)) eqn:Er; cbn [fst].
  - b2p. apply (wf_leave now id AFailed (Some (as_str class)) d j
      (retry_job now (retry_delay_secs (attempt_count j)) (as_str class) j)); try done.
    destruct Hok as [Hl Hc ? ? ? ? ?]. constructor; cbn; try done.
    unfold completed_check in Hc. by rewrite Hs in Hc.
  - by apply (wf_finish now id AFailed (Some (as_str class)) Dead (Some (as_str class)) d j).
Qed.

Lemma cancel_queued_ok now j : job_ok j -> state j = Queued -> job_ok (cancel_queued_job now j).
Proof.
  intros [Hl ? ? ? ? ? ?] Hs. constructor; cbn; try done.
  unfold lease_check in Hl. by rewrite decide_False in Hl by congruence.
Qed.

Lemma wf_cancel_active now id token ov d : wf d -> wf (cancel_active now id token ov d).1.
Proof.
  intros W. unfold cancel_active, atomically.
  destruct (jobs d !! id) as [j|] eqn:Hj; [|done].
  destruct (state j) eqn:Hs; try done.
  - destruct token; [done|]. cbn [fst]. apply (wf_leave_unleased id d j); try done; [congruence|].
    apply cancel_queued_ok; [by eapply wf_jobs | done].
  - assert (H : wf (close_open_attempt now id ACancelled None
      (set_job id (finish_job now JobCancelled None j) d))) by (by apply wf_finish).
    destruct ov; [done|]. destruct token as [t|]; [|done].
    by destruct (live_job now id t d).
Qed.

(** Cancelling all queued jobs of a key changes no lease and no attempt. *)
Lemma wf_cancel_by_key now key d :
  wf d -> wf (atomically (cancel_queued_by_serialization_key_in_transaction now key) d).1.
Proof.
  intros W. cbn. set (f := fun j => if queued_with_key key j then cancel_queued_job now j else j).
  assert (Hf : forall j, state (f j) = Leased -> f j = j).
  { intros j. unfold f. by destruct (queued_with_key key j). }
  assert (Hd : forall j, dedupe_key (f j) = dedupe_key j /\ attempt_count (f j) = attempt_count j).
  { intros j. unfold f. by destruct (queued_with_key key j). }
  assert (Hl : forall j, state j = Leased -> f j = j).
  { intros j Hs. unfold f, queued_with_key. rewrite Hs. by rewrite andb_false_r. }
  constructor; cbn [jobs attempts].
  - intros i x. rewrite lookup_fmap. intros (j & Hj & ->)%fmap_Some.
    pose proof (wf_jobs d W _ _ Hj) as Hok. unfold f, queued_with_key.
    case_match eqn:E; [|done]. b2p. by apply cancel_queued_ok.
  - intros i1 i2 j1 j2. rewrite !lookup_fmap. intros (x1 & H1 & ->)%fmap_Some (x2 & H2 & ->)%fmap_Some.
    rewrite (proj1 (Hd x1)), (proj1 (Hd x2)). by eapply (wf_dedupe d W).
  - intros i1 i2 j1 j2 k. rewrite !lookup_fmap.
    intros (x1 & H1 & ->)%fmap_Some (x2 & H2 & ->)%fmap_Some L1 L2.
    pose proof (Hf _ L1) as E1. pose proof (Hf _ L2) as E2. rewrite E1 in L1 |- *.
    rewrite E2 in L2 |- *. by eapply (wf_serial d W).
  - intros i n a Ha. destruct (wf_att d W _ _ _ Ha) as (j & Hj & Hn & Hop).
    exists (f j). rewrite lookup_fmap, Hj, (proj2 (Hd j)). split; [done|]. split; [done|].
    intros He. destruct (Hop He) as (? & ? & ?). by rewrite Hl.
  - intros i x n. rewrite lookup_fmap. intros (j & Hj & ->)%fmap_Some. rewrite (proj2 (Hd j)).
    intros Hn. by eapply (wf_log d W).
  - intros i x. rewrite lookup_fmap. intros (j & Hj & ->)%fmap_Some Hs.
    pose proof (Hf _ Hs) as E. rewrite E in Hs |- *. by eapply (wf_open d W).
Qed.

Lemma wf_recover now id d : wf d -> wf (recover_dead now id d).1.
Proof.
  intros W. unfold recover_dead. destruct (jobs d !! id) as [j|] eqn:Hj; [|done].
  case_bool_decide as Hs; [|done]. cbn [fst].
  apply (wf_leave_unleased id d j); try done; [congruence|].
  pose proof (wf_jobs d W _ _ Hj) as [? ? ? ? ? ? ?].
  constructor; cbn; try done; lia.
Qed.

Lemma wf_exec now o d : wf d -> wf (exec now o d).
Proof.
  intros W. destruct o; cbn [exec].
  - by apply wf_enqueue.
  - unfold claim. repeat (case_match; [done|]).
    destruct (select_candidates_pending d now (batch_limit o) env) as [Hp _].
    destruct (claim_loop_spec now o env _ d ∅ [] W Hp) as (new & d' & E & W' & _).
    unfold atomically. by rewrite E.
  - unfold heartbeat. case_match; [done|].
    destruct (live_job now id token d) as [j|] eqn:E; [|done].
    apply live_job_spec in E as (Hj & Hs & _). by apply wf_extend.
  - unfold complete, atomically. destruct (live_job now id token d) as [j|] eqn:E; [|done].
    apply live_job_spec in E as (Hj & _). by apply wf_finish.
  - by apply wf_fail.
  - by apply wf_cancel_active.
  - by apply wf_cancel_active.
  - by apply wf_cancel_by_key.
  - by apply wf_recover.
Qed.

Lemma reachable_wf d : reachable d -> wf d.
Proof. induction 1; [apply wf_empty | by apply wf_exec]. Qed.

(** ** Lemmas for the properties *)

Lemma finished_not_claimable now j : terminal (state j) = true -> claimable now j = false.
Proof. unfold claimable. by destruct (state j). Qed.

Lemma finished_not_live now id token d j :
  jobs d !! id = Some j -> terminal (state j) = true -> live_job now id token d = None.
Proof.
  intros Hj Ht. destruct (live_job now id token d) as [x|] eqn:E; [|done].
  apply live_job_spec in E as (Hx & Hs & _). assert (x = j) as -> by congruence. by rewrite Hs in Ht.
Qed.

Lemma set_job_lookup_ne i id j d : i <> id -> jobs (set_job id j d) !! i = jobs d !! i.
Proof. intros. cbn. by rewrite lookup_insert_ne. Qed.

(** A row in a terminal state is changed by no operation except [recover_dead]. *)
Lemma finished_frame now o d id j :
  wf d -> jobs d !! id = Some j -> terminal (state j) = true ->
  (state j = Dead -> o <> ORecoverDead id) -> jobs (exec now o d) !! id = Some j.
Proof.
  intros W Hj Ht Hrec.
  destruct o as [r|o env|i t dur|i t|i t c|i t|i|key|i]; cbn [exec].
  - unfold enqueue, atomically, enqueue_in_transaction, res_bind.
    repeat (case_match; simplify_eq/=; try done). rewrite lookup_insert_ne by congruence. done.
  - unfold claim. repeat (case_match; [done|]).
    destruct (claim_spec now o env d W) as (new & d' & E & _ & _ & _ & _ & Hch); try (b2p; done || lia).
    unfold claim in E. rewrite H, H0, H1 in E. rewrite E. cbn.
    destruct (Hch id) as [->|(x & Hx & Hcl)]; [done|]. assert (x = j) as -> by congruence.
    by rewrite finished_not_claimable in Hcl.
  - unfold heartbeat. case_match; [done|]. destruct (decide (i = id)) as [->|Hne].
    + by rewrite (finished_not_live now id t d j).
    + case_match; [|done]. cbn [fst]. by rewrite set_job_lookup_ne.
  - unfold complete, atomically. destruct (decide (i = id)) as [->|Hne].
    + by rewrite (finished_not_live now id t d j).
    + destruct (live_job now i t d); [|done]. cbn. by rewrite lookup_insert_ne.
  - unfold fail, atomically. destruct (decide (i = id)) as [->|Hne].
    + by rewrite (finished_not_live now id t d j).
    + destruct (live_job now i t d); [|done].
      destruct (is_retryable c && _); cbn; by rewrite lookup_insert_ne.
  - unfold cancel, cancel_active, atomically. destruct (decide (i = id)) as [->|Hne].
    + rewrite Hj. by destruct (state j).
    + repeat (case_match; simplify_eq/=; try done); by rewrite lookup_insert_ne.
  - unfold cancel_by_operator, cancel_active, atomically. destruct (decide (i = id)) as [->|Hne].
    + rewrite Hj. by destruct (state j).
    + repeat (case_match; simplify_eq/=; try done); by rewrite lookup_insert_ne.
  - cbn. rewrite lookup_fmap, Hj. cbn. unfold queued_with_key.
    rewrite (bool_decide_eq_false_2 (state j = Queued)), andb_false_r by (by intros E; rewrite E in Ht).
    done.
  - unfold recover_dead. destruct (decide (i = id)) as [->|Hne].
    + rewrite Hj. case_bool_decide as E; [|done]. by destruct (Hrec E).
    + repeat case_match; try done. cbn. by rewrite lookup_insert_ne.
Qed.

Lemma retry_delay_pow n : 1 <= n <= i32_max -> retry_delay_secs n = 2 ^ Z.min 8 (n - 1).
Proof.
  intros Hn. unfold retry_delay_secs. cbv zeta.
  assert (clamp (i32_saturating_sub n 1) 0 8 = Z.min 8 (n - 1)) as ->.
  { unfold i32_saturating_sub, clamp. unfold i32_max, i32_min in *. repeat case_match; b2p; lia. }
  rewrite Z.shiftl_1_l, Z.mul_1_l.
  assert (2 ^ Z.min 8 (n - 1) <= 2 ^ 8) by (apply Z.pow_le_mono_r; lia).
  unfold i64_max. lia.
Qed.

(** A due job without a serialization key is always leased by the loop. *)
Lemma claim_loop_takes now o env cs d seen claimed id j :
  wf d -> pending now d cs -> (id, j) ∈ cs -> state j = Queued -> serialization_key j = None ->
  exists new d', claim_loop now o env seen claimed cs d = Ok (new, d')
    /\ exists c, c ∈ new /\ cl_id c = id.
Proof.
  revert d seen claimed. induction cs as [|[i x] cs IH]; intros d seen claimed W Hp Hin Hs Hk.
  { by apply elem_of_nil in Hin. }
  pose proof Hp as [_ Hall]. apply Forall_cons in Hall as [[Hj Hcl] _]. cbn [fst snd] in *.
  destruct (claim_step_round now o env seen claimed i x d W Hj Hcl) as (s1 & c1 & d1 & E & Hr).
  pose proof (claim_round_wf _ _ _ _ _ _ _ _ _ W Hj Hcl Hr) as W1.
  pose proof (pending_tail _ _ _ _ _ _ _ _ _ _ Hp Hr) as Hp1.
  cbn [claim_loop]. unfold t_bind. rewrite E.
  apply elem_of_cons in Hin as [[= -> ->]|Hin]; [|by apply IH].
  assert (exists c, c ∈ c1 /\ cl_id c = i) as (c & Hc & Ec).
  { unfold claim_step in E. rewrite Hk in E. cbn [serialization_guard negb] in E.
    rewrite bool_decide_eq_false_2 in E by congruence. cbn [andb] in E.
    pose proof (take_lease_ok now o env i x d claimed W Hj Hcl) as Htl.
    unfold closed_if_leased in Htl. rewrite bool_decide_eq_false_2 in Htl by congruence.
    rewrite Htl in E by congruence. injection E as <- <- <-.
    eexists. split; [apply elem_of_app; right; by left | done]. }
  destruct (claim_loop_spec now o env cs d1 s1 c1 W1 Hp1) as (new & d' & E' & _).
  exists (c1 ++ new), d'. split; [done|]. exists c. split; [|done].
  apply elem_of_app. by left.
Qed.

Lemma select_all d now limit env id j :
  jobs d !! id = Some j -> candidate d now j = true -> row_locked env id = false ->
  Z.of_nat (size (jobs d)) <= limit -> (id, j) ∈ select_candidates d now limit env.
Proof.
  intros Hj Hc Hl Hs. unfold select_candidates. set (l := List.filter _ _).
  assert (Hlen : (length l <= Z.to_nat limit)%nat).
  { unfold l. pose proof (List.filter_length_le
      (fun p : uuid * job => candidate d now p.2 && negb (row_locked env p.1)) (map_to_list (jobs d))).
    rewrite length_map_to_list in H. lia. }
  pose proof (merge_sort_Permutation claim_order l) as Hperm.
  rewrite take_ge by (rewrite Hperm; done). rewrite Hperm.
  apply list_elem_of_In, List.filter_In. split.
  - by apply list_elem_of_In, elem_of_map_to_list.
  - cbn. by rewrite Hc, Hl.
Qed.

Lemma claim_ok_valid now o env d d' new :
  claim now o env d = (d', Ok new) ->
  0 < batch_limit o /\ is_empty (opt_lease_owner o) = false /\ 0 < lease_duration_secs o.
Proof. unfold claim. repeat (case_match; [congruence|]). b2p. done. Qed.

Lemma not_live_rejected now id t d :
  live_job now id t d = None ->
  complete now id t d = (d, Err (conflict (s! "complete rejected for stale or expired lease token")))
  /\ (forall c, fail now id t c d = (d, Err (conflict (s! "fail rejected for stale or expired lease token"))))
  /\ (forall dur, (heartbeat now id t dur d).1 = d /\ forall dl, (heartbeat now id t dur d).2 <> Ok dl).
Proof.
  intros E. unfold complete, fail, heartbeat, atomically. rewrite E.
  split_and!; [done..|]. intros dur. by destruct (dur <=? 0).
Qed.

Lemma live_lease now n tok owner dur j now' :
  lease_live now' tok (lease_job now n tok owner dur j) = (now' <=? now + dur * second).
Proof. unfold lease_live. cbn. by rewrite !bool_decide_eq_true_2. Qed.

Lemma stale_token now' id t d j :
  jobs d !! id = Some j -> lease_token j <> Some t -> live_job now' id t d = None.
Proof.
  intros Hj Hne. unfold live_job, lease_live. rewrite Hj. by rewrite bool_decide_eq_false_2.
Qed.

(** No operation removes a job or changes its dedupe key. *)
Definition keeps_keys (d d' : db) : Prop :=
  forall id j, jobs d !! id = Some j -> exists j', jobs d' !! id = Some j' /\ dedupe_key j' = dedupe_key j.

#[export] Instance keeps_keys_refl : PreOrder keeps_keys.
Proof.
  split; [by intros d id j; eauto|]. intros d1 d2 d3 H1 H2 id j Hj.
  destruct (H1 id j Hj) as (j2 & Hj2 & E2). destruct (H2 id j2 Hj2) as (j3 & Hj3 & E3).
  exists j3. split; congruence.
Qed.

Lemma keeps_insert id j j' d ats :
  jobs d !! id = Some j -> dedupe_key j' = dedupe_key j ->
  keeps_keys d {| jobs := <[id := j']> (jobs d); attempts := ats |}.
Proof.
  intros Hj Hd i x Hx. cbn. rewrite lookup_insert. case_decide; [|eauto]. subst i. simplify_eq. eauto.
Qed.

Lemma claim_loop_keeps now o env cs d seen claimed :
  wf d -> pending now d cs ->
  forall new d', claim_loop now o env seen claimed cs d = Ok (new, d') -> keeps_keys d d'.
Proof.
  revert d seen claimed. induction cs as [|[i x] cs IH]; intros d seen claimed W Hp new d' E.
  { cbn in E. unfold t_ret in E. by simplify_eq. }
  pose proof Hp as [_ Hall]. apply Forall_cons in Hall as [[Hj Hcl] _]. cbn [fst snd] in *.
  destruct (claim_step_round now o env seen claimed i x d W Hj Hcl) as (s1 & c1 & d1 & E1 & Hr).
  cbn [claim_loop] in E. unfold t_bind in E. rewrite E1 in E.
  transitivity d1.
  - destruct Hr; [done | by eapply keeps_insert | by eapply keeps_insert].
  - eapply IH; [|by eapply pending_tail|exact E]. by eapply claim_round_wf.
Qed.

Lemma exec_keeps now o d : wf d -> keeps_keys d (exec now o d).
Proof.
  intros W. destruct o as [r|o env|i t dur|i t|i t c|i t|i|key|i]; cbn [exec].
  - unfold enqueue, atomically, enqueue_in_transaction, res_bind.
    repeat (case_match; simplify_eq/=; try done).
    intros id j Hj. cbn. exists j. rewrite lookup_insert_ne by congruence. done.
  - unfold claim. repeat (case_match; [done|]). unfold atomically.
    destruct (claim_loop _ _ _ _ _ _ _) as [[new d']|e] eqn:E; [|done]. cbn.
    eapply claim_loop_keeps; [done | apply select_candidates_pending | exact E].
  - unfold heartbeat. case_match; [done|]. destruct (live_job _ _ _ _) as [j|] eqn:E; [|done].
    apply live_job_spec in E as (Hj & _). by eapply keeps_insert.
  - unfold complete, atomically. destruct (live_job _ _ _ _) as [j|] eqn:E; [|done].
    apply live_job_spec in E as (Hj & _). by eapply keeps_insert.
  - unfold fail, atomically. destruct (live_job _ _ _ _) as [j|] eqn:E; [|done].
    apply live_job_spec in E as (Hj & _). destruct (is_retryable c && _); cbn; unfold set_job;
      cbn [jobs close_open_attempt]; by apply (keeps_insert i j).
  - unfold cancel, cancel_active, atomically. destruct (jobs d !! i) as [j|] eqn:Hj; [|done].
    repeat (case_match; simplify_eq/=; try done); by eapply keeps_insert.
  - unfold cancel_by_operator, cancel_active, atomically. destruct (jobs d !! i) as [j|] eqn:Hj; [|done].
    repeat (case_match; simplify_eq/=; try done); by eapply keeps_insert.
  - intros id j Hj. cbn. rewrite lookup_fmap, Hj. cbn. eexists. split; [done|]. by case_match.
  - unfold recover_dead. destruct (jobs d !! i) as [j|] eqn:Hj; [|done]. case_match; [|done].
    by eapply keeps_insert.
Qed.

(** A history of operations, each with its start time. *)
Definition exec_all (ops : list (Z * op)) (d : db) : db :=
  fold_left (fun d p => exec p.1 p.2 d) ops d.

Lemma exec_all_keeps ops d id j :
  reachable d -> jobs d !! id = Some j ->
  exists j', jobs (exec_all ops d) !! id = Some j' /\ dedupe_key j' = dedupe_key j.
Proof.
  intros R. revert id j. change (keeps_keys d (exec_all ops d)).
  revert d R. induction ops as [|[t o] ops IH]; intros d R; [done|]. cbn.
  transitivity (exec t o d); [by apply exec_keeps, reachable_wf | apply IH; by constructor].
Qed.

Lemma enqueue_records now r d out d' :
  enqueue_in_transaction now r d = Ok (out, d') ->
  (exists id j, jobs d' !! id = Some j /\ dedupe_key j = req_dedupe_key r) /\ (out = DuplicateJob -> d' = d).
Proof.
  unfold enqueue_in_transaction, res_bind. destruct (validate_enqueue_request r); [|done].
  destruct (has_dedupe_key d (req_dedupe_key r)) eqn:Hh.
  - intros [= <- <-]. split; [|done]. unfold has_dedupe_key in Hh.
    apply existsb_exists in Hh as ([id j] & Hin & E). apply list_elem_of_In, elem_of_map_to_list in Hin.
    apply str_eqb_eq in E. eauto.
  - destruct (jobs d !! req_id r); [done|]. intros [= <- <-]. split; [|done].
    cbn. exists (req_id r). rewrite lookup_insert_eq. eauto.
Qed.

(** A small queue, used by the witnesses below. *)
Definition demo_request (id : uuid) (key : option rstr) : EnqueueRequest :=
  {| req_id := id; req_job_type := s! "receipt.ingest";
     req_payload := JObject [(s! "schema_version", JInt 1)];
     req_dedupe_key := s! "receipt:" ++ dec (Z.of_N id); req_serialization_key := key;
     req_priority := 0; req_run_at := 0; req_max_attempts := 3 |}.
Definition demo_options : ClaimOptions :=
  {| batch_limit := 5; opt_lease_owner := s! "worker"; lease_duration_secs := 60 |}.
Definition demo_env (base : N) : ClaimEnv :=
  {| row_locked := fun _ => false; advisory_free := fun _ => true;
     fresh_ids := fun id => (base + id, base + 100 + id)%N |}.
Definition demo_queued : db :=
  exec 1 (OEnqueue (demo_request 2 None)) (exec 0 (OEnqueue (demo_request 1 (Some (s! "user:7")))) empty_db).
Definition demo_leased : db := exec 10 (OClaim demo_options (demo_env 1000)) demo_queued.

Lemma demo_queued_reachable : reachable demo_queued.
Proof. repeat constructor. Qed.
Lemma demo_leased_reachable : reachable demo_leased.
Proof. repeat constructor. Qed.

(** ** Properties *)

(** C1. In every reachable state of the queue the table CHECKs and unique indexes
    hold (lease columns exactly when leased, completion time exactly when finished,
    dedupe keys unique, at most one leased job per serialization key, attempts
    within budget) and the audit log agrees with the jobs. *)
Theorem work_invariant d : reachable d -> wf d.
Proof. apply reachable_wf. Qed.

Example work_invariant_witness : wf demo_leased /\ size (jobs demo_leased) = 2%nat.
Proof. split; [apply work_invariant, demo_leased_reachable | by vm_compute]. Defined.

(** C8. From every reachable state a well-formed claim succeeds; it returns at most
    [batch_limit] distinct jobs, each was due (queued and due, or its lease had
    lapsed) with attempts left, and is now leased under its fresh token until
    [now + lease_duration_secs]; any row it changes was due. *)
Theorem claim_correct now o env d :
  reachable d -> 0 < batch_limit o -> is_empty (opt_lease_owner o) = false ->
  0 < lease_duration_secs o ->
  exists new d', claim now o env d = (d', Ok new)
    /\ Z.of_nat (length new) <= batch_limit o /\ NoDup (cl_id <$> new)
    /\ Forall (claimed_from now o env d d') new
    /\ (forall i, jobs d' !! i = jobs d !! i \/ exists j, jobs d !! i = Some j /\ claimable now j = true).
Proof.
  intros R Hb Ho Hl. destruct (claim_spec now o env d (reachable_wf d R) Hb Ho Hl)
    as (new & d' & E & _ & Hf & Hn & Hlen & Hfr). eauto 8.
Qed.

Example claim_correct_witness :
  exists new d', claim 10 demo_options (demo_env 1000) demo_queued = (d', Ok new)
    /\ Forall (claimed_from 10 demo_options (demo_env 1000) demo_queued d') new.
Proof.
  destruct (claim_correct 10 demo_options (demo_env 1000) demo_queued demo_queued_reachable)
    as (new & d' & E & _ & _ & Hf & _); [done..|]. eauto.
Defined.

(** C9. Leases fence: after a claim of job [c], any other token (in particular that
    of an earlier, lapsed lease) is rejected by complete, fail and heartbeat with no
    change at all, while the holder of the new token completes the job at any time
    up to its deadline. *)
Theorem lease_fencing now o env d d' new c :
  reachable d -> claim now o env d = (d', Ok new) -> c ∈ new ->
  (forall now' t, t <> cl_lease_token c ->
     (complete now' (cl_id c) t d').1 = d' /\ (complete now' (cl_id c) t d').2 <> Ok tt
     /\ (forall ec, (fail now' (cl_id c) t ec d').1 = d')
     /\ (forall dur, (heartbeat now' (cl_id c) t dur d').1 = d'))
  /\ (forall now', now' <= cl_lease_deadline c ->
     exists d'' j, complete now' (cl_id c) (cl_lease_token c) d' = (d'', Ok tt)
       /\ jobs d'' !! cl_id c = Some j /\ state j = Completed).
Proof.
  intros R E Hc. destruct (claim_ok_valid _ _ _ _ _ _ E) as (Hb & Ho & Hl).
  destruct (claim_spec now o env d (reachable_wf d R) Hb Ho Hl) as (new' & d2 & E2 & _ & Hf & _).
  rewrite E in E2. injection E2 as <- <-. rewrite Forall_forall in Hf.
  destruct (Hf c Hc) as (j & _ & _ & _ & _ & _ & _ & _ & Hdl & Hj'). split.
  - intros now' t Hne. destruct (not_live_rejected now' (cl_id c) t d') as (E1 & E2 & E3).
    { eapply stale_token; [exact Hj'|]. cbn. congruence. }
    rewrite E1. split_and!; [done..| |].
    + intros ec. by rewrite E2.
    + intros dur. by destruct (E3 dur).
  - intros now' Hle. unfold complete, atomically, live_job. rewrite Hj', live_lease.
    rewrite (proj2 (Z.leb_le _ _)) by lia. eexists _, _. split; [done|].
    cbn. rewrite lookup_insert_eq. done.
Qed.

Definition demo_claimed : list ClaimedJob :=
  match (claim 10 demo_options (demo_env 1000) demo_queued).2 with Ok l => l | Err _ => [] end.

Example lease_fencing_witness :
  Forall (fun c => (complete 20 (cl_id c) 7%N demo_leased).1 = demo_leased) demo_claimed
  /\ length demo_claimed = 2%nat.
Proof.
  split; [|by vm_compute]. apply Forall_forall. intros c Hc.
  pose proof (lease_fencing 10 demo_options (demo_env 1000) demo_queued demo_leased demo_claimed c
                demo_queued_reachable) as H.
  destruct H as [H _]; [by vm_compute | done |]. apply H. intros E.
  vm_compute in Hc. repeat (apply elem_of_cons in Hc as [->|Hc]; [discriminate E|]).
  by apply elem_of_nil in Hc.
Defined.

(** The audit log is exact: the attempts recorded for a job are numbered
    1..[attempt_count], never more than [max_attempts], and an attempt is open
    exactly when the job is leased under the token of that (its last) attempt. *)
Theorem attempt_log_exact d id j :
  reachable d -> jobs d !! id = Some j ->
  attempt_count j <= max_attempts j
  /\ (forall n, is_Some (attempts d !! (id, n)) <-> 1 <= n <= attempt_count j)
  /\ (forall n a, attempts d !! (id, n) = Some a -> ended_at a = None ->
        state j = Leased /\ n = attempt_count j /\ lease_token j = Some (at_lease_token a))
  /\ (state j = Leased -> exists a, attempts d !! (id, attempt_count j) = Some a /\ ended_at a = None).
Proof.
  intros R Hj. pose proof (reachable_wf d R) as W. split_and!.
  - apply (ok_attempts j). by eapply (wf_jobs d W).
  - intros n. split; [|by apply (wf_log d W)]. intros [a Ha].
    destruct (wf_att d W _ _ _ Ha) as (x & Hx & Hn & _). by simplify_eq.
  - intros n a Ha He. destruct (wf_att d W _ _ _ Ha) as (x & Hx & Hn & Hop). simplify_eq. auto.
  - by apply (wf_open d W).
Qed.

Example attempt_log_exact_witness :
  exists j, jobs demo_leased !! 2%N = Some j
    /\ forall n, is_Some (attempts demo_leased !! (2%N, n)) <-> 1 <= n <= attempt_count j.
Proof.
  destruct (jobs demo_leased !! 2%N) as [j|] eqn:Hj; [|by vm_compute in Hj].
  exists j. split; [reflexivity|].
  exact (proj1 (proj2 (attempt_log_exact demo_leased 2 j demo_leased_reachable Hj))).
Defined.

(** [fail] by the live holder of a lease: a retryable class with attempts left
    requeues the job after the back-off delay, anything else dead-letters it; both
    record the class, drop the lease and close the attempt as failed. *)
Theorem fail_outcome now id t class d j :
  reachable d -> live_job now id t d = Some j ->
  exists d' j' out, fail now id t class d = (d', Ok out) /\ jobs d' !! id = Some j'
    /\ lease_token j' = None /\ last_error_class j' = Some (as_str class)
    /\ (exists a, attempts d' !! (id, attempt_count j) = Some a /\ outcome a = Some AFailed
                  /\ at_error_class a = Some (as_str class))
    /\ (if is_retryable class && (attempt_count j <? max_attempts j)
        then out = Retried /\ state j' = Queued
             /\ run_at j' = now + retry_delay_secs (attempt_count j) * second
        else out = DeadLettered /\ state j' = Dead /\ completed_at j' = Some now).
Proof.
  intros R E. pose proof (reachable_wf d R) as W.
  unfold fail, atomically. rewrite E.
  pose proof (proj1 (live_job_spec _ _ _ _ _) E) as (Hj & Hs & _).
  destruct (wf_open d W _ _ Hj Hs) as (a & Ha & He).
  assert (Hc : exists a', attempts (close_open_attempt now id AFailed (Some (as_str class)) d)
      !! (id, attempt_count j) = Some a' /\ outcome a' = Some AFailed /\ at_error_class a' = Some (as_str class)).
  { rewrite lookup_close, Ha. cbn. rewrite !bool_decide_eq_true_2 by done. cbn. eauto. }
  destruct (is_retryable class && _); eexists _, _, _; (split; [done|]); cbn [set_job jobs attempts];
    rewrite lookup_insert_eq; (split; [done|]); split_and!; try done; eauto.
Qed.

Example fail_outcome_witness :
  exists d', fail 20 2 1002 RateLimited demo_leased = (d', Ok Retried).
Proof.
  destruct (live_job 20 2 1002 demo_leased) as [j|] eqn:E; [|by vm_compute in E].
  destruct (fail_outcome 20 2 1002 RateLimited demo_leased j demo_leased_reachable E)
    as (d' & j' & out & H & _ & _ & _ & _ & Hout).
  vm_compute in E. injection E as <-. destruct Hout as [-> _]. eauto.
Defined.

(** A finished job is final: once completed, cancelled or dead its row is never
    changed again by any operation, except that [recover_dead] may revive a dead job. *)
Theorem finished_jobs_final now o d id j :
  reachable d -> jobs d !! id = Some j -> terminal (state j) = true ->
  (state j = Dead -> o <> ORecoverDead id) -> jobs (exec now o d) !! id = Some j.
Proof. intros R. by apply finished_frame, reachable_wf. Qed.

Example finished_jobs_final_witness :
  exists j, jobs (exec 20 (OComplete 2 1002) demo_leased) !! 2%N = Some j
    /\ jobs (exec 9000000000 (OClaim demo_options (demo_env 5000)) (exec 20 (OComplete 2 1002) demo_leased)) !! 2%N
       = Some j.
Proof.
  destruct (jobs (exec 20 (OComplete 2 1002) demo_leased) !! 2%N) as [j|] eqn:Hj; [|by vm_compute in Hj].
  exists j. split; [reflexivity|].
  apply finished_jobs_final; [apply reach_step, demo_leased_reachable | exact Hj |..];
    vm_compute in Hj; injection Hj as <-; done.
Defined.

(** The back-off delay doubles with each attempt and stops at 256 seconds: the
    exponent is clamped to 8, so the nominal ceiling of 300 seconds is never reached
    and no shift overflows. *)
Theorem retry_delay_bounded n :
  1 <= n <= i32_max ->
  retry_delay_secs n = 2 ^ Z.min 8 (n - 1) /\ 1 <= retry_delay_secs n <= 256.
Proof.
  intros Hn. rewrite retry_delay_pow by done. split; [done|]. split.
  - change 1 with (2 ^ 0). apply Z.pow_le_mono_r; lia.
  - change 256 with (2 ^ 8). apply Z.pow_le_mono_r; lia.
Qed.

Example retry_delay_bounded_witness : retry_delay_secs 12 = 256.
Proof. apply (proj1 (retry_delay_bounded 12 ltac:(done))). Defined.

(** Enqueueing is idempotent in the dedupe key: after a successful enqueue
    (of either outcome) and any sequence of further operations on the queue, a valid
    request with the same dedupe key is answered [DuplicateJob] and changes nothing;
    a duplicate answer itself changed nothing. *)
Theorem enqueue_idempotent now r d d' out ops now' r' v :
  reachable d -> enqueue now r d = (d', Ok out) -> req_dedupe_key r' = req_dedupe_key r ->
  validate_enqueue_request r' = Ok v ->
  enqueue now' r' (exec_all ops d') = (exec_all ops d', Ok DuplicateJob)
  /\ (out = DuplicateJob -> d' = d).
Proof.
  intros R E Hk Hv.
  assert (R' : reachable d').
  { replace d' with (exec now (OEnqueue r) d) by (cbn; by rewrite E). by constructor. }
  apply atomically_ok in E. destruct (enqueue_records _ _ _ _ _ E) as ((id & j & Hj & Hd) & Ho).
  split; [|done]. destruct (exec_all_keeps ops d' id j R' Hj) as (j' & Hj' & Hd').
  unfold enqueue, atomically, enqueue_in_transaction, res_bind.
  rewrite Hv, Hk. replace (has_dedupe_key _ _) with true; [done|].
  symmetry. apply not_false_iff_true. rewrite has_dedupe_false. intros H.
  apply (H id j' Hj'). congruence.
Qed.

Example enqueue_idempotent_witness :
  enqueue 50 (demo_request 1 None)
    (exec_all [(10, OClaim demo_options (demo_env 1000))] (enqueue 0 (demo_request 1 None) empty_db).1)
  = (exec_all [(10, OClaim demo_options (demo_env 1000))] (enqueue 0 (demo_request 1 None) empty_db).1,
     Ok DuplicateJob).
Proof.
  refine (proj1 (enqueue_idempotent 0 (demo_request 1 None) empty_db _ Enqueued
    [(10, OClaim demo_options (demo_env 1000))] 50 (demo_request 1 None) 1 reach_init _ _ _));
    by vm_compute.
Defined.

(** C38. Progress: a queued job that is due, has no serialization key and is not
    locked by another transaction is claimed by the next claim whose limit covers
    the table. *)
Theorem claim_progress now o env d id j :
  reachable d -> jobs d !! id = Some j -> state j = Queued -> run_at j <= now ->
  serialization_key j = None -> row_locked env id = false ->
  is_empty (opt_lease_owner o) = false -> 0 < lease_duration_secs o ->
  Z.of_nat (size (jobs d)) <= batch_limit o ->
  exists d' new c, claim now o env d = (d', Ok new) /\ c ∈ new /\ cl_id c = id.
Proof.
  intros R Hj Hs Hr Hk Hlk Ho Hl Hlim. pose proof (reachable_wf d R) as W.
  assert (Hsz : size (jobs d) <> 0%nat) by (intros E%map_size_empty_iff; by rewrite E in Hj).
  assert (Hcand : candidate d now j = true).
  { unfold candidate, claimable. rewrite Hk, Hs, (proj2 (Z.leb_le _ _) Hr). done. }
  destruct (select_candidates_pending d now (batch_limit o) env) as [Hp _].
  destruct (claim_loop_takes now o env _ d ∅ [] id j W Hp) as (new & d' & E & c & Hc & Ec); try done.
  { by apply select_all. }
  exists d', new, c. split; [|done]. unfold claim, atomically.
  rewrite (proj2 (Z.leb_gt _ _)), Ho, (proj2 (Z.leb_gt _ _)) by lia. by rewrite E.
Qed.

Example claim_progress_witness :
  exists d' new c, claim 10 demo_options (demo_env 1000) demo_queued = (d', Ok new) /\ c ∈ new /\ cl_id c = 2%N.
Proof.
  destruct (jobs demo_queued !! 2%N) as [j|] eqn:E; [|by vm_compute in E].
  apply (claim_progress 10 demo_options (demo_env 1000) demo_queued 2%N j demo_queued_reachable E);
    vm_compute in E; injection E as <-; by vm_compute.
Defined.
