(* ===== verification/Quota.v ===== *)
(** * Usage quotas ([src/src/quota/mod.rs])

    The table [usage_counters] is a finite map from its primary key to the pair
    [(count, limit_value)]. *)

From S2P Require Import Prelude RustStr RustStrFacts Platform.

Module Quota.

Definition SCOPE_ACCOUNT : rstr := s! "account".
Definition SCOPE_GLOBAL : rstr := s! "global".
Definition GLOBAL_SCOPE_ID : rstr := s! "global".
Definition METRIC_RECEIPTS : rstr := s! "receipts".
Definition METRIC_EXTRACTION_PAGES : rstr := s! "extraction_pages".
Definition METRIC_ZALO_MESSAGES : rstr := s! "zalo_messages".
Definition METRIC_INSIGHT_NARRATIVES : rstr := s! "insight_narratives".

Record QuotaOutcome := { count : Z; limit : Z }.

Definition exceeded (q : QuotaOutcome) : bool := limit q <? count q.
Definition remaining (q : QuotaOutcome) : Z := Z.max (limit q - count q) 0.

Definition QuotaError : Type := rstr.

Section Periods.
Context {C : Chrono}.

Definition daily_period_key (now : Z) (timezone : rstr) : rstr :=
  let tz := match parse_tz timezone with Some tz => tz | None => tz_utc end in
  fmt_date (to_local tz now / day).

Definition monthly_period_key (now : Z) : rstr := fmt_month (now / day).
End Periods.

Record counter_key := { scope : rstr; scope_id : rstr; period : rstr; metric : rstr }.
#[export] Instance counter_key_eq_dec : EqDecision counter_key.
Proof. solve_decision. Defined.
#[export] Instance counter_key_countable : Countable counter_key.
Proof.
  apply (inj_countable' (fun k => (scope k, scope_id k, period k, metric k))
    (fun '(a, b, c, d) => {| scope := a; scope_id := b; period := c; metric := d |})).
  by intros [].
Defined.

Abbreviation usage := (gmap counter_key (Z * Z)).

Definition remaining_in_transaction (u : usage) (k : counter_key) (lim : Z) : Z :=
  let '(c, _) := match u !! k with Some row => row | None => (0, lim) end in
  Z.max (lim - c) 0.

(** The upsert; the table CHECKs [limit_value >= 0], and a [BIGINT] that overflows
    is an error. *)
Definition increment_in_transaction (k : counter_key) (lim : Z) : txn usage QuotaError QuotaOutcome :=
  fun u =>
    let c := match u !! k with Some (c, _) => c + 1 | None => 1 end in
    if (lim <? 0) || negb (in_i64 c) then Err (s! "usage counter increment failed")
    else Ok ({| count := c; limit := lim |}, <[k := (c, lim)]> u).

(** ** Facts *)

Definition count_of (u : usage) (k : counter_key) : Z :=
  match u !! k with Some (c, _) => c | None => 0 end.

Lemma increment_ok k lim u :
  0 <= lim -> 0 <= count_of u k < i64_max ->
  increment_in_transaction k lim u =
  Ok ({| count := count_of u k + 1; limit := lim |}, <[k := (count_of u k + 1, lim)]> u).
Proof.
  intros Hl Hc. unfold increment_in_transaction, count_of in *.
  destruct (u !! k) as [[c l]|]; rewrite (proj2 (Z.ltb_ge _ _) Hl); cbn [orb].
  - rewrite (proj2 (in_i64_spec _)); [done | unfold i64_min; lia].
  - done.
Qed.

Lemma count_of_insert u k k' c lim :
  count_of (<[k := (c, lim)]> u) k' = if bool_decide (k = k') then c else count_of u k'.
Proof. unfold count_of. rewrite lookup_insert. by case_decide; case_bool_decide. Qed.

(** ** A stream of requests

    Each request asks for one unit of its counter and is served when the outcome is
    not exceeded, as the callers of [increment_in_transaction] do. *)
Fixpoint serve (reqs : list (counter_key * Z)) (u : usage) : usage * list bool :=
  match reqs with
  | [] => (u, [])
  | (k, lim) :: rest =>
      match atomically (increment_in_transaction k lim) u with
      | (u', Ok q) => let '(u2, l) := serve rest u' in (u2, negb (exceeded q) :: l)
      | (u', Err _) => let '(u2, l) := serve rest u' in (u2, false :: l)
      end
  end.

(** The served requests for [k]. *)
Definition served (k : counter_key) (reqs : list (counter_key * Z)) (u : usage) : Z :=
  Z.of_nat (length (List.filter (fun p => bool_decide (p.1.1 = k) && p.2)
                      (combine reqs (serve reqs u).2))).
Definition asked (k : counter_key) (reqs : list (counter_key * Z)) : Z :=
  Z.of_nat (length (List.filter (fun p => bool_decide (p.1 = k)) reqs)).

Lemma asked_cons k p reqs :
  asked k (p :: reqs) = (if bool_decide (p.1 = k) then 1 else 0) + asked k reqs.
Proof. unfold asked. cbn [List.filter]. case_bool_decide; cbn [length]; lia. Qed.

Lemma asked_bound k reqs : 0 <= asked k reqs <= Z.of_nat (length reqs).
Proof.
  unfold asked. pose proof (List.filter_length_le (fun p => bool_decide (p.1 = k)) reqs). lia.
Qed.

Lemma served_count k lim reqs u :
  0 <= lim -> Forall (fun p => 0 <= p.2) reqs ->
  Forall (fun p => p.1 = k -> p.2 = lim) reqs ->
  (forall k', 0 <= count_of u k' /\ count_of u k' + Z.of_nat (length reqs) <= i64_max) ->
  served k reqs u = Z.max 0 (Z.min (lim - count_of u k) (asked k reqs))
  /\ count_of (serve reqs u).1 k = count_of u k + asked k reqs.
Proof.
  intros Hl. revert u. induction reqs as [|[k1 l1] reqs IH]; intros u Hnn Hk Hu.
  { split; [unfold served, asked; cbn; lia | cbn; unfold asked; cbn; lia]. }
  apply Forall_cons in Hnn as [H1 Hnn]. apply Forall_cons in Hk as [Hk1 Hk]. cbn [fst snd] in *.
  assert (E : increment_in_transaction k1 l1 u =
    Ok ({| count := count_of u k1 + 1; limit := l1 |}, <[k1 := (count_of u k1 + 1, l1)]> u)).
  { apply increment_ok; [done|]. specialize (Hu k1). cbn in Hu. lia. }
  set (u1 := <[k1 := (count_of u k1 + 1, l1)]> u) in *.
  assert (Hu1 : forall k', 0 <= count_of u1 k' /\ count_of u1 k' + Z.of_nat (length reqs) <= i64_max).
  { intros k'. unfold u1. rewrite count_of_insert. specialize (Hu k'). cbn in Hu.
    case_bool_decide; subst; lia. }
  destruct (IH u1 Hnn Hk Hu1) as [IHs IHc].
  pose proof (asked_bound k reqs) as Hb. rewrite asked_cons. cbn [fst].
  assert (Hs : serve ((k1, l1) :: reqs) u = ((serve reqs u1).1,
      negb (exceeded {| count := count_of u k1 + 1; limit := l1 |}) :: (serve reqs u1).2)).
  { cbn [serve]. unfold atomically. rewrite E. by destruct (serve reqs u1). }
  assert (Hu1k : count_of u1 k = if bool_decide (k1 = k) then count_of u k1 + 1 else count_of u k).
  { apply count_of_insert. }
  rewrite Hs. cbn [fst]. rewrite IHc, Hu1k. split; [|case_bool_decide; subst; lia].
  unfold served. rewrite Hs. cbn [snd combine List.filter fst].
  unfold served in IHs. rewrite Hu1k in IHs. specialize (Hu k). unfold exceeded. cbn [limit count].
  case_bool_decide as Ek; cbn [andb]; [|by rewrite IHs].
  subst k1. rewrite (Hk1 eq_refl). destruct (lim <? count_of u k + 1) eqn:El; cbn [negb length];
    b2p; lia.
Qed.

(** C39. Quotas are exact: over any stream of requests on a fresh period, interleaved
    with requests for other counters, a counter with limit [lim] serves exactly
    [min lim n] of its [n] requests. *)
Theorem quota_serves_exactly k lim reqs :
  0 <= lim -> Forall (fun p => 0 <= p.2) reqs -> Forall (fun p => p.1 = k -> p.2 = lim) reqs ->
  Z.of_nat (length reqs) <= i64_max ->
  served k reqs ∅ = Z.min lim (asked k reqs).
Proof.
  intros Hl Hnn Hk Hlen.
  destruct (served_count k lim reqs ∅ Hl Hnn Hk) as [-> _].
  - intros k'. unfold count_of. rewrite lookup_empty. lia.
  - unfold count_of. rewrite lookup_empty. pose proof (asked_bound k reqs). lia.
Qed.

Definition demo_counter (m : rstr) : counter_key :=
  {| scope := SCOPE_GLOBAL; scope_id := GLOBAL_SCOPE_ID; period := s! "2026-07"; metric := m |}.

Example quota_serves_exactly_witness :
  served (demo_counter METRIC_RECEIPTS)
    [(demo_counter METRIC_RECEIPTS, 1); (demo_counter METRIC_ZALO_MESSAGES, 5);
     (demo_counter METRIC_RECEIPTS, 1)] ∅ = 1.
Proof.
  apply (quota_serves_exactly (demo_counter METRIC_RECEIPTS) 1).
  - lia.
  - repeat constructor; done.
  - repeat (apply Forall_cons; split); try apply Forall_nil; try done.
  - cbn. unfold i64_max. lia.
Defined.

End Quota.
