(* ===== verification/Schedule.v ===== *)
(** * Summary schedules: delivery instants and spending periods

    Model of [src/schedule/types.rs], [next_run.rs] and [mod.rs] over the calendar and
    time zone interface.  An instant is a microsecond count; a [DateTime<Tz>] is an
    instant together with the zone the function was given.  [expect] and calendar
    arithmetic out of range panic. *)

From S2P Require Import Prelude RustStr RustStrFacts Platform.

Module Schedule.

Inductive Frequency := Daily | Weekly | Monthly.
#[export] Instance Frequency_eq_dec : EqDecision Frequency.
Proof. solve_decision. Defined.

Definition as_str (f : Frequency) : rstr :=
  match f with Daily => s! "daily" | Weekly => s! "weekly" | Monthly => s! "monthly" end.

Definition parse (value : rstr) : option Frequency :=
  if str_eqb value (s! "daily") || str_eqb value (s! "ngay") then Some Daily
  else if str_eqb value (s! "weekly") || str_eqb value (s! "tuan") then Some Weekly
  else if str_eqb value (s! "monthly") || str_eqb value (s! "thang") then Some Monthly
  else None.

(** Half-open spending interval. *)
Record Period := { start : Z; pend : Z }.

Inductive ScheduleError := InvalidTimezone | InvalidDeliveryMinute | UnsupportedFrequency.
(** [Display for ScheduleError]. *)
Definition schedule_error_display (e : ScheduleError) : rstr :=
  match e with
  | InvalidTimezone => s! "invalid timezone"
  | InvalidDeliveryMinute => s! "invalid delivery minute"
  | UnsupportedFrequency => s! "unsupported frequency"
  end.

Definition validate_delivery_minute (m : Z) : result unit ScheduleError :=
  if negb ((0 <=? m) && (m <? 24 * 60)) then Err InvalidDeliveryMinute else Ok tt.

Section Schedule.
Context `{CH : Chrono}.

Definition parse_timezone (value : rstr) : result Tz ScheduleError :=
  if eq_ignore_ascii_case value (s! "local") then Err InvalidTimezone
  else ok_or (parse_tz value) InvalidTimezone.

(** [date_naive()] of an instant shown in a zone. *)
Definition date_in (tz : Tz) (t : Z) : Z := date_naive (to_local tz t).

(** [NaiveDate + Duration::days(k)] and [NaiveDateTime + Duration]. *)
Definition add_days (d k : Z) : run Z := if date_ok (d + k) then Ret (d + k) else Panic.
Definition add_time (l dt : Z) : run Z := if date_ok (date_naive (l + dt)) then Ret (l + dt) else Panic.

(** The tail of the loop of [scan_forward_local]: steps [step .. step + n - 1]. *)
Fixpoint scan_steps (n : nat) (step naive : Z) (tz : Tz) : run (result Z ScheduleError) :=
  match n with
  | O => Ret (Err InvalidTimezone)
  | S n' =>
      let! candidate := add_time naive (step * minute) in
      match from_local tz candidate with
      | LSingle dt | LAmbiguous dt _ => Ret (Ok dt)
      | LNone => scan_steps n' (step + 1) naive tz
      end
  end.

Definition scan_forward_local (naive : Z) (tz : Tz) : run (result Z ScheduleError) :=
  scan_steps 180 1 naive tz.

Definition resolve_local_datetime (naive : Z) (tz : Tz) : run (result Z ScheduleError) :=
  match from_local tz naive with
  | LSingle dt => Ret (Ok dt)
  | LAmbiguous earlier _ => Ret (Ok earlier)
  | LNone =>
      let! shifted := add_time naive hour in
      match from_local tz shifted with
      | LSingle dt => Ret (Ok dt)
      | LAmbiguous earlier _ => Ret (Ok earlier)
      | LNone => scan_forward_local naive tz
      end
  end.

(** [date.and_hms_opt(h, m, 0)]. *)
Definition and_hms (date h m : Z) : option Z :=
  if (0 <=? h) && (h <? 24) && (0 <=? m) && (m <? 60)
  then Some (date * day + h * hour + m * minute) else None.

Definition local_delivery_datetime (year month dd delivery_minute : Z) (tz : Tz)
    : run (result Z ScheduleError) :=
  match validate_delivery_minute delivery_minute with
  | Err e => Ret (Err e)
  | Ok _ =>
      let! date := expect (from_ymd_opt year month dd) in
      let! naive := expect (and_hms date (Z.quot delivery_minute 60) (Z.rem delivery_minute 60)) in
      resolve_local_datetime naive tz
  end.

(** The delivery on the calendar day [d]: its year, month and day are passed on. *)
Definition delivery_on (d delivery_minute : Z) (tz : Tz) : run (result Z ScheduleError) :=
  let '(y, m, dd) := civil d in local_delivery_datetime y m dd delivery_minute tz.

Definition next_delivery (now : Z) (timezone : rstr) (frequency : Frequency) (delivery_minute : Z)
    : run (result Z ScheduleError) :=
  let!? _ := Ret (validate_delivery_minute delivery_minute) in
  let!? tz := Ret (parse_timezone timezone) in
  let '(year, month, dd) := civil (date_in tz now) in
  let!? candidate := local_delivery_datetime year month dd delivery_minute tz in
  match frequency with
  | Daily =>
      if negb (now <? candidate) then
        let! next_day := add_days (date_in tz candidate) 1 in
        delivery_on next_day delivery_minute tz
      else Ret (Ok candidate)
  | Weekly =>
      let days_until_monday := Z.rem (0 - weekday (date_in tz candidate) + 7) 7 in
      let!? candidate :=
        (if 0 <? days_until_monday then
           let! shifted := add_days (date_in tz candidate) days_until_monday in
           delivery_on shifted delivery_minute tz
         else Ret (Ok candidate)) in
      if negb (now <? candidate) then
        let! shifted := add_days (date_in tz candidate) 7 in
        delivery_on shifted delivery_minute tz
      else Ret (Ok candidate)
  | Monthly =>
      let!? candidate := local_delivery_datetime year month 1 delivery_minute tz in
      if negb (now <? candidate) then
        let! next_month := expect (if month =? 12 then from_ymd_opt (year + 1) 1 1
                                   else from_ymd_opt year (month + 1) 1) in
        delivery_on next_month delivery_minute tz
      else Ret (Ok candidate)
  end.

Definition latest_delivery (now : Z) (timezone : rstr) (frequency : Frequency) (delivery_minute : Z)
    : run (result Z ScheduleError) :=
  let!? _ := Ret (validate_delivery_minute delivery_minute) in
  let!? tz := Ret (parse_timezone timezone) in
  let '(year, month, dd) := civil (date_in tz now) in
  let!? candidate := local_delivery_datetime year month dd delivery_minute tz in
  match frequency with
  | Daily =>
      if now <? candidate then
        let! prev := add_days (date_in tz candidate) (-1) in
        delivery_on prev delivery_minute tz
      else Ret (Ok candidate)
  | Weekly =>
      let days_since_monday := weekday (date_in tz candidate) in
      let! monday := add_days (date_in tz candidate) (- days_since_monday) in
      let!? candidate := delivery_on monday delivery_minute tz in
      if now <? candidate then
        let! prev_monday := add_days (date_in tz candidate) (-7) in
        delivery_on prev_monday delivery_minute tz
      else Ret (Ok candidate)
  | Monthly =>
      let!? candidate := local_delivery_datetime year month 1 delivery_minute tz in
      if now <? candidate then
        let! prev_month := expect (if month =? 1 then from_ymd_opt (year - 1) 12 1
                                   else from_ymd_opt year (month - 1) 1) in
        delivery_on prev_month delivery_minute tz
      else Ret (Ok candidate)
  end.

(** ** Spending periods *)

(** [Result::expect]. *)
Definition expect_ok {A E} (m : run (result A E)) : run A :=
  let! r := m in match r with Ok a => Ret a | Err _ => Panic end.

Definition local_date_start (date : Z) (tz : Tz) : run Z :=
  let! midnight := expect (and_hms date 0 0) in
  expect_ok (resolve_local_datetime midnight tz).

Definition today (now : Z) (tz : Tz) : run Period :=
  let start_date := date_in tz now in
  let! s := local_date_start start_date tz in
  let! tomorrow := add_days start_date 1 in
  let! e := local_date_start tomorrow tz in
  Ret {| start := s; pend := e |}.

Definition yesterday (anchor : Z) (tz : Tz) : run Period :=
  let end_date := date_in tz anchor in
  let! start_date := add_days end_date (-1) in
  let! s := local_date_start start_date tz in
  let! e := local_date_start end_date tz in
  Ret {| start := s; pend := e |}.

Definition week_start (anchor : Z) (tz : Tz) : run Z :=
  let date := date_in tz anchor in
  let! monday := add_days date (- weekday date) in
  local_date_start monday tz.

Definition this_week (now : Z) (tz : Tz) : run Period :=
  let! s := week_start now tz in
  let! end_date := add_days (date_in tz s) 7 in
  let! full_end := local_date_start end_date tz in
  let! tomorrow_date := add_days (date_in tz now) 1 in
  let! tomorrow := local_date_start tomorrow_date tz in
  Ret {| start := s; pend := if tomorrow <? full_end then tomorrow else full_end |}.

Definition last_week (anchor : Z) (tz : Tz) : run Period :=
  let! this_start := week_start anchor tz in
  let! start_date := add_days (date_in tz this_start) (-7) in
  let! s := local_date_start start_date tz in
  Ret {| start := s; pend := this_start |}.

Definition month_start (anchor : Z) (tz : Tz) : run Z :=
  let '(y, m, _) := civil (date_in tz anchor) in
  let! first := expect (from_ymd_opt y m 1) in
  local_date_start first tz.

Definition this_month (now : Z) (tz : Tz) : run Period :=
  let! s := month_start now tz in
  let '(y, m, _) := civil (date_in tz s) in
  let! next := expect (if m =? 12 then from_ymd_opt (y + 1) 1 1 else from_ymd_opt y (m + 1) 1) in
  let! full_end := local_date_start next tz in
  let! tomorrow_date := add_days (date_in tz now) 1 in
  let! tomorrow := local_date_start tomorrow_date tz in
  Ret {| start := s; pend := if tomorrow <? full_end then tomorrow else full_end |}.

Definition last_month (anchor : Z) (tz : Tz) : run Period :=
  let! this_start := month_start anchor tz in
  let '(y, m, _) := civil (date_in tz this_start) in
  let! prev := expect (if m =? 1 then from_ymd_opt (y - 1) 12 1 else from_ymd_opt y (m - 1) 1) in
  let! s := local_date_start prev tz in
  Ret {| start := s; pend := this_start |}.

Definition ok_period (label : rstr) (p : run Period) : run (result (Period * rstr) ScheduleError) :=
  let! p := p in Ret (Ok (p, label)).

Definition interactive_period (frequency : Frequency) (now : Z) (timezone : rstr)
    : run (result (Period * rstr) ScheduleError) :=
  let!? tz := Ret (parse_timezone timezone) in
  match frequency with
  | Daily => ok_period (s! "Hôm nay") (today now tz)
  | Weekly => ok_period (s! "Tuần này") (this_week now tz)
  | Monthly => ok_period (s! "Tháng này") (this_month now tz)
  end.

Definition scheduled_period (frequency : Frequency) (scheduled_for : Z) (timezone : rstr)
    : run (result (Period * rstr) ScheduleError) :=
  let!? tz := Ret (parse_timezone timezone) in
  match frequency with
  | Daily => ok_period (s! "Hôm qua") (yesterday scheduled_for tz)
  | Weekly => ok_period (s! "Tuần trước") (last_week scheduled_for tz)
  | Monthly => ok_period (s! "Tháng trước") (last_month scheduled_for tz)
  end.

(** ** The job of a schedule *)

Context `{UT : UuidText}.

Definition JOB_TYPE_SCHEDULE_EMIT : rstr := s! "schedule.emit".
Definition SCHEDULE_PAYLOAD_VERSION : Z := 1.

Record ScheduleEmitPayload := {
  schema_version : Z;
  account_id : N;
  schedule_id : N;
  frequency : rstr;
  period_start : Z;
  period_end : Z;
}.

Definition schedule_emit_dedupe_key (acct : N) (frequency : rstr) (period_start : Z) : rstr :=
  s! "schedule.emit:" ++ uuid_str acct ++ s! ":" ++ frequency ++ s! ":" ++ to_rfc3339 period_start.

Definition account_serialization_key (acct : N) : rstr := s! "account:" ++ uuid_str acct.

End Schedule.
End Schedule.
