(* ===== verification/ScheduleProps.v ===== *)
(** * Properties of delivery instants and spending periods

    [slot f d] says that schedules of frequency [f] deliver on day [d].  The theorems
    relate the delivery functions to the sequence of slots, and the spending periods of
    successive deliveries to each other. *)

From S2P Require Import Prelude RustStr RustStrFacts Platform Schedule.
Import Schedule.

(** ** What is asked of a time zone *)

Section Zones.
Context `{CH : Chrono}.

(** The calendar date shown by the clock never goes back. *)
Definition dates_in_order (tz : Tz) : Prop := forall t u, t <= u -> date_in tz t <= date_in tz u.

(** A skipped stretch of wall-clock time is followed, within three hours, by a whole
    minute that exists. *)
Definition short_gaps (tz : Tz) : Prop := forall l, from_local tz l = LNone ->
  exists k, 1 <= k <= 180 /\ from_local tz (l + k * minute) <> LNone.

(** A skipped time exists an hour later, on the same date. *)
Definition gaps_within_day (tz : Tz) : Prop := forall l, from_local tz l = LNone ->
  from_local tz (l + hour) <> LNone /\ date_naive (l + hour) = date_naive l.

(** The dates within [r] days of [d] are representable. *)
Definition near (r d : Z) : Prop := forall e, d - r <= e <= d + r -> date_ok e = true.

Lemma near_sub r q d e : near r d -> Z.abs (e - d) + q <= r -> near q e.
Proof. intros H Hr x Hx. apply H. lia. Qed.

(** The days on which schedules of a frequency deliver. *)
Definition slot (f : Frequency) (d : Z) : bool :=
  match f with
  | Daily => true
  | Weekly => weekday d =? 0
  | Monthly => (civil d).2 =? 1
  end.

(** The delivery of day [d] is at instant [t]. *)
Definition delivers (tz : Tz) (m d t : Z) : Prop := delivery_on d m tz = Ret (Ok t).

End Zones.

(** ** Resolving wall-clock times *)

Section Resolve.
Context `{CH : Chrono, CL : !CalendarLaws, ZL : !ZoneLaws}.

Lemma from_local_shows tz l t :
  from_local tz l = LSingle t \/ (exists u, from_local tz l = LAmbiguous t u) -> to_local tz t = l.
Proof.
  intros [H|[u H]]; [by apply from_local_single | by apply from_local_ambiguous in H as [? _]].
Qed.

(** What [resolve_local_datetime] returns, when it does, is the wall-clock time asked
    for or, in a gap, one that follows within three hours. *)
Lemma scan_steps_shows n step l tz t :
  scan_steps n step l tz = Ret (Ok t) ->
  exists k, step <= k < step + Z.of_nat n /\ to_local tz t = l + k * minute.
Proof.
  revert step. induction n as [|n IH]; intros step H; [done|]. cbn [scan_steps] in H.
  unfold add_time in H. destruct (date_ok _); [|done]. cbn [run_bind] in H.
  destruct (from_local tz (l + step * minute)) as [|t'|t' u] eqn:E.
  - apply IH in H as (k & ? & ?). exists k. split; [lia | done].
  - injection H as ->. exists step. split; [lia|]. apply from_local_shows. auto.
  - injection H as ->. exists step. split; [lia|]. apply from_local_shows. eauto.
Qed.

Lemma scan_steps_ok n step l tz k :
  step <= k < step + Z.of_nat n -> from_local tz (l + k * minute) <> LNone ->
  (forall j, step <= j <= k -> date_ok (date_naive (l + j * minute)) = true) ->
  exists t, scan_steps n step l tz = Ret (Ok t).
Proof.
  revert step. induction n as [|n IH]; intros step Hk E Hd; [lia|]. cbn [scan_steps].
  unfold add_time. rewrite (Hd step) by lia. cbn [run_bind].
  destruct (from_local tz (l + step * minute)) eqn:F; [|eauto..].
  apply IH; [|done|intros; apply Hd; lia].
  assert (step <> k) by congruence. lia.
Qed.

Lemma resolve_shows l tz t :
  resolve_local_datetime l tz = Ret (Ok t) ->
  l <= to_local tz t <= l + 180 * minute
  /\ (from_local tz l <> LNone -> to_local tz t = l)
  /\ (from_local tz l = LNone -> from_local tz (l + hour) <> LNone -> to_local tz t = l + hour).
Proof.
  unfold resolve_local_datetime. intros H.
  assert (M : 0 < minute) by done. assert (Hh : hour = 60 * minute) by done.
  destruct (from_local tz l) as [|t'|t' u] eqn:E.
  - unfold add_time in H. destruct (date_ok _); [|done]. cbn [run_bind] in H.
    destruct (from_local tz (l + hour)) as [|t'|t' u] eqn:F.
    + apply scan_steps_shows in H as (k & Hk & ->). split; [|done]. nia.
    + injection H as ->. rewrite (from_local_shows tz (l + hour)) by auto. repeat split; try lia; done.
    + injection H as ->. rewrite (from_local_shows tz (l + hour)) by eauto. repeat split; try lia; done.
  - injection H as ->. rewrite (from_local_shows tz l) by auto. repeat split; try lia; done.
  - injection H as ->. rewrite (from_local_shows tz l) by eauto. repeat split; try lia; done.
Qed.

Lemma resolve_ok l tz :
  short_gaps tz -> near 1 (date_naive l) -> exists t, resolve_local_datetime l tz = Ret (Ok t).
Proof.
  intros Hg Hd. unfold resolve_local_datetime.
  assert (Hok : forall dt, 0 <= dt <= day -> date_ok (date_naive (l + dt)) = true).
  { intros dt Hdt. apply Hd. unfold date_naive, day, hour, minute, second in *.
    Z.to_euclidean_division_equations; lia. }
  destruct (from_local tz l) eqn:E; [|eauto..].
  unfold add_time. rewrite Hok by done. cbn [run_bind].
  destruct (from_local tz (l + hour)) eqn:F; [|eauto..].
  destruct (Hg l E) as (k & Hk & Hn). eapply scan_steps_ok; [|exact Hn|]; [lia|].
  intros j Hj. apply Hok. unfold day, hour, minute, second. lia.
Qed.

Lemma gaps_within_day_short tz : gaps_within_day tz -> short_gaps tz.
Proof. intros H l E. destruct (H l E) as [F _]. exists 60. split; [lia | exact F]. Qed.

(** ** The delivery of one day *)

Context (tz : Tz) (m : Z) (Hm : 0 <= m < 24 * 60).

Lemma valid_minute : validate_delivery_minute m = Ok tt.
Proof.
  unfold validate_delivery_minute. destruct (Z.leb_spec 0 m), (Z.ltb_spec m (24 * 60)); try lia. done.
Qed.

Lemma delivery_on_resolves d :
  date_ok d = true -> delivery_on d m tz = resolve_local_datetime (d * day + m * minute) tz.
Proof.
  intros Hd. unfold delivery_on. destruct (civil d) as [[y mo] dd] eqn:E.
  unfold local_delivery_datetime. rewrite valid_minute, (from_ymd_civil d y mo dd E), Hd. cbn [expect run_bind].
  pose proof (Z.quot_rem' m 60) as Hq. pose proof (Z.rem_bound_pos m 60 ltac:(lia) ltac:(lia)) as Hr.
  pose proof (Z.quot_pos m 60 ltac:(lia) ltac:(lia)) as Hp.
  unfold and_hms. rewrite (proj2 (andb_true_iff _ _)).
  - cbn [expect run_bind].
    replace (d * day + Z.quot m 60 * hour + Z.rem m 60 * minute) with (d * day + m * minute); [done|].
    rewrite Hq at 1. unfold hour. ring.
  - rewrite !andb_true_iff, !Z.leb_le, !Z.ltb_lt. lia.
Qed.

Lemma delivers_date_ok d t : delivers tz m d t -> date_ok d = true.
Proof.
  unfold delivers, delivery_on. destruct (civil d) as [[y mo] dd] eqn:E.
  unfold local_delivery_datetime. rewrite valid_minute, (from_ymd_civil d y mo dd E).
  by destruct (date_ok d).
Qed.

Lemma minute_of_day d : date_naive (d * day + m * minute) = d.
Proof.
  unfold date_naive, day, hour, minute, second. Z.to_euclidean_division_equations; lia.
Qed.

Lemma delivers_date d t : delivers tz m d t -> d <= date_in tz t <= d + 1.
Proof.
  intros H. pose proof (delivers_date_ok _ _ H) as Hd. unfold delivers in H.
  rewrite delivery_on_resolves in H by done. apply resolve_shows in H as [[H1 H2] _].
  unfold date_in, date_naive. revert H1 H2. generalize (to_local tz t). intros l.
  unfold day, hour, minute, second. intros. Z.to_euclidean_division_equations; lia.
Qed.

Lemma delivers_date_exact d t : gaps_within_day tz -> delivers tz m d t -> date_in tz t = d.
Proof.
  intros Hg H. pose proof (delivers_date_ok _ _ H) as Hd. unfold delivers in H.
  rewrite delivery_on_resolves in H by done. apply resolve_shows in H as (_ & H1 & H2).
  unfold date_in. pose proof (minute_of_day d) as Hmd.
  destruct (from_local tz (d * day + m * minute)) eqn:E; [|by rewrite H1..].
  destruct (Hg _ E) as [F G]. rewrite H2 by done. congruence.
Qed.

Lemma delivers_exists d : short_gaps tz -> near 1 d -> exists t, delivers tz m d t.
Proof.
  intros Hg Hd. unfold delivers. rewrite delivery_on_resolves by (apply Hd; lia).
  apply resolve_ok; [done|]. by rewrite minute_of_day.
Qed.

(** Later dates are later instants. *)
Lemma date_lt_instant t u : dates_in_order tz -> date_in tz t < date_in tz u -> t < u.
Proof.
  intros Ho Hlt. destruct (Z.lt_ge_cases t u) as [|H]; [done|]. apply Ho in H. lia.
Qed.

End Resolve.

(** ** Deliveries around an instant *)

Section Around.
Context `{CH : Chrono, CL : !CalendarLaws, ZL : !ZoneLaws}.
Context (tz : Tz) (m : Z) (Hm : 0 <= m < 24 * 60) (timezone : rstr).
Hypothesis Htz : parse_timezone timezone = Ok tz.
Context (now : Z).
Hypothesis Hnear : near 70 (date_in tz now).

Let D := date_in tz now.

Lemma add_days_near k : Z.abs k <= 70 -> add_days D k = Ret (D + k).
Proof. intros Hk. unfold add_days. rewrite Hnear by (fold D; lia). done. Qed.

Lemma delivery_on_civil d y mo dd : civil d = (y, mo, dd) ->
  local_delivery_datetime y mo dd m tz = delivery_on d m tz.
Proof. intros E. unfold delivery_on. by rewrite E. Qed.

(** The first of the current, the next and the previous month. *)
Lemma month_firsts y mo dd : civil D = (y, mo, dd) ->
  exists F k j, F = D - dd + 1 /\ civil F = (y, mo, 1) /\ D - 31 < F <= D /\ D < F + k /\ 28 <= k <= 31
    /\ 28 <= j <= 31
    /\ (forall i, 0 < i < k -> slot Monthly (F + i) = false) /\ slot Monthly (F + k) = true
    /\ (forall i, 0 < i < j -> slot Monthly (F - j + i) = false) /\ slot Monthly (F - j) = true
    /\ expect (if mo =? 12 then from_ymd_opt (y + 1) 1 1 else from_ymd_opt y (mo + 1) 1) = Ret (F + k)
    /\ expect (if mo =? 1 then from_ymd_opt (y - 1) 12 1 else from_ymd_opt y (mo - 1) 1) = Ret (F - j).
Proof.
  intros E. pose proof (civil_month _ _ _ _ E) as [_ Hdd].
  destruct (civil_span _ _ _ _ E) as (k & Hk & Hle & Hin & Hnext).
  pose proof (Hin 0 ltac:(lia)) as HF. rewrite Z.add_0_r, Z.add_0_l in HF.
  destruct (civil_prev _ _ _ HF) as (j & Hj & Hprev).
  pose proof (Hprev 0 ltac:(lia)) as HP. rewrite Z.add_0_r, Z.add_0_l in HP.
  exists (D - dd + 1), k, j. cbn [slot].
  repeat split; try lia; try assumption.
  - intros i Hi. rewrite Hin by lia. cbn. apply Z.eqb_neq. lia.
  - by rewrite Hnext.
  - intros i Hi. rewrite Hprev by lia. cbn. apply Z.eqb_neq. lia.
  - by rewrite HP.
  - unfold succ_month in Hnext. destruct (mo =? 12); rewrite (from_ymd_civil _ _ _ _ Hnext), Hnear;
      first [done | fold D; lia].
  - unfold pred_month in HP. destruct (mo =? 1); rewrite (from_ymd_civil _ _ _ _ HP), Hnear;
      first [done | fold D; lia].
Qed.

(** The delivery function returns an instant after [now], also where a gap moves a
    delivery to the following day. *)
Lemma next_after f : short_gaps tz -> dates_in_order tz ->
  exists t, next_delivery now timezone f m = Ret (Ok t) /\ now < t.
Proof.
  intros Hg Ho. unfold next_delivery. rewrite (valid_minute m Hm), Htz. cbn [rr_bind].
  fold D. destruct (civil D) as [[y mo] dd] eqn:E. rewrite (delivery_on_civil _ _ _ _ E).
  assert (Hex : forall d, Z.abs (d - D) <= 69 -> exists t, delivers tz m d t).
  { intros d Hd. apply delivers_exists; [done..|]. eapply near_sub; [exact Hnear|]. fold D. lia. }
  assert (Hlate : forall d t, D < d -> delivers tz m d t -> now < t).
  { intros d t Hd Ht. apply (date_lt_instant tz); [done|]. pose proof (delivers_date tz m Hm _ _ Ht).
    fold D. lia. }
  assert (Hsoon : forall d t, delivers tz m d t -> t <= now -> d <= date_in tz t <= D).
  { intros d t Ht Hle. pose proof (delivers_date tz m Hm _ _ Ht). pose proof (Ho _ _ Hle) as Hd.
    fold D in Hd. lia. }
  destruct (Hex D ltac:(lia)) as [t0 H0]. rewrite (rr_bind_step _ _ _ H0).
  assert (Hshift : forall t k, Z.abs k <= 8 -> D <= date_in tz t <= D + 7 -> add_days (date_in tz t) k
            = Ret (date_in tz t + k)).
  { intros t k Hk Hd. unfold add_days. by rewrite Hnear by (fold D; lia). }
  pose proof (delivers_date tz m Hm _ _ H0) as Hd0.
  destruct f.
  - destruct (Z.ltb_spec now t0) as [|Hle]; [eauto|]. cbn [negb].
    pose proof (Hsoon _ _ H0 Hle). rewrite (run_bind_step _ _ _ (Hshift t0 1 ltac:(lia) ltac:(lia))).
    destruct (Hex (date_in tz t0 + 1) ltac:(lia)) as [t1 H1]. exists t1. split; [exact H1|].
    eapply Hlate; [|exact H1]; lia.
  - assert (Hwk : 0 <= Z.rem (0 - weekday (date_in tz t0) + 7) 7 < 7).
    { rewrite weekday_mod. pose proof (Z.mod_pos_bound (date_in tz t0 + 3) 7 ltac:(lia)).
      apply Z.rem_bound_pos; lia. }
    revert Hwk. generalize (Z.rem (0 - weekday (date_in tz t0) + 7) 7). intros k Hk.
    destruct (Z.ltb_spec 0 k) as [Hpos|Hzero].
    + rewrite (run_bind_step _ _ _ (Hshift t0 k ltac:(lia) ltac:(lia))).
      destruct (Hex (date_in tz t0 + k) ltac:(lia)) as [t1 H1]. rewrite (rr_bind_step _ _ _ H1).
      assert (now < t1) by (eapply Hlate; [|exact H1]; lia). destruct (Z.ltb_spec now t1); [eauto | lia].
    + cbn [rr_bind]. destruct (Z.ltb_spec now t0) as [|Hle]; [eauto|]. cbn [negb].
      pose proof (Hsoon _ _ H0 Hle). rewrite (run_bind_step _ _ _ (Hshift t0 7 ltac:(lia) ltac:(lia))).
      destruct (Hex (date_in tz t0 + 7) ltac:(lia)) as [t1 H1]. exists t1. split; [exact H1|].
      eapply Hlate; [|exact H1]; lia.
  - destruct (month_firsts _ _ _ E) as (F & k & j & -> & HF & HFD & HkD & Hk & _ & _ & _ & _ & _ & Hn & _).
    rewrite (delivery_on_civil _ _ _ _ HF).
    destruct (Hex (D - dd + 1) ltac:(lia)) as [t1 H1]. rewrite (rr_bind_step _ _ _ H1).
    destruct (Z.ltb_spec now t1) as [|Hle]; [eauto|]. cbn [negb].
    rewrite (run_bind_step _ _ _ Hn).
    destruct (Hex (D - dd + 1 + k) ltac:(lia)) as [t2 H2]. exists t2. split; [exact H2|].
    eapply Hlate; [|exact H2]; lia.
Qed.

(** ** Zones whose dates and gaps are regular *)

Hypothesis Hgaps : gaps_within_day tz.
Hypothesis Hord : dates_in_order tz.

Lemma delivers_fun d t u : delivers tz m d t -> delivers tz m d u -> t = u.
Proof. unfold delivers. intros -> [=]. done. Qed.

Lemma delivers_before d t : delivers tz m d t -> d < D -> t < now.
Proof.
  intros H Hd. apply (date_lt_instant tz); [done|]. by rewrite (delivers_date_exact tz m Hm _ _ Hgaps H).
Qed.

Lemma delivers_after d t : delivers tz m d t -> D < d -> now < t.
Proof.
  intros H Hd. apply (date_lt_instant tz); [done|]. by rewrite (delivers_date_exact tz m Hm _ _ Hgaps H).
Qed.

Lemma delivers_near d : Z.abs (d - D) <= 69 -> exists t, delivers tz m d t.
Proof.
  intros Hd. apply delivers_exists; [done | by apply gaps_within_day_short |].
  eapply near_sub; [exact Hnear|]. fold D. lia.
Qed.

(** The first delivery of a frequency after [now], and the last one up to [now]. *)
Definition first_after (f : Frequency) (d t : Z) : Prop :=
  slot f d = true /\ delivers tz m d t /\ now < t
  /\ forall d' t', slot f d' = true -> delivers tz m d' t' -> d' < d -> t' <= now.
Definition last_upto (f : Frequency) (d t : Z) : Prop :=
  slot f d = true /\ delivers tz m d t /\ t <= now
  /\ forall d' t', slot f d' = true -> delivers tz m d' t' -> d < d' -> now < t'.

Lemma first_after_today f t : slot f D = true -> delivers tz m D t -> now < t -> first_after f D t.
Proof.
  intros Hs Ht Hlt. repeat split; try done. intros d' t' _ H' Hd. apply Z.lt_le_incl. by eapply delivers_before.
Qed.
Lemma last_upto_today f t : slot f D = true -> delivers tz m D t -> t <= now -> last_upto f D t.
Proof. intros Hs Ht Hlt. repeat split; try done. intros d' t' _ H' Hd. by eapply delivers_after. Qed.

Lemma first_after_later f d t :
  slot f d = true -> delivers tz m d t -> D < d ->
  (slot f D = true -> exists t0, delivers tz m D t0 /\ t0 <= now) ->
  (forall e, D < e < d -> slot f e = false) -> first_after f d t.
Proof.
  intros Hs Ht Hd H0 Hbtw. repeat split; try done; [by eapply delivers_after|].
  intros d' t' Hs' Ht' Hlt. destruct (Z.lt_trichotomy d' D) as [L|[->|L]].
  - apply Z.lt_le_incl. by eapply delivers_before.
  - destruct (H0 Hs') as (t0 & Ht0 & ?). by rewrite (delivers_fun _ _ _ Ht' Ht0).
  - rewrite Hbtw in Hs' by lia. done.
Qed.

Lemma last_upto_earlier f d t :
  slot f d = true -> delivers tz m d t -> d < D ->
  (slot f D = true -> exists t0, delivers tz m D t0 /\ now < t0) ->
  (forall e, d < e < D -> slot f e = false) -> last_upto f d t.
Proof.
  intros Hs Ht Hd H0 Hbtw. repeat split; try done; [apply Z.lt_le_incl; by eapply delivers_before|].
  intros d' t' Hs' Ht' Hlt. destruct (Z.lt_trichotomy d' D) as [L|[->|L]].
  - rewrite Hbtw in Hs' by lia. done.
  - destruct (H0 Hs') as (t0 & Ht0 & ?). by rewrite (delivers_fun _ _ _ Ht' Ht0).
  - by eapply delivers_after.
Qed.

Lemma weekly_slot d : slot Weekly d = (((d + 3) mod 7) =? 0).
Proof. cbn. by rewrite weekday_mod. Qed.

(** The candidate of today, at which both routines start. *)
Ltac open_delivery :=
  rewrite (valid_minute m Hm), Htz; cbn [rr_bind]; fold D;
  destruct (civil D) as [[y mo] dd] eqn:E; rewrite (delivery_on_civil _ _ _ _ E);
  destruct (delivers_near D ltac:(lia)) as [t0 H0]; rewrite (rr_bind_step _ _ _ H0);
  rewrite ?(delivers_date_exact tz m Hm _ _ Hgaps H0).

Lemma next_delivery_first_daily :
  exists d t, next_delivery now timezone Daily m = Ret (Ok t) /\ first_after Daily d t /\ D <= d <= D + 31.
Proof.
  unfold next_delivery. open_delivery.
  destruct (Z.ltb_spec now t0) as [|Hle]; cbn [negb].
  { exists D, t0. split; [done|]. split; [by apply first_after_today | lia]. }
  rewrite (run_bind_step _ _ _ (add_days_near 1 ltac:(lia))).
  destruct (delivers_near (D + 1) ltac:(lia)) as [t1 H1]. exists (D + 1), t1. split; [exact H1|].
  split; [|lia]. apply first_after_later; [done | done | lia | eauto | intros; lia].
Qed.

Lemma next_delivery_first_weekly :
  exists d t, next_delivery now timezone Weekly m = Ret (Ok t) /\ first_after Weekly d t /\ D <= d <= D + 31.
Proof.
  unfold next_delivery. open_delivery.
  rewrite weekday_mod. destruct (Z.ltb_spec 0 (Z.rem (0 - (D + 3) mod 7 + 7) 7)) as [Hpos|Hzero].
  + set (k := Z.rem (0 - (D + 3) mod 7 + 7) 7) in *.
    assert (Hk : 0 < k < 7 /\ k = 7 - (D + 3) mod 7) by (unfold k; Z.to_euclidean_division_equations; lia).
    rewrite (run_bind_step _ _ _ (add_days_near k ltac:(lia))).
    destruct (delivers_near (D + k) ltac:(lia)) as [t1 H1]. rewrite (rr_bind_step _ _ _ H1).
    pose proof (delivers_after _ _ H1 ltac:(lia)). destruct (Z.ltb_spec now t1); [|lia]. cbn [negb].
    exists (D + k), t1. split; [done|]. split; [|lia]. clearbody k. apply first_after_later;
      [rewrite weekly_slot | done | lia | rewrite weekly_slot | intros; rewrite weekly_slot];
      [apply Z.eqb_eq | intros ?%Z.eqb_eq | apply Z.eqb_neq];
      Z.to_euclidean_division_equations; lia.
  + cbn [rr_bind]. assert (Hs : (D + 3) mod 7 = 0) by (Z.to_euclidean_division_equations; lia).
    destruct (Z.ltb_spec now t0) as [|Hle]; cbn [negb].
    { exists D, t0. split; [done|]. split; [|lia]. apply first_after_today; [|done..].
      rewrite weekly_slot. by apply Z.eqb_eq. }
    rewrite (delivers_date_exact tz m Hm _ _ Hgaps H0).
    rewrite (run_bind_step _ _ _ (add_days_near 7 ltac:(lia))).
    destruct (delivers_near (D + 7) ltac:(lia)) as [t1 H1]. exists (D + 7), t1. split; [exact H1|].
    split; [|lia]. apply first_after_later; [rewrite weekly_slot | done | lia | eauto | intros; rewrite weekly_slot];
      [apply Z.eqb_eq | apply Z.eqb_neq]; Z.to_euclidean_division_equations; lia.
Qed.

Lemma next_delivery_first_monthly :
  exists d t, next_delivery now timezone Monthly m = Ret (Ok t) /\ first_after Monthly d t /\ D <= d <= D + 31.
Proof.
  unfold next_delivery. open_delivery.
  destruct (month_firsts _ _ _ E)
    as (F & k & j & _ & HF & HFD & HkD & Hk & _ & Hno & Hyes & _ & _ & Hn & _).
  rewrite (delivery_on_civil _ _ _ _ HF).
  destruct (delivers_near F ltac:(lia)) as [t1 H1]. rewrite (rr_bind_step _ _ _ H1).
  assert (HsF : slot Monthly F = true) by (cbn; by rewrite HF).
  destruct (Z.ltb_spec now t1) as [Hlt|Hle]; cbn [negb].
  { destruct (decide (F = D)) as [->|]; [|pose proof (delivers_before _ _ H1); lia].
    exists D, t1. split; [done|]. split; [by apply first_after_today | lia]. }
  rewrite (run_bind_step _ _ _ Hn).
  destruct (delivers_near (F + k) ltac:(lia)) as [t2 H2]. exists (F + k), t2. split; [exact H2|].
  split; [|lia]. apply first_after_later; [done | done | lia | |].
  + intros HsD. destruct (decide (F = D)) as [->|]; [eauto|].
    replace D with (F + (D - F)) in HsD by lia. rewrite Hno in HsD by lia. done.
  + intros e He. replace e with (F + (e - F)) by lia. apply Hno. lia.
Qed.

Lemma next_delivery_first f :
  exists d t, next_delivery now timezone f m = Ret (Ok t) /\ first_after f d t /\ D <= d <= D + 31.
Proof. destruct f; auto using next_delivery_first_daily, next_delivery_first_weekly, next_delivery_first_monthly. Qed.

Lemma latest_delivery_last_daily :
  exists d t, latest_delivery now timezone Daily m = Ret (Ok t) /\ last_upto Daily d t /\ D - 62 <= d <= D.
Proof.
  unfold latest_delivery. open_delivery.
  destruct (Z.ltb_spec now t0) as [Hlt|].
  2: { exists D, t0. split; [done|]. split; [by apply last_upto_today | lia]. }
  rewrite (run_bind_step _ _ _ (add_days_near (-1) ltac:(lia))).
  destruct (delivers_near (D + -1) ltac:(lia)) as [t1 H1]. exists (D + -1), t1. split; [exact H1|].
  split; [|lia]. apply last_upto_earlier; [done | done | lia | eauto | intros; lia].
Qed.

Lemma latest_delivery_last_weekly :
  exists d t, latest_delivery now timezone Weekly m = Ret (Ok t) /\ last_upto Weekly d t /\ D - 62 <= d <= D.
Proof.
  unfold latest_delivery. open_delivery.
  rewrite weekday_mod. set (k := (D + 3) mod 7).
  assert (Hk : 0 <= k < 7) by (unfold k; Z.to_euclidean_division_equations; lia).
  rewrite (run_bind_step _ _ _ (add_days_near (- k) ltac:(lia))).
  destruct (delivers_near (D + - k) ltac:(lia)) as [t1 H1]. rewrite (rr_bind_step _ _ _ H1).
  assert (Hs : slot Weekly (D + - k) = true).
  { rewrite weekly_slot. apply Z.eqb_eq. unfold k. Z.to_euclidean_division_equations; lia. }
  destruct (Z.ltb_spec now t1) as [Hlt|].
  + destruct (decide (k = 0)) as [K|]; [|pose proof (delivers_before _ _ H1); lia].
    rewrite K, Z.add_0_r in *. pose proof (delivers_fun _ _ _ H0 H1) as <-.
    rewrite (delivers_date_exact tz m Hm _ _ Hgaps H0).
    rewrite (run_bind_step _ _ _ (add_days_near (-7) ltac:(lia))).
    destruct (delivers_near (D + -7) ltac:(lia)) as [t2 H2]. exists (D + -7), t2. split; [exact H2|].
    split; [|lia]. unfold k in *. apply last_upto_earlier;
      [rewrite weekly_slot | done | lia | eauto | intros; rewrite weekly_slot];
      [apply Z.eqb_eq | apply Z.eqb_neq]; Z.to_euclidean_division_equations; lia.
  + exists (D + - k), t1. split; [done|]. split; [|lia].
    destruct (decide (k = 0)) as [K|].
    { rewrite K, Z.add_0_r in *. by apply last_upto_today. }
    unfold k in *. apply last_upto_earlier;
      [done | done | lia | rewrite weekly_slot | intros; rewrite weekly_slot];
      [intros ?%Z.eqb_eq | apply Z.eqb_neq]; Z.to_euclidean_division_equations; lia.
Qed.

Lemma latest_delivery_last_monthly :
  exists d t, latest_delivery now timezone Monthly m = Ret (Ok t) /\ last_upto Monthly d t /\ D - 62 <= d <= D.
Proof.
  unfold latest_delivery. open_delivery.
  destruct (month_firsts _ _ _ E)
    as (F & k & j & _ & HF & HFD & HkD & Hk & Hj & Hno & _ & Hno' & Hyes & _ & Hp).
  rewrite (delivery_on_civil _ _ _ _ HF).
  destruct (delivers_near F ltac:(lia)) as [t1 H1]. rewrite (rr_bind_step _ _ _ H1).
  assert (HsF : slot Monthly F = true) by (cbn; by rewrite HF).
  destruct (Z.ltb_spec now t1) as [Hlt|Hle].
  + destruct (decide (F = D)) as [->|]; [|pose proof (delivers_before _ _ H1); lia].
    rewrite (run_bind_step _ _ _ Hp).
    destruct (delivers_near (D - j) ltac:(lia)) as [t2 H2]. exists (D - j), t2. split; [exact H2|].
    split; [|lia]. apply last_upto_earlier; [done | done | lia | eauto |].
    intros e He. replace e with (D - j + (e - D + j)) by lia. apply Hno'. lia.
  + exists F, t1. split; [done|]. split; [|lia].
    destruct (decide (F = D)) as [->|]; [by apply last_upto_today|].
    assert (Hbtw : forall e, F < e <= D -> slot Monthly e = false).
    { intros e He. replace e with (F + (e - F)) by lia. apply Hno. lia. }
    apply last_upto_earlier; [done | done | lia | |].
    * rewrite Hbtw by lia. done.
    * intros e He. apply Hbtw. lia.
Qed.

Lemma latest_delivery_last f :
  exists d t, latest_delivery now timezone f m = Ret (Ok t) /\ last_upto f d t /\ D - 62 <= d <= D.
Proof. destruct f; auto using latest_delivery_last_daily, latest_delivery_last_weekly, latest_delivery_last_monthly. Qed.

End Around.

(** ** Spending periods *)

Section Periods.
Context `{CH : Chrono, CL : !CalendarLaws, ZL : !ZoneLaws}.
Context (tz : Tz) (timezone : rstr).
Hypothesis Htz : parse_timezone timezone = Ok tz.
Hypothesis Hgaps : gaps_within_day tz.
Hypothesis Hord : dates_in_order tz.

(** The start of a day is its delivery at minute 0. *)
Definition day_start (d s : Z) : Prop := delivers tz 0 d s.

Lemma local_date_start_eq d s : day_start d s -> local_date_start d tz = Ret s.
Proof.
  unfold day_start, local_date_start. intros H.
  pose proof (delivers_date_ok tz 0 ltac:(lia) _ _ H) as Hd. unfold delivers in H.
  rewrite delivery_on_resolves in H by (done || lia).
  unfold and_hms. cbn [Z.leb Z.ltb Z.compare andb expect run_bind].
  replace (d * day + 0 * hour + 0 * minute) with (d * day + 0 * minute) by (unfold hour, minute; lia).
  by rewrite H.
Qed.

Lemma day_start_date d s : day_start d s -> date_in tz s = d.
Proof. apply delivers_date_exact; [lia | done]. Qed.

Lemma day_start_exists r d : near r d -> 1 <= r -> exists s, day_start d s.
Proof.
  intros H Hr. apply delivers_exists; [lia | by apply gaps_within_day_short|].
  eapply near_sub; [exact H | lia].
Qed.

Lemma day_start_lt d e s u : day_start d s -> day_start e u -> d < e -> s < u.
Proof.
  intros Hs Hu Hlt. apply (date_lt_instant tz); [done|].
  by rewrite (day_start_date _ _ Hs), (day_start_date _ _ Hu).
Qed.

Lemma add_days_ok r d k : near r d -> Z.abs k <= r -> add_days d k = Ret (d + k).
Proof. intros H Hk. unfold add_days. rewrite H by lia. done. Qed.

(** Slot [d] precedes slot [e] with no other in between. *)
Definition slot_before (f : Frequency) (d e : Z) : Prop :=
  slot f d = true /\ d < e /\ forall x, d < x < e -> slot f x = false.

Lemma slot_before_unique f d d' e : slot_before f d e -> slot_before f d' e -> d = d'.
Proof.
  intros (H1 & L1 & B1) (H2 & L2 & B2). destruct (Z.lt_trichotomy d d') as [L|[L|L]]; [|done|].
  - rewrite B1 in H2 by lia. done.
  - rewrite B2 in H1 by lia. done.
Qed.

Definition period_label (f : Frequency) : rstr :=
  match f with Daily => s! "Hôm qua" | Weekly => s! "Tuần trước" | Monthly => s! "Tháng trước" end.

(** The period of a delivery on a slot is the time since the previous slot. *)
Lemma scheduled_period_slot f t :
  near 70 (date_in tz t) -> slot f (date_in tz t) = true ->
  exists d s u, scheduled_period f t timezone = Ret (Ok ({| start := s; pend := u |}, period_label f))
    /\ slot_before f d (date_in tz t) /\ day_start d s /\ day_start (date_in tz t) u.
Proof.
  intros Hn Hs. unfold scheduled_period. rewrite Htz. cbn [rr_bind].
  destruct (day_start_exists _ _ Hn ltac:(lia)) as [u Hu].
  assert (Hprev : forall k, -31 <= k < 0 -> exists s, day_start (date_in tz t + k) s).
  { intros k Hk. apply (day_start_exists 1); [|lia]. eapply near_sub; [exact Hn | lia]. }
  destruct f; unfold ok_period.
  - destruct (Hprev (-1) ltac:(lia)) as [s Hs']. exists (date_in tz t + -1), s, u. split; [|split; [|done]].
    + unfold yesterday. rewrite (run_bind_step _ _ _ (add_days_ok _ _ (-1) Hn ltac:(lia))).
      by rewrite (local_date_start_eq _ _ Hs'), (local_date_start_eq _ _ Hu).
    + repeat split; [lia | intros; lia].
  - destruct (Hprev (-7) ltac:(lia)) as [s Hs']. exists (date_in tz t + -7), s, u.
    rewrite weekly_slot in Hs. apply Z.eqb_eq in Hs. split; [|split; [|done]].
    + unfold last_week, week_start. rewrite weekday_mod, Hs.
      rewrite (run_bind_step _ _ _ (add_days_ok _ _ (- 0) Hn ltac:(lia))), Z.add_0_r.
      rewrite (local_date_start_eq _ _ Hu). cbn [run_bind]. rewrite (day_start_date _ _ Hu).
      rewrite (run_bind_step _ _ _ (add_days_ok _ _ (-7) Hn ltac:(lia))).
      by rewrite (local_date_start_eq _ _ Hs').
    + repeat split; [|lia|]; [|intros x Hx]; rewrite weekly_slot;
        [apply Z.eqb_eq | apply Z.eqb_neq]; Z.to_euclidean_division_equations; lia.
  - cbn [slot] in Hs. destruct (civil (date_in tz t)) as [[y mo] dd] eqn:E. apply Z.eqb_eq in Hs.
    cbn in Hs. subst dd.
    destruct (month_firsts tz t Hn _ _ _ E) as (F & k & j & EF & HF & _ & _ & _ & Hj & _ & _ & Hno & Hyes & _ & Hp).
    replace (date_in tz t - 1 + 1) with (date_in tz t) in EF by lia. subst F.
    destruct (Hprev (- j) ltac:(lia)) as [s Hs']. rewrite Z.add_opp_r in Hs'.
    exists (date_in tz t - j), s, u. split; [|split; [|done]].
    + unfold last_month, month_start. rewrite E.
      rewrite (from_ymd_civil _ _ _ _ HF), Hn by lia. cbn [expect run_bind].
      rewrite (local_date_start_eq _ _ Hu). cbn [run_bind]. rewrite (day_start_date _ _ Hu), E.
      rewrite (run_bind_step _ _ _ Hp). by rewrite (local_date_start_eq _ _ Hs').
    + repeat split; [done | lia |]. intros x Hx.
      replace x with (date_in tz t - j + (x - date_in tz t + j)) by lia. apply Hno. lia.
Qed.

(** The period of an interactive request runs from the current slot to the end of
    today. *)
Lemma interactive_period_today f now :
  near 70 (date_in tz now) ->
  exists p label d, interactive_period f now timezone = Ret (Ok (p, label))
    /\ slot f d = true /\ d <= date_in tz now /\ (forall x, d < x <= date_in tz now -> slot f x = false)
    /\ day_start d (start p) /\ day_start (date_in tz now + 1) (pend p).
Proof.
  intros Hn. unfold interactive_period. rewrite Htz. cbn [rr_bind]. set (D := date_in tz now) in *.
  assert (Hex : forall k, Z.abs k <= 69 -> exists s, day_start (D + k) s).
  { intros k Hk. apply (day_start_exists 1); [|lia]. eapply near_sub; [exact Hn | lia]. }
  destruct (Hex 1 ltac:(lia)) as [e He].
  assert (Hmin : forall x u, day_start x u -> D < x -> (if e <? u then e else u) = e).
  { intros x u Hu Hx. destruct (Z.ltb_spec e u) as [|L]; [done|].
    destruct (decide (x = D + 1)) as [->|]; [exact (delivers_fun tz 0 _ _ _ Hu He)|].
    pose proof (day_start_lt _ _ _ _ He Hu). lia. }
  destruct f; unfold ok_period.
  - destruct (Hex 0 ltac:(lia)) as [s Hs]. rewrite Z.add_0_r in Hs.
    exists {| start := s; pend := e |}, (s! "Hôm nay"), D. split; [|repeat split; try done; intros; lia].
    unfold today. fold D. rewrite (local_date_start_eq _ _ Hs). cbn [run_bind].
    rewrite (run_bind_step _ _ _ (add_days_ok _ _ 1 Hn ltac:(lia))).
    by rewrite (local_date_start_eq _ _ He).
  - set (k := (D + 3) mod 7). assert (Hk : 0 <= k < 7) by (apply Z.mod_pos_bound; lia).
    destruct (Hex (- k) ltac:(lia)) as [s Hs]. destruct (Hex (- k + 7) ltac:(lia)) as [u Hu].
    exists {| start := s; pend := e |}, (s! "Tuần này"), (D + - k). split; [|repeat split; try done].
    + unfold this_week, week_start. fold D. rewrite weekday_mod. fold k.
      rewrite (run_bind_step _ _ _ (add_days_ok _ _ (- k) Hn ltac:(lia))).
      rewrite (local_date_start_eq _ _ Hs). cbn [run_bind]. rewrite (day_start_date _ _ Hs).
      assert (E : add_days (D + - k) 7 = Ret (D + (- k + 7))).
      { unfold add_days. rewrite Hn by lia. f_equal. lia. }
      rewrite (run_bind_step _ _ _ E), (local_date_start_eq _ _ Hu). cbn [run_bind].
      rewrite (run_bind_step _ _ _ (add_days_ok _ _ 1 Hn ltac:(lia))), (local_date_start_eq _ _ He).
      cbn [run_bind]. rewrite (Hmin _ _ Hu) by lia. done.
    + rewrite weekly_slot. apply Z.eqb_eq. unfold k. Z.to_euclidean_division_equations; lia.
    + lia.
    + intros x Hx. rewrite weekly_slot. apply Z.eqb_neq. unfold k in *. Z.to_euclidean_division_equations; lia.
  - destruct (civil D) as [[y mo] dd] eqn:E.
    destruct (month_firsts tz now Hn _ _ _ E)
      as (F & k & j & _ & HF & HFD & HkD & Hk & _ & Hno & Hyes & _ & _ & Hnx & _). fold D in HFD, HkD.
    destruct (Hex (F - D) ltac:(lia)) as [s Hs]. replace (D + (F - D)) with F in Hs by lia.
    destruct (Hex (F + k - D) ltac:(lia)) as [u Hu]. replace (D + (F + k - D)) with (F + k) in Hu by lia.
    exists {| start := s; pend := e |}, (s! "Tháng này"), F. split; [|repeat split; try done; [| lia |]].
    + unfold this_month, month_start. fold D. rewrite E.
      rewrite (from_ymd_civil _ _ _ _ HF), Hn by lia. cbn [expect run_bind].
      rewrite (local_date_start_eq _ _ Hs). cbn [run_bind]. rewrite (day_start_date _ _ Hs), HF.
      rewrite (run_bind_step _ _ _ Hnx), (local_date_start_eq _ _ Hu). cbn [run_bind].
      rewrite (run_bind_step _ _ _ (add_days_ok _ _ 1 Hn ltac:(lia))), (local_date_start_eq _ _ He).
      cbn [run_bind]. rewrite (Hmin _ _ Hu) by lia. done.
    + cbn. by rewrite HF.
    + intros x Hx. replace x with (F + (x - F)) by lia. apply Hno. lia.
Qed.

End Periods.

(** ** Claims *)

Section Claims.
Context `{CH : Chrono, CL : !CalendarLaws, ZL : !ZoneLaws}.
Context (tz : Tz) (timezone : rstr) (now m : Z).
Hypothesis Htz : parse_timezone timezone = Ok tz.
Hypothesis Hm : 0 <= m < 24 * 60.
Hypothesis Hnear : near 140 (date_in tz now).
Hypothesis Hord : dates_in_order tz.

(** [next_delivery] returns an instant strictly after [now] for every frequency,
    without an error or a panic, in every zone whose date never goes back and whose
    clock jumps forward by less than three hours. *)
Theorem next_delivery_strictly_after (f : Frequency) :
  short_gaps tz -> exists t, next_delivery now timezone f m = Ret (Ok t) /\ now < t.
Proof.
  intros Hg. eapply next_after; try done. eapply near_sub; [exact Hnear | lia].
Qed.

Hypothesis Hgaps : gaps_within_day tz.

Lemma around f :
  exists d1 t1 d2 t2, latest_delivery now timezone f m = Ret (Ok t1)
    /\ next_delivery now timezone f m = Ret (Ok t2)
    /\ last_upto tz m now f d1 t1 /\ first_after tz m now f d2 t2
    /\ slot_before f d1 d2 /\ Z.abs (d1 - date_in tz now) <= 62 /\ Z.abs (d2 - date_in tz now) <= 31.
Proof.
  assert (Hn : near 70 (date_in tz now)) by (eapply near_sub; [exact Hnear | lia]).
  destruct (latest_delivery_last tz m Hm timezone Htz now Hn Hgaps Hord f) as (d1 & t1 & E1 & H1 & R1).
  destruct (next_delivery_first tz m Hm timezone Htz now Hn Hgaps Hord f) as (d2 & t2 & E2 & H2 & R2).
  exists d1, t1, d2, t2. destruct H1 as (S1 & V1 & L1 & A1), H2 as (S2 & V2 & L2 & A2).
  assert (Hlt : d1 < d2).
  { pose proof (delivers_date_exact tz m Hm _ _ Hgaps V1). pose proof (delivers_date_exact tz m Hm _ _ Hgaps V2).
    destruct (Z.lt_trichotomy d1 d2) as [|[<-|L]]; [done| |].
    - rewrite (delivers_fun tz m _ _ _ V1 V2) in L1. lia.
    - pose proof (A1 d2 t2) as X. pose proof (date_lt_instant tz t2 t1 Hord). lia. }
  do 4 (split; [done|]). split; [|lia]. split; [done|]. split; [done|].
  intros x Hx. destruct (slot f x) eqn:Sx; [|done]. exfalso.
  destruct (delivers_near tz m Hm now Hn Hgaps x ltac:(lia)) as [t Ht].
  pose proof (A1 x t Sx Ht ltac:(lia)). pose proof (A2 x t Sx Ht ltac:(lia)). lia.
Qed.

(** C14. [latest_delivery] and [next_delivery] bracket [now]: both return the delivery
    of a day on which the frequency delivers (every day, Mondays, the first of the
    month), at or before [now] and after it, and no delivery of such a day lies
    strictly between them.  Zones: dates never go back, skipped times exist an hour
    later on the same date. *)
Theorem deliveries_bracket_now (f : Frequency) :
  exists d1 t1 d2 t2,
    latest_delivery now timezone f m = Ret (Ok t1) /\ next_delivery now timezone f m = Ret (Ok t2)
    /\ slot f d1 = true /\ delivers tz m d1 t1 /\ slot f d2 = true /\ delivers tz m d2 t2
    /\ t1 <= now < t2
    /\ forall d t, slot f d = true -> delivers tz m d t -> t <= t1 \/ t2 <= t.
Proof.
  destruct (around f) as (d1 & t1 & d2 & t2 & E1 & E2 & (S1 & V1 & L1 & _) & (S2 & V2 & L2 & _)
                          & (_ & Hlt & Hbtw) & _).
  exists d1, t1, d2, t2. repeat split; try done. intros d t Sd Vd.
  pose proof (delivers_date_exact tz m Hm _ _ Hgaps V1) as D1.
  pose proof (delivers_date_exact tz m Hm _ _ Hgaps V2) as D2.
  pose proof (delivers_date_exact tz m Hm _ _ Hgaps Vd) as Dd.
  destruct (Z.lt_trichotomy d d1) as [L|[->|L]].
  - left. pose proof (date_lt_instant tz t t1 Hord). lia.
  - left. rewrite (delivers_fun tz m _ _ _ Vd V1). lia.
  - right. destruct (Z.lt_trichotomy d d2) as [L'|[->|L']].
    + rewrite Hbtw in Sd by lia. done.
    + rewrite (delivers_fun tz m _ _ _ Vd V2). lia.
    + pose proof (date_lt_instant tz t2 t Hord). lia.
Qed.

(** The spending periods reported by two successive deliveries adjoin: the one
    ends where the other starts and neither is empty, so no expense is reported twice
    or missed. *)
Theorem scheduled_periods_adjoin (f : Frequency) :
  exists t1 t2 p1 p2,
    latest_delivery now timezone f m = Ret (Ok t1) /\ next_delivery now timezone f m = Ret (Ok t2)
    /\ scheduled_period f t1 timezone = Ret (Ok (p1, period_label f))
    /\ scheduled_period f t2 timezone = Ret (Ok (p2, period_label f))
    /\ start p1 < pend p1 /\ pend p1 = start p2 /\ start p2 < pend p2.
Proof.
  destruct (around f) as (d1 & t1 & d2 & t2 & E1 & E2 & (S1 & V1 & _) & (S2 & V2 & _) & Hb & R1 & R2).
  pose proof (delivers_date_exact tz m Hm _ _ Hgaps V1) as D1.
  pose proof (delivers_date_exact tz m Hm _ _ Hgaps V2) as D2.
  destruct (scheduled_period_slot tz timezone Htz Hgaps f t1) as (e1 & s1 & u1 & P1 & B1 & Hs1 & Hu1);
    rewrite ?D1; [eapply near_sub; [exact Hnear | lia] | done |].
  destruct (scheduled_period_slot tz timezone Htz Hgaps f t2) as (e2 & s2 & u2 & P2 & B2 & Hs2 & Hu2);
    rewrite ?D2; [eapply near_sub; [exact Hnear | lia] | done |].
  rewrite D1 in B1, Hu1. rewrite D2 in B2, Hu2.
  pose proof (slot_before_unique _ _ _ _ Hb B2) as <-.
  exists t1, t2, {| start := s1; pend := u1 |}, {| start := s2; pend := u2 |}. repeat split; try done; cbn.
  - eapply (day_start_lt tz); [done | done | exact Hs1 | exact Hu1 | apply B1].
  - exact (delivers_fun tz 0 _ _ _ Hu1 Hs2).
  - eapply (day_start_lt tz); [done | done | exact Hs2 | exact Hu2 | apply B2].
Qed.

(** The period of an interactive summary starts with the day of the current slot
    (today, Monday, the first of the month), ends with today's date, and ends after
    [now]. *)
Theorem interactive_period_current (f : Frequency) :
  exists p label d,
    interactive_period f now timezone = Ret (Ok (p, label))
    /\ slot f d = true /\ d <= date_in tz now /\ (forall x, d < x <= date_in tz now -> slot f x = false)
    /\ date_in tz (start p) = d /\ date_in tz (pend p) = date_in tz now + 1
    /\ start p < pend p /\ now < pend p.
Proof.
  destruct (interactive_period_today tz timezone Htz Hgaps Hord f now)
    as (p & label & d & E & S & L & B & Hs & He); [eapply near_sub; [exact Hnear | lia]|].
  exists p, label, d. repeat split; try done.
  - by apply day_start_date.
  - by apply day_start_date.
  - eapply (day_start_lt tz); [done | done | exact Hs | exact He | lia].
  - apply (date_lt_instant tz); [done|]. rewrite (day_start_date tz Hgaps _ _ He). lia.
Qed.

End Claims.

(** ** Witnesses *)

(** Nuuk in 2024: at 01:00 UTC on March 31 the clock jumps from 23:00 to midnight. *)
Definition nuuk_2024 : Chrono :=
  transition_chrono (s! "America/Nuuk") (19813 * day + hour) (- 2 * hour) (- hour).

(** The same change two hours later in the day. *)
Definition regular_2024 : Chrono :=
  transition_chrono (s! "America/Sao_Paulo") (19813 * day + 3 * hour) (- 3 * hour) (- 2 * hour).

Lemma transition_dates name T before after :
  before <= after -> @dates_in_order (transition_chrono name T before after) tt.
Proof.
  intros Hle t u Htu. unfold date_in, date_naive. cbn. unfold transition_local.
  apply Z.div_le_mono; [done|]. destruct (Z.ltb_spec t T), (Z.ltb_spec u T); lia.
Qed.

Lemma nuuk_gaps : @short_gaps nuuk_2024 tt.
Proof.
  intros l H. exists 60. split; [lia|]. revert H. cbn. unfold transition_from.
  destruct (Z.ltb_spec (l - - 2 * hour) (19813 * day + hour)),
    (Z.leb_spec (19813 * day + hour) (l - - hour)); try done. intros _.
  destruct (Z.ltb_spec (l + 60 * minute - - 2 * hour) (19813 * day + hour)),
    (Z.leb_spec (19813 * day + hour) (l + 60 * minute - - hour)); try done.
  unfold day, hour, minute, second in *. lia.
Qed.

Lemma regular_gaps : @gaps_within_day regular_2024 tt.
Proof.
  intros l. cbn. unfold transition_from, date_naive.
  destruct (Z.ltb_spec (l - - 3 * hour) (19813 * day + 3 * hour)),
    (Z.leb_spec (19813 * day + 3 * hour) (l - - 2 * hour)); try done. intros _.
  unfold day, hour, minute, second in *. split.
  - repeat case_match; b2p; try done; lia.
  - Z.to_euclidean_division_equations; lia.
Qed.

Lemma gregorian_near name T before after d :
  Z.abs d <= 94000000 -> @near (transition_chrono name T before after) 140 d.
Proof.
  intros Hd e He. cbn. unfold gregorian_in_range. apply andb_true_iff. rewrite !Z.leb_le. lia.
Qed.

Abbreviation nuuk_now := (19813 * day + hour + 10 * minute).

Lemma next_delivery_strictly_after_witness :
  exists t, @next_delivery nuuk_2024 nuuk_now (s! "America/Nuuk") Daily 1410 = Ret (Ok t) /\ nuuk_now < t.
Proof.
  apply (@next_delivery_strictly_after nuuk_2024 (transition_calendar _ _ _ _) (transition_zone _ _ _ _)
           tt _ _ _).
  - vm_compute. reflexivity.
  - lia.
  - apply gregorian_near. vm_compute. discriminate.
  - apply transition_dates. vm_compute. discriminate.
  - apply nuuk_gaps.
Defined.

Abbreviation regular_now := (19813 * day + 12 * hour).

Lemma deliveries_bracket_now_witness :
  exists d1 t1 d2 t2,
    @latest_delivery regular_2024 regular_now (s! "America/Sao_Paulo") Monthly 15 = Ret (Ok t1)
    /\ @next_delivery regular_2024 regular_now (s! "America/Sao_Paulo") Monthly 15 = Ret (Ok t2)
    /\ @slot regular_2024 Monthly d1 = true /\ @delivers regular_2024 tt 15 d1 t1
    /\ @slot regular_2024 Monthly d2 = true /\ @delivers regular_2024 tt 15 d2 t2
    /\ t1 <= regular_now < t2
    /\ forall d t, @slot regular_2024 Monthly d = true -> @delivers regular_2024 tt 15 d t -> t <= t1 \/ t2 <= t.
Proof.
  apply (@deliveries_bracket_now regular_2024 (transition_calendar _ _ _ _) (transition_zone _ _ _ _)
           tt _ _ _).
  - vm_compute. reflexivity.
  - lia.
  - apply gregorian_near. vm_compute. discriminate.
  - apply transition_dates. vm_compute. discriminate.
  - apply regular_gaps.
Defined.

Lemma scheduled_periods_adjoin_witness :
  exists t1 t2 p1 p2,
    @latest_delivery regular_2024 regular_now (s! "America/Sao_Paulo") Weekly 15 = Ret (Ok t1)
    /\ @next_delivery regular_2024 regular_now (s! "America/Sao_Paulo") Weekly 15 = Ret (Ok t2)
    /\ @scheduled_period regular_2024 Weekly t1 (s! "America/Sao_Paulo") = Ret (Ok (p1, period_label Weekly))
    /\ @scheduled_period regular_2024 Weekly t2 (s! "America/Sao_Paulo") = Ret (Ok (p2, period_label Weekly))
    /\ start p1 < pend p1 /\ pend p1 = start p2 /\ start p2 < pend p2.
Proof.
  apply (@scheduled_periods_adjoin regular_2024 (transition_calendar _ _ _ _) (transition_zone _ _ _ _)
           tt _ _ _).
  - vm_compute. reflexivity.
  - lia.
  - apply gregorian_near. vm_compute. discriminate.
  - apply transition_dates. vm_compute. discriminate.
  - apply regular_gaps.
Defined.

Lemma interactive_period_current_witness :
  exists p label d,
    @interactive_period regular_2024 Monthly regular_now (s! "America/Sao_Paulo") = Ret (Ok (p, label))
    /\ @slot regular_2024 Monthly d = true /\ d <= @date_in regular_2024 tt regular_now
    /\ (forall x, d < x <= @date_in regular_2024 tt regular_now -> @slot regular_2024 Monthly x = false)
    /\ @date_in regular_2024 tt (start p) = d
    /\ @date_in regular_2024 tt (pend p) = @date_in regular_2024 tt regular_now + 1
    /\ start p < pend p /\ regular_now < pend p.
Proof.
  apply (@interactive_period_current regular_2024 (transition_calendar _ _ _ _) (transition_zone _ _ _ _)
           tt _ _).
  - vm_compute. reflexivity.
  - apply gregorian_near. vm_compute. discriminate.
  - apply transition_dates. vm_compute. discriminate.
  - apply regular_gaps.
Defined.

(** Where a gap ends at midnight a delivery of the last hour of the day is moved
    past midnight, and for the minutes in between [latest_delivery], meant to return
    an instant at or before [now], returns a later one: Nuuk on 31 March 2024, daily
    delivery at 23:30, ten minutes after midnight. *)
Theorem latest_delivery_after_now :
  @latest_delivery nuuk_2024 nuuk_now (s! "America/Nuuk") Daily 1410 = Ret (Ok (nuuk_now + 20 * minute)).
Proof. vm_compute. reflexivity. Qed.
