(* ===== verification/ConvTypes.v ===== *)
(** * Types of the conversation

    [src/conversation/types.rs] and [locale.rs]: what a decision is given (the account
    context), what it returns (replies and domain commands), and the reply language. *)

From S2P Require Import Prelude RustStr RustStrFacts Platform.

Module Conv.

Inductive Locale := Vi | En.

Module Locale.
Definition parse (value : rstr) : Locale :=
  let folded := to_ascii_lowercase (trim value) in
  if starts_with folded (s! "en") then En else Vi.

Definition as_account_value (l : Locale) : rstr :=
  match l with Vi => s! "vi-VN" | En => s! "en-US" end.

Definition as_short (l : Locale) : rstr :=
  match l with Vi => s! "vi" | En => s! "en" end.
End Locale.

Definition category_display_for (locale : Locale) (key name_vi name_en : rstr) : rstr :=
  let preferred := match locale with Vi => name_vi | En => name_en end in
  if is_empty (trim preferred) then key else preferred.

Inductive PendingKind := ManualExpense | ReceiptReview | AccountDeletion.
Inductive LifecycleState := PendingConsent | Active | Suspended.

#[export] Instance PendingKind_eq_dec : EqDecision PendingKind.
Proof. solve_decision. Defined.
#[export] Instance LifecycleState_eq_dec : EqDecision LifecycleState.
Proof. solve_decision. Defined.

Record ScheduleLine := { sl_frequency : rstr; sl_delivery_minute : Z; sl_enabled : bool }.

Record ManualDraftView := {
  dv_version : Z;
  dv_amount_minor : Z;
  dv_currency : rstr;
  dv_merchant : rstr;
  dv_category_key : rstr;
  dv_category_display : rstr;
  dv_transaction_type : rstr;
  dv_type_label : rstr;
  dv_date_display : rstr;
  dv_occurred_at : Z;
}.

Record PendingConfirmation := {
  pc_kind : PendingKind;
  pc_reference_id : N;
  pc_optimistic_version : Z;
  pc_expires_at : Z;
  pc_draft : ManualDraftView;
}.

Record PeriodSummary := {
  ps_label : rstr;
  ps_currency : rstr;
  ps_total_minor : Z;
  ps_tx_count : Z;
}.

Record RecentExpenseLine := {
  re_date_display : rstr;
  re_amount_minor : Z;
  re_currency : rstr;
  re_merchant : rstr;
  re_category_display : rstr;
  re_type_label : option rstr;
}.

Record AccountContext := {
  next_expense_id : N;
  next_submission_id : N;
  next_ingest_job_id : N;
  lifecycle : LifecycleState;
  allowlisted : bool;
  default_currency : rstr;
  timezone : rstr;
  locale_text : rstr;
  original_receipt_retention_days : Z;
  remaining_daily_receipts : Z;
  confirmed_expense_count : Z;
  pending : option PendingConfirmation;
  today_summary : option PeriodSummary;
  week_summary : option PeriodSummary;
  month_summary : option PeriodSummary;
  schedules : list ScheduleLine;
  recent_lines : list RecentExpenseLine;
}.

Inductive DomainCommand :=
| GrantConsent (consent_version : rstr)
| CreateManualAwaitingConfirmation (expense_id : N) (amount_minor : Z) (currency description merchant : rstr)
    (occurred_at optimistic_version pending_expires_at : Z)
| ConfirmExpense (expense_id : N) (expected_version : Z)
| RejectExpense (expense_id : N) (expected_version : Z)
| AcceptReceiptSubmission (submission_id ingest_job_id : N)
| ConfirmReceipt (submission_id expense_id : N) (expected_draft_version : Z)
| RejectReceipt (submission_id : N) (expected_draft_version : Z)
| EditReceiptDraft (submission_id : N) (expected_draft_version : Z) (amount_minor : option Z)
    (merchant category_key : option rstr) (occurred_at : option Z) (transaction_type : option rstr)
| EditManualExpense (expense_id : N) (expected_version : Z) (amount_minor : option Z)
    (merchant category_key : option rstr) (occurred_at : option Z) (transaction_type : option rstr)
| RecategorizeLatest (category_key : rstr)
| ClearPending
| SetLocale (locale : rstr)
| SetTimezone (iana : rstr)
| UpsertSchedule (frequency : rstr) (delivery_minute : Z)
| DisableSchedule (frequency : option rstr)
| RequestAccountDeletion (pending_expires_at : Z)
| ConfirmAccountDeletion
| RequestAccountExport
| RecordInsightSnapshot (period_kind : rstr).

(** A [ReplyPlan] is its body. *)
Record ConversationOutcome := { replies : list rstr; commands : list DomainCommand }.

Definition CONSENT_VERSION : rstr := s! "consent-v1".
Definition PENDING_CONFIRMATION_TTL_SECS : Z := 15 * 60.

End Conv.
