(* ===== verification/Templates.v ===== *)
(** * Reply texts ([src/conversation/templates.rs])

    One definition per template; [nl] is the newline and [quot] the double quote of the
    source's string literals. *)

From S2P Require Import Prelude RustStr RustStrFacts Platform Money ConvTypes.

Module Templates.
Import Conv Money.

Definition nl : rstr := [10].
Definition quot : rstr := [34].

(** [{:02}] of an [i32]. *)
Definition pad2 (n : Z) : rstr :=
  if n <? 0 then 45 :: zero_pad 1 (dec (- n)) else zero_pad 2 (dec n).

(** [{:02}:{:02}] of the hour and the minute of a delivery minute. *)
Definition clock_text (delivery_minute : Z) : rstr :=
  pad2 (Z.quot delivery_minute 60) ++ s! ":" ++ pad2 (Z.rem delivery_minute 60).

Section WithUnicode.
Context `{U : UnicodeCase}.

Definition schedule_frequency_label (locale : Locale) (frequency : rstr) : rstr :=
  match locale with
  | Vi => if str_eqb frequency (s! "daily") then s! "hàng ngày"
          else if str_eqb frequency (s! "weekly") then s! "hàng tuần"
          else if str_eqb frequency (s! "monthly") then s! "hàng tháng"
          else frequency
  | En => if str_eqb frequency (s! "daily") then s! "daily"
          else if str_eqb frequency (s! "weekly") then s! "weekly"
          else if str_eqb frequency (s! "monthly") then s! "monthly"
          else frequency
  end.

Definition transaction_type_label (locale : Locale) (transaction_type : rstr) : rstr :=
  match locale with
  | Vi => if str_eqb transaction_type (s! "income") then s! "Thu nhập"
          else if str_eqb transaction_type (s! "refund") then s! "Hoàn tiền"
          else if str_eqb transaction_type (s! "transfer") then s! "Chuyển khoản"
          else if str_eqb transaction_type (s! "adjustment") then s! "Điều chỉnh"
          else s! "Chi tiêu"
  | En => if str_eqb transaction_type (s! "income") then s! "Income"
          else if str_eqb transaction_type (s! "refund") then s! "Refund"
          else if str_eqb transaction_type (s! "transfer") then s! "Transfer"
          else if str_eqb transaction_type (s! "adjustment") then s! "Adjustment"
          else s! "Expense"
  end.

Definition no_recent_text (locale : Locale) : rstr :=
  match locale with
  | Vi => s! "Chưa có giao dịch nào được ghi nhận. Gửi ảnh hóa đơn hoặc nhập: " ++ quot
          ++ s! "an sang 500k" ++ quot ++ s! "."
  | En => s! "No transactions yet. Send a receipt photo or type: " ++ quot ++ s! "coffee 45k"
          ++ quot ++ s! "."
  end.

Definition not_allowed_text (locale : Locale) : rstr :=
  match locale with
  | Vi => s! "Xin lỗi, tài khoản của bạn chưa được cấp quyền dùng bot trong giai đoạn thử nghiệm."
  | En => s! "Sorry, your account is not allowlisted for this pilot yet."
  end.

Definition suspended_text (locale : Locale) : rstr :=
  match locale with
  | Vi => s! "Tài khoản của bạn đang tạm dừng. Vui lòng liên hệ quản trị viên để được hỗ trợ."
  | En => s! "Your account is suspended. Please contact an admin for help."
  end.

Definition consent_card_text (locale : Locale) : rstr :=
  match locale with
  | Vi => s! "Xin chào! Tôi giúp ghi nhận và tổng hợp các khoản chi từ ảnh hóa đơn." ++ nl ++ nl
          ++ s! "Bạn chỉ cần gửi ảnh hóa đơn, hoặc nhập nhanh một khoản như " ++ quot
          ++ s! "an sang 500k" ++ quot ++ s! "." ++ nl ++ nl
          ++ s! "Dữ liệu có thể bao gồm thông tin mua hàng và được lưu để tạo báo cáo chi tiêu. Bạn có thể xóa dữ liệu bất kỳ lúc nào bằng /delete."
          ++ nl ++ nl ++ s! "Trả lời ok (hoặc " ++ quot ++ s! "đồng ý" ++ quot
          ++ s! ") để bắt đầu, hoặc /privacy để xem cách dữ liệu được sử dụng."
  | En => s! "Hi! I help log and summarize expenses from receipt photos." ++ nl ++ nl
          ++ s! "Send a receipt image, or type a quick entry like " ++ quot ++ s! "coffee 45k"
          ++ quot ++ s! "." ++ nl ++ nl
          ++ s! "Purchase details may be stored so I can build your private spending reports. Delete everything anytime with /delete."
          ++ nl ++ nl ++ s! "Reply ok (or " ++ quot ++ s! "agree" ++ quot
          ++ s! ") to start, or /privacy to see how data is used."
  end.

Definition welcome_text (locale : Locale) : rstr :=
  match locale with
  | Vi => s! "Cảm ơn bạn! Từ giờ bạn có thể:" ++ nl ++ nl
          ++ s! "• Gửi ảnh hóa đơn để tôi đọc và ghi nhận." ++ nl ++ s! "• Nhập nhanh: " ++ quot
          ++ s! "an sang 500k" ++ quot ++ s! ", " ++ quot ++ s! "cafe 45k" ++ quot ++ s! "." ++ nl
          ++ s! "• Xem tổng hợp: /today, /week, /month." ++ nl
          ++ s! "• Đổi ngôn ngữ: /lang en hoặc /lang vi." ++ nl
          ++ s! "• Xem múi giờ, tiền tệ và lịch tổng kết bằng /settings." ++ nl ++ nl
          ++ s! "Gõ /help để xem tất cả lệnh."
  | En => s! "Thanks! You can now:" ++ nl ++ nl
          ++ s! "• Send a receipt photo for me to read and log." ++ nl ++ s! "• Quick entry: "
          ++ quot ++ s! "lunch 500k" ++ quot ++ s! ", " ++ quot ++ s! "coffee 45k" ++ quot ++ s! "."
          ++ nl ++ s! "• Summaries: /today, /week, /month." ++ nl
          ++ s! "• Language: /lang en or /lang vi." ++ nl
          ++ s! "• Timezone, currency, and schedules via /settings." ++ nl ++ nl
          ++ s! "Type /help for all commands."
  end.

Definition privacy_text (locale : Locale) (retention_days : Z) : rstr :=
  match locale with
  | Vi => s! "Cách tôi dùng dữ liệu của bạn:" ++ nl ++ nl
          ++ s! "• Ảnh hóa đơn chỉ dùng để đọc thông tin giao dịch; ảnh gốc được xóa sau "
          ++ dec retention_days ++ s! " ngày." ++ nl
          ++ s! "• Giao dịch đã ghi nhận được lưu để tổng hợp báo cáo chi tiêu cho riêng bạn." ++ nl
          ++ nl ++ s! "Gửi /export để tải về toàn bộ dữ liệu, /delete để xóa vĩnh viễn."
  | En => s! "How I use your data:" ++ nl ++ nl
          ++ s! "• Receipt images are only used to read transaction fields; originals are deleted after "
          ++ dec retention_days ++ s! " days." ++ nl
          ++ s! "• Confirmed transactions are kept so I can build your private spending reports."
          ++ nl ++ nl
          ++ s! "Send /export to download everything, or /delete to erase it permanently."
  end.

Definition help_text (locale : Locale) : rstr :=
  match locale with
  | Vi => s! "Tôi có thể giúp bạn:" ++ nl ++ nl
          ++ s! "• Gửi ảnh hóa đơn — tôi đọc và gửi thẻ xác nhận." ++ nl ++ s! "• Nhập nhanh: "
          ++ quot ++ s! "an sang 500k" ++ quot ++ s! ", " ++ quot ++ s! "cafe 45k" ++ quot ++ s! "."
          ++ nl ++ nl ++ s! "Khi có thẻ xác nhận (chưa ok):" ++ nl
          ++ s! "• sua 45k / edit 45000 — sửa số tiền" ++ nl
          ++ s! "• sua cua hang X / edit merchant X — sửa cửa hàng" ++ nl
          ++ s! "• sua danh muc an-uong / edit category Food — sửa danh mục" ++ nl
          ++ s! "• sua ngay 20/08/2026 / edit date 2026-08-20 — sửa ngày" ++ nl
          ++ s! "• sua loai chi|thu / edit type expense|income — sửa loại" ++ nl
          ++ s! "• ok / y — lưu · no / n — hủy" ++ nl ++ nl ++ s! "Sau khi đã lưu:" ++ nl
          ++ s! "• /recat an-uong hoặc " ++ quot ++ s! "phan loai Food" ++ quot
          ++ s! " — đổi danh mục khoản gần nhất" ++ nl ++ s! "• /categories — xem danh mục" ++ nl
          ++ nl ++ s! "Lệnh:" ++ nl ++ s! "/help · /today · /week · /month · /recent" ++ nl
          ++ s! "/settings · /tz Asia/Ho_Chi_Minh · /sched" ++ nl
          ++ s! "/export · /delete · /privacy" ++ nl ++ s! "/lang en | /lang vi — đổi ngôn ngữ"
          ++ nl ++ s! "/categories · /recat <danh-muc>"
  | En => s! "I can help you:" ++ nl ++ nl
          ++ s! "• Send a receipt photo — I read it and send a review card." ++ nl
          ++ s! "• Quick entry: " ++ quot ++ s! "lunch 500k" ++ quot ++ s! ", " ++ quot
          ++ s! "coffee 45k" ++ quot ++ s! "." ++ nl ++ nl
          ++ s! "While a review card is open (before ok):" ++ nl
          ++ s! "• edit 45000 / sua 45k — change amount" ++ nl
          ++ s! "• edit merchant X / sua cua hang X — change merchant" ++ nl
          ++ s! "• edit category Food / sua danh muc an-uong — change category" ++ nl
          ++ s! "• edit date 2026-08-20 / sua ngay 20/08/2026 — change date" ++ nl
          ++ s! "• edit type expense|income / sua loai chi|thu — change type" ++ nl
          ++ s! "• ok / y — save · no / n — discard" ++ nl ++ nl ++ s! "After saving:" ++ nl
          ++ s! "• /recat Food or " ++ quot ++ s! "phan loai an-uong" ++ quot
          ++ s! " — recategorize the latest expense" ++ nl ++ s! "• /categories — list categories"
          ++ nl ++ nl ++ s! "Commands:" ++ nl ++ s! "/help · /today · /week · /month · /recent"
          ++ nl ++ s! "/settings · /tz Asia/Ho_Chi_Minh · /sched" ++ nl
          ++ s! "/export · /delete · /privacy" ++ nl ++ s! "/lang en | /lang vi — switch language"
          ++ nl ++ s! "/categories · /recat <category>"
  end.

Definition unknown_text (locale : Locale) : rstr :=
  match locale with
  | Vi => s! "Tôi chưa hiểu tin nhắn này. Gõ /help để xem cách dùng, hoặc nhập một khoản như "
          ++ quot ++ s! "an sang 500k" ++ quot ++ s! "."
  | En => s! "I didn't understand that. Type /help for usage, or enter something like " ++ quot
          ++ s! "coffee 45k" ++ quot ++ s! "."
  end.

Definition pending_expired_text (locale : Locale) : rstr :=
  match locale with
  | Vi => s! "Yêu cầu trước đó đã hết hạn. Bạn gửi lại ảnh hoặc nhập lại nhé."
  | En => s! "That confirmation expired. Please send the receipt or entry again."
  end.

Definition discarded_text (locale : Locale) : rstr :=
  match locale with
  | Vi => s! "Đã bỏ qua, không ghi nhận khoản này."
  | En => s! "Discarded — this expense was not saved."
  end.

Definition confirmed_text (locale : Locale) (amount : rstr) (merchant : rstr) (category : rstr) : rstr :=
  match locale with
  | Vi => s! "Đã ghi nhận: " ++ amount ++ s! " tại " ++ merchant ++ s! " (" ++ category ++ s! ")."
  | En => s! "Saved: " ++ amount ++ s! " at " ++ merchant ++ s! " (" ++ category ++ s! ")."
  end.

Definition manual_confirmation_card (locale : Locale) (merchant : rstr) (amount : rstr) (date : rstr) (type_label : rstr) (category : rstr) : rstr :=
  match locale with
  | Vi => s! "Tôi đọc được:" ++ nl ++ nl ++ s! "Cửa hàng: " ++ merchant ++ nl ++ s! "Số tiền: "
          ++ amount ++ nl ++ s! "Ngày: " ++ date ++ nl ++ s! "Loại: " ++ type_label ++ nl
          ++ s! "Danh mục: " ++ category ++ nl ++ nl ++ s! "Trả lời: ok / y để lưu · no / n để hủy"
          ++ nl
          ++ s! "Sửa: sua 45k · sua cua hang X · sua danh muc an-uong · sua ngay 20/08/2026 · sua loai chi|thu"
          ++ nl ++ s! "(EN: edit amount/merchant/category/date/type)"
  | En => s! "I read:" ++ nl ++ nl ++ s! "Merchant: " ++ merchant ++ nl ++ s! "Amount: " ++ amount
          ++ nl ++ s! "Date: " ++ date ++ nl ++ s! "Type: " ++ type_label ++ nl ++ s! "Category: "
          ++ category ++ nl ++ nl ++ s! "Reply: ok / y to save · no / n to discard" ++ nl
          ++ s! "Edit: edit 45000 · edit merchant X · edit category Food · edit date 2026-08-20 · edit type expense|income"
          ++ nl ++ s! "(VN: sua …)"
  end.

Definition empty_summary_text (locale : Locale) (period_label : rstr) : rstr :=
  match locale with
  | Vi => period_label
          ++ s! ": chưa có khoản chi tiêu nào được ghi nhận. Gửi ảnh hóa đơn hoặc nhập: " ++ quot
          ++ s! "an sang 500k" ++ quot ++ s! "."
  | En => period_label ++ s! ": no expenses logged yet. Send a receipt photo or type: " ++ quot
          ++ s! "coffee 45k" ++ quot ++ s! "."
  end.

Definition today_summary_text (locale : Locale) (label : rstr) (currency : rstr) (total_minor : Z) : rstr :=
  let amount := format_minor total_minor currency in
  match locale with
  | Vi => label ++ s! " — chi tiêu đã ghi nhận:" ++ nl ++ nl ++ s! "Tổng: " ++ amount
  | En => label ++ s! " — logged spending:" ++ nl ++ nl ++ s! "Total: " ++ amount
  end.

Definition period_summary_text (locale : Locale) (label : rstr) (currency : rstr) (total_minor : Z)
    (categories : list (rstr * Z)) : rstr :=
  today_summary_text locale label currency total_minor
  ++ concat (map (fun p => nl ++ s! "• " ++ p.1 ++ s! ": " ++ format_minor p.2 currency)
               (take 3 categories)).

Definition settings_text (locale : Locale) (timezone currency : rstr) (schedules : list ScheduleLine)
    : rstr :=
  let active := List.filter sl_enabled schedules in
  match locale with
  | Vi => s! "Cài đặt của bạn:" ++ nl ++ nl
          ++ s! "• Múi giờ: " ++ timezone ++ nl ++ s! "• Tiền tệ mặc định: " ++ currency ++ nl
          ++ s! "• Tổng kết tự động: "
  | En => s! "Your settings:" ++ nl ++ nl
          ++ s! "• Timezone: " ++ timezone ++ nl ++ s! "• Default currency: " ++ currency ++ nl
          ++ s! "• Scheduled summaries: "
  end
  ++ match active with
     | [] => match locale with Vi => s! "chưa bật" | En => s! "off" end
     | _ => join (s! ",") (map (fun line => s! " " ++ schedule_frequency_label locale (sl_frequency line)
                                             ++ s! " " ++ clock_text (sl_delivery_minute line)) active)
     end
  ++ match locale with
     | Vi => nl ++ nl ++ s! "Thay đổi:" ++ nl ++ s! "/tz Asia/Ho_Chi_Minh" ++ nl
             ++ s! "/sched daily 20:00" ++ nl ++ s! "/lang en"
     | En => nl ++ nl ++ s! "Change:" ++ nl ++ s! "/tz Asia/Ho_Chi_Minh" ++ nl
             ++ s! "/sched daily 20:00" ++ nl ++ s! "/lang vi"
     end.

Definition settings_updated_text (locale : Locale) (label value timezone currency : rstr)
    (schedules : list ScheduleLine) : rstr :=
  match locale with
  | Vi => s! "Đã cập nhật " ++ label ++ s! ": " ++ value ++ s! "." ++ nl ++ nl
          ++ settings_text locale timezone currency schedules
  | En => s! "Updated " ++ label ++ s! ": " ++ value ++ s! "." ++ nl ++ nl
          ++ settings_text locale timezone currency schedules
  end.

Definition language_updated_text (locale : Locale) : rstr :=
  match locale with
  | Vi => s! "Đã chuyển sang tiếng Việt. Gõ /help để xem hướng dẫn."
  | En => s! "Switched to English. Type /help for instructions."
  end.

Definition invalid_timezone_text (locale : Locale) : rstr :=
  match locale with
  | Vi => s! "Múi giờ không hợp lệ. Hãy dùng tên IANA, ví dụ Asia/Ho_Chi_Minh, Asia/Bangkok hoặc UTC."
  | En => s! "Invalid timezone. Use an IANA name like Asia/Ho_Chi_Minh, Asia/Bangkok, or UTC."
  end.

Definition invalid_settings_text (locale : Locale) : rstr :=
  match locale with
  | Vi => s! "Cú pháp chưa đúng. Dùng /settings để xem, /tz Asia/Ho_Chi_Minh để thay đổi múi giờ."
  | En => s! "Invalid syntax. Use /settings to view, /tz Asia/Ho_Chi_Minh to change timezone."
  end.

Definition schedule_text (locale : Locale) (schedules : list ScheduleLine) : rstr :=
  let active := List.filter sl_enabled schedules in
  match locale with Vi => s! "Tổng kết tự động:" ++ nl | En => s! "Scheduled summaries:" ++ nl end
  ++ match active with
     | [] => match locale with
             | Vi => s! "• Chưa bật lịch nào." ++ nl
             | En => s! "• No schedules enabled." ++ nl
             end
     | _ => concat (map (fun line => s! "• " ++ schedule_frequency_label locale (sl_frequency line)
                                     ++ s! " lúc " ++ clock_text (sl_delivery_minute line) ++ nl) active)
     end
  ++ match locale with
     | Vi => nl ++ s! "Cài đặt:" ++ nl ++ s! "/sched daily 20:00" ++ nl ++ s! "/sched weekly 08:00" ++ nl
             ++ s! "/sched monthly 09:00" ++ nl ++ s! "/sched off daily — tắt một lịch" ++ nl
             ++ s! "/sched off — tắt tất cả"
     | En => nl ++ s! "Setup:" ++ nl ++ s! "/sched daily 20:00" ++ nl ++ s! "/sched weekly 08:00" ++ nl
             ++ s! "/sched monthly 09:00" ++ nl ++ s! "/sched off daily — disable one" ++ nl
             ++ s! "/sched off — disable all"
     end.

Definition schedule_set_text (locale : Locale) (frequency : rstr) (delivery_minute : Z) : rstr :=
  match locale with
  | Vi => s! "Đã bật tổng kết " ++ schedule_frequency_label locale frequency ++ s! " lúc "
          ++ clock_text delivery_minute ++ s! "."
  | En => s! "Enabled " ++ schedule_frequency_label locale frequency ++ s! " summary at "
          ++ clock_text delivery_minute ++ s! "."
  end.

Definition schedule_disabled_text (locale : Locale) (frequency : option rstr) : rstr :=
  match locale, frequency with
  | Vi, Some f => s! "Đã tắt tổng kết " ++ schedule_frequency_label locale f ++ s! "."
  | Vi, None => s! "Đã tắt tất cả lịch tổng kết."
  | En, Some f => s! "Disabled " ++ schedule_frequency_label locale f ++ s! " summary."
  | En, None => s! "Disabled all scheduled summaries."
  end.

Definition schedule_invalid_text (locale : Locale) : rstr :=
  match locale with
  | Vi => s! "Cú pháp chưa đúng. Ví dụ: /sched daily 20:00, /sched weekly 08:00, hoặc /sched off."
  | En => s! "Invalid syntax. Examples: /sched daily 20:00, /sched weekly 08:00, or /sched off."
  end.

Definition delete_confirm_text (locale : Locale) (expense_count : Z) : rstr :=
  match locale with
  | Vi => s! "Bạn sắp xóa toàn bộ dữ liệu (" ++ dec expense_count
          ++ s! " khoản chi). Trả lời ok để xác nhận, no để hủy. Không thể hoàn tác."
  | En => s! "You are about to delete all data (" ++ dec expense_count
          ++ s! " expenses). Reply ok to confirm, no to cancel. This cannot be undone."
  end.

Definition delete_accepted_text (locale : Locale) (expense_count : Z) : rstr :=
  match locale with
  | Vi => s! "Đã nhận yêu cầu xóa (" ++ dec expense_count
          ++ s! " khoản chi). Dữ liệu sẽ được gỡ trong ít phút."
  | En => s! "Deletion requested (" ++ dec expense_count
          ++ s! " expenses). Data will be removed shortly."
  end.

Definition delete_cancelled_text (locale : Locale) : rstr :=
  match locale with
  | Vi => s! "Đã hủy yêu cầu xóa dữ liệu."
  | En => s! "Account deletion cancelled."
  end.

Definition export_accepted_text (locale : Locale) : rstr :=
  match locale with
  | Vi => s! "Đã ghi nhận yêu cầu xuất dữ liệu. File sẽ được giao qua kênh quản trị viên, không gửi đường dẫn trong chat."
  | En => s! "Export requested. The file will be delivered via an admin channel — no paths in chat."
  end.

Definition recent_line (locale : Locale) (line : RecentExpenseLine) : rstr :=
  let amount := format_minor (re_amount_minor line) (re_currency line) in
  let prefix := match re_type_label line with
                | Some t => if str_eqb t (transaction_type_label locale (s! "expense")) then []
                            else s! "[" ++ t ++ s! "] "
                | None => []
                end in
  prefix ++ re_date_display line ++ s! " · " ++ amount ++ s! " · " ++ re_merchant line
  ++ s! " · " ++ re_category_display line ++ nl.

Definition recent_text (locale : Locale) (lines : list RecentExpenseLine) : rstr :=
  match lines with
  | [] => no_recent_text locale
  | _ => trim_end (match locale with
                   | Vi => s! "Các khoản gần đây:" ++ nl
                   | En => s! "Recent expenses:" ++ nl
                   end ++ concat (map (recent_line locale) lines))
  end.

Definition default_category_display (locale : Locale) : rstr :=
  match locale with
  | Vi => s! "Khác"
  | En => s! "Other"
  end.

Definition categories_list_text (locale : Locale) (body : rstr) : rstr :=
  match locale with
  | Vi => s! "Danh mục (dùng key hoặc tên):" ++ nl ++ body ++ nl ++ nl
          ++ s! "Ví dụ khi đang xác nhận: sua danh muc an-uong" ++ nl
          ++ s! "Sau khi lưu: /recat an-uong"
  | En => s! "Categories (use key or name):" ++ nl ++ body ++ nl ++ nl
          ++ s! "While reviewing: edit category Food" ++ nl ++ s! "After save: /recat Food"
  end.

Definition invalid_category_text (locale : Locale) (body : rstr) : rstr :=
  match locale with
  | Vi => s! "Không nhận ra danh mục đó." ++ nl ++ nl ++ body
  | En => s! "I don't recognize that category." ++ nl ++ nl ++ body
  end.

Definition invalid_edit_text (locale : Locale) : rstr :=
  match locale with
  | Vi => s! "Cú pháp sửa chưa đúng. Ví dụ: sua 45k · sua danh muc an-uong · sua cua hang X · sua ngay 20/08/2026 · sua loai chi"
  | En => s! "Invalid edit. Examples: edit 45000 · edit category Food · edit merchant X · edit date 2026-08-20 · edit type expense"
  end.

Definition invalid_language_text (locale : Locale) : rstr :=
  match locale with
  | Vi => s! "Dùng /lang vi hoặc /lang en."
  | En => s! "Use /lang vi or /lang en."
  end.

Definition recategorized_text (locale : Locale) (merchant : rstr) (category : rstr) : rstr :=
  match locale with
  | Vi => s! "Đã đổi danh mục khoản gần nhất (" ++ merchant ++ s! ") → " ++ category ++ s! "."
  | En => s! "Updated latest expense (" ++ merchant ++ s! ") → " ++ category ++ s! "."
  end.

Definition no_expense_to_recategorize_text (locale : Locale) : rstr :=
  match locale with
  | Vi => s! "Chưa có khoản đã lưu để đổi danh mục. Ghi nhận một khoản trước đã."
  | En => s! "No saved expense to recategorize yet. Log one first."
  end.

Definition image_received_text (locale : Locale) : rstr :=
  match locale with
  | Vi => s! "Đã nhận ảnh hóa đơn. Tôi sẽ đọc và gửi lại để bạn xác nhận."
  | En => s! "Got the receipt photo. I'll read it and send a confirmation card."
  end.

Definition daily_receipt_quota_text (locale : Locale) : rstr :=
  match locale with
  | Vi => s! "Bạn đã đạt giới hạn hóa đơn hôm nay. Mai gửi tiếp nhé."
  | En => s! "You've hit today's receipt limit. Try again tomorrow."
  end.

Definition extraction_kill_switch_text (locale : Locale) : rstr :=
  match locale with
  | Vi => s! "Trích xuất hóa đơn đang tạm tắt."
  | En => s! "Receipt extraction is temporarily disabled."
  end.

Definition extraction_failed_text (locale : Locale) : rstr :=
  match locale with
  | Vi => s! "Tôi chưa đọc được hóa đơn này. Bạn gửi lại ảnh rõ hơn, hoặc nhập tay kiểu " ++ quot
          ++ s! "cafe 45k" ++ quot ++ s! " nhé."
  | En => s! "I couldn't read that receipt. Send a clearer photo, or type something like " ++ quot
          ++ s! "coffee 45k" ++ quot ++ s! "."
  end.

Definition extraction_unsupported_text (locale : Locale) : rstr :=
  match locale with
  | Vi => s! "Ảnh này không giống hóa đơn. Gửi lại ảnh hóa đơn, hoặc nhập tay kiểu " ++ quot
          ++ s! "cafe 45k" ++ quot ++ s! "."
  | En => s! "That doesn't look like a receipt. Send a receipt photo, or type " ++ quot
          ++ s! "coffee 45k" ++ quot ++ s! "."
  end.

Definition default_type_label (locale : Locale) : rstr := transaction_type_label locale (s! "expense").

Definition period_label_today (locale : Locale) : rstr :=
  match locale with
  | Vi => s! "Hôm nay"
  | En => s! "Today"
  end.

Definition period_label_week (locale : Locale) : rstr :=
  match locale with
  | Vi => s! "Tuần này"
  | En => s! "This week"
  end.

Definition period_label_month (locale : Locale) : rstr :=
  match locale with
  | Vi => s! "Tháng này"
  | En => s! "This month"
  end.

Definition settings_label_timezone (locale : Locale) : rstr :=
  match locale with
  | Vi => s! "múi giờ"
  | En => s! "timezone"
  end.

End WithUnicode.
End Templates.
