(* ===== verification/Conversation.v ===== *)
(** * Intents and decisions

    [src/conversation/fold.rs], [categories.rs], [parse.rs] and [decide.rs].  Case mapping,
    canonical decomposition, the calendar and the time zones are parameters.  String
    slices and list indexing panic out of range, so parsing and deciding return [run]. *)

From S2P Require Import Prelude RustStr RustStrFacts Platform Money Schedule ConvTypes Templates.

Module Conversation.
Import Conv Money Amount Templates.

(** ** [fold.rs] *)

Section Fold.
Context `{U : UnicodeCase, UN : UnicodeNorm}.

Definition fold (s : rstr) : rstr :=
  let lowered := to_lowercase (trim s) in
  let stripped := List.filter (fun c => negb (is_combining_mark c)) (nfd lowered) in
  let stripped := replace_char stripped (c! "đ") (s! "d") in
  join (s! " ") (split_whitespace stripped).

Definition command_punctuation (c : Z) : bool :=
  existsb (Z.eqb c) [c! "."; c! ","; c! "!"; c! "?"; c! "…"; c! ";"; c! ":"].

Definition trim_command_punctuation (s : rstr) : rstr :=
  trim (trim_matches command_punctuation (trim s)).

(** ** [categories.rs] *)

Record CategoryDef := { key : rstr; name_vi : rstr; name_en : rstr }.

Definition CATEGORIES : list CategoryDef := [
  {| key := s! "an-uong"; name_vi := s! "Ăn uống"; name_en := s! "Food & drink" |};
  {| key := s! "thuc-pham"; name_vi := s! "Thực phẩm"; name_en := s! "Groceries" |};
  {| key := s! "di-lai"; name_vi := s! "Đi lại"; name_en := s! "Transport" |};
  {| key := s! "hoa-don"; name_vi := s! "Hóa đơn"; name_en := s! "Bills" |};
  {| key := s! "mua-sam"; name_vi := s! "Mua sắm"; name_en := s! "Shopping" |};
  {| key := s! "suc-khoe"; name_vi := s! "Sức khỏe"; name_en := s! "Health" |};
  {| key := s! "giai-tri"; name_vi := s! "Giải trí"; name_en := s! "Entertainment" |};
  {| key := s! "giao-duc"; name_vi := s! "Giáo dục"; name_en := s! "Education" |};
  {| key := s! "nha-o"; name_vi := s! "Nhà ở"; name_en := s! "Housing" |};
  {| key := s! "thu-nhap"; name_vi := s! "Thu nhập"; name_en := s! "Income" |};
  {| key := s! "hoan-tien"; name_vi := s! "Hoàn tiền"; name_en := s! "Refund" |};
  {| key := s! "chuyen-khoan"; name_vi := s! "Chuyển khoản"; name_en := s! "Transfer" |};
  {| key := s! "khac"; name_vi := s! "Khác"; name_en := s! "Other" |} ].

Definition category_name (locale : Locale) (c : CategoryDef) : rstr :=
  match locale with Vi => name_vi c | En => name_en c end.

Definition category_display (locale : Locale) (k : rstr) : rstr :=
  match List.find (fun c => str_eqb (key c) k) CATEGORIES with
  | Some c => category_name locale c
  | None => k
  end.

(** [replace("  ", " ")]: non-overlapping, from the left. *)
Fixpoint replace_double_space (s : rstr) : rstr :=
  match s with
  | 32 :: 32 :: s' => 32 :: replace_double_space s'
  | c :: s' => c :: replace_double_space s'
  | [] => []
  end.

Definition first_word (s : rstr) : rstr := hd [] (split_whitespace s).

Definition same_name (folded : rstr) (c : CategoryDef) : bool :=
  str_eqb folded (fold (key c)) || str_eqb folded (fold (name_vi c)) || str_eqb folded (fold (name_en c))
  || str_eqb folded (fold (replace_char (name_en c) (c! "&") (s! "and"))).
Definition same_plain_name (folded : rstr) (c : CategoryDef) : bool :=
  str_eqb folded (fold (replace_double_space (replace_char (name_en c) (c! "&") (s! " ")))).
Definition same_first_word (folded : rstr) (c : CategoryDef) : bool :=
  (3 <=? blen folded)
  && (str_eqb folded (first_word (fold (name_en c))) || str_eqb folded (first_word (fold (name_vi c)))).

Definition resolve_category_key (input : rstr) : option rstr :=
  let raw := trim input in
  if is_empty raw then None
  else
    let folded := fold raw in
    match List.find (same_name folded) CATEGORIES with
    | Some c => Some (key c)
    | None =>
        match List.find (same_plain_name folded) CATEGORIES with
        | Some c => Some (key c)
        | None =>
            match List.find (same_first_word folded) CATEGORIES with
            | Some c => Some (key c)
            | None => None
            end
        end
    end.

Definition format_category_list (locale : Locale) : rstr :=
  join nl (map (fun c => s! "• " ++ key c ++ s! " — " ++ category_name locale c) CATEGORIES).

End Fold.

(** ** [parse.rs] *)

Inductive IntentKind :=
| KNone | Start | Confirm | Discard | Help | Privacy | Today | Week | Month | Recent | Settings
| Timezone | ScheduleIntent | Export | Delete | ManualEntry | EditAmount | EditMerchant
| EditCategory | EditDate | EditType | ListCategories | RecategorizeLatestIntent | SetLanguage.

#[export] Instance IntentKind_eq_dec : EqDecision IntentKind.
Proof. solve_decision. Defined.

Record Intent := {
  kind : IntentKind;
  i_amount_minor : Z;
  i_currency : rstr;
  i_description : rstr;
  i_amount_text : rstr;
  i_timezone : rstr;
  i_schedule_frequency : rstr;
  i_delivery_minute : Z;
  i_disable_all_schedules : bool;
  i_disable_schedule : bool;
  i_merchant : rstr;
  i_category_key : rstr;
  i_transaction_type : rstr;
  i_occurred_on : option Z;
  i_locale : rstr;
}.

(** [empty_fields_with]; [none], [of] and [empty_fields] are instances of it. *)
Definition of_kind (k : IntentKind) : Intent := {|
  kind := k; i_amount_minor := 0; i_currency := []; i_description := []; i_amount_text := [];
  i_timezone := []; i_schedule_frequency := []; i_delivery_minute := 0;
  i_disable_all_schedules := false; i_disable_schedule := false; i_merchant := [];
  i_category_key := []; i_transaction_type := []; i_occurred_on := None; i_locale := [] |}.

(** The struct updates [Intent { field: .., ..Intent::empty_fields() }]. *)
Definition amount_intent (k : IntentKind) (minor : Z) (currency description text : rstr) : Intent := {|
  kind := k; i_amount_minor := minor; i_currency := currency; i_description := description;
  i_amount_text := text; i_timezone := []; i_schedule_frequency := []; i_delivery_minute := 0;
  i_disable_all_schedules := false; i_disable_schedule := false; i_merchant := [];
  i_category_key := []; i_transaction_type := []; i_occurred_on := None; i_locale := [] |}.
Definition timezone_intent (tz : rstr) : Intent := {|
  kind := Timezone; i_amount_minor := 0; i_currency := []; i_description := []; i_amount_text := [];
  i_timezone := tz; i_schedule_frequency := []; i_delivery_minute := 0;
  i_disable_all_schedules := false; i_disable_schedule := false; i_merchant := [];
  i_category_key := []; i_transaction_type := []; i_occurred_on := None; i_locale := [] |}.
Definition schedule_intent (frequency : rstr) (minute : Z) (disable_all disable : bool) : Intent := {|
  kind := ScheduleIntent; i_amount_minor := 0; i_currency := []; i_description := [];
  i_amount_text := []; i_timezone := []; i_schedule_frequency := frequency; i_delivery_minute := minute;
  i_disable_all_schedules := disable_all; i_disable_schedule := disable; i_merchant := [];
  i_category_key := []; i_transaction_type := []; i_occurred_on := None; i_locale := [] |}.
Definition field_intent (k : IntentKind) (merchant category_key description transaction_type locale : rstr)
    (occurred_on : option Z) : Intent := {|
  kind := k; i_amount_minor := 0; i_currency := []; i_description := description; i_amount_text := [];
  i_timezone := []; i_schedule_frequency := []; i_delivery_minute := 0;
  i_disable_all_schedules := false; i_disable_schedule := false; i_merchant := merchant;
  i_category_key := category_key; i_transaction_type := transaction_type; i_occurred_on := occurred_on;
  i_locale := locale |}.

Definition SLASH_COMMANDS : list (rstr * IntentKind) := [
  (s! "start", Start); (s! "batdau", Start); (s! "xinchao", Start); (s! "help", Help);
  (s! "trogiup", Help); (s! "privacy", Privacy); (s! "consent", Privacy); (s! "today", Today);
  (s! "homnay", Today); (s! "week", Week); (s! "tuan", Week); (s! "month", Month);
  (s! "thang", Month); (s! "recent", Recent); (s! "history", Recent); (s! "ganday", Recent);
  (s! "export", Export); (s! "xuatdulieu", Export); (s! "delete", Delete); (s! "xoadulieu", Delete);
  (s! "ok", Confirm); (s! "y", Confirm); (s! "no", Discard); (s! "n", Discard);
  (s! "categories", ListCategories); (s! "danhmuc", ListCategories); (s! "cats", ListCategories);
  (s! "recat", RecategorizeLatestIntent) ].

Definition CONFIRM_WORDS : list rstr := [
  s! "xac nhan"; s! "dung"; s! "dung roi"; s! "dong y"; s! "ok"; s! "okay"; s! "yes"; s! "y"; s! "co";
  s! "confirm" ].
Definition DISCARD_WORDS : list rstr := [
  s! "bo qua"; s! "huy"; s! "khong"; s! "skip"; s! "thoi"; s! "no"; s! "n"; s! "discard" ].
Definition EDIT_PHRASES : list rstr := [ s! "edit"; s! "fix"; s! "sua so tien"; s! "sai so tien" ].
Definition HELP_WORDS : list rstr := [ s! "help"; s! "giup"; s! "huong dan"; s! "tro giup" ].

(** [slice.contains(&s)]. *)
Definition one_of (s : rstr) (words : list rstr) : bool := existsb (str_eqb s) words.
Definition confirm_words (s : rstr) : bool := one_of s CONFIRM_WORDS.
Definition discard_words (s : rstr) : bool := one_of s DISCARD_WORDS.
Definition matches_slash_name (folded : rstr) (names : list rstr) : bool := one_of folded names.

Definition has_word (folded needle : rstr) : bool :=
  contains (s! " " ++ folded ++ s! " ") (s! " " ++ needle ++ s! " ").

Definition is_explicit_slash_command (k : IntentKind) : bool :=
  match k with
  | Start | Help | Today | Week | Month | Recent | Privacy | Settings | Timezone | ScheduleIntent
  | Export | Delete | ListCategories | SetLanguage | RecategorizeLatestIntent => true
  | _ => false
  end.

Definition parse_schedule_frequency (text : rstr) : option rstr :=
  if one_of text [s! "daily"; s! "ngay"] then Some (s! "daily")
  else if one_of text [s! "weekly"; s! "tuan"] then Some (s! "weekly")
  else if one_of text [s! "monthly"; s! "thang"] then Some (s! "monthly")
  else None.

Definition parse_delivery_minute (token : rstr) : option Z :=
  match split_char token (c! ":") with
  | [h; m] =>
      match parse_i32 h with
      | None => None
      | Some hour =>
          match parse_i32 m with
          | None => None
          | Some minute =>
              if negb ((0 <=? hour) && (hour <=? 23)) || negb ((0 <=? minute) && (minute <=? 59)) then None
              else Some (hour * 60 + minute)
          end
      end
  | _ => None
  end.

(** [&fields[1..]] and [fields[i]]. *)
Definition tail (fields : list rstr) : run (list rstr) :=
  match fields with [] => Panic | _ :: t => Ret t end.
Definition index (fields : list rstr) (i : nat) : run rstr := expect (nth_error fields i).

Definition parse_language_intent (folded_fields : list rstr) : option Intent :=
  match folded_fields with
  | [_] => Some (of_kind SetLanguage)
  | [_; l] =>
      if one_of l [s! "vi"; s! "vn"; s! "vie"; s! "vietnamese"]
      then Some (field_intent SetLanguage [] [] [] [] (Locale.as_account_value Vi) None)
      else if one_of l [s! "en"; s! "eng"; s! "english"]
      then Some (field_intent SetLanguage [] [] [] [] (Locale.as_account_value En) None)
      else Some (of_kind SetLanguage)
  | _ => None
  end.

(** The value at [value_at], when there is one, as a time zone. *)
Definition timezone_at (raw_fields : list rstr) (value_at : nat) : option Intent :=
  match nth_error raw_fields value_at with
  | None => None
  | Some tz => Some (timezone_intent tz)
  end.

Definition parse_timezone_intent (raw_fields folded_fields : list rstr) : option Intent :=
  match folded_fields with
  | [f; _] => if matches_slash_name f [s! "tz"; s! "timezone"; s! "muigio"]
              then timezone_at raw_fields 1 else None
  | [f; g; _] => if str_eqb f (s! "mui") && str_eqb g (s! "gio") then timezone_at raw_fields 2 else None
  | _ => None
  end.

Definition parse_settings_intent (raw_fields folded_fields : list rstr) : option Intent :=
  match folded_fields with
  | [] => None
  | [_] => Some (of_kind Settings)
  | [f; _] => if one_of f [s! "tz"; s! "timezone"; s! "muigio"] then timezone_at raw_fields 1 else None
  | [f; g; _] => if str_eqb f (s! "mui") && str_eqb g (s! "gio") then timezone_at raw_fields 2 else None
  | _ => None
  end.

(** [parse_schedule_intent] after the command word. *)
Definition parse_schedule_fields (raw_fields folded_fields : list rstr) : run (option Intent) :=
  match folded_fields with
  | [] => Ret (Some (of_kind ScheduleIntent))
  | f :: rest =>
      if matches_slash_name f [s! "off"; s! "tat"] then
        match rest with
        | [] => Ret (Some (schedule_intent [] 0 true false))
        | [g] =>
            if matches_slash_name g [s! "all"; s! "ca"] then Ret (Some (schedule_intent [] 0 true false))
            else match parse_schedule_frequency g with
                 | None => Ret None
                 | Some fr => Ret (Some (schedule_intent fr 0 false true))
                 end
        | _ => Ret None
        end
      else match rest with
      | [_] =>
          match parse_schedule_frequency f with
          | None => Ret None
          | Some frequency =>
              let! token := index raw_fields 1 in
              match parse_delivery_minute token with
              | None => Ret None
              | Some minute => Ret (Some (schedule_intent frequency minute false false))
              end
          end
      | _ => Ret None
      end
  end.

Definition parse_schedule_intent (raw_fields folded_fields : list rstr) : run (option Intent) :=
  let! head := index folded_fields 0 in
  let! (raw_fields, folded_fields) :=
    (if matches_slash_name head [s! "sched"; s! "tongket"] then
       let! r := tail raw_fields in
       let! f := tail folded_fields in
       Ret (r, f)
     else Ret (raw_fields, folded_fields)) in
  parse_schedule_fields raw_fields folded_fields.

Section Parse.
Context `{U : UnicodeCase, UN : UnicodeNorm, CH : Chrono}.

Definition parse_recat_slash (raw_fields folded_fields : list rstr) : run (option Intent) :=
  if (length folded_fields <? 2)%nat then Ret (Some (of_kind RecategorizeLatestIntent))
  else
    let! r := tail raw_fields in
    let value := join (s! " ") r in
    Ret (Some (field_intent RecategorizeLatestIntent []
                 (default [] (resolve_category_key value)) value [] [] None)).

Definition parse_parameterized_slash (text : rstr) : run (option Intent) :=
  let trimmed := trim_command_punctuation text in
  let raw := trim_start_matches (Z.eqb (c! "/")) trimmed in
  let folded := fold raw in
  let raw_fields := split_whitespace raw in
  let folded_fields := split_whitespace folded in
  match folded_fields with
  | [] => Ret None
  | f :: _ =>
      if matches_slash_name f [s! "tz"; s! "timezone"; s! "muigio"]
      then Ret (parse_timezone_intent raw_fields folded_fields)
      else if matches_slash_name f [s! "settings"; s! "caidat"; s! "cai dat"]
      then Ret (parse_settings_intent raw_fields folded_fields)
      else if matches_slash_name f [s! "sched"; s! "tongket"; s! "tong ket"]
      then parse_schedule_intent raw_fields folded_fields
      else if matches_slash_name f [s! "lang"; s! "language"; s! "ngonngu"]
      then Ret (parse_language_intent folded_fields)
      else if matches_slash_name f [s! "recat"; s! "phanloai"; s! "category"]
      then parse_recat_slash raw_fields folded_fields
      else Ret None
  end.

Definition slash_command (body : rstr) : option IntentKind :=
  let body := trim_command_punctuation (trim body) in
  match List.find (fun p => str_eqb p.1 body) SLASH_COMMANDS with
  | Some (_, k) => Some k
  | None => None
  end.

Fixpoint strip_prefix_any (text : rstr) (prefixes : list rstr) : option rstr :=
  match prefixes with
  | [] => None
  | p :: ps => match strip_prefix text p with
               | Some rest => Some (trim rest)
               | None => strip_prefix_any text ps
               end
  end.

Fixpoint extract_loop (raw lowered : rstr) (keywords : list rstr) : run (option rstr) :=
  match keywords with
  | [] => Ret None
  | keyword :: ks =>
      match find lowered keyword with
      | None => extract_loop raw lowered ks
      | Some idx =>
          let! after := slice_from raw (idx + blen keyword) in
          let after := trim after in
          if negb (is_empty after) then Ret (Some after) else extract_loop raw lowered ks
      end
  end.
Definition extract_after_keywords (raw : rstr) (keywords : list rstr) : run (option rstr) :=
  extract_loop raw (to_lowercase raw) keywords.

Definition parse_date_token (token : rstr) : option Z :=
  let t := trim token in
  match parse_from_str t (s! "%Y-%m-%d") with
  | Some d => Some d
  | None =>
  match parse_from_str t (s! "%d/%m/%Y") with
  | Some d => Some d
  | None =>
  match parse_from_str t (s! "%d-%m-%Y") with
  | Some d => Some d
  | None => parse_from_str t (s! "%d/%m/%y")
  end end end.

Definition parse_transaction_type (token : rstr) : option rstr :=
  let f := fold token in
  if one_of f [s! "chi"; s! "chi tieu"; s! "expense"; s! "spend"; s! "out"] then Some (s! "expense")
  else if one_of f [s! "thu"; s! "thu nhap"; s! "income"; s! "in"] then Some (s! "income")
  else if one_of f [s! "hoan"; s! "hoan tien"; s! "refund"] then Some (s! "refund")
  else if one_of f [s! "chuyen"; s! "chuyen khoan"; s! "transfer"] then Some (s! "transfer")
  else if one_of f [s! "dieu chinh"; s! "adjustment"] then Some (s! "adjustment")
  else None.

Definition EDIT_VERBS : list rstr := [s! "sua so tien "; s! "sai so tien "; s! "sua "; s! "edit "; s! "fix "].
Definition MERCHANT_PREFIXES : list rstr :=
  [s! "cua hang "; s! "merchant "; s! "ten cua hang "; s! "shop "; s! "store "].
Definition MERCHANT_KEYWORDS : list rstr :=
  [s! "cua hang"; s! "cửa hàng"; s! "merchant"; s! "ten cua hang"; s! "shop"; s! "store"].
Definition CATEGORY_PREFIXES : list rstr := [s! "danh muc "; s! "category "; s! "cat "; s! "loai chi tieu "].
Definition DATE_PREFIXES : list rstr := [s! "ngay "; s! "date "; s! "ngày "].
Definition TYPE_PREFIXES : list rstr := [s! "loai "; s! "type "; s! "tx "].

(** The field-tagged edits and the bare amount, after the verb. *)
Definition parse_edit_rest (trimmed rest default_currency : rstr) : run (option Intent) :=
  match strip_prefix_any rest MERCHANT_PREFIXES with
  | Some value =>
      if is_empty value then Ret None
      else
        let! found := extract_after_keywords trimmed MERCHANT_KEYWORDS in
        let merchant := default value found in
        Ret (Some (field_intent EditMerchant (trim merchant) [] [] [] [] None))
  | None =>
  match strip_prefix_any rest CATEGORY_PREFIXES with
  | Some value =>
      Ret (Some (field_intent EditCategory [] (default [] (resolve_category_key value)) value [] [] None))
  | None =>
  match strip_prefix_any rest DATE_PREFIXES with
  | Some value =>
      match parse_date_token value with
      | None => Ret None
      | Some d => Ret (Some (field_intent EditDate [] [] value [] [] (Some d)))
      end
  | None =>
  match strip_prefix_any rest TYPE_PREFIXES with
  | Some value =>
      match parse_transaction_type value with
      | None => Ret None
      | Some t => Ret (Some (field_intent EditType [] [] [] t [] None))
      end
  | None =>
      let! r := parse_amount rest default_currency in
      match r with
      | Ok (minor, currency) => Ret (Some (amount_intent EditAmount minor currency [] rest))
      | Err _ => Ret None
      end
  end end end end.

Definition parse_edit_or_recat (text default_currency : rstr) : run (option Intent) :=
  let trimmed := trim_command_punctuation text in
  let folded := fold trimmed in
  if is_empty folded then Ret None
  else
  match strip_prefix_any folded [s! "phan loai "; s! "doi danh muc "; s! "recat "] with
  | Some rest =>
      Ret (Some (field_intent RecategorizeLatestIntent []
                   (default [] (resolve_category_key rest)) rest [] [] None))
  | None =>
      match strip_prefix_any folded EDIT_VERBS with
      | None => Ret None
      | Some rest =>
          if is_empty rest || one_of folded EDIT_PHRASES then Ret None
          else parse_edit_rest trimmed rest default_currency
      end
  end.

Definition manual_from_amount (token desc default_currency : rstr) : run (option Intent) :=
  let desc := trim_command_punctuation desc in
  if is_empty desc then Ret None
  else
    let! r := parse_amount token default_currency in
    match r with
    | Ok (minor, currency) => Ret (Some (amount_intent ManualEntry minor currency desc token))
    | Err _ => Ret None
    end.

Definition command_like_description (desc : rstr) : bool :=
  let f := fold desc in
  if is_empty f then false
  else if one_of f EDIT_PHRASES then true
  else if confirm_words f || discard_words f then true
  else one_of f [s! "help"; s! "today"; s! "recent"; s! "settings"; s! "sched"].

(** The second half of [parse_manual_entry]: the amount as the last word. *)
Definition manual_from_last (fields : list rstr) (text default_currency : rstr) : run (option Intent) :=
  let! last := index fields (length fields - 1) in
  let last_token := trim_command_punctuation last in
  let desc := match strip_suffix (trim text) last with
              | Some r => trim_command_punctuation r
              | None => []
              end in
  if command_like_description desc then Ret None
  else manual_from_amount last_token desc default_currency.

Definition parse_manual_entry (text default_currency : rstr) : run (option Intent) :=
  let fields := split_whitespace text in
  if (length fields <? 2)%nat then Ret None
  else
    let! first := index fields 0 in
    let first_desc := match strip_prefix (trim text) first with
                      | Some r => trim_command_punctuation r
                      | None => []
                      end in
    let! m := manual_from_amount first first_desc default_currency in
    match m with
    | Some intent =>
        if negb (command_like_description first_desc) then Ret (Some intent)
        else manual_from_last fields text default_currency
    | None => manual_from_last fields text default_currency
    end.

Definition parse_intent (text default_currency : rstr) : run Intent :=
  let trimmed := trim_command_punctuation text in
  let f := fold trimmed in
  if is_empty f then Ret (of_kind KNone)
  else if starts_with f (s! "/") then
    let body := trim_start_matches (Z.eqb (c! "/")) f in
    match slash_command body with
    | Some k => Ret (of_kind k)
    | None =>
        let! o := parse_parameterized_slash trimmed in
        match o with
        | Some intent => Ret intent
        | None => Ret (of_kind KNone)
        end
    end
  else if one_of f [s! "help"; s! "privacy"; s! "today"; s! "recent"] then
    Ret (of_kind (if str_eqb f (s! "help") then Help
                  else if str_eqb f (s! "privacy") then Privacy
                  else if str_eqb f (s! "today") then Today
                  else Recent))
  else if confirm_words f then Ret (of_kind Confirm)
  else if discard_words f then Ret (of_kind Discard)
  else
    let! o := parse_edit_or_recat trimmed default_currency in
    match o with
    | Some intent => Ret intent
    | None =>
        if has_word f (s! "lich su") || has_word f (s! "gan day") then Ret (of_kind Recent)
        else if existsb (fun word => str_eqb f word || starts_with f (word ++ s! " ")) HELP_WORDS
        then Ret (of_kind Help)
        else
          let! m := parse_manual_entry trimmed default_currency in
          match m with
          | Some intent => Ret intent
          | None => Ret (of_kind KNone)
          end
    end.

(** ** [decide.rs] *)

Definition locale (ctx : AccountContext) : Locale := Locale.parse (locale_text ctx).

Definition reply_with (body : rstr) (cmds : list DomainCommand) : ConversationOutcome :=
  {| replies := [body]; commands := cmds |}.
Definition reply_only (body : rstr) : ConversationOutcome := reply_with body [].

Definition expired_outcome (loc : Locale) (clear_pending : bool) : ConversationOutcome :=
  reply_with (pending_expired_text loc) (if clear_pending then [ClearPending] else []).

Definition is_pending_stale (p : PendingConfirmation) (now : Z) : bool :=
  (pc_expires_at p <=? now) || negb (pc_optimistic_version p =? dv_version (pc_draft p)).

(** [timezone.parse().unwrap_or(UTC)]. *)
Definition zone_or_utc (tz : rstr) : Tz := default tz_utc (parse_tz tz).

Definition format_date_vn (now : Z) (tz : rstr) : rstr :=
  fmt_vn (date_naive (to_local (zone_or_utc tz) now)).

(** [LocalResult::single]. *)
Definition single (r : LocalResult) : option Z := match r with LSingle t => Some t | _ => None end.

Definition local_date_to_utc (date : Z) (tz : rstr) (fallback_now : Z) : option Z :=
  let z := zone_or_utc tz in
  match single (from_local z (date * day + 12 * hour)) with
  | Some t => Some t
  | None => single (from_local z (date_naive (to_local z fallback_now) * day + 12 * hour))
  end.

Record DraftPatch := {
  dp_amount_minor : Z;
  dp_amount_minor_opt : option Z;
  dp_merchant : rstr;
  dp_merchant_opt : option rstr;
  dp_category_display : rstr;
  dp_category_key_opt : option rstr;
  dp_type_label : rstr;
  dp_transaction_type_opt : option rstr;
  dp_date_display : rstr;
  dp_occurred_at_opt : option Z;
}.

Definition draft_patch_from_intent (loc : Locale) (p : PendingConfirmation) (intent : Intent) (now : Z)
    (tz : rstr) : option DraftPatch :=
  let d := pc_draft p in
  let patch amount amount_opt merchant merchant_opt category category_opt label type_opt date at_opt :=
    Some {| dp_amount_minor := amount; dp_amount_minor_opt := amount_opt;
            dp_merchant := merchant; dp_merchant_opt := merchant_opt;
            dp_category_display := category; dp_category_key_opt := category_opt;
            dp_type_label := label; dp_transaction_type_opt := type_opt;
            dp_date_display := date; dp_occurred_at_opt := at_opt |} in
  match kind intent with
  | EditAmount =>
      patch (i_amount_minor intent) (Some (i_amount_minor intent)) (dv_merchant d) None
        (dv_category_display d) None (dv_type_label d) None (dv_date_display d) None
  | EditMerchant =>
      if is_empty (trim (i_merchant intent)) then None
      else patch (dv_amount_minor d) None (i_merchant intent) (Some (i_merchant intent))
             (dv_category_display d) None (dv_type_label d) None (dv_date_display d) None
  | EditCategory =>
      if is_empty (i_category_key intent) then None
      else patch (dv_amount_minor d) None (dv_merchant d) None
             (category_display loc (i_category_key intent)) (Some (i_category_key intent))
             (dv_type_label d) None (dv_date_display d) None
  | EditDate =>
      match i_occurred_on intent with
      | None => None
      | Some date =>
          match local_date_to_utc date tz now with
          | None => None
          | Some occurred_at =>
              patch (dv_amount_minor d) None (dv_merchant d) None (dv_category_display d) None
                (dv_type_label d) None (format_date_vn occurred_at tz) (Some occurred_at)
          end
      end
  | EditType =>
      if is_empty (i_transaction_type intent) then None
      else patch (dv_amount_minor d) None (dv_merchant d) None (dv_category_display d) None
             (transaction_type_label loc (i_transaction_type intent)) (Some (i_transaction_type intent))
             (dv_date_display d) None
  | _ => None
  end.

Definition invalid_edit_or_category (loc : Locale) (intent : Intent) : rstr :=
  if bool_decide (kind intent = EditCategory) then invalid_category_text loc (format_category_list loc)
  else invalid_edit_text loc.

Definition patch_card (loc : Locale) (p : PendingConfirmation) (patch : DraftPatch) : rstr :=
  manual_confirmation_card loc (dp_merchant patch)
    (format_minor (dp_amount_minor patch) (dv_currency (pc_draft p)))
    (dp_date_display patch) (dp_type_label patch) (dp_category_display patch).

Definition apply_receipt_edit (ctx : AccountContext) (p : PendingConfirmation) (intent : Intent) (now : Z)
    : ConversationOutcome :=
  let loc := locale ctx in
  match draft_patch_from_intent loc p intent now (timezone ctx) with
  | None => reply_only (invalid_edit_or_category loc intent)
  | Some patch =>
      reply_with (patch_card loc p patch)
        [EditReceiptDraft (pc_reference_id p) (pc_optimistic_version p) (dp_amount_minor_opt patch)
           (dp_merchant_opt patch) (dp_category_key_opt patch) (dp_occurred_at_opt patch)
           (dp_transaction_type_opt patch)]
  end.

Definition apply_manual_edit (ctx : AccountContext) (p : PendingConfirmation) (intent : Intent) (now : Z)
    : ConversationOutcome :=
  let loc := locale ctx in
  match draft_patch_from_intent loc p intent now (timezone ctx) with
  | None => reply_only (invalid_edit_or_category loc intent)
  | Some patch =>
      reply_with (patch_card loc p patch)
        [EditManualExpense (pc_reference_id p) (pc_optimistic_version p) (dp_amount_minor_opt patch)
           (dp_merchant_opt patch) (dp_category_key_opt patch) (dp_occurred_at_opt patch)
           (dp_transaction_type_opt patch)]
  end.

Definition reshow_card (loc : Locale) (p : PendingConfirmation) : ConversationOutcome :=
  let d := pc_draft p in
  reply_only (manual_confirmation_card loc (dv_merchant d) (format_minor (dv_amount_minor d) (dv_currency d))
                (dv_date_display d) (dv_type_label d) (dv_category_display d)).

Definition saved_text (loc : Locale) (p : PendingConfirmation) : rstr :=
  let d := pc_draft p in
  confirmed_text loc (format_minor (dv_amount_minor d) (dv_currency d)) (dv_merchant d) (dv_category_display d).

Definition resolve_manual_pending (ctx : AccountContext) (p : PendingConfirmation) (intent : Intent) (now : Z)
    : ConversationOutcome :=
  let loc := locale ctx in
  match kind intent with
  | Confirm =>
      reply_with (saved_text loc p)
        [ConfirmExpense (pc_reference_id p) (pc_optimistic_version p); ClearPending]
  | Discard =>
      reply_with (discarded_text loc)
        [RejectExpense (pc_reference_id p) (pc_optimistic_version p); ClearPending]
  | EditAmount | EditMerchant | EditCategory | EditDate | EditType => apply_manual_edit ctx p intent now
  | _ => reshow_card loc p
  end.

Definition resolve_receipt_pending (ctx : AccountContext) (p : PendingConfirmation) (intent : Intent) (now : Z)
    : ConversationOutcome :=
  let loc := locale ctx in
  match kind intent with
  | Confirm =>
      reply_with (saved_text loc p)
        [ConfirmReceipt (pc_reference_id p) (next_expense_id ctx) (pc_optimistic_version p); ClearPending]
  | Discard =>
      reply_with (discarded_text loc)
        [RejectReceipt (pc_reference_id p) (pc_optimistic_version p); ClearPending]
  | EditAmount | EditMerchant | EditCategory | EditDate | EditType => apply_receipt_edit ctx p intent now
  | _ => reshow_card loc p
  end.

Definition resolve_deletion_pending (ctx : AccountContext) (intent : Intent) : ConversationOutcome :=
  let loc := locale ctx in
  match kind intent with
  | Confirm =>
      reply_with (delete_accepted_text loc (confirmed_expense_count ctx)) [ConfirmAccountDeletion]
  | Discard => reply_with (delete_cancelled_text loc) [ClearPending]
  | _ => reply_only (delete_confirm_text loc (confirmed_expense_count ctx))
  end.

Definition resolve_pending (ctx : AccountContext) (p : PendingConfirmation) (intent : Intent) (now : Z)
    : ConversationOutcome :=
  let loc := locale ctx in
  if negb (pc_optimistic_version p =? dv_version (pc_draft p)) then expired_outcome loc true
  else match pc_kind p with
       | AccountDeletion => resolve_deletion_pending ctx intent
       | ManualExpense => resolve_manual_pending ctx p intent now
       | ReceiptReview => resolve_receipt_pending ctx p intent now
       end.

Definition handle_set_language (ctx : AccountContext) (intent : Intent) : ConversationOutcome :=
  let current := locale ctx in
  if is_empty (i_locale intent) then reply_only (invalid_language_text current)
  else
    let next := Locale.parse (i_locale intent) in
    reply_with (language_updated_text next) [SetLocale (Locale.as_account_value next)].

Definition handle_recategorize (ctx : AccountContext) (intent : Intent) : ConversationOutcome :=
  let loc := locale ctx in
  if is_empty (i_category_key intent) then
    reply_only (invalid_category_text loc (format_category_list loc))
  else
    let display := category_display loc (i_category_key intent) in
    let merchant := match recent_lines ctx with line :: _ => re_merchant line | [] => [] end in
    if is_empty merchant && match recent_lines ctx with [] => true | _ => false end
    then reply_only (no_expense_to_recategorize_text loc)
    else
      reply_with (recategorized_text loc (if is_empty merchant then s! "—" else merchant) display)
        [RecategorizeLatest (i_category_key intent)].

Definition handle_export (loc : Locale) : ConversationOutcome :=
  reply_with (export_accepted_text loc) [RequestAccountExport].

Definition handle_delete (ctx : AccountContext) (now : Z) : ConversationOutcome :=
  reply_with (delete_confirm_text (locale ctx) (confirmed_expense_count ctx))
    [RequestAccountDeletion (now + PENDING_CONFIRMATION_TTL_SECS * second)].

Definition create_manual (ctx : AccountContext) (intent : Intent) (now : Z) : ConversationOutcome :=
  let loc := locale ctx in
  let expires_at := now + PENDING_CONFIRMATION_TTL_SECS * second in
  let merchant := i_description intent in
  reply_with
    (manual_confirmation_card loc merchant (format_minor (i_amount_minor intent) (i_currency intent))
       (format_date_vn now (timezone ctx)) (default_type_label loc) (default_category_display loc))
    [CreateManualAwaitingConfirmation (next_expense_id ctx) (i_amount_minor intent) (i_currency intent)
       (i_description intent) merchant now 1 expires_at].

Definition render_period_summary (loc : Locale) (summary : option PeriodSummary) (fallback_label : rstr)
    : ConversationOutcome :=
  reply_only (match summary with
              | Some s => if ps_tx_count s =? 0 then empty_summary_text loc (ps_label s)
                          else today_summary_text loc (ps_label s) (ps_currency s) (ps_total_minor s)
              | None => empty_summary_text loc fallback_label
              end).

Definition with_insight_snapshot (o : ConversationOutcome) (period_kind : rstr) : ConversationOutcome :=
  {| replies := replies o; commands := commands o ++ [RecordInsightSnapshot period_kind] |}.

Definition render_today (ctx : AccountContext) : ConversationOutcome :=
  let loc := locale ctx in
  with_insight_snapshot (render_period_summary loc (today_summary ctx) (period_label_today loc)) (s! "day").
Definition render_week (ctx : AccountContext) : ConversationOutcome :=
  let loc := locale ctx in
  with_insight_snapshot (render_period_summary loc (week_summary ctx) (period_label_week loc)) (s! "week").
Definition render_month (ctx : AccountContext) : ConversationOutcome :=
  let loc := locale ctx in
  with_insight_snapshot (render_period_summary loc (month_summary ctx) (period_label_month loc)) (s! "month").

Definition handle_settings (ctx : AccountContext) (intent : Intent) : ConversationOutcome :=
  let loc := locale ctx in
  if is_empty (i_timezone intent)
  then reply_only (settings_text loc (timezone ctx) (default_currency ctx) (schedules ctx))
  else reply_only (invalid_settings_text loc).

Definition handle_timezone (ctx : AccountContext) (intent : Intent) : ConversationOutcome :=
  let loc := locale ctx in
  if is_empty (i_timezone intent)
     || match Schedule.parse_timezone (i_timezone intent) with Err _ => true | Ok _ => false end
  then reply_only (invalid_timezone_text loc)
  else
    reply_with (settings_updated_text loc (settings_label_timezone loc) (i_timezone intent)
                  (i_timezone intent) (default_currency ctx) (schedules ctx))
      [SetTimezone (i_timezone intent)].

Definition handle_schedule (ctx : AccountContext) (intent : Intent) : ConversationOutcome :=
  let loc := locale ctx in
  if i_disable_all_schedules intent then
    reply_with (schedule_disabled_text loc None) [DisableSchedule None]
  else if i_disable_schedule intent then
    reply_with (schedule_disabled_text loc (Some (i_schedule_frequency intent)))
      [DisableSchedule (Some (i_schedule_frequency intent))]
  else if is_empty (i_schedule_frequency intent) then reply_only (schedule_text loc (schedules ctx))
  else match Schedule.validate_delivery_minute (i_delivery_minute intent) with
       | Err _ => reply_only (schedule_invalid_text loc)
       | Ok _ =>
           reply_with (schedule_set_text loc (i_schedule_frequency intent) (i_delivery_minute intent))
             [UpsertSchedule (i_schedule_frequency intent) (i_delivery_minute intent)]
       end.

(** The last [match] of [handle_active], without an open confirmation in the way. *)
Definition handle_intent (ctx : AccountContext) (intent : Intent) (now : Z) : ConversationOutcome :=
  let loc := locale ctx in
  match kind intent with
  | Start | Help => reply_only (help_text loc)
  | Privacy => reply_only (privacy_text loc (original_receipt_retention_days ctx))
  | Today => render_today ctx
  | Week => render_week ctx
  | Month => render_month ctx
  | Recent => reply_only (recent_text loc (recent_lines ctx))
  | Settings => handle_settings ctx intent
  | Timezone => handle_timezone ctx intent
  | ScheduleIntent => handle_schedule ctx intent
  | Export => handle_export loc
  | Delete => handle_delete ctx now
  | ManualEntry => create_manual ctx intent now
  | ListCategories => reply_only (categories_list_text loc (format_category_list loc))
  | SetLanguage => handle_set_language ctx intent
  | RecategorizeLatestIntent => handle_recategorize ctx intent
  | Confirm | Discard => expired_outcome loc false
  | EditAmount | EditMerchant | EditCategory | EditDate | EditType => expired_outcome loc false
  | KNone => reply_only (unknown_text loc)
  end.

Definition handle_active (ctx : AccountContext) (text : rstr) (now : Z) : run ConversationOutcome :=
  let loc := locale ctx in
  let! intent := parse_intent text (default_currency ctx) in
  match pending ctx with
  | Some p =>
      if negb (starts_with (trim_start text) (s! "/") && is_explicit_slash_command (kind intent)) then
        if is_pending_stale p now then Ret (expired_outcome loc true)
        else Ret (resolve_pending ctx p intent now)
      else Ret (handle_intent ctx intent now)
  | None => Ret (handle_intent ctx intent now)
  end.

Definition handle_pending_consent (ctx : AccountContext) (text : rstr) : run ConversationOutcome :=
  let loc := locale ctx in
  let! intent := parse_intent text (s! "VND") in
  match kind intent with
  | Confirm => Ret (reply_with (welcome_text loc) [GrantConsent CONSENT_VERSION])
  | Privacy => Ret (reply_only (privacy_text loc (original_receipt_retention_days ctx)))
  | SetLanguage => Ret (handle_set_language ctx intent)
  | _ => Ret (reply_only (consent_card_text loc))
  end.

Definition decide (ctx : AccountContext) (text : rstr) (now : Z) : run ConversationOutcome :=
  let loc := locale ctx in
  if negb (allowlisted ctx) then Ret (reply_only (not_allowed_text loc))
  else match lifecycle ctx with
       | Suspended => Ret (reply_only (suspended_text loc))
       | PendingConsent => handle_pending_consent ctx text
       | Active => handle_active ctx text now
       end.

Definition decide_image (ctx : AccountContext) (now : Z) : ConversationOutcome :=
  let loc := locale ctx in
  if negb (allowlisted ctx) then reply_only (not_allowed_text loc)
  else match lifecycle ctx with
       | Suspended => reply_only (suspended_text loc)
       | PendingConsent => reply_only (consent_card_text loc)
       | Active =>
           if remaining_daily_receipts ctx <=? 0 then reply_only (daily_receipt_quota_text loc)
           else reply_with (image_received_text loc)
                  [AcceptReceiptSubmission (next_submission_id ctx) (next_ingest_job_id ctx)]
       end.

End Parse.
End Conversation.
