(* ===== verification/ConversationProps.v ===== *)
(** * Properties of intents and decisions

    Parsing and deciding return for every text whose letters keep their byte length
    when lowercased; a decision has one reply, and each of its commands is one that the
    account's state allows, with arguments that the stores accept. *)

From S2P Require Import Prelude RustStr RustStrFacts Platform Money AmountProps Schedule ConvTypes Templates Conversation.
Import Conv Amount Templates Conversation.

(** ** Characters and words of derived strings *)

Lemma trim_matches_Forall (P : Z -> Prop) f s : Forall P s -> Forall P (trim_matches f s).
Proof.
  assert (Hd : forall t, Forall P t -> Forall P (drop_while f t)).
  { induction t as [|c t IH]; [done|]. cbn. inversion 1; subst. destruct (f c); auto. }
  intros H. unfold trim_matches, trim_end_matches, trim_start_matches.
  apply Forall_rev, Hd, Forall_rev, Hd, H.
Qed.

Lemma trim_punctuation_Forall (P : Z -> Prop) s : Forall P s -> Forall P (trim_command_punctuation s).
Proof. intros H. unfold trim_command_punctuation. by apply trim_Forall, trim_matches_Forall, trim_Forall. Qed.

Lemma strip_prefix_Forall (P : Z -> Prop) s p r : strip_prefix s p = Some r -> Forall P s -> Forall P r.
Proof. intros ->%strip_prefix_spec. by intros [_ ?]%Forall_app. Qed.
Lemma strip_suffix_Forall (P : Z -> Prop) s p r : strip_suffix s p = Some r -> Forall P s -> Forall P r.
Proof. intros ->%strip_suffix_spec. by intros [? _]%Forall_app. Qed.

Lemma split_by_Forall (P : Z -> Prop) f s : Forall P s -> Forall (Forall P) (split_by f s).
Proof.
  induction 1 as [|c s Hc Hs IH]; cbn; [by repeat constructor|].
  destruct (f c); [by constructor|]. destruct (split_by f s); inversion IH; subst; by repeat constructor.
Qed.
Lemma split_whitespace_Forall (P : Z -> Prop) s : Forall P s -> Forall (Forall P) (split_whitespace s).
Proof.
  intros H. apply List.Forall_forall. intros w [Hw _]%filter_In.
  exact (proj1 (List.Forall_forall _ _) (split_by_Forall P _ s H) w Hw).
Qed.

Lemma split_by_word f s : Forall (Forall (fun c => f c = false)) (split_by f s).
Proof.
  induction s as [|c s IH]; cbn; [by repeat constructor|].
  destruct (f c) eqn:E; [by constructor|]. destruct (split_by f s); inversion IH; subst; by repeat constructor.
Qed.

Lemma join_Forall (P : Z -> Prop) sep ws : Forall P sep -> Forall (Forall P) ws -> Forall P (join sep ws).
Proof.
  intros Hsep H. induction H as [|w ws Hw Hws IH]; [constructor|]. cbn.
  destruct ws; [done|]. rewrite !Forall_app. done.
Qed.

Lemma words_suffix a s : (words_from false s <= words_from false (a ++ s))%nat.
Proof.
  induction a as [|c a IH]; cbn; [done|]. pose proof (words_from_open (a ++ s)).
  destruct (is_whitespace c); lia.
Qed.
Lemma words_prefix b s t : (words_from b s <= words_from b (s ++ t))%nat.
Proof. revert b. induction s as [|c s IH]; intros b; cbn; [lia|]. destruct (is_whitespace c); [apply IH|]. specialize (IH true). lia. Qed.

Lemma words_trim s : (words_from false (trim s) <= words_from false s)%nat.
Proof.
  destruct (trim_infix s) as (a & b & E). rewrite E at 2.
  etransitivity; [apply (words_prefix false _ b) | apply words_suffix].
Qed.

Lemma words_join ws :
  Forall (Forall (fun c => is_whitespace c = false)) ws ->
  (length (split_whitespace (join (s! " ") ws)) <= length ws)%nat.
Proof.
  intros H. rewrite split_whitespace_words. revert H.
  assert (Hw : forall w u b, Forall (fun c => is_whitespace c = false) w ->
    (words_from b (w ++ u) <= S (words_from true u))%nat).
  { induction w as [|c w IH]; intros u b Hw; cbn.
    - pose proof (words_from_open u). destruct b; lia.
    - inversion Hw as [|?? Hc Hw']; subst. rewrite Hc.
      assert (words_from true (w ++ u) = words_from true u) as ->.
      { clear -Hw'. induction Hw' as [|x w Hx Hw' IH]; cbn; [done|]. by rewrite Hx. }
      destruct b; lia. }
  induction 1 as [|w ws H1 H2 IH]; cbn [join length]; [cbn; lia|]. destruct ws as [|w' ws].
  - specialize (Hw w [] false H1). rewrite app_nil_r in Hw. cbn [words_from length] in *. lia.
  - specialize (Hw w (s! " " ++ join (s! " ") (w' :: ws)) false H1).
    change (words_from true (s! " " ++ join (s! " ") (w' :: ws)))
      with (words_from false (join (s! " ") (w' :: ws))) in Hw. lia.
Qed.

Section Folding.
Context `{U : UnicodeCase, UN : UnicodeNorm, UL : !UnicodeCaseLaws, NL : !UnicodeNormLaws}.

Lemma fold_benign s : Forall benign (fold s).
Proof.
  assert (Hf : Forall (fun c => c <> sigma /\ to_lowercase [c] = [c]) (fold s)).
  { unfold fold. assert (Ha : forall c, is_ascii_lower c = true \/ c = 32 -> c <> sigma /\ to_lowercase [c] = [c]).
    { intros c Hc. unfold is_ascii_lower, sigma in *. split; [destruct Hc; b2p; lia|].
      rewrite lower_ascii; unfold is_ascii, ascii_lower, is_ascii_upper;
        destruct Hc; b2p; repeat case_match; b2p; try done; lia. }
    apply join_Forall; [by repeat constructor; apply Ha; auto|].
    apply split_whitespace_Forall. unfold replace_char. apply Forall_concat, Forall_map.
    apply List.Forall_forall. intros c [Hc _]%filter_In.
    destruct (c =? c! "đ"); [by repeat constructor; apply Ha; auto|]. constructor; [|done].
    exact (proj1 (List.Forall_forall _ _) (nfd_fixed _ (lower_fixed (trim s))) c Hc). }
  eapply Forall_impl; [exact Hf|]. intros c [? ?]. by apply fixed_benign.
Qed.

Lemma fold_words s : Forall benign s ->
  (length (split_whitespace (fold s)) <= length (split_whitespace s))%nat.
Proof.
  intros Hs. unfold fold. etransitivity.
  { apply words_join. apply List.Forall_forall. intros w [Hw _]%filter_In.
    exact (proj1 (List.Forall_forall _ _) (split_by_word _ _) w Hw). }
  unfold replace_char. etransitivity; [apply words_concat_map|].
  { intros c. destruct (Z.eqb_spec c (c! "đ")) as [->|]; by repeat constructor. }
  etransitivity; [apply words_filter|]. etransitivity; [apply nfd_words|].
  rewrite lower_hom.
  - etransitivity; [apply words_concat_map; intros c; apply lower_space|].
    rewrite !split_whitespace_words. apply words_trim.
  - apply (trim_Forall (fun c => c <> sigma)). eapply Forall_impl; [exact Hs|]. by intros c [? _].
Qed.

(** ** Recovering the text after a keyword *)

Lemma same_shape_app s l a b :
  Forall2 (fun c c' => char_len c' = char_len c) s l -> l = a ++ b ->
  exists a' b', s = a' ++ b' /\ blen a' = blen a.
Proof.
  intros H ->. apply Forall2_app_inv_r in H as (a' & b' & Ha & _ & ->).
  exists a', b'. split; [done|]. symmetry. by apply same_blen.
Qed.

Lemma extract_returns raw keywords :
  Forall benign raw -> returns (extract_after_keywords raw keywords) (fun _ => True).
Proof.
  intros Hb. unfold extract_after_keywords. induction keywords as [|k ks IH]; cbn; [by apply returns_ret|].
  destruct (find (to_lowercase raw) k) as [idx|] eqn:E; [|done].
  apply find_spec in E as (a & t & El & ->).
  destruct (same_shape_app raw _ (a ++ k) t (benign_lower raw Hb)) as (a' & b' & -> & Hl).
  { by rewrite <- app_assoc. }
  rewrite <- blen_app, <- Hl, slice_from_app. cbn [run_bind].
  destruct (negb _); [by apply returns_ret | done].
Qed.

End Folding.

(** ** Well-formed intents *)

Definition known_category (k : rstr) : Prop := exists c, In c CATEGORIES /\ k = key c.
Definition KNOWN_TYPES : list rstr :=
  [s! "expense"; s! "income"; s! "refund"; s! "transfer"; s! "adjustment"].
Definition known_frequency (f : rstr) : Prop := exists fr, f = Schedule.as_str fr.

(** What the fields of an intent hold, by its kind. *)
Definition intent_wf (i : Intent) : Prop :=
  match kind i with
  | EditAmount => 0 <= i_amount_minor i <= i64_max
  | ManualEntry => 0 <= i_amount_minor i <= i64_max /\ i_description i <> []
  | EditCategory | RecategorizeLatestIntent => i_category_key i = [] \/ known_category (i_category_key i)
  | EditType => In (i_transaction_type i) KNOWN_TYPES
  | ScheduleIntent =>
      (i_schedule_frequency i = [] /\ i_disable_schedule i = false) \/ known_frequency (i_schedule_frequency i)
  | SetLanguage => i_locale i = [] \/ i_locale i = s! "vi-VN" \/ i_locale i = s! "en-US"
  | _ => True
  end.

(** The option-returning parsers return, with a well-formed intent if any. *)
Abbreviation parses m := (returns m (fun o => match o with Some i => intent_wf i | None => True end)).

Lemma frequency_known t f : parse_schedule_frequency t = Some f -> known_frequency f.
Proof.
  unfold parse_schedule_frequency.
  destruct (one_of t _); [intros [= <-]; exists Schedule.Daily; reflexivity|].
  destruct (one_of t _); [intros [= <-]; exists Schedule.Weekly; reflexivity|].
  destruct (one_of t _); [intros [= <-]; exists Schedule.Monthly; reflexivity | done].
Qed.

Lemma words_tail_nonempty (ws : list rstr) n : (S n <= length ws)%nat -> exists t, tail ws = Ret t /\ (n <= length t)%nat.
Proof. destruct ws as [|w t]; cbn; [lia|]. intros. exists t. split; [done | lia]. Qed.

Lemma index_returns (ws : list rstr) i : (i < length ws)%nat -> exists w, index ws i = Ret w /\ In w ws.
Proof.
  intros Hi. unfold index. destruct (nth_error ws i) as [w|] eqn:E.
  - exists w. split; [done | by eapply nth_error_In].
  - by apply nth_error_None in E; lia.
Qed.

Lemma schedule_fields_parses raw folded :
  (length folded <= length raw)%nat -> parses (parse_schedule_fields raw folded).
Proof.
  unfold parse_schedule_fields. destruct folded as [|f rest]; intros Hl; [apply returns_ret; by left|].
  destruct (matches_slash_name f _).
  - destruct rest as [|g [|]]; [apply returns_ret; by left | | by apply returns_ret].
    destruct (matches_slash_name g _); [apply returns_ret; by left|].
    destruct (parse_schedule_frequency g) eqn:E; apply returns_ret; [|done]. right. by eapply frequency_known.
  - destruct rest as [|g [|]]; [by apply returns_ret | | by apply returns_ret].
    destruct (parse_schedule_frequency f) eqn:E; [|by apply returns_ret].
    destruct (index_returns raw 1) as (w & -> & _); [cbn in Hl; lia|]. cbn [run_bind].
    destruct (parse_delivery_minute w); apply returns_ret; [|done]. right. by eapply frequency_known.
Qed.

Lemma schedule_intent_parses raw folded :
  folded <> [] -> (length folded <= length raw)%nat -> parses (parse_schedule_intent raw folded).
Proof.
  intros Hne Hl. unfold parse_schedule_intent. destruct folded as [|f0 fs]; [done|].
  change (index (f0 :: fs) 0) with (Ret f0). cbn [run_bind].
  destruct (matches_slash_name f0 _).
  - destruct (words_tail_nonempty raw (length fs) Hl) as (t & -> & Ht). cbn [run_bind tail].
    by apply schedule_fields_parses.
  - cbn [run_bind]. by apply schedule_fields_parses.
Qed.

Section Parsing.
Context `{U : UnicodeCase, UN : UnicodeNorm, CH : Chrono, UL : !UnicodeCaseLaws, NL : !UnicodeNormLaws}.

Lemma resolved_known t : default [] (resolve_category_key t) = [] \/ known_category (default [] (resolve_category_key t)).
Proof.
  unfold resolve_category_key. destruct (is_empty _); [by left|].
  destruct (List.find (same_name _) _) as [c|] eqn:E1; [right; exists c; apply List.find_some in E1 as [? _]; done|].
  destruct (List.find (same_plain_name _) _) as [c|] eqn:E2; [right; exists c; apply List.find_some in E2 as [? _]; done|].
  destruct (List.find (same_first_word _) _) as [c|] eqn:E3; [right; exists c; apply List.find_some in E3 as [? _]; done|].
  by left.
Qed.

Lemma transaction_type_known t r : parse_transaction_type t = Some r -> In r KNOWN_TYPES.
Proof.
  unfold parse_transaction_type, KNOWN_TYPES. cbn [In].
  repeat (destruct (one_of _ _); [intros [= <-]; auto 8|]). done.
Qed.

Lemma strip_prefix_any_Forall (P : Z -> Prop) t ps r :
  strip_prefix_any t ps = Some r -> Forall P t -> Forall P r.
Proof.
  intros H Ht. induction ps as [|p ps IH]; [done|]. cbn in H.
  destruct (strip_prefix t p) as [q|] eqn:E; [|by apply IH]. injection H as <-.
  apply trim_Forall. by eapply strip_prefix_Forall.
Qed.

Lemma amount_parses (k : IntentKind) t d text cur :
  Forall benign t -> (k = EditAmount \/ k = ManualEntry /\ d <> []) ->
  parses (let! r := parse_amount t cur in
          match r with
          | Ok (minor, currency) => Ret (Some (amount_intent k minor currency d text))
          | Err _ => Ret None
          end).
Proof.
  intros Ht Hk. eapply returns_bind; [by apply parse_amount_returns|].
  intros [[v c]|e] Hv; apply returns_ret; [|done]. cbn in Hv |- *.
  destruct Hk as [-> | [-> ?]]; done.
Qed.

Lemma edit_rest_parses trimmed rest cur :
  Forall benign trimmed -> Forall benign rest -> parses (parse_edit_rest trimmed rest cur).
Proof.
  intros Ht Hr. unfold parse_edit_rest.
  destruct (strip_prefix_any rest MERCHANT_PREFIXES).
  { destruct (is_empty _); [by apply returns_ret|].
    eapply returns_bind; [by apply extract_returns|]. intros o _. by apply returns_ret. }
  destruct (strip_prefix_any rest CATEGORY_PREFIXES); [apply returns_ret, resolved_known|].
  destruct (strip_prefix_any rest DATE_PREFIXES).
  { destruct (parse_date_token _); by apply returns_ret. }
  destruct (strip_prefix_any rest TYPE_PREFIXES).
  { destruct (parse_transaction_type _) eqn:E; apply returns_ret; [|done].
    by eapply transaction_type_known. }
  apply amount_parses; [done | by left].
Qed.

Lemma edit_or_recat_parses text cur : Forall benign text -> parses (parse_edit_or_recat text cur).
Proof.
  intros Ht. unfold parse_edit_or_recat. cbv zeta.
  destruct (is_empty _); [by apply returns_ret|].
  destruct (strip_prefix_any _ [_; _; _]); [apply returns_ret, resolved_known|].
  destruct (strip_prefix_any _ EDIT_VERBS) eqn:E; [|by apply returns_ret].
  destruct (_ || _); [by apply returns_ret|].
  apply edit_rest_parses; [by apply trim_punctuation_Forall|].
  eapply strip_prefix_any_Forall; [exact E|]. apply fold_benign.
Qed.

Lemma manual_from_amount_parses t d cur : Forall benign t -> parses (manual_from_amount t d cur).
Proof.
  intros Ht. unfold manual_from_amount. cbv zeta.
  destruct (trim_command_punctuation d) eqn:E; [by apply returns_ret|]. cbn [is_empty].
  apply amount_parses; [done | by right].
Qed.

Lemma manual_entry_parses text cur : Forall benign text -> parses (parse_manual_entry text cur).
Proof.
  intros Ht. pose proof (split_whitespace_Forall benign text Ht) as Hf.
  rewrite List.Forall_forall in Hf.
  assert (Hlast : (2 <= length (split_whitespace text))%nat ->
    parses (manual_from_last (split_whitespace text) text cur)).
  { intros Hl. unfold manual_from_last.
    destruct (index_returns (split_whitespace text) (length (split_whitespace text) - 1)) as (w & -> & Hw); [lia|].
    cbn [run_bind]. cbv zeta. destruct (command_like_description _); [by apply returns_ret|].
    apply manual_from_amount_parses, trim_punctuation_Forall, Hf, Hw. }
  unfold parse_manual_entry. cbv zeta.
  destruct (Nat.ltb_spec (length (split_whitespace text)) 2) as [|Hl]; [by apply returns_ret|].
  destruct (index_returns (split_whitespace text) 0) as (w & -> & Hw); [lia|]. cbn [run_bind].
  eapply returns_bind; [apply manual_from_amount_parses, Hf, Hw|].
  intros [i|] Hi; [|by apply Hlast]. destruct (negb _); [by apply returns_ret | by apply Hlast].
Qed.

Lemma timezone_at_wf raw n : match timezone_at raw n with Some i => intent_wf i | None => True end.
Proof. unfold timezone_at. by destruct (nth_error raw n). Qed.

Lemma timezone_intent_wf raw folded :
  match parse_timezone_intent raw folded with Some i => intent_wf i | None => True end.
Proof.
  unfold parse_timezone_intent. destruct folded as [|? [|? [|? []]]]; try done;
    (destruct (matches_slash_name _ _) || destruct (_ && _)); try done; apply timezone_at_wf.
Qed.
Lemma settings_intent_wf raw folded :
  match parse_settings_intent raw folded with Some i => intent_wf i | None => True end.
Proof.
  unfold parse_settings_intent. destruct folded as [|? [|? [|? []]]]; try done;
    (destruct (one_of _ _) || destruct (_ && _)); try done; apply timezone_at_wf.
Qed.
Lemma language_intent_wf folded :
  match parse_language_intent folded with Some i => intent_wf i | None => True end.
Proof.
  unfold parse_language_intent. destruct folded as [|? [|? []]]; try done; [by left|].
  destruct (one_of _ _); [by right; left|]. destruct (one_of _ _); [by right; right | by left].
Qed.

Lemma parameterized_parses text : Forall benign text -> parses (parse_parameterized_slash text).
Proof.
  intros Ht. unfold parse_parameterized_slash. cbv zeta.
  set (raw := trim_start_matches _ _).
  assert (Hraw : Forall benign raw).
  { apply trim_punctuation_Forall in Ht. unfold raw, trim_start_matches.
    destruct (drop_while_suffix (Z.eqb (c! "/")) (trim_command_punctuation text)) as [a E].
    rewrite E in Ht. by apply Forall_app in Ht as [_ ?]. }
  pose proof (fold_words raw Hraw) as Hw.
  destruct (split_whitespace (fold raw)) as [|f fs] eqn:E; [by apply returns_ret|].
  destruct (matches_slash_name f _); [apply returns_ret, timezone_intent_wf|].
  destruct (matches_slash_name f _); [apply returns_ret, settings_intent_wf|].
  destruct (matches_slash_name f _); [by apply schedule_intent_parses|].
  destruct (matches_slash_name f _); [apply returns_ret, language_intent_wf|].
  destruct (matches_slash_name f _); [|by apply returns_ret].
  unfold parse_recat_slash. destruct (_ <? 2)%nat; [apply returns_ret; by left|].
  destruct (words_tail_nonempty _ (length fs) Hw) as (t & -> & _). cbn [run_bind].
  apply returns_ret, resolved_known.
Qed.

Lemma slash_command_wf body k : slash_command body = Some k -> intent_wf (of_kind k).
Proof.
  unfold slash_command. destruct (List.find _ _) as [[n k']|] eqn:E; intros [= <-].
  apply List.find_some in E as [Hin _]. revert Hin. unfold SLASH_COMMANDS. cbn [In].
  intros H. repeat (destruct H as [H|H]; [injection H as _ <-; done || by left|]). done.
Qed.

(** Parsing returns a well-formed intent. *)
Lemma parse_intent_returns text cur : Forall benign text -> returns (parse_intent text cur) intent_wf.
Proof.
  intros Ht. pose proof (trim_punctuation_Forall benign text Ht) as Htr.
  assert (Hor : forall m k, parses m -> (forall o, returns (k o) intent_wf) ->
    returns (let! o := m in match o with Some i => Ret i | None => k o end) intent_wf).
  { intros m k Hm Hk. eapply returns_bind; [exact Hm|]. intros [i|] Hi; [by apply returns_ret | apply Hk]. }
  unfold parse_intent. cbv zeta.
  destruct (is_empty _); [by apply returns_ret|].
  destruct (starts_with _ _).
  { destruct (slash_command _) eqn:E; [by apply returns_ret; eapply slash_command_wf|].
    eapply (Hor _ (fun _ => Ret (of_kind KNone))); [by apply parameterized_parses | intros; by apply returns_ret]. }
  destruct (one_of _ _); [apply returns_ret; by repeat case_match|].
  destruct (confirm_words _); [by apply returns_ret|]. destruct (discard_words _); [by apply returns_ret|].
  eapply (Hor _ (fun _ => _)); [by apply edit_or_recat_parses|]. intros _.
  destruct (_ || _); [by apply returns_ret|]. destruct (existsb _ _); [by apply returns_ret|].
  eapply (Hor _ (fun _ => Ret (of_kind KNone))); [by apply manual_entry_parses | intros; by apply returns_ret].
Qed.

End Parsing.

(** ** Which commands a decision may contain *)

Section Deciding.
Context `{U : UnicodeCase, UN : UnicodeNorm, CH : Chrono, UL : !UnicodeCaseLaws, NL : !UnicodeNormLaws}.

(** An open confirmation of the given kind that has not expired and is about the
    current version of its draft. *)
Definition live_pending (ctx : AccountContext) (now : Z) (k : PendingKind) (id : N) (version : Z) : Prop :=
  exists p, pending ctx = Some p /\ pc_kind p = k /\ pc_reference_id p = id
    /\ pc_optimistic_version p = version /\ dv_version (pc_draft p) = version /\ now < pc_expires_at p.

(** An edit sets exactly one field, to an acceptable value. *)
Definition one_field (amount : option Z) (merchant category : option rstr) (occurred_at : option Z)
    (transaction_type : option rstr) : Prop :=
  match amount, merchant, category, occurred_at, transaction_type with
  | Some a, None, None, None, None => 0 <= a <= i64_max
  | None, Some m, None, None, None => trim m <> []
  | None, None, Some c, None, None => known_category c
  | None, None, None, Some _, None => True
  | None, None, None, None, Some t => In t KNOWN_TYPES
  | _, _, _, _, _ => False
  end.

Definition deadline (now : Z) : Z := now + 900 * second.

Definition authorized_active (ctx : AccountContext) (now : Z) (cmd : DomainCommand) : Prop :=
  match cmd with
  | CreateManualAwaitingConfirmation id a cur d m at_ v expires =>
      id = next_expense_id ctx /\ 0 <= a <= i64_max /\ d <> [] /\ m = d /\ at_ = now /\ v = 1
      /\ expires = deadline now
  | ConfirmExpense id v | RejectExpense id v => live_pending ctx now ManualExpense id v
  | EditManualExpense id v a m c o t => live_pending ctx now ManualExpense id v /\ one_field a m c o t
  | ConfirmReceipt id e v => live_pending ctx now ReceiptReview id v /\ e = next_expense_id ctx
  | RejectReceipt id v => live_pending ctx now ReceiptReview id v
  | EditReceiptDraft id v a m c o t => live_pending ctx now ReceiptReview id v /\ one_field a m c o t
  | ConfirmAccountDeletion => exists id v, live_pending ctx now AccountDeletion id v
  | ClearPending => pending ctx <> None
  | RecategorizeLatest k => known_category k /\ recent_lines ctx <> []
  | SetTimezone tz => exists z, Schedule.parse_timezone tz = Ok z
  | UpsertSchedule f m => known_frequency f /\ 0 <= m < 24 * 60
  | DisableSchedule (Some f) => known_frequency f
  | RequestAccountDeletion expires => expires = deadline now
  | DisableSchedule None | RequestAccountExport | RecordInsightSnapshot _ => True
  | SetLocale _ | GrantConsent _ | AcceptReceiptSubmission _ _ => False
  end.

Definition authorized (ctx : AccountContext) (now : Z) (cmd : DomainCommand) : Prop :=
  allowlisted ctx = true /\
  match cmd with
  | GrantConsent v => lifecycle ctx = PendingConsent /\ v = CONSENT_VERSION
  | SetLocale l => lifecycle ctx <> Suspended /\ (l = s! "vi-VN" \/ l = s! "en-US")
  | _ => lifecycle ctx = Active /\ authorized_active ctx now cmd
  end.

(** One reply, and commands that may be issued. *)
Definition outcome_ok (ctx : AccountContext) (now : Z) (o : ConversationOutcome) : Prop :=
  length (replies o) = 1%nat /\ Forall (authorized ctx now) (commands o).

Context (ctx : AccountContext) (now : Z).

Lemma reply_only_ok body : outcome_ok ctx now (reply_only body).
Proof. split; [done | constructor]. Qed.

Lemma reply_with_ok body cmds : Forall (authorized ctx now) cmds -> outcome_ok ctx now (reply_with body cmds).
Proof. done. Qed.

Lemma patch_one_field loc p i tz patch :
  intent_wf i -> draft_patch_from_intent loc p i now tz = Some patch ->
  one_field (dp_amount_minor_opt patch) (dp_merchant_opt patch) (dp_category_key_opt patch)
    (dp_occurred_at_opt patch) (dp_transaction_type_opt patch).
Proof.
  intros Hwf. unfold draft_patch_from_intent, intent_wf in *. cbv zeta.
  destruct (kind i); try done.
  - intros [= <-]. done.
  - destruct (trim (i_merchant i)) eqn:E; [done|]. intros [= <-]. cbn. by rewrite E.
  - destruct (i_category_key i) eqn:E; [done|]. intros [= <-]. by destruct Hwf.
  - destruct (i_occurred_on i); [|done]. destruct (local_date_to_utc _ _ _); [|done]. by intros [= <-].
  - destruct (i_transaction_type i) eqn:E; [done|]. intros [= <-]. done.
Qed.

Lemma locale_value_ok l : Locale.as_account_value l = s! "vi-VN" \/ Locale.as_account_value l = s! "en-US".
Proof. destruct l; auto. Qed.

Lemma set_language_ok i : allowlisted ctx = true -> lifecycle ctx <> Suspended ->
  outcome_ok ctx now (handle_set_language ctx i).
Proof.
  intros Ha Hl. unfold handle_set_language. cbv zeta. destruct (is_empty _); [apply reply_only_ok|].
  apply reply_with_ok. constructor; [|constructor]. split; [done|]. split; [done | apply locale_value_ok].
Qed.

(** Close the branches that only reply, without unfolding the handlers. *)
Ltac only_reply :=
  match goal with |- outcome_ok _ _ (reply_only _) => apply reply_only_ok end.

Hypothesis Hallow : allowlisted ctx = true.
Hypothesis Hactive : lifecycle ctx = Active.

Lemma active_authorized cmd : authorized_active ctx now cmd -> authorized ctx now cmd.
Proof. intros H. split; [done|]. destruct cmd; done. Qed.

Lemma expired_ok loc b : (b = true -> pending ctx <> None) -> outcome_ok ctx now (expired_outcome loc b).
Proof.
  intros Hb. apply reply_with_ok. destruct b; [|constructor]. constructor; [|constructor].
  by apply active_authorized, Hb.
Qed.

Lemma snapshot_ok loc s l k : outcome_ok ctx now (with_insight_snapshot (render_period_summary loc s l) k).
Proof. split; [done|]. constructor; [|constructor]. by apply active_authorized. Qed.

Lemma handle_schedule_ok i : intent_wf i -> kind i = ScheduleIntent -> outcome_ok ctx now (handle_schedule ctx i).
Proof.
  intros Hwf Hk. unfold intent_wf in Hwf. rewrite Hk in Hwf. unfold handle_schedule. cbv zeta.
  destruct (i_disable_all_schedules i).
  { apply reply_with_ok. constructor; [|constructor]. by apply active_authorized. }
  destruct (i_disable_schedule i) eqn:Ed.
  { apply reply_with_ok. constructor; [|constructor]. apply active_authorized.
    destruct Hwf as [[_ ?]|?]; done. }
  destruct (i_schedule_frequency i) eqn:Ef; [apply reply_only_ok|]. cbn [is_empty].
  destruct (Schedule.validate_delivery_minute _) eqn:Em; [|apply reply_only_ok].
  apply reply_with_ok. constructor; [|constructor]. apply active_authorized.
  destruct Hwf as [[? _]|Hf]; [done|]. split; [done|].
  unfold Schedule.validate_delivery_minute in Em. destruct (negb _) eqn:E; [done|]. b2p. lia.
Qed.

Lemma handle_intent_ok i : intent_wf i -> outcome_ok ctx now (handle_intent ctx i now).
Proof.
  intros Hwf. unfold handle_intent. cbv zeta. destruct (kind i) eqn:Hk; try only_reply;
    try match goal with
    | |- outcome_ok _ _ (expired_outcome _ _) => by apply expired_ok
    | |- outcome_ok _ _ (render_today _) => apply snapshot_ok
    | |- outcome_ok _ _ (render_week _) => apply snapshot_ok
    | |- outcome_ok _ _ (render_month _) => apply snapshot_ok
    end.
  - unfold handle_settings. cbv zeta. destruct (is_empty _); apply reply_only_ok.
  - unfold handle_timezone. cbv zeta. destruct (Schedule.parse_timezone _) as [z|] eqn:Ez.
    + rewrite orb_false_r. destruct (is_empty _); [apply reply_only_ok|].
      apply reply_with_ok. constructor; [|constructor]. apply active_authorized. by exists z.
    + rewrite orb_true_r. apply reply_only_ok.
  - by apply handle_schedule_ok.
  - apply reply_with_ok. constructor; [|constructor]. by apply active_authorized.
  - apply reply_with_ok. constructor; [|constructor]. by apply active_authorized.
  - unfold intent_wf in Hwf. rewrite Hk in Hwf. apply reply_with_ok. constructor; [|constructor].
    destruct Hwf as [Ha Hd]. apply active_authorized.
    exact (conj eq_refl (conj Ha (conj Hd (conj eq_refl (conj eq_refl (conj eq_refl eq_refl)))))).
  - unfold intent_wf in Hwf. rewrite Hk in Hwf. unfold handle_recategorize. cbv zeta.
    destruct (i_category_key i) eqn:E; [apply reply_only_ok|]. cbn [is_empty].
    destruct (recent_lines ctx) eqn:El; [apply reply_only_ok|]. rewrite andb_false_r.
    apply reply_with_ok. constructor; [|constructor]. apply active_authorized.
    split; [by destruct Hwf | by rewrite El].
  - apply set_language_ok; [done | by rewrite Hactive].
Qed.

Lemma pair_ok body c1 c2 :
  authorized_active ctx now c1 -> authorized ctx now c2 -> outcome_ok ctx now (reply_with body [c1; c2]).
Proof. intros H1 H2. apply reply_with_ok. constructor; [by apply active_authorized | by constructor]. Qed.

Lemma reshow_ok loc p : outcome_ok ctx now (reshow_card loc p).
Proof. apply reply_only_ok. Qed.

Ltac only_card :=
  match goal with |- outcome_ok _ _ (reshow_card _ _) => apply reshow_ok end.

Lemma resolve_pending_ok p i :
  intent_wf i -> pending ctx = Some p -> is_pending_stale p now = false ->
  outcome_ok ctx now (resolve_pending ctx p i now).
Proof.
  intros Hwf Hp Hst. unfold is_pending_stale in Hst. b2p. unfold resolve_pending. cbv zeta.
  match goal with H : _ = dv_version _ |- _ => rename H into Hv end. rewrite Hv, Z.eqb_refl. cbn [negb].
  assert (Hlive : forall k, pc_kind p = k ->
    live_pending ctx now k (pc_reference_id p) (pc_optimistic_version p)).
  { intros k Hk. exists p. repeat split; try done. }
  assert (Hclear : authorized ctx now ClearPending) by (apply active_authorized; cbn; congruence).
  destruct (pc_kind p) eqn:Ek; specialize (Hlive _ eq_refl).
  - unfold resolve_manual_pending. cbv zeta.
    destruct (kind i) eqn:Hk; try only_card; [by apply pair_ok | by apply pair_ok|..].
    all: unfold apply_manual_edit; cbv zeta; destruct (draft_patch_from_intent _ _ _ _ _) eqn:Ep;
      [|apply reply_only_ok]; apply reply_with_ok; constructor; [|constructor];
      apply active_authorized; split; [done | by eapply patch_one_field].
  - unfold resolve_receipt_pending. cbv zeta.
    destruct (kind i) eqn:Hk; try only_card; [by apply pair_ok | by apply pair_ok|..].
    all: unfold apply_receipt_edit; cbv zeta; destruct (draft_patch_from_intent _ _ _ _ _) eqn:Ep;
      [|apply reply_only_ok]; apply reply_with_ok; constructor; [|constructor];
      apply active_authorized; split; [done | by eapply patch_one_field].
  - unfold resolve_deletion_pending. cbv zeta. destruct (kind i); try only_reply.
    + apply reply_with_ok. constructor; [|constructor]. apply active_authorized. cbn. eauto.
    + apply reply_with_ok. by constructor.
Qed.

End Deciding.

(** ** Claims *)

Section ConversationClaims.
Context `{U : UnicodeCase, UN : UnicodeNorm, CH : Chrono, UL : !UnicodeCaseLaws, NL : !UnicodeNormLaws}.

Lemma pending_consent_ok ctx now text :
  Forall benign text -> allowlisted ctx = true -> lifecycle ctx = PendingConsent ->
  returns (handle_pending_consent ctx text) (outcome_ok ctx now).
Proof.
  intros Ht Ha Hl. unfold handle_pending_consent. cbv zeta.
  eapply returns_bind; [by apply parse_intent_returns|]. intros i _.
  destruct (kind i);
    try match goal with |- returns (Ret (reply_only _)) _ => apply returns_ret, reply_only_ok end.
  - apply returns_ret, reply_with_ok. constructor; [|constructor]. done.
  - apply returns_ret, set_language_ok; [done | by rewrite Hl].
Qed.

Lemma decide_ok (ctx : AccountContext) (text : rstr) (now : Z) :
  Forall benign text -> returns (decide ctx text now) (outcome_ok ctx now).
Proof.
  intros Ht. unfold decide. cbv zeta.
  destruct (allowlisted ctx) eqn:Ha; cbn [negb]; [|apply returns_ret, reply_only_ok].
  destruct (lifecycle ctx) eqn:Hl; [by apply pending_consent_ok | | apply returns_ret, reply_only_ok].
  unfold handle_active. cbv zeta. eapply returns_bind; [by apply parse_intent_returns|]. intros i Hi.
  destruct (pending ctx) as [p|] eqn:Hp; [|by apply returns_ret, handle_intent_ok].
  destruct (negb _); [|by apply returns_ret, handle_intent_ok].
  destruct (is_pending_stale p now) eqn:Hs; apply returns_ret.
  - apply expired_ok; [done | done | by rewrite Hp].
  - by apply resolve_pending_ok.
Qed.


(** An expired or outdated confirmation is only cleared: whatever the message says,
    unless it is an explicit slash command, the one command of the decision is
    [ClearPending]. *)
Theorem stale_pending_cleared (ctx : AccountContext) (p : PendingConfirmation) (text : rstr) (now : Z) :
  allowlisted ctx = true -> lifecycle ctx = Active -> pending ctx = Some p ->
  pc_expires_at p <= now \/ pc_optimistic_version p <> dv_version (pc_draft p) ->
  starts_with (trim_start text) (s! "/") = false -> Forall benign text ->
  decide ctx text now
  = Ret {| replies := [pending_expired_text (locale ctx)]; commands := [ClearPending] |}.
Proof.
  intros Ha Hl Hp Hst Hs Ht. unfold decide. rewrite Ha, Hl. cbv zeta. cbn [negb].
  destruct (parse_intent_returns text (default_currency ctx) Ht) as (i & Ei & _).
  unfold handle_active. cbv zeta. rewrite Ei, Hp, Hs. cbn [run_bind andb negb].
  assert (is_pending_stale p now = true) as ->; [|done].
  unfold is_pending_stale. apply orb_true_iff. rewrite Z.leb_le, negb_true_iff, Z.eqb_neq. done.
Qed.

Lemma confirm_word_intent f :
  confirm_words f = true ->
  is_empty f = false /\ starts_with f (s! "/") = false
  /\ one_of f [s! "help"; s! "privacy"; s! "today"; s! "recent"] = false.
Proof.
  unfold confirm_words, one_of, CONFIRM_WORDS. intros (w & Hw & E)%existsb_exists.
  apply str_eqb_eq in E. subst w. cbn [In] in Hw.
  repeat (destruct Hw as [Hw|Hw]; [subst f; vm_compute; done|]). done.
Qed.

(** The decision on a confirmation word. *)
Lemma decide_confirm (ctx : AccountContext) (p : PendingConfirmation) (text : rstr) (now : Z) :
  allowlisted ctx = true -> lifecycle ctx = Active -> pending ctx = Some p ->
  now < pc_expires_at p -> pc_optimistic_version p = dv_version (pc_draft p) ->
  confirm_words (fold (trim_command_punctuation text)) = true ->
  exists reply, decide ctx text now = Ret {| replies := [reply]; commands :=
    match pc_kind p with
    | ManualExpense => [ConfirmExpense (pc_reference_id p) (pc_optimistic_version p); ClearPending]
    | ReceiptReview =>
        [ConfirmReceipt (pc_reference_id p) (next_expense_id ctx) (pc_optimistic_version p); ClearPending]
    | AccountDeletion => [ConfirmAccountDeletion]
    end |}.
Proof.
  intros Ha Hl Hp Hexp Hv Hc. destruct (confirm_word_intent _ Hc) as (H1 & H2 & H3).
  assert (Ei : parse_intent text (default_currency ctx) = Ret (of_kind Confirm)).
  { unfold parse_intent. cbv zeta. by rewrite H1, H2, H3, Hc. }
  unfold decide. rewrite Ha, Hl. cbv zeta. cbn [negb]. unfold handle_active. cbv zeta.
  rewrite Ei, Hp. cbn [run_bind kind of_kind is_explicit_slash_command]. rewrite andb_false_r. cbn [negb].
  assert (is_pending_stale p now = false) as ->.
  { unfold is_pending_stale. rewrite Hv, Z.eqb_refl. cbn. rewrite orb_false_r. by apply Z.leb_gt. }
  unfold resolve_pending. rewrite (proj2 (Z.eqb_eq _ _) Hv). cbn [negb].
  destruct (pc_kind p); eexists; reflexivity.
Qed.

(** Answering a live confirmation with a confirmation word (after folding: "ok",
    "y", "dong y", ...) issues exactly the confirmation of that kind, for the version
    on display, and clears the pending entry; a deletion is confirmed alone. *)
Theorem confirm_word_confirms (ctx : AccountContext) (p : PendingConfirmation) (text : rstr) (now : Z) :
  allowlisted ctx = true -> lifecycle ctx = Active -> pending ctx = Some p ->
  now < pc_expires_at p -> pc_optimistic_version p = dv_version (pc_draft p) ->
  confirm_words (fold (trim_command_punctuation text)) = true ->
  exists reply, decide ctx text now = Ret {| replies := [reply]; commands :=
    match pc_kind p with
    | ManualExpense => [ConfirmExpense (pc_reference_id p) (pc_optimistic_version p); ClearPending]
    | ReceiptReview =>
        [ConfirmReceipt (pc_reference_id p) (next_expense_id ctx) (pc_optimistic_version p); ClearPending]
    | AccountDeletion => [ConfirmAccountDeletion]
    end |}.
Proof. apply decide_confirm. Qed.

(** An image is accepted as a receipt exactly when the account is allowlisted and
    active and has receipts left today; otherwise no command is issued, and there is
    always one reply. *)
Theorem decide_image_gate (ctx : AccountContext) (now : Z) :
  length (replies (decide_image ctx now)) = 1%nat /\
  commands (decide_image ctx now)
  = if allowlisted ctx && bool_decide (lifecycle ctx = Active) && (0 <? remaining_daily_receipts ctx)
    then [AcceptReceiptSubmission (next_submission_id ctx) (next_ingest_job_id ctx)] else [].
Proof.
  unfold decide_image. cbv zeta. destruct (allowlisted ctx); [|done]. cbn [negb].
  destruct (lifecycle ctx); try done. rewrite bool_decide_true by done. cbn [andb].
  rewrite Z.leb_antisym. destruct (0 <? remaining_daily_receipts ctx); done.
Qed.

End ConversationClaims.

(** ** Witnesses *)

Abbreviation demo_draft := {|
  dv_version := 3; dv_amount_minor := 45000; dv_currency := s! "VND"; dv_merchant := s! "Cafe";
  dv_category_key := s! "khac"; dv_category_display := s! "Khác"; dv_transaction_type := s! "expense";
  dv_type_label := s! "Chi tiêu"; dv_date_display := s! "20/08/2026"; dv_occurred_at := 0 |}.

Definition demo_ctx (p : option PendingConfirmation) : AccountContext := {|
  next_expense_id := 7%N; next_submission_id := 8%N; next_ingest_job_id := 9%N; lifecycle := Active;
  allowlisted := true; default_currency := s! "VND"; timezone := s! "Asia/Ho_Chi_Minh";
  locale_text := s! "vi-VN"; original_receipt_retention_days := 30; remaining_daily_receipts := 5;
  confirmed_expense_count := 2; pending := p; today_summary := None; week_summary := None;
  month_summary := None; schedules := []; recent_lines := [] |}.

Definition demo_pending (expires : Z) : PendingConfirmation := {|
  pc_kind := ReceiptReview; pc_reference_id := 42%N; pc_optimistic_version := 3;
  pc_expires_at := expires; pc_draft := demo_draft |}.

Lemma ascii_text_benign s : forallb is_ascii s = true -> Forall (@benign vi_case) s.
Proof.
  rewrite forallb_forall, List.Forall_forall. intros H x Hx.
  apply (@ascii_benign vi_case vi_case_laws). auto.
Qed.


Lemma stale_pending_cleared_witness :
  @decide vi_case vi_norm fixed_offset_chrono (demo_ctx (Some (demo_pending 1000))) (s! "ok") 1000
  = Ret {| replies := [pending_expired_text (locale (demo_ctx (Some (demo_pending 1000))))];
           commands := [ClearPending] |}.
Proof.
  apply (@stale_pending_cleared vi_case vi_norm fixed_offset_chrono vi_case_laws vi_norm_laws
           _ (demo_pending 1000)); try reflexivity.
  - left. cbn. lia.
  - apply ascii_text_benign. vm_compute. reflexivity.
Defined.

Lemma confirm_word_confirms_witness :
  exists reply, @decide vi_case vi_norm fixed_offset_chrono (demo_ctx (Some (demo_pending 1000)))
                  (s! "Đồng ý!") 10
  = Ret {| replies := [reply]; commands := [ConfirmReceipt 42%N 7%N 3; ClearPending] |}.
Proof.
  apply (@confirm_word_confirms vi_case vi_norm fixed_offset_chrono (demo_ctx (Some (demo_pending 1000)))
           (demo_pending 1000) (s! "Đồng ý!") 10); vm_compute; reflexivity.
Defined.

(** ** Where the byte offsets of the lowercased text do not fit *)

(** Case mapping with the capital dotted I, whose lowercase is [i] and a combining dot. *)
Definition dotted_case : UnicodeCase := {|
  to_lowercase := fun s => concat (map (fun c => if c =? 304 then [105; 775] else [vi_lower c]) s);
  to_uppercase := map vi_upper;
|}.

(** The keyword is searched in the lowercased message but cut off the original one:
    "edİt shop", an ideographic space and a name make [decide] panic on user input. *)
Theorem edit_merchant_panics :
  @decide dotted_case vi_norm fixed_offset_chrono (demo_ctx (Some (demo_pending 1000)))
    (s! "ed" ++ [304] ++ s! "t shop" ++ [12288] ++ s! "ABC") 10 = Panic.
Proof. vm_compute. reflexivity. Qed.

(** The keywords are tried in a fixed order anywhere in the message: the name given
    after "shop" loses its beginning when it contains "cua hang". *)
Theorem edit_merchant_truncated :
  exists reply, @decide vi_case vi_norm fixed_offset_chrono (demo_ctx (Some (demo_pending 1000)))
    (s! "sua shop Cua Hang Xanh") 10
  = Ret {| replies := [reply];
           commands := [EditReceiptDraft 42%N 3 None (Some (s! "Xanh")) None None None] |}.
Proof. eexists. vm_compute. reflexivity. Qed.

(** The consent card offers the word "agree", which is no confirmation word. *)
Example agree_is_not_consent :
  exists i, @parse_intent vi_case vi_norm fixed_offset_chrono (s! "agree") (s! "VND") = Ret i
  /\ kind i = KNone.
Proof. eexists. split; vm_compute; reflexivity. Qed.
