(* ===== verification/ReceiptTypes.v ===== *)
(** * Receipts: data, state machine, validation, object store

    [src/src/receipt/types.rs], [error.rs], [validate.rs], [object_store.rs] and the
    extractor seam of [extractor.rs]. *)

From S2P Require Import Prelude RustStr RustStrFacts Platform Errors.

Module ReceiptTypes.
Import Errors.

Abbreviation uuid := N.

(** ** The lifecycle states *)

Inductive ReceiptState :=
| Pending | Queued | Stored | Extracting | ReviewRequired | Confirmed | Rejected
| FailedTransient | FailedPermanent | Expired | Deleted.
#[export] Instance ReceiptState_eq_dec : EqDecision ReceiptState.
Proof. solve_decision. Defined.

Definition as_str (s : ReceiptState) : rstr :=
  match s with
  | Pending => s! "pending"
  | Queued => s! "queued"
  | Stored => s! "stored"
  | Extracting => s! "extracting"
  | ReviewRequired => s! "review_required"
  | Confirmed => s! "confirmed"
  | Rejected => s! "rejected"
  | FailedTransient => s! "failed_transient"
  | FailedPermanent => s! "failed_permanent"
  | Expired => s! "expired"
  | Deleted => s! "deleted"
  end.

Definition parse (v : rstr) : option ReceiptState :=
  if str_eqb v (s! "pending") then Some Pending
  else if str_eqb v (s! "queued") then Some Queued
  else if str_eqb v (s! "stored") then Some Stored
  else if str_eqb v (s! "extracting") then Some Extracting
  else if str_eqb v (s! "review_required") then Some ReviewRequired
  else if str_eqb v (s! "confirmed") then Some Confirmed
  else if str_eqb v (s! "rejected") then Some Rejected
  else if str_eqb v (s! "failed_transient") then Some FailedTransient
  else if str_eqb v (s! "failed_permanent") then Some FailedPermanent
  else if str_eqb v (s! "expired") then Some Expired
  else if str_eqb v (s! "deleted") then Some Deleted
  else None.

Definition is_terminal (s : ReceiptState) : bool :=
  match s with
  | Confirmed | Rejected | Expired | FailedPermanent | Deleted => true
  | _ => false
  end.

Definition can_transition (from to : ReceiptState) : bool :=
  match from, to with
  | Pending, Queued
  | Queued, Stored
  | Queued, FailedTransient
  | Queued, FailedPermanent
  | FailedTransient, Queued
  | Stored, Extracting
  | FailedTransient, Extracting
  | Extracting, ReviewRequired
  | Extracting, FailedTransient
  | Extracting, FailedPermanent
  | ReviewRequired, Confirmed
  | ReviewRequired, Rejected
  | ReviewRequired, Expired
  | Stored, Deleted
  | Extracting, Deleted
  | ReviewRequired, Deleted
  | Confirmed, Deleted
  | Rejected, Deleted
  | Expired, Deleted
  | FailedPermanent, Deleted
  | FailedTransient, Deleted => true
  | _, _ => false
  end.

(** ** Errors *)

Record ReceiptError := { re_class : ErrorClass; re_message : rstr }.
Definition validation (m : rstr) : ReceiptError := {| re_class := Validation; re_message := m |}.
Definition not_found (m : rstr) : ReceiptError := {| re_class := NotFound; re_message := m |}.
Definition conflict (m : rstr) : ReceiptError := {| re_class := Conflict; re_message := m |}.
Definition dependency (m : rstr) : ReceiptError := {| re_class := Dependency; re_message := m |}.
Definition quota_exceeded (m : rstr) : ReceiptError := {| re_class := QuotaExceeded; re_message := m |}.
Definition kill_switch (m : rstr) : ReceiptError := {| re_class := KillSwitch; re_message := m |}.

(** ** Requests, outcomes and views *)

Record AcceptSubmissionRequest := {
  ac_submission_id : uuid;
  ac_account_id : uuid;
  ac_inbound_event_id : option uuid;
  ac_ingest_job_id : uuid;
}.
Inductive AcceptSubmissionOutcome :=
| Accepted (state : ReceiptState)
| Replayed (submission_id : uuid) (state : ReceiptState)
| DuplicateJob.

Record ValidatedImage := {
  content_sha256 : rstr;
  mime_type : rstr;
  size_bytes : Z;
  width_px : Z;
  height_px : Z;
}.

Inductive IngestOutcome :=
| IStored (submission_id : uuid) (sha : rstr)
| IDuplicateAbsorbed (submission_id original_submission_id : uuid)
| IAlreadyStored (submission_id : uuid)
| IAlreadyTerminal (state : ReceiptState).

Inductive ExtractOutcome :=
| XReviewRequired (submission_id draft_id : uuid)
| XAlreadyReviewRequired (submission_id : uuid)
| XAlreadyTerminal (state : ReceiptState)
| XUnsupported.

(** [f32] values are their bit patterns. *)
Record ExpenseDraftView := {
  draft_id : uuid;
  dr_account_id : uuid;
  amount_minor : Z;
  currency : rstr;
  merchant : rstr;
  category_key : rstr;
  transaction_type : rstr;
  occurred_at : Z;
  confidence : option Z;
  version : Z;
}.

Record EditDraftRequest := {
  ed_account_id : uuid;
  ed_submission_id : uuid;
  ed_expected_version : Z;
  ed_amount_minor : option Z;
  ed_currency : option rstr;
  ed_merchant : option rstr;
  ed_category_key : option rstr;
  ed_occurred_at : option Z;
  ed_transaction_type : option rstr;
}.

Record ConfirmRequest := {
  cf_account_id : uuid;
  cf_submission_id : uuid;
  cf_expected_draft_version : Z;
  cf_expense_id : uuid;
}.
Inductive ConfirmOutcome := CConfirmed (expense_id : uuid) | CAlreadyConfirmed (expense_id : uuid).

Record RejectRequest := {
  rj_account_id : uuid;
  rj_submission_id : uuid;
  rj_expected_draft_version : Z;
}.

Record ExtractionMeta := {
  provider : rstr;
  model : rstr;
  profile_name : rstr;
  prompt_version : rstr;
  input_tokens : option Z;
  output_tokens : option Z;
}.

Record ExtractionResult := {
  x_merchant : rstr;
  x_amount_minor : Z;
  x_currency : rstr;
  x_category_key : rstr;
  x_transaction_type : rstr;
  x_occurred_at : Z;
  x_confidence : Z;
  x_unsupported : bool;
}.

Record ExtractedAttempt := { x_result : ExtractionResult; x_meta : ExtractionMeta }.

Record ReceiptConfig := {
  original_receipt_days : Z;
  review_expiry_hours : Z;
  extraction_enabled : bool;
  monthly_extraction_pages : Z;
}.

(** ** Keys *)

Definition JOB_TYPE_INGEST : rstr := s! "receipt.ingest".
Definition JOB_TYPE_EXTRACT : rstr := s! "receipt.extract".

Section Keys.
Context {UT : UuidText}.
Definition ingest_dedupe_key (submission_id : uuid) : rstr := s! "receipt.ingest:" ++ uuid_str submission_id.
Definition extract_dedupe_key (submission_id : uuid) : rstr := s! "receipt.extract:" ++ uuid_str submission_id.
Definition account_serialization_key (account_id : uuid) : rstr := s! "account:" ++ uuid_str account_id.
Definition receipt_serialization_key (account_id : uuid) : rstr := s! "receipt:" ++ uuid_str account_id.

Definition object_key (account_id submission_id : uuid) (sha : rstr) : rstr :=
  s! "receipts/" ++ uuid_str account_id ++ s! "/" ++ uuid_str submission_id ++ s! "/" ++ sha.
End Keys.

(** ** Validation *)

Definition MAX_IMAGE_BYTES : Z := 10 * 1024 * 1024.
Definition MAX_PIXEL_COUNT : Z := 25000000.
Definition MAX_MERCHANT_CHARS : Z := 200.
Definition ALLOWED_MIME_TYPES : list rstr := [s! "image/jpeg"; s! "image/png"; s! "image/webp"].

Definition bytes_start (prefix bytes : list Z) : bool := bool_decide (take (length prefix) bytes = prefix).

Definition sniffed_image_mime (bytes : list Z) : option rstr :=
  if (3 <=? Z.of_nat (length bytes)) && bytes_start [255; 216; 255] bytes then Some (s! "image/jpeg")
  else if (8 <=? Z.of_nat (length bytes)) && bytes_start [137; 80; 78; 71; 13; 10; 26; 10] bytes
  then Some (s! "image/png")
  else if (12 <=? Z.of_nat (length bytes)) && bytes_start (s! "RIFF") bytes
          && bytes_start (s! "WEBP") (drop 8 bytes)
  then Some (s! "image/webp")
  else None.

Definition normalize_declared_image_mime (mime : rstr) : option rstr :=
  let first := match split_char mime (c! ";") with p :: _ => p | [] => mime end in
  let primary := to_ascii_lowercase (trim first) in
  if str_eqb primary (s! "image/jpeg") || str_eqb primary (s! "image/jpg") then Some (s! "image/jpeg")
  else if str_eqb primary (s! "image/png") then Some (s! "image/png")
  else if str_eqb primary (s! "image/webp") then Some (s! "image/webp")
  else if str_eqb primary [] || str_eqb primary (s! "application/octet-stream")
          || str_eqb primary (s! "binary/octet-stream") || str_eqb primary (s! "application/binary")
  then None
  else List.find (str_eqb primary) ALLOWED_MIME_TYPES.

Section ValidateImage.
Context {IL : ImageLib}.

Definition validate_image (bytes : list Z) (mime : rstr) : result ValidatedImage ReceiptError :=
  match bytes with
  | [] => Err (validation (s! "image bytes must not be empty"))
  | _ =>
  if MAX_IMAGE_BYTES <? Z.of_nat (length bytes) then Err (validation (s! "image exceeds maximum size"))
  else
  let? sniffed := ok_or (sniffed_image_mime bytes)
                        (validation (s! "image content does not match a supported type")) in
  let declared := normalize_declared_image_mime mime in
  if match declared with Some d => negb (str_eqb d sniffed) | None => false end
  then Err (validation (s! "image content does not match declared mime type"))
  else
  let? dims := ok_or (blob_size bytes) (validation (s! "unable to read image dimensions")) in
  let '(w, h) := dims in
  if negb (in_i32 w) then Err (validation (s! "image width out of range"))
  else if negb (in_i32 h) then Err (validation (s! "image height out of range"))
  else if (w <=? 0) || (h <=? 0) then Err (validation (s! "image dimensions must be positive"))
  else if MAX_PIXEL_COUNT <? w * h then Err (validation (s! "image exceeds maximum pixel count"))
  else Ok {| content_sha256 := sha256_hex bytes; mime_type := sniffed;
             size_bytes := Z.of_nat (length bytes); width_px := w; height_px := h |}
  end.
End ValidateImage.

Definition validate_amount_minor (a : Z) : result unit ReceiptError :=
  if a <=? 0 then Err (validation (s! "amount must be positive")) else Ok tt.

Definition validate_currency (c : rstr) : result unit ReceiptError :=
  if (blen c =? 3) && forallb is_ascii_upper c then Ok tt
  else Err (validation (s! "currency must be a 3-letter ISO code")).

Definition validate_merchant (m : rstr) : result rstr ReceiptError :=
  let trimmed := trim m in
  let chars := char_count trimmed in
  if (chars =? 0) || (MAX_MERCHANT_CHARS <? chars)
  then Err (validation (s! "merchant must be between 1 and 200 characters"))
  else Ok trimmed.

Definition TRANSACTION_TYPES : list rstr :=
  [s! "expense"; s! "income"; s! "refund"; s! "transfer"; s! "adjustment"].
Definition validate_transaction_type (t : rstr) : result unit ReceiptError :=
  if existsb (str_eqb t) TRANSACTION_TYPES then Ok tt
  else Err (validation (s! "transaction_type is not allowed")).

(** ** The object store *)

(** The trait [ReceiptObjectStore]. *)
Class ObjectStore := {
  objects : Type;
  os_put : rstr -> list Z -> prog objects ReceiptError unit;
  os_get : rstr -> objects -> result (option (list Z)) ReceiptError;
  os_delete : rstr -> prog objects ReceiptError unit;
}.

(** What the lifecycle relies on: an object written is the one read back, a deleted
    one is gone, and neither touches other keys. *)
Class ObjectStoreLaws `{ObjectStore} : Prop := {
  put_get : forall k b s s', os_put k b s = (s', Ok tt) -> os_get k s' = Ok (Some b);
  put_other : forall k k' b s, k' <> k -> os_get k' (os_put k b s).1 = os_get k' s;
  delete_get : forall k s s', os_delete k s = (s', Ok tt) -> os_get k s' = Ok None;
  delete_other : forall k k' s, k' <> k -> os_get k' (os_delete k s).1 = os_get k' s;
}.

Definition validate_object_key (key : rstr) : result unit ReceiptError :=
  if is_empty (trim key) then Err (validation (s! "object key must not be empty"))
  else if starts_with key (s! "/") then Err (validation (s! "object key must not be absolute"))
  else if contains_char key 92 || contains_char key 0 || contains key (s! "..")
  then Err (validation (s! "object key is invalid"))
  else Ok tt.

(** [InMemoryObjectStore]; a poisoned lock is not modelled. *)
Definition InMemoryObjectStore : ObjectStore := {|
  objects := gmap rstr (list Z);
  os_put := fun k b s =>
    match validate_object_key k with
    | Ok _ => (<[k := b]> s, Ok tt)
    | Err e => (s, Err e)
    end;
  os_get := fun k s => Ok (s !! k);
  os_delete := fun k s => (delete k s, Ok tt);
|}.

Lemma InMemoryObjectStore_laws : @ObjectStoreLaws InMemoryObjectStore.
Proof.
  split; cbn.
  - intros k b s s'. destruct (validate_object_key k); [|done]. intros [= <-]. by rewrite lookup_insert_eq.
  - intros k k' b s Hne. destruct (validate_object_key k); [|done]. cbn. by rewrite lookup_insert_ne.
  - intros k s s' [= <-]. by rewrite lookup_delete_eq.
  - intros k k' s Hne. by rewrite lookup_delete_ne.
Qed.

(** The trait [ReceiptExtractor]. *)
Class Extractor := {
  extract_bytes : list Z -> result ExtractedAttempt ReceiptError;
  extractor_meta : ExtractionMeta;
}.

(** ** Facts *)

Lemma as_str_parse s : parse (as_str s) = Some s.
Proof. by destruct s. Qed.

Lemma terminal_step s t : is_terminal s = true -> can_transition s t = true -> t = Deleted.
Proof. by destruct s, t. Qed.

Lemma sniffed_allowed bytes m : sniffed_image_mime bytes = Some m -> m ∈ ALLOWED_MIME_TYPES.
Proof.
  unfold sniffed_image_mime, ALLOWED_MIME_TYPES. intros E.
  repeat (case_match; [injection E as <-; rewrite !elem_of_cons; auto|]). done.
Qed.

Lemma validate_image_ok `{ImageLib} bytes mime v :
  validate_image bytes mime = Ok v ->
  0 < size_bytes v <= MAX_IMAGE_BYTES /\ 0 < width_px v /\ 0 < height_px v
  /\ width_px v <= i32_max /\ height_px v <= i32_max
  /\ width_px v * height_px v <= MAX_PIXEL_COUNT /\ mime_type v ∈ ALLOWED_MIME_TYPES
  /\ content_sha256 v = sha256_hex bytes /\ size_bytes v = Z.of_nat (length bytes)
  /\ sniffed_image_mime bytes = Some (mime_type v).
Proof.
  unfold validate_image, res_bind, ok_or. destruct bytes as [|b0 bytes]; [discriminate|].
  set (bs := b0 :: bytes). assert (0 < Z.of_nat (length bs)) by (cbn; lia). clearbody bs.
  intros E. crush_match; b2p; rewrite in_i32_spec in *;
    split_and!; try done; try lia; by eapply sniffed_allowed.
Qed.

End ReceiptTypes.
