(* ===== verification/Receipt.v ===== *)
(** * The receipt lifecycle ([src/src/receipt/lifecycle.rs])

    The tables of migration 004 that the lifecycle reads and writes are finite maps
    in one [store], next to the job queue, the usage counters and the object store.
    A transaction body is a [txn]; a method that runs several transactions or calls
    the object store is a [prog], whose committed effects survive a later error.

    Rows keyed by a unique column are keyed by it here (assets and drafts by their
    submission).  [created_at]/[updated_at] columns are never read and are left out,
    as are the random ids of rows nobody looks up by id (corrections, extraction
    attempts).  [NOW()] is the argument [now].  CHECKs, foreign keys and unique
    indexes that a statement could violate are part of the statement. *)

From S2P Require Import Prelude RustStr RustStrFacts Platform Errors Work Quota ReceiptTypes.

Module Receipt.
Import ReceiptTypes.
Import (hints) Errors Work Quota.

(** ** Tables *)

Record account := { acc_lifecycle_state : rstr; retention_preference_days : Z }.

Record submission := {
  sub_account : uuid;
  sub_inbound_event : option uuid;
  sub_state : ReceiptState;
  sub_version : Z;
  sub_duplicate_of : option uuid;
  sub_confirmed_expense : option uuid;
  sub_failure_error_class : option rstr;
  sub_review_expires_at : option Z;
}.

Inductive DeletionState := Active | AssetDeleted.
#[export] Instance DeletionState_eq_dec : EqDecision DeletionState.
Proof. solve_decision. Defined.

Record asset := {
  as_account : uuid;
  as_object_key : rstr;
  as_content_sha256 : rstr;
  as_mime_type : rstr;
  as_size_bytes : Z;
  as_width_px : Z;
  as_height_px : Z;
  as_pixel_count : Z;
  as_retention_deadline : Z;
  as_deletion_state : DeletionState;
  as_original_deleted_at : option Z;
}.

Record correction := {
  co_draft_id : uuid;
  co_submission_id : uuid;
  co_field_name : rstr;
  co_old_value : option rstr;
  co_new_value : option rstr;
}.

Record xattempt := {
  xa_meta : ExtractionMeta;
  xa_outcome : rstr;
  xa_error_class : option rstr;
  xa_latency_ms : Z;
}.

Record expense := {
  ex_account : uuid;
  ex_amount_minor : Z;
  ex_currency : rstr;
  ex_occurred_at : Z;
  ex_description : rstr;
  ex_source : rstr;
  ex_state : rstr;
  ex_receipt_submission : option uuid;
  ex_category_key : rstr;
  ex_transaction_type : rstr;
}.

Record tables := {
  accounts : gmap uuid account;
  inbound_events : gset uuid;
  categories : gset rstr;
  submissions : gmap uuid submission;
  assets : gmap uuid asset;
  drafts : gmap uuid ExpenseDraftView;
  corrections : list correction;
  extraction_attempts : gmap (uuid * Z) xattempt;
  expenses : gmap uuid expense;
  queue : Work.db;
  usage : Quota.usage;
}.

Definition set_submissions (f : gmap uuid submission -> gmap uuid submission) (t : tables) : tables :=
  {| accounts := accounts t; inbound_events := inbound_events t; categories := categories t;
     submissions := f (submissions t); assets := assets t; drafts := drafts t;
     corrections := corrections t; extraction_attempts := extraction_attempts t;
     expenses := expenses t; queue := queue t; usage := usage t |}.
Definition set_assets (f : gmap uuid asset -> gmap uuid asset) (t : tables) : tables :=
  {| accounts := accounts t; inbound_events := inbound_events t; categories := categories t;
     submissions := submissions t; assets := f (assets t); drafts := drafts t;
     corrections := corrections t; extraction_attempts := extraction_attempts t;
     expenses := expenses t; queue := queue t; usage := usage t |}.
Definition set_drafts (f : gmap uuid ExpenseDraftView -> gmap uuid ExpenseDraftView) (t : tables) : tables :=
  {| accounts := accounts t; inbound_events := inbound_events t; categories := categories t;
     submissions := submissions t; assets := assets t; drafts := f (drafts t);
     corrections := corrections t; extraction_attempts := extraction_attempts t;
     expenses := expenses t; queue := queue t; usage := usage t |}.
Definition set_corrections (f : list correction -> list correction) (t : tables) : tables :=
  {| accounts := accounts t; inbound_events := inbound_events t; categories := categories t;
     submissions := submissions t; assets := assets t; drafts := drafts t;
     corrections := f (corrections t); extraction_attempts := extraction_attempts t;
     expenses := expenses t; queue := queue t; usage := usage t |}.
Definition set_extraction_attempts (f : gmap (uuid * Z) xattempt -> gmap (uuid * Z) xattempt) (t : tables) : tables :=
  {| accounts := accounts t; inbound_events := inbound_events t; categories := categories t;
     submissions := submissions t; assets := assets t; drafts := drafts t;
     corrections := corrections t; extraction_attempts := f (extraction_attempts t);
     expenses := expenses t; queue := queue t; usage := usage t |}.
Definition set_expenses (f : gmap uuid expense -> gmap uuid expense) (t : tables) : tables :=
  {| accounts := accounts t; inbound_events := inbound_events t; categories := categories t;
     submissions := submissions t; assets := assets t; drafts := drafts t;
     corrections := corrections t; extraction_attempts := extraction_attempts t;
     expenses := f (expenses t); queue := queue t; usage := usage t |}.
Definition set_queue (q : Work.db) (t : tables) : tables :=
  {| accounts := accounts t; inbound_events := inbound_events t; categories := categories t;
     submissions := submissions t; assets := assets t; drafts := drafts t;
     corrections := corrections t; extraction_attempts := extraction_attempts t;
     expenses := expenses t; queue := q; usage := usage t |}.
Definition set_usage (u : Quota.usage) (t : tables) : tables :=
  {| accounts := accounts t; inbound_events := inbound_events t; categories := categories t;
     submissions := submissions t; assets := assets t; drafts := drafts t;
     corrections := corrections t; extraction_attempts := extraction_attempts t;
     expenses := expenses t; queue := queue t; usage := u |}.

Abbreviation rtxn A := (txn tables ReceiptError A).

(** ** Table constraints *)

Definition is_none {A} (o : option A) : bool := match o with None => true | Some _ => false end.

(** The CHECKs of [receipt_submissions]. *)
Definition submission_check (id : uuid) (r : submission) : bool :=
  let st := sub_state r in
  (0 <? sub_version r) && in_i32 (sub_version r)
  && negb (bool_decide (sub_duplicate_of r = Some id))
  && (negb (bool_decide (st = Confirmed)) || negb (is_none (sub_confirmed_expense r)))
  && (is_none (sub_confirmed_expense r) || bool_decide (st = Confirmed) || bool_decide (st = Deleted))
  && (negb (bool_decide (st = ReviewRequired)) || negb (is_none (sub_review_expires_at r)))
  && (is_none (sub_failure_error_class r) || bool_decide (st = FailedTransient)
      || bool_decide (st = FailedPermanent) || bool_decide (st = Deleted))
  && (is_none (sub_duplicate_of r) || bool_decide (st = FailedPermanent) || bool_decide (st = Deleted)).

(** Its foreign keys to [expenses] and to itself (within the account). *)
Definition submission_refs (t : tables) (r : submission) : bool :=
  match sub_confirmed_expense r with
  | Some e => negb (is_none (expenses t !! e))
  | None => true
  end
  && match sub_duplicate_of r with
     | Some o => match submissions t !! o with
                 | Some orig => bool_decide (sub_account orig = sub_account r)
                 | None => false
                 end
     | None => true
     end.

(** [0 <= x <= 1] on the bits of an [f32] (NaN and negative values fail, -0.0 passes). *)
Definition confidence_ok (bits : Z) : bool :=
  ((0 <=? bits) && (bits <=? 1065353216)) || (bits =? 2147483648).

Definition btrim_spaces (s : rstr) : rstr := trim_matches (Z.eqb 32) s.

(** The CHECKs of [expense_drafts]. *)
Definition draft_check (d : ExpenseDraftView) : bool :=
  (0 <? amount_minor d) && in_i64 (amount_minor d)
  && ((char_count (currency d) =? 3) && forallb is_ascii_upper (currency d))
  && ((1 <=? char_count (btrim_spaces (merchant d))) && (char_count (btrim_spaces (merchant d)) <=? 200))
  && existsb (str_eqb (transaction_type d)) TRANSACTION_TYPES
  && match confidence d with Some c => confidence_ok c | None => true end
  && (0 <? version d) && in_i32 (version d).

(** ** Queries *)

Definition account_is_active (t : tables) (a : uuid) : bool :=
  match accounts t !! a with
  | Some row => str_eqb (acc_lifecycle_state row) (s! "active")
  | None => false
  end.

Definition attempt_count (t : tables) (id : uuid) : Z :=
  Z.of_nat (length (List.filter (fun p => bool_decide (p.1.1 = id)) (map_to_list (extraction_attempts t)))).

(** [load_submission] and [load_submission_for_update]: the row, if it belongs to
    the account. *)
Definition load_submission (t : tables) (id acct : uuid) : result submission ReceiptError :=
  match submissions t !! id with
  | Some r => if bool_decide (sub_account r = acct) then Ok r
              else Err (not_found (s! "receipt submission not found"))
  | None => Err (not_found (s! "receipt submission not found"))
  end.

Definition load_asset (t : tables) (id acct : uuid) : option asset :=
  match assets t !! id with
  | Some a => if bool_decide (as_account a = acct) then Some a else None
  | None => None
  end.

Definition load_draft (t : tables) (id acct : uuid) : result ExpenseDraftView ReceiptError :=
  match drafts t !! id with
  | Some d => if bool_decide (dr_account_id d = acct) then Ok d
              else Err (not_found (s! "expense draft not found"))
  | None => Err (not_found (s! "expense draft not found"))
  end.

Definition with_inbound_event (t : tables) (ev : uuid) : option (uuid * submission) :=
  List.find (fun p => bool_decide (sub_inbound_event p.2 = Some ev)) (map_to_list (submissions t)).

Definition load_existing_submission (t : tables) (id : uuid) (ev : option uuid) : option (uuid * submission) :=
  match submissions t !! id with
  | Some r => Some (id, r)
  | None => match ev with Some e => with_inbound_event t e | None => None end
  end.

Definition find_active_duplicate (t : tables) (acct : uuid) (sha : rstr) : option uuid :=
  fst <$> List.find (fun p => bool_decide (as_account p.2 = acct) && str_eqb (as_content_sha256 p.2) sha
                         && bool_decide (as_deletion_state p.2 = Active)) (map_to_list (assets t)).

Definition find_expense_of (t : tables) (sub : uuid) : option uuid :=
  fst <$> List.find (fun p => bool_decide (ex_receipt_submission p.2 = Some sub)) (map_to_list (expenses t)).

Definition ensure_category (t : tables) (key : rstr) : result unit ReceiptError :=
  if bool_decide (key ∈ categories t) then Ok tt else Err (validation (s! "unknown category key")).

(** ** Statements *)

(** The SET clause of [transition_state]. *)
Definition moved (now : Z) (to : ReceiptState) (failure_error_class : option rstr)
    (review_expiry_hours : option Z) (confirmed_expense_id duplicate_of : option uuid)
    (r : submission) : submission :=
  {| sub_account := sub_account r;
     sub_inbound_event := sub_inbound_event r;
     sub_state := to;
     sub_version := sub_version r + 1;
     sub_duplicate_of := match duplicate_of with Some _ => duplicate_of | None => sub_duplicate_of r end;
     sub_confirmed_expense := match confirmed_expense_id with
                              | Some _ => confirmed_expense_id
                              | None => sub_confirmed_expense r
                              end;
     sub_failure_error_class := match to with
                                | FailedTransient | FailedPermanent => failure_error_class
                                | Deleted => sub_failure_error_class r
                                | _ => None
                                end;
     sub_review_expires_at := match review_expiry_hours with
                              | Some h => Some (now + h * hour)
                              | None => sub_review_expires_at r
                              end |}.

(** The optimistic UPDATE behind every lifecycle change. *)
Definition transition_state (now : Z) (id acct : uuid) (from to : ReceiptState)
    (failure_error_class : option rstr) (review_expiry_hours : option Z)
    (confirmed_expense_id duplicate_of : option uuid) : rtxn unit :=
  fun t =>
    if negb (can_transition from to) then Err (conflict (s! "illegal lifecycle transition"))
    else match submissions t !! id with
    | Some r =>
        if bool_decide (sub_account r = acct) && bool_decide (sub_state r = from) then
          let r' := moved now to failure_error_class review_expiry_hours confirmed_expense_id duplicate_of r in
          if submission_check id r' && submission_refs t r'
          then Ok (tt, set_submissions <[id := r']> t)
          else Err (dependency (s! "state transition failed"))
        else Err (conflict (s! "optimistic lifecycle transition failed"))
    | None => Err (conflict (s! "optimistic lifecycle transition failed"))
    end.

(** [insert_submission]: [ON CONFLICT DO NOTHING] on the primary key and on the
    inbound event; the foreign keys fail the statement. *)
Definition insert_submission (id acct : uuid) (ev : option uuid) : rtxn bool :=
  fun t =>
    if negb (is_none (submissions t !! id))
       || match ev with Some e => negb (is_none (with_inbound_event t e)) | None => false end
    then Ok (false, t)
    else if is_none (accounts t !! acct)
            || match ev with Some e => negb (bool_decide (e ∈ inbound_events t)) | None => false end
    then Err (dependency (s! "submission insert failed"))
    else Ok (true, set_submissions <[id := {|
           sub_account := acct; sub_inbound_event := ev; sub_state := Pending; sub_version := 1;
           sub_duplicate_of := None; sub_confirmed_expense := None;
           sub_failure_error_class := None; sub_review_expires_at := None |}]> t).

Inductive AssetInsert := Inserted | UniqueConflict.

Definition insert_asset (now : Z) (id acct : uuid) (key : rstr) (v : ValidatedImage) : rtxn AssetInsert :=
  fun t =>
    match accounts t !! acct with
    | None => Err (not_found (s! "account not found"))
    | Some acc =>
        if negb (is_none (assets t !! id)) || negb (is_none (find_active_duplicate t acct (content_sha256 v)))
        then Ok (UniqueConflict, t)
        else Ok (Inserted, set_assets <[id := {|
               as_account := acct; as_object_key := key; as_content_sha256 := content_sha256 v;
               as_mime_type := mime_type v; as_size_bytes := size_bytes v;
               as_width_px := width_px v; as_height_px := height_px v;
               as_pixel_count := width_px v * height_px v;
               as_retention_deadline := now + retention_preference_days acc * day;
               as_deletion_state := Active; as_original_deleted_at := None |}]> t)
    end.

(** [record_extraction_attempt]: [ON CONFLICT DO NOTHING]; the latency is checked. *)
Definition record_extraction_attempt (id : uuid) (attempt_number : Z) (outcome : rstr)
    (error_class : option rstr) (latency_ms : Z) (meta : ExtractionMeta) : rtxn unit :=
  fun t =>
    if (latency_ms <? 0) || (attempt_number <=? 0) then Err (dependency (s! "extraction attempt insert failed"))
    else match extraction_attempts t !! (id, attempt_number) with
    | Some _ => Ok (tt, t)
    | None => Ok (tt, set_extraction_attempts <[(id, attempt_number) := {|
                xa_meta := meta; xa_outcome := outcome; xa_error_class := error_class;
                xa_latency_ms := latency_ms |}]> t)
    end.

Definition draft_id_taken (t : tables) (did : uuid) : bool :=
  existsb (fun p => bool_decide (draft_id p.2 = did)) (map_to_list (drafts t)).

Definition upsert_draft (did id acct : uuid) (x : ExtractionResult) : rtxn unit :=
  fun t =>
    let? _ := ensure_category t (x_category_key x) in
    let put d := if draft_check d then Ok (tt, set_drafts <[id := d]> t)
                 else Err (dependency (s! "draft upsert failed")) in
    match drafts t !! id with
    | Some d =>
        put {| draft_id := draft_id d; dr_account_id := dr_account_id d;
               amount_minor := x_amount_minor x; currency := x_currency x; merchant := x_merchant x;
               category_key := x_category_key x; transaction_type := x_transaction_type x;
               occurred_at := x_occurred_at x; confidence := Some (x_confidence x);
               version := version d + 1 |}
    | None =>
        if draft_id_taken t did then Err (dependency (s! "draft upsert failed"))
        else
        put {| draft_id := did; dr_account_id := acct;
               amount_minor := x_amount_minor x; currency := x_currency x; merchant := x_merchant x;
               category_key := x_category_key x; transaction_type := x_transaction_type x;
               occurred_at := x_occurred_at x; confidence := Some (x_confidence x);
               version := 1 |}
    end.

(** [update_draft]: [WHERE id = $1 AND version = $2], on the row of submission [id]. *)
Definition update_draft (id : uuid) (n : ExpenseDraftView) : rtxn unit :=
  fun t =>
    let? _ := ensure_category t (category_key n) in
    match drafts t !! id with
    | Some d =>
        if bool_decide (draft_id d = draft_id n) && (version d =? version n) then
          let d' := {| draft_id := draft_id d; dr_account_id := dr_account_id d;
                       amount_minor := amount_minor n; currency := currency n; merchant := merchant n;
                       category_key := category_key n; transaction_type := transaction_type n;
                       occurred_at := occurred_at n; confidence := confidence d;
                       version := version d + 1 |} in
          if draft_check d' then Ok (tt, set_drafts <[id := d']> t)
          else Err (dependency (s! "draft update failed"))
        else Err (conflict (s! "draft version mismatch"))
    | None => Err (conflict (s! "draft version mismatch"))
    end.

Definition record_correction (did id : uuid) (field : rstr) (old new : option rstr) : rtxn unit :=
  fun t => Ok (tt, set_corrections (fun l => l ++ [{|
             co_draft_id := did; co_submission_id := id; co_field_name := field;
             co_old_value := old; co_new_value := new |}]) t).

(** [insert_confirmed_expense]: nothing when the submission already has an expense;
    a reused expense id or an unknown account or category fails. *)
Definition insert_confirmed_expense (eid acct id : uuid) (d : ExpenseDraftView) : rtxn unit :=
  fun t =>
    match find_expense_of t id with
    | Some _ => Ok (tt, t)
    | None =>
        if negb (is_none (expenses t !! eid)) || is_none (accounts t !! acct)
           || negb (bool_decide (category_key d ∈ categories t))
           || negb ((char_count (currency d) =? 3) && forallb is_ascii_upper (currency d))
           || negb (existsb (str_eqb (transaction_type d)) TRANSACTION_TYPES)
        then Err (dependency (s! "expense insert failed"))
        else Ok (tt, set_expenses <[eid := {|
               ex_account := acct; ex_amount_minor := amount_minor d; ex_currency := currency d;
               ex_occurred_at := occurred_at d; ex_description := merchant d;
               ex_source := s! "receipt"; ex_state := s! "confirmed";
               ex_receipt_submission := Some id; ex_category_key := category_key d;
               ex_transaction_type := transaction_type d |}]> t)
    end.

Definition lookup_confirmed_expense_id (id : uuid) : rtxn uuid :=
  fun t => match find_expense_of t id with
           | Some e => Ok (e, t)
           | None => Err (dependency (s! "confirmed expense missing"))
           end.

Definition map_work_error (e : Work.WorkError) : ReceiptError :=
  {| re_class := Work.we_class e; re_message := Work.we_message e |}.

Section Enqueue.
Context {UT : UuidText}.

(** The job's [run_at] is overwritten with [NOW()] as soon as it is enqueued. *)
Definition set_run_at (now : Z) (j : Work.job) : Work.job :=
  {| Work.job_type := Work.job_type j; Work.payload := Work.payload j;
     Work.payload_version := Work.payload_version j; Work.state := Work.state j;
     Work.priority := Work.priority j; Work.run_at := now; Work.dedupe_key := Work.dedupe_key j;
     Work.serialization_key := Work.serialization_key j; Work.attempt_count := Work.attempt_count j;
     Work.max_attempts := Work.max_attempts j; Work.lease_token := Work.lease_token j;
     Work.lease_owner := Work.lease_owner j; Work.lease_deadline := Work.lease_deadline j;
     Work.last_error_class := Work.last_error_class j; Work.created_at := Work.created_at j;
     Work.updated_at := Work.updated_at j; Work.completed_at := Work.completed_at j |}.

Definition receipt_job_payload (id : uuid) : Work.json :=
  Work.JObject [(s! "schema_version", Work.JInt 1);
                (s! "receipt_submission_id", Work.JString (uuid_str id))].

Definition enqueue_receipt_job (now utc_now : Z) (job_id : uuid) (job_type : rstr) (id acct : uuid)
    : rtxn Work.EnqueueOutcome :=
  fun t =>
    let dedupe := if str_eqb job_type JOB_TYPE_INGEST then ingest_dedupe_key id
                  else extract_dedupe_key id in
    match Work.enqueue_in_transaction now {|
            Work.req_id := job_id; Work.req_job_type := job_type;
            Work.req_payload := receipt_job_payload id; Work.req_dedupe_key := dedupe;
            Work.req_serialization_key := Some (receipt_serialization_key acct);
            Work.req_priority := 0; Work.req_run_at := utc_now; Work.req_max_attempts := 10 |} (queue t) with
    | Err e => Err (map_work_error e)
    | Ok (Work.Enqueued, q) =>
        Ok (Work.Enqueued, set_queue {| Work.jobs := alter (set_run_at now) job_id (Work.jobs q);
                                        Work.attempts := Work.attempts q |} t)
    | Ok (Work.DuplicateJob, q) => Ok (Work.DuplicateJob, set_queue q t)
    end.

(** ** Accepting a submission *)

Definition finish_accept_in_transaction (now utc_now : Z) (id acct job_id : uuid)
    : rtxn AcceptSubmissionOutcome :=
  fun t =>
    let? cur := load_submission t id acct in
    let enqueue t1 :=
      match enqueue_receipt_job now utc_now job_id JOB_TYPE_INGEST id acct t1 with
      | Ok (Work.Enqueued, t2) => Ok (Accepted Queued, t2)
      | Ok (Work.DuplicateJob, t2) => Ok (DuplicateJob, t2)
      | Err e => Err e
      end in
    match sub_state cur with
    | Pending =>
        match transition_state now id acct Pending Queued None None None None t with
        | Ok (_, t1) => enqueue t1
        | Err e => Err e
        end
    | Queued => enqueue t
    | s => Ok (Replayed id s, t)
    end.

Definition accept_submission_in_transaction (now utc_now : Z) (r : AcceptSubmissionRequest)
    : rtxn AcceptSubmissionOutcome :=
  fun t =>
    if negb (account_is_active t (ac_account_id r)) then Err (conflict (s! "account is not active"))
    else
    let? ins := insert_submission (ac_submission_id r) (ac_account_id r) (ac_inbound_event_id r) t in
    let '(inserted, t1) := ins in
    if inserted then
      finish_accept_in_transaction now utc_now (ac_submission_id r) (ac_account_id r) (ac_ingest_job_id r) t1
    else
    let? existing := ok_or (load_existing_submission t1 (ac_submission_id r) (ac_inbound_event_id r))
                           (dependency (s! "replay lookup failed")) in
    let '(eid, row) := existing in
    if negb (bool_decide (sub_account row = ac_account_id r))
    then Err (conflict (s! "inbound event belongs to a different account"))
    else if bool_decide (sub_state row = Pending)
    then finish_accept_in_transaction now utc_now eid (sub_account row) (ac_ingest_job_id r) t1
    else Ok (Replayed eid (sub_state row), t1).

End Enqueue.

(** ** Review: confirm, reject, edit *)

Definition confirm_in_transaction (now : Z) (r : ConfirmRequest) : rtxn ConfirmOutcome :=
  fun t =>
    let? s := load_submission t (cf_submission_id r) (cf_account_id r) in
    match sub_state s with
    | Confirmed =>
        match sub_confirmed_expense s with
        | Some e => Ok (CAlreadyConfirmed e, t)
        | None => Err (dependency (s! "confirmed submission missing expense"))
        end
    | ReviewRequired =>
        let? d := load_draft t (cf_submission_id r) (cf_account_id r) in
        if negb (version d =? cf_expected_draft_version r) then Err (conflict (s! "draft version mismatch"))
        else
        (let* _ := insert_confirmed_expense (cf_expense_id r) (cf_account_id r) (cf_submission_id r) d in
         let* e := lookup_confirmed_expense_id (cf_submission_id r) in
         let* _ := transition_state now (cf_submission_id r) (cf_account_id r) ReviewRequired Confirmed
                     None None (Some e) None in
         t_ret (CConfirmed e)) t
    | _ => Err (conflict (s! "submission is not awaiting review"))
    end.

Definition reject_in_transaction (now : Z) (r : RejectRequest) : rtxn unit :=
  fun t =>
    let? s := load_submission t (rj_submission_id r) (rj_account_id r) in
    match sub_state s with
    | Rejected => Ok (tt, t)
    | ReviewRequired =>
        let? d := load_draft t (rj_submission_id r) (rj_account_id r) in
        if negb (version d =? rj_expected_draft_version r) then Err (conflict (s! "draft version mismatch"))
        else transition_state now (rj_submission_id r) (rj_account_id r) ReviewRequired Rejected
               None None None None t
    | _ => Err (conflict (s! "submission is not awaiting review"))
    end.

(** One [if let Some(v) = request.f && v != draft.f] block of [edit_draft]. *)
Definition edit_field {A} `{EqDecision A} (did id : uuid) (field : rstr) (show : A -> rstr)
    (requested : option A) (old : A) : rtxn A :=
  match requested with
  | Some v =>
      if bool_decide (v = old) then t_ret old
      else let* _ := record_correction did id field (Some (show old)) (Some (show v)) in t_ret v
  | None => t_ret old
  end.

Definition opt_check {A} (f : A -> result unit ReceiptError) (o : option A) : rtxn unit :=
  match o with Some v => t_lift (f v) | None => t_ret tt end.

Section Edit.
Context {C : Chrono}.

Definition edit_draft_in_transaction (r : EditDraftRequest) : rtxn ExpenseDraftView :=
  fun t =>
    let id := ed_submission_id r in
    let? s := load_submission t id (ed_account_id r) in
    if negb (bool_decide (sub_state s = ReviewRequired))
    then Err (conflict (s! "draft can only be edited while review is required"))
    else
    let? d := load_draft t id (ed_account_id r) in
    if negb (version d =? ed_expected_version r) then Err (conflict (s! "draft version mismatch"))
    else
    (let* _ := opt_check validate_amount_minor (ed_amount_minor r) in
     let* _ := opt_check validate_currency (ed_currency r) in
     let* m := match ed_merchant r with
               | Some m => let* m' := t_lift (validate_merchant m) in t_ret (Some m')
               | None => t_ret None
               end in
     let* _ := opt_check (ensure_category t) (ed_category_key r) in
     let* amount := edit_field (draft_id d) id (s! "amount_minor") dec_signed (ed_amount_minor r) (amount_minor d) in
     let* cur := edit_field (draft_id d) id (s! "currency") (fun x => x) (ed_currency r) (currency d) in
     let* mer := edit_field (draft_id d) id (s! "merchant") (fun x => x) m (merchant d) in
     let* cat := edit_field (draft_id d) id (s! "category_key") (fun x => x) (ed_category_key r) (category_key d) in
     let* occ := edit_field (draft_id d) id (s! "occurred_at") to_rfc3339 (ed_occurred_at r) (occurred_at d) in
     let* _ := opt_check validate_transaction_type (ed_transaction_type r) in
     let* ty := edit_field (draft_id d) id (s! "transaction_type") (fun x => x)
                  (ed_transaction_type r) (transaction_type d) in
     let next v := {| draft_id := draft_id d; dr_account_id := dr_account_id d;
                      amount_minor := amount; currency := cur; merchant := mer; category_key := cat;
                      transaction_type := ty; occurred_at := occ; confidence := confidence d;
                      version := v |} in
     let* _ := update_draft id (next (ed_expected_version r)) in
     t_ret (next (ed_expected_version r + 1))) t.
End Edit.

(** ** Failing, absorbing and expiring *)

Definition fail_queued (now : Z) (id acct : uuid) (class : Errors.ErrorClass) : rtxn unit :=
  fun t =>
    let? cur := load_submission t id acct in
    match sub_state cur with
    | FailedPermanent => Ok (tt, t)
    | Queued => transition_state now id acct Queued FailedPermanent (Some (Errors.as_str class)) None None None t
    | _ => Err (conflict (s! "submission is not queued"))
    end.

Definition absorb_duplicate (now : Z) (id acct original : uuid) : rtxn unit :=
  fun t =>
    let? cur := load_submission t id acct in
    if bool_decide (sub_duplicate_of cur = Some original) && bool_decide (sub_state cur = FailedPermanent)
    then Ok (tt, t)
    else transition_state now id acct (sub_state cur) FailedPermanent
           (Some (Errors.as_str Errors.Duplicate)) None None (Some original) t.

Definition mark_failure (now : Z) (id acct : uuid) (terminal : ReceiptState) (class : Errors.ErrorClass)
    : rtxn unit :=
  fun t =>
    let? cur := load_submission t id acct in
    if can_transition (sub_state cur) terminal
    then transition_state now id acct (sub_state cur) terminal (Some (Errors.as_str class)) None None None t
    else Ok (tt, t).

Definition expires_before (p q : uuid * submission) : Prop :=
  match sub_review_expires_at p.2, sub_review_expires_at q.2 with
  | Some a, Some b => a <= b
  | _, _ => True
  end.
#[export] Instance expires_before_dec p q : Decision (expires_before p q).
Proof. unfold expires_before. repeat case_match; apply _. Defined.

Definition expired_review (now : Z) (r : submission) : bool :=
  bool_decide (sub_state r = ReviewRequired)
  && match sub_review_expires_at r with Some e => e <=? now | None => false end.

Definition expire_candidates (now batch_limit : Z) (row_locked : uuid -> bool) (t : tables) : list (uuid * submission) :=
  take (Z.to_nat batch_limit)
    (merge_sort expires_before
       (List.filter (fun p => expired_review now p.2 && negb (row_locked p.1))
          (map_to_list (submissions t)))).

Fixpoint expire_loop (now : Z) (cs : list (uuid * submission)) (expired : Z) : rtxn Z :=
  match cs with
  | [] => t_ret expired
  | (id, c) :: cs' =>
      let* cur := (fun t => match load_submission t id (sub_account c) with
                            | Ok r => Ok (r, t) | Err e => Err e end) in
      if negb (bool_decide (sub_state cur = ReviewRequired)) then expire_loop now cs' expired
      else let* _ := transition_state now id (sub_account c) ReviewRequired Expired None None None None in
           expire_loop now cs' (expired + 1)
  end.

Definition expire_reviews (now batch_limit : Z) (row_locked : uuid -> bool) : rtxn Z :=
  fun t =>
    if batch_limit <=? 0 then Err (validation (s! "batch_limit must be positive"))
    else expire_loop now (expire_candidates now batch_limit row_locked t) 0 t.

(** Marking the asset of a submission deleted ([WHERE deletion_state = 'active']). *)
Definition mark_asset_deleted (now : Z) (id : uuid) (t : tables) : tables :=
  set_assets (alter (fun a =>
    if bool_decide (as_deletion_state a = Active)
    then {| as_account := as_account a; as_object_key := as_object_key a;
            as_content_sha256 := as_content_sha256 a; as_mime_type := as_mime_type a;
            as_size_bytes := as_size_bytes a; as_width_px := as_width_px a;
            as_height_px := as_height_px a; as_pixel_count := as_pixel_count a;
            as_retention_deadline := as_retention_deadline a;
            as_deletion_state := AssetDeleted; as_original_deleted_at := Some now |}
    else a) id) t.

(** The transaction of [delete_original], after the object is gone. *)
Definition delete_original_tx (now : Z) (id acct : uuid) : rtxn unit :=
  fun t =>
    let? s := load_submission t id acct in
    let? t1 := (if bool_decide (sub_state s = Deleted) then Ok t
                else if negb (can_transition (sub_state s) Deleted)
                then Err (conflict (s! "submission cannot delete original in current state"))
                else match transition_state now id acct (sub_state s) Deleted None None None None t with
                     | Ok (_, t1) => Ok t1
                     | Err e => Err e
                     end) in
    Ok (tt, mark_asset_deleted now id t1).

(** ** Ingest and extraction transactions *)

Inductive PersistResult := PDone (o : IngestOutcome) | PUniqueConflict.

Section IngestTx.
Context {UT : UuidText}.

(** The transaction of [persist_stored_ingest]; the unique conflict rolls it back. *)
Definition persist_stored_ingest_tx (now utc_now : Z) (acct id : uuid) (key : rstr)
    (v : ValidatedImage) (extract_job_id : uuid) : rtxn PersistResult :=
  fun t =>
    let? cur := load_submission t id acct in
    let s := sub_state cur in
    match s with
    | Stored | Extracting | ReviewRequired | Confirmed => Ok (PDone (IAlreadyStored id), t)
    | Rejected | Expired | FailedPermanent | Deleted => Ok (PDone (IAlreadyTerminal s), t)
    | Pending => Err (conflict (s! "submission not ready for ingest"))
    | Queued | FailedTransient =>
        match transition_state now id acct s Stored None None None None t with
        | Err e => Err e
        | Ok (_, t1) =>
            match insert_asset now id acct key v t1 with
            | Err e => Err e
            | Ok (UniqueConflict, _) => Ok (PUniqueConflict, t)
            | Ok (Inserted, t2) =>
                match enqueue_receipt_job now utc_now extract_job_id JOB_TYPE_EXTRACT id acct t2 with
                | Err e => Err e
                | Ok (_, t3) => Ok (PDone (IStored id (content_sha256 v)), t3)
                end
            end
        end
    end.
End IngestTx.

Inductive ExtractClaim := Proceed | Done (o : ExtractOutcome).

Definition claim_extracting (now : Z) (acct id : uuid) : rtxn ExtractClaim :=
  fun t =>
    let? cur := load_submission t id acct in
    match sub_state cur with
    | ReviewRequired => Ok (Done (XAlreadyReviewRequired id), t)
    | Confirmed | Rejected | Expired | FailedPermanent | Deleted =>
        Ok (Done (XAlreadyTerminal (sub_state cur)), t)
    | Stored | FailedTransient =>
        match transition_state now id acct (sub_state cur) Extracting None None None None t with
        | Ok (_, t1) => Ok (Proceed, t1)
        | Err e => Err e
        end
    | Extracting => Ok (Proceed, t)
    | Pending | Queued => Err (conflict (s! "submission not ready for extraction"))
    end.

Definition persist_extraction_success (cfg : ReceiptConfig) (now : Z) (acct id did : uuid)
    (x : ExtractionResult) (latency_ms : Z) (meta : ExtractionMeta) : rtxn ExtractOutcome :=
  fun t =>
    let? cur := load_submission t id acct in
    match sub_state cur with
    | ReviewRequired => Ok (XAlreadyReviewRequired id, t)
    | Confirmed | Rejected | Expired | FailedPermanent | Deleted =>
        Ok (XAlreadyTerminal (sub_state cur), t)
    | Extracting =>
        (let* _ := record_extraction_attempt id (attempt_count t id + 1) (s! "success") None latency_ms meta in
         let* _ := upsert_draft did id acct x in
         let* _ := transition_state now id acct Extracting ReviewRequired None
                     (Some (review_expiry_hours cfg)) None None in
         t_ret (XReviewRequired id did)) t
    | _ => Err (conflict (s! "submission not ready for extraction"))
    end.

Definition persist_extraction_failure (now : Z) (acct id : uuid) (outcome : rstr)
    (class : Errors.ErrorClass) (terminal : ReceiptState) (latency_ms : Z) (meta : ExtractionMeta)
    : rtxn unit :=
  fun t =>
    let? cur := load_submission t id acct in
    if negb (bool_decide (sub_state cur = Extracting)) then Ok (tt, t)
    else
    (let* _ := record_extraction_attempt id (attempt_count t id + 1) outcome
                 (Some (Errors.as_str class)) latency_ms meta in
     transition_state now id acct Extracting terminal (Some (Errors.as_str class)) None None None) t.

Definition failure_state_for (class : Errors.ErrorClass) : ReceiptState :=
  match class with
  | Errors.Transient | Errors.Timeout | Errors.RateLimited | Errors.Dependency => FailedTransient
  | _ => FailedPermanent
  end.

(** The quota transaction of [extract]. *)
Definition extraction_quota_tx {C : Chrono} (cfg : ReceiptConfig) (utc_now : Z) : rtxn Quota.QuotaOutcome :=
  fun t =>
    let limit := if monthly_extraction_pages cfg <=? i64_max then monthly_extraction_pages cfg else i64_max in
    match Quota.increment_in_transaction
            {| Quota.scope := Quota.SCOPE_GLOBAL; Quota.scope_id := Quota.GLOBAL_SCOPE_ID;
               Quota.period := Quota.monthly_period_key utc_now;
               Quota.metric := Quota.METRIC_EXTRACTION_PAGES |} limit (usage t) with
    | Ok (q, u) => Ok (q, set_usage u t)
    | Err _ => Err (dependency (s! "quota increment failed"))
    end.

(** ** The methods over tables and object store *)

Section Methods.
Context {UT : UuidText} {IL : ImageLib} {OS : ObjectStore} {XT : Extractor} {C : Chrono}.
Context (cfg : ReceiptConfig).

Definition store : Type := tables * objects.
Abbreviation rprog A := (prog store ReceiptError A).

(** One committed transaction, and one object store call. *)
Definition in_tx {A} (m : rtxn A) : rprog A :=
  fun s => let '(t', r) := atomically m s.1 in ((t', s.2), r).
Definition on_objects {A} (m : prog objects ReceiptError A) : rprog A :=
  fun s => let '(o', r) := m s.2 in ((s.1, o'), r).

Definition persist_stored_ingest (now utc_now : Z) (acct id : uuid) (key : rstr)
    (v : ValidatedImage) (extract_job_id : uuid) : rprog IngestOutcome :=
  let% r := in_tx (persist_stored_ingest_tx now utc_now acct id key v extract_job_id) in
  match r with
  | PDone o => p_ret o
  | PUniqueConflict =>
      let% dup := p_read (fun s => Ok (find_active_duplicate s.1 acct (content_sha256 v))) in
      match dup with
      | Some original =>
          if bool_decide (original = id) then p_ret (IAlreadyStored id)
          else let% _ := in_tx (absorb_duplicate now id acct original) in
               p_ret (IDuplicateAbsorbed id original)
      | None => p_ret (IAlreadyStored id)
      end
  end.

Definition compensate_orphan_object (acct id : uuid) (key : rstr) : rprog unit :=
  let% a := p_read (fun s => Ok (load_asset s.1 id acct)) in
  match a with
  | Some _ => p_ret tt
  | None => p_try (on_objects (os_delete key)) (fun _ => p_ret tt)
  end.

Definition p_lift {A} (r : result A ReceiptError) : rprog A := p_read (fun _ => r).

Definition ingest (now utc_now : Z) (acct id : uuid) (bytes : list Z) (mime : rstr)
    (extract_job_id : uuid) : rprog IngestOutcome :=
  let% active := p_read (fun s => Ok (account_is_active s.1 acct)) in
  if negb active then p_ret (IAlreadyTerminal Deleted)
  else
  let% row := p_read (fun s => load_submission s.1 id acct) in
  let% asset := p_read (fun s => Ok (load_asset s.1 id acct)) in
  let proceed :=
    match validate_image bytes mime with
    | Err e =>
        let% _ := in_tx (mark_failure now id acct FailedPermanent (re_class e)) in
        p_err e
    | Ok v =>
        let% dup := p_read (fun s => Ok (find_active_duplicate s.1 acct (content_sha256 v))) in
        let store_new :=
          let key := object_key acct id (content_sha256 v) in
          let% _ := on_objects (os_put key bytes) in
          p_try (persist_stored_ingest now utc_now acct id key v extract_job_id)
            (fun persist =>
               match persist with
               | Ok (IStored _ _) | Ok (IAlreadyStored _) => p_lift persist
               | _ => let% _ := compensate_orphan_object acct id key in p_lift persist
               end) in
        match dup with
        | Some original =>
            if bool_decide (original = id) then store_new
            else let% _ := in_tx (absorb_duplicate now id acct original) in
                 p_ret (IDuplicateAbsorbed id original)
        | None => store_new
        end
    end in
  match sub_state row with
  | Stored | Extracting | ReviewRequired | Confirmed => p_ret (IAlreadyStored id)
  | FailedTransient => if negb (is_none asset) then p_ret (IAlreadyStored id) else proceed
  | Rejected | Expired | FailedPermanent | Deleted => p_ret (IAlreadyTerminal (sub_state row))
  | Queued => proceed
  | Pending => p_err (conflict (s! "submission not ready for ingest"))
  end.

Definition read_and_extract (acct id : uuid) : rprog ExtractedAttempt :=
  let% a := p_read (fun s => ok_or (load_asset s.1 id acct) (not_found (s! "receipt asset not found"))) in
  let% b := p_read (fun s => os_get (as_object_key a) s.2) in
  let% bytes := p_lift (ok_or b (not_found (s! "receipt object missing"))) in
  p_lift (extract_bytes bytes).

Definition extract (now utc_now latency_ms : Z) (did : uuid) (acct id : uuid) : rprog ExtractOutcome :=
  let% c := in_tx (claim_extracting now acct id) in
  match c with
  | Done o => p_ret o
  | Proceed =>
      let% active := p_read (fun s => Ok (account_is_active s.1 acct)) in
      if negb active then p_ret (XAlreadyTerminal Deleted)
      else if negb (extraction_enabled cfg) then
        let% _ := in_tx (persist_extraction_failure now acct id (s! "failed") Errors.KillSwitch
                           FailedPermanent 0 extractor_meta) in
        p_err (kill_switch (s! "extraction is disabled"))
      else
      let% quota := in_tx (extraction_quota_tx cfg utc_now) in
      if Quota.exceeded quota then
        let% _ := in_tx (persist_extraction_failure now acct id (s! "failed") Errors.QuotaExceeded
                           FailedPermanent 0 extractor_meta) in
        p_err (quota_exceeded (s! "monthly extraction quota exceeded"))
      else
      p_try (read_and_extract acct id) (fun extracted =>
        match extracted with
        | Ok attempt =>
            if x_unsupported (x_result attempt) then
              let% _ := in_tx (persist_extraction_failure now acct id (s! "failed") Errors.Unsupported
                                 FailedPermanent latency_ms (x_meta attempt)) in
              p_ret XUnsupported
            else in_tx (persist_extraction_success cfg now acct id did (x_result attempt) latency_ms (x_meta attempt))
        | Err e =>
            let% _ := in_tx (persist_extraction_failure now acct id (s! "failed") (re_class e)
                               (failure_state_for (re_class e)) latency_ms extractor_meta) in
            p_err e
        end)
  end.

Definition delete_original (now : Z) (acct id : uuid) : rprog unit :=
  let% a := p_read (fun s => ok_or (load_asset s.1 id acct) (not_found (s! "receipt asset not found"))) in
  if bool_decide (as_deletion_state a = AssetDeleted) then p_ret tt
  else
  let% _ := on_objects (os_delete (as_object_key a)) in
  in_tx (delete_original_tx now id acct).

Definition deadline_before (p q : uuid * asset) : Prop :=
  as_retention_deadline p.2 <= as_retention_deadline q.2.
#[export] Instance deadline_before_dec p q : Decision (deadline_before p q).
Proof. unfold deadline_before. apply _. Defined.

Definition retention_due (now : Z) (t : tables) (p : uuid * asset) : bool :=
  bool_decide (as_deletion_state p.2 = Active) && (as_retention_deadline p.2 <=? now)
  && match submissions t !! p.1 with
     | Some s => bool_decide (sub_account s = as_account p.2)
                 && match sub_state s with
                    | Confirmed | Rejected | Expired | FailedPermanent => true
                    | _ => false
                    end
     | None => false
     end.

Definition retention_candidates (now batch_limit : Z) (row_locked : uuid -> bool) (t : tables)
    : list (uuid * asset) :=
  take (Z.to_nat batch_limit)
    (merge_sort deadline_before
       (List.filter (fun p => retention_due now t p && negb (row_locked p.1)) (map_to_list (assets t)))).

Fixpoint delete_objects (keys : list rstr) : rprog unit :=
  match keys with
  | [] => p_ret tt
  | k :: ks => let% _ := on_objects (os_delete k) in delete_objects ks
  end.

(** The rows are locked from the selection to the commit; deleted objects stay
    deleted when a later deletion fails and the transaction rolls back. *)
Definition retention_sweep (now batch_limit : Z) (row_locked : uuid -> bool) : rprog Z :=
  if batch_limit <=? 0 then p_err (validation (s! "batch_limit must be positive"))
  else
  let% rows := p_read (fun s => Ok (retention_candidates now batch_limit row_locked s.1)) in
  let% _ := delete_objects (map (fun p => as_object_key p.2) rows) in
  in_tx (fun t => Ok (Z.of_nat (length rows),
                      fold_left (fun t p => mark_asset_deleted now p.1 t) rows t)).

Record ReceiptStateView := {
  rv_submission_id : uuid;
  rv_row : submission;
  rv_asset_deleted : bool;
}.

Definition asset_deleted (t : tables) (id : uuid) : bool :=
  match assets t !! id with
  | Some a => bool_decide (as_deletion_state a = AssetDeleted)
  | None => false
  end.

Definition get_state (acct id : uuid) (t : tables) : result ReceiptStateView ReceiptError :=
  let? row := load_submission t id acct in
  Ok {| rv_submission_id := id; rv_row := row; rv_asset_deleted := asset_deleted t id |}.

Definition get_draft (acct id : uuid) (t : tables) : result ExpenseDraftView ReceiptError :=
  load_draft t id acct.

Definition accept_submission now utc_now r := in_tx (accept_submission_in_transaction now utc_now r).
Definition confirm now r := in_tx (confirm_in_transaction now r).
Definition reject now r := in_tx (reject_in_transaction now r).
Definition edit_draft r := in_tx (edit_draft_in_transaction r).

End Methods.

End Receipt.
