(* ===== verification/Database.v ===== *)
(** * The database as the ingress, account, insight and outbound code sees it

    The tables of migrations 001, 002, 005 and 007 to 011 next to the tables of the
    receipt lifecycle ([rt], which include the job queue and the usage counters).

    Columns of [accounts] and [expenses] that the receipt lifecycle does not read are
    maps of their own, keyed like the rows: a row of [rt] without an entry has the
    DEFAULT values of those columns.  Rows are keyed by a unique column of theirs:
    identities and events by scope and provider id, conversation states and deletion
    requests by account, schedules by account and frequency, snapshots by their unique
    index.  Columns that nothing reads are left out, as is [account_ai_preferences],
    which nothing writes. *)

From S2P Require Import Prelude RustStr RustStrFacts Platform Errors Work Quota ReceiptTypes Receipt.

Module Db.
Import (hints) Errors Work Quota ReceiptTypes Receipt.

Abbreviation uuid := N.

(** ** Rows *)

Record account_columns := {
  consent_version : option rstr;
  locale : rstr;
  timezone : rstr;
  default_currency : rstr;
}.

(** The column DEFAULTs of [accounts]. *)
Definition default_account : account_columns := {|
  consent_version := None; locale := s! "vi-VN"; timezone := s! "Asia/Ho_Chi_Minh";
  default_currency := s! "VND" |}.
Definition DEFAULT_RETENTION_DAYS : Z := 7.

Record inbound_event := {
  ev_id : uuid;
  ev_kind : rstr;
  ev_processing_state : rstr;
  ev_ingress_source : rstr;
  ev_account : option uuid;
  ev_processed_at : option Z;
  ev_media_url : option rstr;
  ev_provider_chat_id : rstr;
}.

Record conversation_state := {
  pending_action_type : option rstr;
  pending_payload_ref : option rstr;
  expires_at : option Z;
  cs_version : Z;
}.

Record expense_columns := { ex_version : Z; ex_created_at : Z }.

Inductive OutboundState := ObQueued | ObSending | ObSent | ObFailed | ObSuppressed | ObAmbiguous.
#[export] Instance OutboundState_eq_dec : EqDecision OutboundState.
Proof. solve_decision. Defined.

Record outbound_message := {
  ob_account : option uuid;
  ob_inbound_event : option uuid;
  ob_idempotency_key : rstr;
  ob_provider_scope : rstr;
  ob_provider_target : rstr;
  ob_body : rstr;
  ob_state : OutboundState;
  ob_provider_message_id : option rstr;
  ob_attempt_count : Z;
  ob_last_error_class : option rstr;
  ob_ambiguity_reason : option rstr;
  ob_created_at : Z;
}.

Record summary_schedule := {
  sch_id : uuid;
  sch_delivery_minute : Z;
  sch_provider_scope : rstr;
  sch_provider_chat_id : rstr;
  sch_enabled : bool;
  sch_next_run_at : Z;
  sch_last_emitted_at : option Z;
}.

Record deletion_request := {
  dq_id : uuid;
  dq_state : rstr;
  dq_expense_count : Z;
  dq_completed_at : option Z;
}.

Record export_artifact := {
  xp_account : uuid;
  xp_format : rstr;
  xp_object_key : rstr;
  xp_byte_size : Z;
}.

Record snapshot_key := {
  sk_account : uuid;
  sk_period_kind : rstr;
  sk_period_start : Z;
  sk_timezone : rstr;
}.
#[export] Instance snapshot_key_eq_dec : EqDecision snapshot_key.
Proof. solve_decision. Defined.
#[export] Instance snapshot_key_countable : Countable snapshot_key.
Proof.
  apply (inj_countable' (fun k => (sk_account k, sk_period_kind k, sk_period_start k, sk_timezone k))
    (fun '(a, b, c, d) => {| sk_account := a; sk_period_kind := b; sk_period_start := c; sk_timezone := d |})).
  by intros [].
Defined.

Record insight_snapshot := {
  is_id : uuid;
  is_period_end : Z;
  is_aggregate : Work.json;
  is_narrative_text : option rstr;
  is_narrative_profile : option rstr;
  is_narrative_generated_at : option Z;
}.

Record db := {
  rt : Receipt.tables;
  account_cols : gmap uuid account_columns;
  provider_identities : gmap (rstr * rstr) uuid;
  inbound_events : gmap (rstr * rstr) inbound_event;
  ingress_mode : rstr;
  mode_generation : Z;
  conversation_states : gmap uuid conversation_state;
  expense_cols : gmap uuid expense_columns;
  category_names : gmap rstr (rstr * rstr);
  outbound_messages : gmap uuid outbound_message;
  summary_schedules : gmap (uuid * rstr) summary_schedule;
  role_leases : gmap rstr (rstr * Z);
  deletion_requests : gmap uuid deletion_request;
  export_artifacts : gmap uuid export_artifact;
  insight_snapshots : gmap snapshot_key insight_snapshot;
}.

(** ** Updates of one table *)

Definition upd_rt (f : Receipt.tables -> Receipt.tables) (d : db) : db :=
  {| rt := f (rt d); account_cols := account_cols d; provider_identities := provider_identities d;
     inbound_events := inbound_events d; ingress_mode := ingress_mode d; mode_generation := mode_generation d;
     conversation_states := conversation_states d; expense_cols := expense_cols d; category_names :=
     category_names d; outbound_messages := outbound_messages d; summary_schedules := summary_schedules d;
     role_leases := role_leases d; deletion_requests := deletion_requests d; export_artifacts :=
     export_artifacts d; insight_snapshots := insight_snapshots d |}.
Definition upd_account_cols (f : gmap uuid account_columns -> gmap uuid account_columns) (d : db) : db :=
  {| rt := rt d; account_cols := f (account_cols d); provider_identities := provider_identities d;
     inbound_events := inbound_events d; ingress_mode := ingress_mode d; mode_generation := mode_generation d;
     conversation_states := conversation_states d; expense_cols := expense_cols d; category_names :=
     category_names d; outbound_messages := outbound_messages d; summary_schedules := summary_schedules d;
     role_leases := role_leases d; deletion_requests := deletion_requests d; export_artifacts :=
     export_artifacts d; insight_snapshots := insight_snapshots d |}.
Definition upd_provider_identities (f : gmap (rstr * rstr) uuid -> gmap (rstr * rstr) uuid) (d : db) : db :=
  {| rt := rt d; account_cols := account_cols d; provider_identities := f (provider_identities d);
     inbound_events := inbound_events d; ingress_mode := ingress_mode d; mode_generation := mode_generation d;
     conversation_states := conversation_states d; expense_cols := expense_cols d; category_names :=
     category_names d; outbound_messages := outbound_messages d; summary_schedules := summary_schedules d;
     role_leases := role_leases d; deletion_requests := deletion_requests d; export_artifacts :=
     export_artifacts d; insight_snapshots := insight_snapshots d |}.
Definition upd_inbound_events (f : gmap (rstr * rstr) inbound_event -> gmap (rstr * rstr) inbound_event) (d : db) : db :=
  {| rt := rt d; account_cols := account_cols d; provider_identities := provider_identities d; inbound_events
     := f (inbound_events d); ingress_mode := ingress_mode d; mode_generation := mode_generation d;
     conversation_states := conversation_states d; expense_cols := expense_cols d; category_names :=
     category_names d; outbound_messages := outbound_messages d; summary_schedules := summary_schedules d;
     role_leases := role_leases d; deletion_requests := deletion_requests d; export_artifacts :=
     export_artifacts d; insight_snapshots := insight_snapshots d |}.
Definition upd_ingress_mode (f : rstr -> rstr) (d : db) : db :=
  {| rt := rt d; account_cols := account_cols d; provider_identities := provider_identities d; inbound_events
     := inbound_events d; ingress_mode := f (ingress_mode d); mode_generation := mode_generation d;
     conversation_states := conversation_states d; expense_cols := expense_cols d; category_names :=
     category_names d; outbound_messages := outbound_messages d; summary_schedules := summary_schedules d;
     role_leases := role_leases d; deletion_requests := deletion_requests d; export_artifacts :=
     export_artifacts d; insight_snapshots := insight_snapshots d |}.
Definition upd_mode_generation (f : Z -> Z) (d : db) : db :=
  {| rt := rt d; account_cols := account_cols d; provider_identities := provider_identities d; inbound_events
     := inbound_events d; ingress_mode := ingress_mode d; mode_generation := f (mode_generation d);
     conversation_states := conversation_states d; expense_cols := expense_cols d; category_names :=
     category_names d; outbound_messages := outbound_messages d; summary_schedules := summary_schedules d;
     role_leases := role_leases d; deletion_requests := deletion_requests d; export_artifacts :=
     export_artifacts d; insight_snapshots := insight_snapshots d |}.
Definition upd_conversation_states (f : gmap uuid conversation_state -> gmap uuid conversation_state) (d : db) : db :=
  {| rt := rt d; account_cols := account_cols d; provider_identities := provider_identities d; inbound_events
     := inbound_events d; ingress_mode := ingress_mode d; mode_generation := mode_generation d;
     conversation_states := f (conversation_states d); expense_cols := expense_cols d; category_names :=
     category_names d; outbound_messages := outbound_messages d; summary_schedules := summary_schedules d;
     role_leases := role_leases d; deletion_requests := deletion_requests d; export_artifacts :=
     export_artifacts d; insight_snapshots := insight_snapshots d |}.
Definition upd_expense_cols (f : gmap uuid expense_columns -> gmap uuid expense_columns) (d : db) : db :=
  {| rt := rt d; account_cols := account_cols d; provider_identities := provider_identities d; inbound_events
     := inbound_events d; ingress_mode := ingress_mode d; mode_generation := mode_generation d;
     conversation_states := conversation_states d; expense_cols := f (expense_cols d); category_names :=
     category_names d; outbound_messages := outbound_messages d; summary_schedules := summary_schedules d;
     role_leases := role_leases d; deletion_requests := deletion_requests d; export_artifacts :=
     export_artifacts d; insight_snapshots := insight_snapshots d |}.
Definition upd_category_names (f : gmap rstr (rstr * rstr) -> gmap rstr (rstr * rstr)) (d : db) : db :=
  {| rt := rt d; account_cols := account_cols d; provider_identities := provider_identities d; inbound_events
     := inbound_events d; ingress_mode := ingress_mode d; mode_generation := mode_generation d;
     conversation_states := conversation_states d; expense_cols := expense_cols d; category_names := f
     (category_names d); outbound_messages := outbound_messages d; summary_schedules := summary_schedules d;
     role_leases := role_leases d; deletion_requests := deletion_requests d; export_artifacts :=
     export_artifacts d; insight_snapshots := insight_snapshots d |}.
Definition upd_outbound_messages (f : gmap uuid outbound_message -> gmap uuid outbound_message) (d : db) : db :=
  {| rt := rt d; account_cols := account_cols d; provider_identities := provider_identities d; inbound_events
     := inbound_events d; ingress_mode := ingress_mode d; mode_generation := mode_generation d;
     conversation_states := conversation_states d; expense_cols := expense_cols d; category_names :=
     category_names d; outbound_messages := f (outbound_messages d); summary_schedules := summary_schedules d;
     role_leases := role_leases d; deletion_requests := deletion_requests d; export_artifacts :=
     export_artifacts d; insight_snapshots := insight_snapshots d |}.
Definition upd_summary_schedules (f : gmap (uuid * rstr) summary_schedule -> gmap (uuid * rstr) summary_schedule) (d : db) : db :=
  {| rt := rt d; account_cols := account_cols d; provider_identities := provider_identities d; inbound_events
     := inbound_events d; ingress_mode := ingress_mode d; mode_generation := mode_generation d;
     conversation_states := conversation_states d; expense_cols := expense_cols d; category_names :=
     category_names d; outbound_messages := outbound_messages d; summary_schedules := f (summary_schedules d);
     role_leases := role_leases d; deletion_requests := deletion_requests d; export_artifacts :=
     export_artifacts d; insight_snapshots := insight_snapshots d |}.
Definition upd_role_leases (f : gmap rstr (rstr * Z) -> gmap rstr (rstr * Z)) (d : db) : db :=
  {| rt := rt d; account_cols := account_cols d; provider_identities := provider_identities d; inbound_events
     := inbound_events d; ingress_mode := ingress_mode d; mode_generation := mode_generation d;
     conversation_states := conversation_states d; expense_cols := expense_cols d; category_names :=
     category_names d; outbound_messages := outbound_messages d; summary_schedules := summary_schedules d;
     role_leases := f (role_leases d); deletion_requests := deletion_requests d; export_artifacts :=
     export_artifacts d; insight_snapshots := insight_snapshots d |}.
Definition upd_deletion_requests (f : gmap uuid deletion_request -> gmap uuid deletion_request) (d : db) : db :=
  {| rt := rt d; account_cols := account_cols d; provider_identities := provider_identities d; inbound_events
     := inbound_events d; ingress_mode := ingress_mode d; mode_generation := mode_generation d;
     conversation_states := conversation_states d; expense_cols := expense_cols d; category_names :=
     category_names d; outbound_messages := outbound_messages d; summary_schedules := summary_schedules d;
     role_leases := role_leases d; deletion_requests := f (deletion_requests d); export_artifacts :=
     export_artifacts d; insight_snapshots := insight_snapshots d |}.
Definition upd_export_artifacts (f : gmap uuid export_artifact -> gmap uuid export_artifact) (d : db) : db :=
  {| rt := rt d; account_cols := account_cols d; provider_identities := provider_identities d; inbound_events
     := inbound_events d; ingress_mode := ingress_mode d; mode_generation := mode_generation d;
     conversation_states := conversation_states d; expense_cols := expense_cols d; category_names :=
     category_names d; outbound_messages := outbound_messages d; summary_schedules := summary_schedules d;
     role_leases := role_leases d; deletion_requests := deletion_requests d; export_artifacts := f
     (export_artifacts d); insight_snapshots := insight_snapshots d |}.
Definition upd_insight_snapshots (f : gmap snapshot_key insight_snapshot -> gmap snapshot_key insight_snapshot) (d : db) : db :=
  {| rt := rt d; account_cols := account_cols d; provider_identities := provider_identities d; inbound_events
     := inbound_events d; ingress_mode := ingress_mode d; mode_generation := mode_generation d;
     conversation_states := conversation_states d; expense_cols := expense_cols d; category_names :=
     category_names d; outbound_messages := outbound_messages d; summary_schedules := summary_schedules d;
     role_leases := role_leases d; deletion_requests := deletion_requests d; export_artifacts :=
     export_artifacts d; insight_snapshots := f (insight_snapshots d) |}.

(** ** Views of the rows *)

Definition accounts (d : db) : gmap uuid Receipt.account := Receipt.accounts (rt d).
Definition expenses (d : db) : gmap uuid Receipt.expense := Receipt.expenses (rt d).

Definition account_row (d : db) (a : uuid) : option (Receipt.account * account_columns) :=
  (fun r => (r, default default_account (account_cols d !! a))) <$> accounts d !! a.

Definition expense_version (d : db) (e : uuid) : Z :=
  match expense_cols d !! e with Some c => ex_version c | None => 1 end.
Definition expense_created_at (d : db) (e : uuid) : Z :=
  match expense_cols d !! e with Some c => ex_created_at c | None => 0 end.

(** The rows of one account among those of [expenses]. *)
Definition expenses_of (d : db) (a : uuid) : list (uuid * Receipt.expense) :=
  List.filter (fun p => bool_decide (Receipt.ex_account p.2 = a)) (map_to_list (expenses d)).
Definition is_confirmed (e : Receipt.expense) : bool := str_eqb (Receipt.ex_state e) (s! "confirmed").
Definition confirmed_of (d : db) (a : uuid) : list (uuid * Receipt.expense) :=
  List.filter (fun p => is_confirmed p.2) (expenses_of d a).

Definition outbound_with_key (d : db) (k : rstr) : option (uuid * outbound_message) :=
  List.find (fun p => str_eqb (ob_idempotency_key p.2) k) (map_to_list (outbound_messages d)).

(** ** A transaction of the receipt lifecycle on the whole database

    The rows of [expenses] that it inserts get the column DEFAULTs. *)
Definition fill_new_expenses (now : Z) (old new : gmap uuid Receipt.expense)
    (cols : gmap uuid expense_columns) : gmap uuid expense_columns :=
  ((fun _ => {| ex_version := 1; ex_created_at := now |}) <$> (new ∖ old)) ∪ cols.

Definition set_rt (now : Z) (t : Receipt.tables) (d : db) : db :=
  upd_expense_cols (fill_new_expenses now (expenses d) (Receipt.expenses t)) (upd_rt (fun _ => t) d).

Definition on_receipts {E A} (now : Z) (map_err : ReceiptTypes.ReceiptError -> E)
    (m : txn Receipt.tables ReceiptTypes.ReceiptError A) : txn db E A :=
  fun d => match m (rt d) with
           | Ok (a, t) => Ok (a, set_rt now t d)
           | Err e => Err (map_err e)
           end.

(** A transaction of the job queue, and one on the usage counters. *)
Definition on_queue {E A} (map_err : Work.WorkError -> E) (m : txn Work.db Work.WorkError A) : txn db E A :=
  fun d => match m (Receipt.queue (rt d)) with
           | Ok (a, q) => Ok (a, upd_rt (Receipt.set_queue q) d)
           | Err e => Err (map_err e)
           end.
Definition on_usage {E A} (map_err : Quota.QuotaError -> E) (m : txn Quota.usage Quota.QuotaError A) : txn db E A :=
  fun d => match m (Receipt.usage (rt d)) with
           | Ok (a, u) => Ok (a, upd_rt (Receipt.set_usage u) d)
           | Err e => Err (map_err e)
           end.

End Db.
