(* ===== verification/Insight.v ===== *)
(** * Insight snapshots ([src/src/insight/])

    The insight-v1 aggregate of a spending period, the snapshot row it is stored in, and
    the optional narrative made from the aggregate alone.  [GROUP BY] is a finite map from
    the grouping key to total and count; rows that tie in an [ORDER BY] come in any order.
    The narrator is the [InsightNarrator] trait. *)

From S2P Require Import Prelude RustStr RustStrFacts Platform Money Errors Work Quota Schedule.
From S2P Require Import ReceiptTypes Receipt Database.

(** ** [serde_json], and JSON comparison *)

Class SerdeJson := { json_to_vec : Work.json -> list Z }.

Fixpoint json_eqb (a b : Work.json) {struct a} : bool :=
  match a, b with
  | Work.JNull, Work.JNull => true
  | Work.JBool x, Work.JBool y => Bool.eqb x y
  | Work.JInt x, Work.JInt y => x =? y
  | Work.JFloat x, Work.JFloat y => x =? y
  | Work.JString x, Work.JString y => str_eqb x y
  | Work.JArray l, Work.JArray m =>
      (fix go (l m : list Work.json) {struct l} : bool :=
         match l, m with
         | [], [] => true
         | x :: l', y :: m' => json_eqb x y && go l' m'
         | _, _ => false
         end) l m
  | Work.JObject l, Work.JObject m =>
      (fix go (l m : list (rstr * Work.json)) {struct l} : bool :=
         match l, m with
         | [], [] => true
         | (k, x) :: l', (k', y) :: m' => str_eqb k k' && json_eqb x y && go l' m'
         | _, _ => false
         end) l m
  | _, _ => false
  end.

Definition json_as_str (v : Work.json) : option rstr :=
  match v with Work.JString s => Some s | _ => None end.
Definition json_as_array (v : Work.json) : option (list Work.json) :=
  match v with Work.JArray l => Some l | _ => None end.
(** [v.get(k).and_then(f)]. *)
Definition json_field {A} (v : Work.json) (k : rstr) (f : Work.json -> option A) : option A :=
  Work.json_get v k ≫= f.

Module Insight.
Import Db.
Import (hints) Errors Work Quota ReceiptTypes Receipt.

(** [ingress/policy.rs]. *)
Record IngressPolicy := {
  per_user_daily_receipts : Z;
  outbound_enabled : bool;
  zalo_monthly_messages : Z;
  insights_llm_enabled : bool;
  monthly_insight_narratives : Z;
}.
Definition default_policy : IngressPolicy := {|
  per_user_daily_receipts := 20; outbound_enabled := true; zalo_monthly_messages := 3000;
  insights_llm_enabled := false; monthly_insight_narratives := 30 |}.

Definition JOB_TYPE_INSIGHT_NARRATE : rstr := s! "insight.narrate".
Definition INSIGHT_NARRATE_PAYLOAD_VERSION : Z := 1.
Definition AGGREGATE_SCHEMA_VERSION : Z := 1.

(** [InsightError] is its message. *)
Definition InsightError : Type := rstr.

Inductive InsightPeriodKind := Day | Week | Month.

Definition parse (v : rstr) : option InsightPeriodKind :=
  if str_eqb v (s! "day") then Some Day
  else if str_eqb v (s! "week") then Some Week
  else if str_eqb v (s! "month") then Some Month
  else None.
Definition as_str (k : InsightPeriodKind) : rstr :=
  match k with Day => s! "day" | Week => s! "week" | Month => s! "month" end.
Definition frequency (k : InsightPeriodKind) : Schedule.Frequency :=
  match k with Day => Schedule.Daily | Week => Schedule.Weekly | Month => Schedule.Monthly end.

(** ** Totals over rows *)

(** [MIN] over ASCII capitals. *)
Fixpoint str_min (l : list rstr) : option rstr :=
  match l with
  | [] => None
  | x :: l' => Some (match str_min l' with
                     | Some y => if code_point_le x y then x else y
                     | None => x
                     end)
  end.

(** [COALESCE(SUM(amount_minor), 0)::BIGINT, COUNT( * )::BIGINT, COALESCE(MIN(currency), c)]:
    the sum does not fit a [BIGINT] or it is returned. *)
Definition sum_amounts (l : list Receipt.expense) : Z := foldr (fun e n => Receipt.ex_amount_minor e + n) 0 l.
Definition totals_of {E} (err : E) (l : list Receipt.expense) (fallback : rstr) : result (Z * Z * rstr) E :=
  if in_i64 (sum_amounts l)
  then Ok (sum_amounts l, Z.of_nat (length l), default fallback (str_min (map Receipt.ex_currency l)))
  else Err err.

Definition in_period (period_start period_end : Z) (e : Receipt.expense) : bool :=
  (period_start <=? Receipt.ex_occurred_at e) && (Receipt.ex_occurred_at e <? period_end).
Definition confirmed_in (d : db) (a : uuid) (period_start period_end : Z) : list Receipt.expense :=
  List.filter (in_period period_start period_end) (map snd (confirmed_of d a)).

(** [GROUP BY key] with [SUM(amount_minor)] and [COUNT( * )]. *)
Definition add_to_group (p : rstr * Z) (g : gmap rstr (Z * Z)) : gmap rstr (Z * Z) :=
  <[p.1 := match g !! p.1 with Some (t, c) => (t + p.2, c + 1) | None => (p.2, 1) end]> g.
Definition group_totals (l : list (rstr * Z)) : gmap rstr (Z * Z) := foldr add_to_group ∅ l.

Section Compute.
Context `{PG : Postgres}.

(** [ORDER BY SUM(amount_minor) DESC, name ASC], on rows [(name, key, total, count)]. *)
Definition group_row : Type := rstr * rstr * Z * Z.
Definition row_before (p q : group_row) : Prop :=
  let '(np, _, tp, _) := p in let '(nq, _, tq, _) := q in
  tq < tp \/ (tp = tq /\ collate_le np nq = true).
#[export] Instance row_before_dec p q : Decision (row_before p q).
Proof. unfold row_before. destruct p as [[[? ?] ?] ?], q as [[[? ?] ?] ?]. apply _. Defined.

Definition rows_fit (l : list group_row) : bool := forallb (fun r => in_i64 r.1.2) l.

(** The category of a row is the category column of [expenses], which is NOT NULL; its
    display name comes from the join with [categories]. *)
Definition category_rows (d : db) (l : list Receipt.expense) : list group_row :=
  merge_sort row_before
    (omap (fun '(key, (total, count)) =>
             (fun names => (names.1, key, total, count)) <$> category_names d !! key)
       (map_to_list (group_totals (map (fun e => (Receipt.ex_category_key e, Receipt.ex_amount_minor e)) l)))).

(** [LIMIT 5]; every group is formed, and its total cast, before the limit cuts. *)
Definition merchant_groups (l : list Receipt.expense) : list group_row :=
  merge_sort row_before
    (map (fun '(name, (total, count)) => (name, name, total, count))
       (map_to_list (group_totals (map (fun e => (Receipt.ex_description e, Receipt.ex_amount_minor e)) l)))).
Definition merchant_rows (l : list Receipt.expense) : list group_row := take 5 (merchant_groups l).

Definition category_json (r : group_row) : Work.json :=
  let '(display, key, total, count) := r in
  Work.JObject [(s! "key", Work.JString key); (s! "display", Work.JString display);
                (s! "total_minor", Work.JInt total); (s! "count", Work.JInt count)].
Definition merchant_json (r : group_row) : Work.json :=
  let '(name, _, total, count) := r in
  Work.JObject [(s! "name", Work.JString name); (s! "total_minor", Work.JInt total);
                (s! "count", Work.JInt count)].

Definition compute_aggregate (d : db) (a : uuid) (period_start period_end : Z) (fallback_currency : rstr)
    : result Work.json InsightError :=
  let l := confirmed_in d a period_start period_end in
  let? t := totals_of (s! "insight totals query failed") l fallback_currency in
  let '(total_minor, tx_count, currency) := t in
  if negb (rows_fit (category_rows d l)) then Err (s! "insight category query failed")
  else if negb (rows_fit (merchant_groups l)) then Err (s! "insight merchant query failed")
  else
    Ok (Work.JObject [
      (s! "schema_version", Work.JInt AGGREGATE_SCHEMA_VERSION);
      (s! "total_minor", Work.JInt total_minor);
      (s! "currency", Work.JString currency);
      (s! "tx_count", Work.JInt tx_count);
      (s! "by_category", Work.JArray (map category_json (category_rows d l)));
      (s! "top_merchants", Work.JArray (map merchant_json (merchant_rows l)))]).

End Compute.

(** ** Snapshots *)

Definition narrate_dedupe_key `{UuidText} (snapshot_id : uuid) (digest : rstr) : rstr :=
  s! "insight.narrate:" ++ uuid_str snapshot_id ++ s! ":" ++ digest.

Definition aggregate_digest `{ImageLib, SerdeJson} (aggregate : Work.json) : rstr :=
  sha256_hex (json_to_vec aggregate).

Record InsightNarratePayload := {
  np_schema_version : Z;
  np_account_id : uuid;
  np_snapshot_id : uuid;
  np_aggregate_digest : rstr;
}.

Definition snapshot_id_taken (d : db) (id : uuid) : bool :=
  existsb (fun p => bool_decide (is_id p.2 = id)) (map_to_list (insight_snapshots d)).

(** The row, its id and its narrative: a narrative of the same aggregate is kept. *)
Definition upsert_snapshot (fresh_id : uuid) (key : snapshot_key) (period_end : Z) (aggregate : Work.json)
    : txn db InsightError insight_snapshot :=
  fun d =>
    let put row := Ok (row, upd_insight_snapshots <[key := row]> d) in
    match insight_snapshots d !! key with
    | Some old =>
        let same := json_eqb (is_aggregate old) aggregate in
        put {| is_id := is_id old; is_period_end := period_end; is_aggregate := aggregate;
               is_narrative_text := if same then is_narrative_text old else None;
               is_narrative_profile := if same then is_narrative_profile old else None;
               is_narrative_generated_at := if same then is_narrative_generated_at old else None |}
    | None =>
        if snapshot_id_taken d fresh_id || Receipt.is_none (accounts d !! sk_account key)
        then Err (s! "insight snapshot upsert failed")
        else put {| is_id := fresh_id; is_period_end := period_end; is_aggregate := aggregate;
                    is_narrative_text := None; is_narrative_profile := None;
                    is_narrative_generated_at := None |}
    end.

Section Record.
Context `{CH : Chrono} `{PG : Postgres} `{UT : UuidText} `{IL : ImageLib} `{SJ : SerdeJson}.

Definition narrate_payload (p : InsightNarratePayload) : Work.json :=
  Work.JObject [(s! "schema_version", Work.JInt (np_schema_version p));
                (s! "account_id", Work.JString (uuid_str (np_account_id p)));
                (s! "snapshot_id", Work.JString (uuid_str (np_snapshot_id p)));
                (s! "aggregate_digest", Work.JString (np_aggregate_digest p))].

Definition enqueue_narrate_in_transaction (now : Z) (job_id a snapshot_id : uuid) (aggregate : Work.json)
    (run_at : Z) : txn db InsightError unit :=
  let digest := aggregate_digest aggregate in
  let payload := {| np_schema_version := INSIGHT_NARRATE_PAYLOAD_VERSION; np_account_id := a;
                    np_snapshot_id := snapshot_id; np_aggregate_digest := digest |} in
  let* _ := on_queue (fun _ => s! "insight narrate enqueue failed")
    (Work.enqueue_in_transaction now {|
       Work.req_id := job_id; Work.req_job_type := JOB_TYPE_INSIGHT_NARRATE;
       Work.req_payload := narrate_payload payload;
       Work.req_dedupe_key := narrate_dedupe_key snapshot_id digest;
       Work.req_serialization_key := Some (Schedule.account_serialization_key a);
       Work.req_priority := 0; Work.req_run_at := run_at; Work.req_max_attempts := 10 |}) in
  t_ret tt.

Definition narrative_counter (a : uuid) (now : Z) : Quota.counter_key :=
  {| Quota.scope := Quota.SCOPE_ACCOUNT; Quota.scope_id := uuid_str a;
     Quota.period := Quota.monthly_period_key now; Quota.metric := Quota.METRIC_INSIGHT_NARRATIVES |}.

(** [fresh_id] is the id of a new snapshot, [job_id] that of a new job. *)
Definition record_snapshot_in_transaction (now : Z) (fresh_id job_id a : uuid) (kind : InsightPeriodKind)
    (observed_at : Z) (tz fallback_currency : rstr) (policy : IngressPolicy)
    : ptxn db InsightError (uuid * Work.json) :=
  let^ p := x_call (let! r := Schedule.interactive_period (frequency kind) observed_at tz in
                    Ret (match r with
                         | Ok p => Ok p
                         | Err _ => Err (s! "invalid timezone for insight period")
                         end)) in
  let '(period, _) := p in
  let^ aggregate := x_read (fun d => compute_aggregate d a (Schedule.start period) (Schedule.pend period)
                                       fallback_currency) in
  let^ snapshot := x_exec (upsert_snapshot fresh_id
    {| sk_account := a; sk_period_kind := as_str kind; sk_period_start := Schedule.start period;
       sk_timezone := tz |} (Schedule.pend period) aggregate) in
  let^ _ :=
    (if insights_llm_enabled policy && Receipt.is_none (is_narrative_text snapshot) then
       let^ remaining := x_read (fun d => Ok (Quota.remaining_in_transaction (Receipt.usage (rt d))
                           (narrative_counter a observed_at) (i64_or_max (monthly_insight_narratives policy)))) in
       if 0 <? remaining
       then x_exec (enqueue_narrate_in_transaction now job_id a (is_id snapshot) aggregate observed_at)
       else x_ret tt
     else x_ret tt) in
  x_ret (is_id snapshot, aggregate).

(** ** Narratives *)

Class Narrator := { narrate : Work.json -> result rstr InsightError }.
Context `{NR : Narrator}.

Definition find_snapshot (d : db) (id a : uuid) : option (snapshot_key * insight_snapshot) :=
  List.find (fun p => bool_decide (is_id p.2 = id) && bool_decide (sk_account p.1 = a))
    (map_to_list (insight_snapshots d)).

Definition narrative_ok (text : rstr) : bool := (1 <=? char_count text) && (char_count text <=? 2000).

(** The UPDATE fills an empty narrative only. *)
Definition set_narrative (now : Z) (id a : uuid) (text : rstr) : txn db InsightError unit :=
  fun d =>
    match find_snapshot d id a with
    | Some (key, row) =>
        if negb (Receipt.is_none (is_narrative_text row)) then Ok (tt, d)
        else if negb (narrative_ok text) then Err (s! "insight narrative persist failed")
        else Ok (tt, upd_insight_snapshots <[key := {|
               is_id := is_id row; is_period_end := is_period_end row; is_aggregate := is_aggregate row;
               is_narrative_text := Some text; is_narrative_profile := Some (s! "fake");
               is_narrative_generated_at := Some now |}]> d)
    | None => Ok (tt, d)
    end.

(** The transaction of [execute_insight_narrate]; [None] is the explicit rollback. *)
Definition narrate_tx (now utc_now : Z) (p : InsightNarratePayload) (aggregate : Work.json) (monthly_limit : Z)
    : txn db InsightError (option unit) :=
  let* q := on_usage (fun _ => s! "insight narrative quota increment failed")
              (Quota.increment_in_transaction (narrative_counter (np_account_id p) utc_now)
                 (i64_or_max monthly_limit)) in
  if Quota.exceeded q then t_ret None
  else
  let* text := t_lift (narrate aggregate) in
  let* _ := set_narrative now (np_snapshot_id p) (np_account_id p) text in
  t_ret (Some tt).

Definition execute_insight_narrate (now utc_now : Z) (p : InsightNarratePayload) (monthly_limit : Z)
    : prog db InsightError unit :=
  fun d =>
    if negb (np_schema_version p =? INSIGHT_NARRATE_PAYLOAD_VERSION)
    then (d, Err (s! "unsupported insight narrate payload version"))
    else match find_snapshot d (np_snapshot_id p) (np_account_id p) with
    | None => (d, Ok tt)
    | Some (_, row) =>
        if negb (Receipt.is_none (is_narrative_text row)) then (d, Ok tt)
        else match narrate_tx now utc_now p (is_aggregate row) monthly_limit d with
             | Ok (Some _, d') => (d', Ok tt)
             | Ok (None, _) => (d, Ok tt)
             | Err e => (d, Err e)
             end
    end.

End Record.

(** [FakeNarrator]. *)
Definition fake_narrate `{UnicodeCase} (aggregate : Work.json) : result rstr InsightError :=
  let? total_minor := ok_or (json_field aggregate (s! "total_minor") Work.json_as_i64)
                        (s! "aggregate missing total_minor") in
  let? tx_count := ok_or (json_field aggregate (s! "tx_count") Work.json_as_i64)
                        (s! "aggregate missing tx_count") in
  let? currency := ok_or (json_field aggregate (s! "currency") json_as_str)
                        (s! "aggregate missing currency") in
  Ok (s! "Trong kỳ này bạn đã ghi nhận " ++ dec_signed tx_count ++ s! " khoản, tổng "
      ++ Money.format_minor total_minor currency ++ s! ".").
Definition FakeNarrator `{UnicodeCase} : Narrator := {| narrate := fake_narrate |}.

Definition top_category_lines (aggregate : Work.json) : list (rstr * Z) :=
  match json_field aggregate (s! "by_category") json_as_array with
  | Some rows =>
      take 3 (omap (fun row => display ← json_field row (s! "display") json_as_str;
                               total ← json_field row (s! "total_minor") Work.json_as_i64;
                               Some (display, total)) rows)
  | None => []
  end.

End Insight.
