(* ===== verification/Account.v ===== *)
(** * Account deletion and export ([src/src/account/mod.rs])

    Deletion removes the objects of the account first and its rows after, in one
    transaction that keeps the account row as a tombstone; the foreign keys of migration
    004 cascade from submissions to assets, drafts, corrections and extraction attempts.
    An export writes two objects and records them. *)

From S2P Require Import Prelude RustStr RustStrFacts Platform Errors Work Quota ReceiptTypes Receipt.
From S2P Require Import Database Insight.

Module Account.
Import Db.
Import (hints) Errors Work Quota ReceiptTypes Receipt.

Definition JOB_TYPE_ACCOUNT_DELETE : rstr := s! "account.delete".
Definition JOB_TYPE_ACCOUNT_EXPORT : rstr := s! "account.export".
Definition ACCOUNT_JOB_PAYLOAD_VERSION : Z := 1.

Record AccountDeletePayload := {
  ad_schema_version : Z;
  ad_account_id : uuid;
  ad_deletion_request_id : uuid;
}.

Record AccountExportPayload := {
  ae_schema_version : Z;
  ae_account_id : uuid;
  ae_export_id : uuid;
  ae_provider_scope : rstr;
  ae_provider_chat_id : rstr;
}.

Section Keys.
Context `{UT : UuidText}.

Definition delete_dedupe_key (a : uuid) : rstr := s! "account.delete:" ++ uuid_str a.
Definition export_dedupe_key (e : uuid) : rstr := s! "account.export:" ++ uuid_str e.
Definition export_object_key (a e : uuid) (format : rstr) : rstr :=
  s! "exports/" ++ uuid_str a ++ s! "/" ++ uuid_str e ++ s! "." ++ format.

Definition delete_payload (p : AccountDeletePayload) : Work.json :=
  Work.JObject [(s! "schema_version", Work.JInt (ad_schema_version p));
                (s! "account_id", Work.JString (uuid_str (ad_account_id p)));
                (s! "deletion_request_id", Work.JString (uuid_str (ad_deletion_request_id p)))].
Definition export_payload (p : AccountExportPayload) : Work.json :=
  Work.JObject [(s! "schema_version", Work.JInt (ae_schema_version p));
                (s! "account_id", Work.JString (uuid_str (ae_account_id p)));
                (s! "export_id", Work.JString (uuid_str (ae_export_id p)));
                (s! "provider_scope", Work.JString (ae_provider_scope p));
                (s! "provider_chat_id", Work.JString (ae_provider_chat_id p))].

(** ** Enqueueing the jobs *)

Definition to_dependency {E} (_ : E) : Errors.ErrorClass := Errors.Dependency.

Definition enqueue_delete_in_transaction (db_now : Z) (job_id a deletion_request_id : uuid) (now : Z)
    : txn db Errors.ErrorClass unit :=
  let serialization_key := ReceiptTypes.account_serialization_key a in
  let receipt_key := ReceiptTypes.receipt_serialization_key a in
  let* _ := on_queue to_dependency
              (Work.cancel_queued_by_serialization_key_in_transaction db_now serialization_key) in
  let* _ := on_queue to_dependency
              (Work.cancel_queued_by_serialization_key_in_transaction db_now receipt_key) in
  let payload := {| ad_schema_version := ACCOUNT_JOB_PAYLOAD_VERSION; ad_account_id := a;
                    ad_deletion_request_id := deletion_request_id |} in
  let* _ := on_queue to_dependency (Work.enqueue_in_transaction db_now {|
    Work.req_id := job_id; Work.req_job_type := JOB_TYPE_ACCOUNT_DELETE;
    Work.req_payload := delete_payload payload; Work.req_dedupe_key := delete_dedupe_key a;
    Work.req_serialization_key := Some serialization_key;
    Work.req_priority := 10; Work.req_run_at := now; Work.req_max_attempts := 10 |}) in
  t_ret tt.

Definition enqueue_export_in_transaction (db_now : Z) (job_id a export_id : uuid)
    (provider_scope provider_chat_id : rstr) (now : Z) : txn db Errors.ErrorClass unit :=
  let payload := {| ae_schema_version := ACCOUNT_JOB_PAYLOAD_VERSION; ae_account_id := a;
                    ae_export_id := export_id; ae_provider_scope := provider_scope;
                    ae_provider_chat_id := provider_chat_id |} in
  let* _ := on_queue to_dependency (Work.enqueue_in_transaction db_now {|
    Work.req_id := job_id; Work.req_job_type := JOB_TYPE_ACCOUNT_EXPORT;
    Work.req_payload := export_payload payload; Work.req_dedupe_key := export_dedupe_key export_id;
    Work.req_serialization_key := Some (ReceiptTypes.account_serialization_key a);
    Work.req_priority := 0; Work.req_run_at := now; Work.req_max_attempts := 10 |}) in
  t_ret tt.

(** ** Purging the rows of an account *)

(** [UPDATE receipt_submissions SET confirmed_expense_id = NULL, ...]. *)
Definition purged_submission (r : Receipt.submission) : Receipt.submission :=
  {| Receipt.sub_account := Receipt.sub_account r; Receipt.sub_inbound_event := Receipt.sub_inbound_event r;
     Receipt.sub_state := ReceiptTypes.Deleted; Receipt.sub_version := Receipt.sub_version r;
     Receipt.sub_duplicate_of := Receipt.sub_duplicate_of r; Receipt.sub_confirmed_expense := None;
     Receipt.sub_failure_error_class := None;
     Receipt.sub_review_expires_at := Receipt.sub_review_expires_at r |}.

(** [ON DELETE SET NULL] of [confirmed_expense_id]. *)
Definition points_to (gone : gmap uuid Receipt.expense) (r : Receipt.submission) : bool :=
  match Receipt.sub_confirmed_expense r with
  | Some e => negb (Receipt.is_none (gone !! e))
  | None => false
  end.
Definition forget_expense (r : Receipt.submission) : Receipt.submission :=
  {| Receipt.sub_account := Receipt.sub_account r; Receipt.sub_inbound_event := Receipt.sub_inbound_event r;
     Receipt.sub_state := Receipt.sub_state r; Receipt.sub_version := Receipt.sub_version r;
     Receipt.sub_duplicate_of := Receipt.sub_duplicate_of r; Receipt.sub_confirmed_expense := None;
     Receipt.sub_failure_error_class := Receipt.sub_failure_error_class r;
     Receipt.sub_review_expires_at := Receipt.sub_review_expires_at r |}.

Definition owned_expense (a : uuid) (p : uuid * Receipt.expense) : Prop := Receipt.ex_account p.2 = a.
Definition owned_submission (a : uuid) (p : uuid * Receipt.submission) : Prop := Receipt.sub_account p.2 = a.
#[export] Instance owned_expense_dec a p : Decision (owned_expense a p).
Proof. unfold owned_expense. apply _. Defined.
#[export] Instance owned_submission_dec a p : Decision (owned_submission a p).
Proof. unfold owned_submission. apply _. Defined.

(** The first statement. *)
Definition release_submissions (a : uuid) (t : Receipt.tables) : Receipt.tables :=
  Receipt.set_submissions (fmap (fun r =>
    if bool_decide (Receipt.sub_account r = a) then purged_submission r else r)) t.

(** [DELETE FROM expenses]: a confirmed submission that still points to one of them
    would break its CHECK and fail the statement. *)
Definition delete_expenses (a : uuid) (t : Receipt.tables) : result Receipt.tables Errors.ErrorClass :=
  let gone := filter (owned_expense a) (Receipt.expenses t) in
  if forallb (fun p => negb (points_to gone p.2) || Receipt.submission_check p.1 (forget_expense p.2))
       (map_to_list (Receipt.submissions t))
  then Ok (Receipt.set_submissions (fmap (fun r => if points_to gone r then forget_expense r else r))
             (Receipt.set_expenses (filter (fun p => ~ owned_expense a p)) t))
  else Err Errors.Dependency.

(** [DELETE FROM receipt_submissions] with its cascades. *)
Definition delete_submissions (a : uuid) (t : Receipt.tables) : Receipt.tables :=
  let kept := filter (fun p => ~ owned_submission a p) (Receipt.submissions t) in
  let alive id := Receipt.is_none (filter (owned_submission a) (Receipt.submissions t) !! id) in
  Receipt.set_submissions (fun _ => kept)
    (Receipt.set_assets (filter (fun p => alive p.1 = true))
    (Receipt.set_drafts (filter (fun p => alive p.1 = true))
    (Receipt.set_corrections (List.filter (fun c => alive (Receipt.co_submission_id c)))
    (Receipt.set_extraction_attempts (filter (fun p => alive p.1.1 = true)) t)))).

Definition account_counter (a : uuid) (k : Quota.counter_key) : bool :=
  str_eqb (Quota.scope k) (s! "account") && str_eqb (Quota.scope_id k) (uuid_str a).

Definition forget_event (a : uuid) (e : inbound_event) : inbound_event :=
  if bool_decide (ev_account e = Some a)
  then {| ev_id := ev_id e; ev_kind := ev_kind e; ev_processing_state := ev_processing_state e;
          ev_ingress_source := ev_ingress_source e; ev_account := None;
          ev_processed_at := ev_processed_at e; ev_media_url := None;
          ev_provider_chat_id := ev_provider_chat_id e |}
  else e.

Definition purge_account_content (a : uuid) : txn db Errors.ErrorClass unit :=
  fun d =>
    let? t := delete_expenses a (release_submissions a (rt d)) in
    let t := delete_submissions a t in
    let t := Receipt.set_usage (filter (fun p => account_counter a p.1 = false) (Receipt.usage t)) t in
    Ok (tt, upd_inbound_events (fmap (forget_event a))
           (upd_insight_snapshots (filter (fun p => sk_account p.1 <> a))
           (upd_export_artifacts (filter (fun p => xp_account p.2 <> a))
           (upd_outbound_messages (filter (fun p => ob_account p.2 <> Some a))
           (upd_summary_schedules (filter (fun p => p.1.1 <> a))
           (upd_conversation_states (delete a)
           (upd_expense_cols (filter (fun p => is_Some (Receipt.expenses t !! p.1)))
           (upd_rt (fun _ => t) d)))))))).

(** [UPDATE accounts SET lifecycle_state = 'deleted', consent_version = NULL]. *)
Definition set_lifecycle (st : rstr) (r : Receipt.account) : Receipt.account :=
  {| Receipt.acc_lifecycle_state := st;
     Receipt.retention_preference_days := Receipt.retention_preference_days r |}.
Definition upd_accounts (f : gmap uuid Receipt.account -> gmap uuid Receipt.account) (d : db) : db :=
  upd_rt (fun t => {| Receipt.accounts := f (Receipt.accounts t);
                      Receipt.inbound_events := Receipt.inbound_events t;
                      Receipt.categories := Receipt.categories t;
                      Receipt.submissions := Receipt.submissions t; Receipt.assets := Receipt.assets t;
                      Receipt.drafts := Receipt.drafts t; Receipt.corrections := Receipt.corrections t;
                      Receipt.extraction_attempts := Receipt.extraction_attempts t;
                      Receipt.expenses := Receipt.expenses t; Receipt.queue := Receipt.queue t;
                      Receipt.usage := Receipt.usage t |}) d.
Definition set_consent (v : option rstr) (c : account_columns) : account_columns :=
  {| consent_version := v; locale := locale c; timezone := timezone c; default_currency := default_currency c |}.
(** Changes the columns of the row of [a], if there is one. *)
Definition upd_columns (a : uuid) (f : account_columns -> account_columns) (d : db) : db :=
  match account_row d a with
  | Some (_, c) => upd_account_cols <[a := f c]> d
  | None => d
  end.

Definition bury_account (a : uuid) (d : db) : db :=
  upd_columns a (set_consent None) (upd_accounts (alter (set_lifecycle (s! "deleted")) a) d).

(** The UPDATEs of [deletion_requests] with [WHERE id = $1 AND account_id = $2]. *)
Definition mark_request (a request_id : uuid) (f : deletion_request -> deletion_request) (d : db) : db :=
  upd_deletion_requests (alter (fun r => if bool_decide (dq_id r = request_id) then f r else r) a) d.
Definition start_request (r : deletion_request) : deletion_request :=
  if str_eqb (dq_state r) (s! "requested") || str_eqb (dq_state r) (s! "running")
  then {| dq_id := dq_id r; dq_state := s! "running"; dq_expense_count := dq_expense_count r;
          dq_completed_at := dq_completed_at r |}
  else r.
Definition complete_request (now : Z) (r : deletion_request) : deletion_request :=
  {| dq_id := dq_id r; dq_state := s! "completed"; dq_expense_count := dq_expense_count r;
     dq_completed_at := Some now |}.

Definition delete_account_tx (now : Z) (p : AccountDeletePayload) : txn db Errors.ErrorClass unit :=
  let* _ := purge_account_content (ad_account_id p) in
  fun d => Ok (tt, mark_request (ad_account_id p) (ad_deletion_request_id p) (complete_request now)
                     (bury_account (ad_account_id p) d)).

(** ** The jobs *)

Context `{OS : ReceiptTypes.ObjectStore}.
Definition world : Type := db * ReceiptTypes.objects.
Abbreviation aprog A := (prog world Errors.ErrorClass A).

Definition in_tx {A} (m : txn db Errors.ErrorClass A) : aprog A :=
  fun s => let '(d', r) := atomically m s.1 in ((d', s.2), r).
(** One call of the object store; its errors become [Dependency]. *)
Definition on_objects {A} (m : prog ReceiptTypes.objects ReceiptTypes.ReceiptError A) : aprog A :=
  fun s => let '(o', r) := m s.2 in
           ((s.1, o'), match r with Ok a => Ok a | Err _ => Err Errors.Dependency end).

Definition load_account_object_keys (d : db) (a : uuid) : list rstr :=
  map (fun p => Receipt.as_object_key p.2)
    (List.filter (fun p => bool_decide (Receipt.as_account p.2 = a)
                           && bool_decide (Receipt.as_deletion_state p.2 = Receipt.Active))
       (map_to_list (Receipt.assets (rt d))))
  ++ map (fun p => xp_object_key p.2)
       (List.filter (fun p => bool_decide (xp_account p.2 = a)) (map_to_list (export_artifacts d))).

Fixpoint delete_objects (keys : list rstr) : aprog unit :=
  match keys with
  | [] => p_ret tt
  | k :: ks => let% _ := on_objects (ReceiptTypes.os_delete k) in delete_objects ks
  end.

Definition execute_account_delete (now : Z) (p : AccountDeletePayload) : aprog unit :=
  if negb (ad_schema_version p =? ACCOUNT_JOB_PAYLOAD_VERSION) then p_err Errors.Validation
  else
  let% lifecycle := p_read (fun s => Ok (Receipt.acc_lifecycle_state <$> accounts s.1 !! ad_account_id p)) in
  match lifecycle with
  | None => p_ret tt
  | Some st =>
      if str_eqb st (s! "deleted") then p_ret tt
      else
      let% _ := in_tx (fun d => Ok (tt, mark_request (ad_account_id p) (ad_deletion_request_id p)
                                          start_request d)) in
      let% keys := p_read (fun s => Ok (load_account_object_keys s.1 (ad_account_id p))) in
      let% _ := delete_objects keys in
      in_tx (delete_account_tx now p)
  end.

(** ** Export *)

Definition csv_escape (value : rstr) : rstr :=
  if existsb (fun c => (c =? 44) || (c =? 34) || (c =? 10) || (c =? 13)) value
  then [34] ++ replace_char value 34 [34; 34] ++ [34]
  else value.

Context `{CH : Chrono} `{CT : ChronoText} `{SJ : SerdeJson}.

Definition export_before (p q : uuid * Receipt.expense) : Prop :=
  Receipt.ex_occurred_at p.2 < Receipt.ex_occurred_at q.2
  \/ (Receipt.ex_occurred_at p.2 = Receipt.ex_occurred_at q.2 /\ (p.1 <= q.1)%N).
#[export] Instance export_before_dec p q : Decision (export_before p q).
Proof. unfold export_before. apply _. Defined.

Definition export_rows (d : db) (a : uuid) : list Receipt.expense :=
  map snd (merge_sort export_before (confirmed_of d a)).

Definition export_json (a : uuid) (utc_now : Z) (rows : list Receipt.expense) : Work.json :=
  Work.JObject [
    (s! "schema_version", Work.JInt 1);
    (s! "account_id", Work.JString (uuid_str a));
    (s! "exported_at", Work.JString (datetime_json utc_now));
    (s! "expenses", Work.JArray (map (fun e => Work.JObject [
       (s! "occurred_at", Work.JString (datetime_json (Receipt.ex_occurred_at e)));
       (s! "amount_minor", Work.JInt (Receipt.ex_amount_minor e));
       (s! "currency", Work.JString (Receipt.ex_currency e));
       (s! "description", Work.JString (Receipt.ex_description e));
       (s! "source", Work.JString (Receipt.ex_source e))]) rows))].

Definition csv_row (e : Receipt.expense) : rstr :=
  to_rfc3339 (Receipt.ex_occurred_at e) ++ s! "," ++ dec_signed (Receipt.ex_amount_minor e) ++ s! ","
  ++ csv_escape (Receipt.ex_currency e) ++ s! "," ++ csv_escape (Receipt.ex_description e) ++ s! ","
  ++ csv_escape (Receipt.ex_source e) ++ [10].
Definition csv_body (rows : list Receipt.expense) : rstr :=
  s! "occurred_at,amount_minor,currency,description,source" ++ [10] ++ concat (map csv_row rows).

Definition insert_export_artifact (id a : uuid) (format key : rstr) (byte_size : Z)
    : txn db Errors.ErrorClass unit :=
  fun d =>
    if negb (Receipt.is_none (export_artifacts d !! id)) || Receipt.is_none (accounts d !! a)
    then Err Errors.Dependency
    else Ok (tt, upd_export_artifacts <[id := {|
           xp_account := a; xp_format := format; xp_object_key := key;
           xp_byte_size := i64_or_max byte_size |}]> d).

(** [id1] and [id2] are the ids of the two artifact rows. *)
Definition execute_account_export (utc_now : Z) (id1 id2 : uuid) (p : AccountExportPayload) : aprog unit :=
  if negb (ae_schema_version p =? ACCOUNT_JOB_PAYLOAD_VERSION) then p_err Errors.Validation
  else
  let a := ae_account_id p in
  let% active := p_read (fun s => Ok (Receipt.account_is_active (rt s.1) a)) in
  if negb active then p_ret tt
  else
  let% rows := p_read (fun s => Ok (export_rows s.1 a)) in
  let json_body := json_to_vec (export_json a utc_now rows) in
  let csv_bytes := encode_utf8 (csv_body rows) in
  let json_key := export_object_key a (ae_export_id p) (s! "json") in
  let csv_key := export_object_key a (ae_export_id p) (s! "csv") in
  let% _ := on_objects (ReceiptTypes.os_put json_key json_body) in
  let% _ := on_objects (ReceiptTypes.os_put csv_key csv_bytes) in
  in_tx (let* _ := insert_export_artifact id1 a (s! "json") json_key (Z.of_nat (length json_body)) in
         insert_export_artifact id2 a (s! "csv") csv_key (Z.of_nat (length csv_bytes))).

End Keys.
End Account.
