(* ===== verification/IngressTypes.v ===== *)
(** * Types of the ingress ([src/src/ingress/types.rs], [effects.rs])

    What an event brings in, what the decision on it is given and returns, and the
    effects that the store applies in the event's transaction. *)

From S2P Require Import Prelude RustStr RustStrFacts Platform.

Module Ingress.

Abbreviation uuid := N.

Inductive IngressSource := Webhook | Polling.
#[export] Instance IngressSource_eq_dec : EqDecision IngressSource.
Proof. solve_decision. Defined.

Module IngressSource.
Definition as_str (s : IngressSource) : rstr :=
  match s with Webhook => s! "webhook" | Polling => s! "polling" end.
Definition from_str (v : rstr) : option IngressSource :=
  if str_eqb v (s! "webhook") then Some Webhook
  else if str_eqb v (s! "polling") then Some Polling
  else None.
End IngressSource.

Inductive IngressOutcome :=
| Accepted (inbound_event_id : uuid)
| Duplicate (inbound_event_id : uuid)
| ModeRejected (inbound_event_id : uuid).

Inductive LifecycleState := PendingConsent | Active | Suspended | Deleting | Deleted.
Module LifecycleState.
Definition as_str (s : LifecycleState) : rstr :=
  match s with
  | PendingConsent => s! "pending_consent"
  | Active => s! "active"
  | Suspended => s! "suspended"
  | Deleting => s! "deleting"
  | Deleted => s! "deleted"
  end.
Definition from_str (v : rstr) : option LifecycleState :=
  if str_eqb v (s! "pending_consent") then Some PendingConsent
  else if str_eqb v (s! "active") then Some Active
  else if str_eqb v (s! "suspended") then Some Suspended
  else if str_eqb v (s! "deleting") then Some Deleting
  else if str_eqb v (s! "deleted") then Some Deleted
  else None.
End LifecycleState.

Inductive ExpenseState := AwaitingConfirmation | Confirmed | Rejected.
#[export] Instance ExpenseState_eq_dec : EqDecision ExpenseState.
Proof. solve_decision. Defined.
Module ExpenseState.
Definition as_str (s : ExpenseState) : rstr :=
  match s with
  | AwaitingConfirmation => s! "awaiting_confirmation"
  | Confirmed => s! "confirmed"
  | Rejected => s! "rejected"
  end.
Definition from_str (v : rstr) : option ExpenseState :=
  if str_eqb v (s! "awaiting_confirmation") then Some AwaitingConfirmation
  else if str_eqb v (s! "confirmed") then Some Confirmed
  else if str_eqb v (s! "rejected") then Some Rejected
  else None.
End ExpenseState.

Inductive IngressEventKind := TextCommandEnvelope | ImageReceived.
Module IngressEventKind.
Definition as_str (k : IngressEventKind) : rstr :=
  match k with TextCommandEnvelope => s! "text_command_envelope" | ImageReceived => s! "image_received" end.
End IngressEventKind.

Record ReceiptDraftSnapshot := {
  rd_submission_id : uuid;
  rd_amount_minor : Z;
  rd_currency : rstr;
  rd_merchant : rstr;
  rd_category_key : rstr;
  rd_category_display : rstr;
  rd_transaction_type : rstr;
  rd_occurred_at : Z;
  rd_version : Z;
}.

Record RecentExpense := {
  rx_id : uuid;
  rx_amount_minor : Z;
  rx_currency : rstr;
  rx_occurred_at : Z;
  rx_description : rstr;
  rx_source : rstr;
  rx_state : ExpenseState;
  rx_version : Z;
  rx_category_key : rstr;
  rx_transaction_type : rstr;
}.

Record PendingAction := {
  pa_action_type : rstr;
  pa_payload_ref : option rstr;
  pa_expires_at : Z;
  pa_version : Z;
  pa_expense : option RecentExpense;
  pa_receipt_draft : option ReceiptDraftSnapshot;
}.

Record SummaryScheduleSnapshot := { ss_frequency : rstr; ss_delivery_minute : Z; ss_enabled : bool }.

Record DecisionContext := {
  dc_account_id : option uuid;
  dc_inbound_event_id : option uuid;
  dc_lifecycle_state : option LifecycleState;
  dc_consent_version : option rstr;
  dc_pending_action : option PendingAction;
  dc_confirmed_today_total_minor : Z;
  dc_confirmed_today_count : Z;
  dc_today_currency : rstr;
  dc_week_total_minor : Z;
  dc_week_tx_count : Z;
  dc_week_currency : rstr;
  dc_month_total_minor : Z;
  dc_month_tx_count : Z;
  dc_month_currency : rstr;
  dc_default_currency : rstr;
  dc_schedules : list SummaryScheduleSnapshot;
  dc_recent_expenses : list RecentExpense;
  dc_sender_allowed : bool;
  dc_user_text : rstr;
  dc_timezone : rstr;
  dc_locale : rstr;
  dc_original_receipt_retention_days : Z;
  dc_next_expense_id : uuid;
  dc_next_submission_id : uuid;
  dc_next_ingest_job_id : uuid;
  dc_remaining_daily_receipts : Z;
  dc_confirmed_expense_count : Z;
  dc_now : Z;
}.

Inductive IngressEffect :=
| GrantConsent (consent_version : rstr)
| CreateManualExpenseAwaitingConfirmation (expense_id : uuid) (amount_minor : Z) (currency description : rstr)
    (occurred_at optimistic_version pending_expires_at : Z) (pending_action_type : rstr)
| ConfirmExpense (expense_id : uuid) (expected_version : Z)
| RejectExpense (expense_id : uuid) (expected_version : Z)
| SetPendingAction (action_type : rstr) (payload_ref : option rstr) (expires_at : Z)
    (expected_version : option Z)
| ClearPendingAction (expected_version : Z)
| AcceptReceiptSubmission (submission_id ingest_job_id inbound_event_id : uuid)
| ConfirmReceipt (submission_id expense_id : uuid) (expected_draft_version : Z)
| RejectReceipt (submission_id : uuid) (expected_draft_version : Z)
| EditReceiptDraft (submission_id : uuid) (expected_draft_version : Z) (amount_minor : option Z)
    (merchant category_key : option rstr) (occurred_at : option Z) (transaction_type : option rstr)
| EditManualExpense (expense_id : uuid) (expected_version : Z) (amount_minor : option Z)
    (merchant category_key : option rstr) (occurred_at : option Z) (transaction_type : option rstr)
| RecategorizeLatest (category_key : rstr)
| SetLocale (locale : rstr)
| SetTimezone (iana : rstr)
| UpsertSummarySchedule (frequency : rstr) (delivery_minute : Z)
| DisableSummarySchedule (frequency : option rstr)
| ArmAccountDeletion (expires_at : Z)
| ConfirmAccountDeletion
| RequestAccountExport
| RecordInsightSnapshot (period_kind : rstr)
| ReadOnly.

Inductive IngressEffectError := VersionConflict | NotFound | InvalidTransition.
#[export] Instance IngressEffectError_eq_dec : EqDecision IngressEffectError.
Proof. solve_decision. Defined.

(** Its [Display]. *)
Definition effect_error_text (e : IngressEffectError) : rstr :=
  match e with
  | VersionConflict => s! "version conflict"
  | NotFound => s! "not found"
  | InvalidTransition => s! "invalid transition"
  end.

(** A [ReplyIntent] is its body. *)
Record DecisionOutput := { effects : list IngressEffect; reply : option rstr }.

Record IngressObservation := { event_kind : IngressEventKind; media_url : option rstr }.
Definition default_observation : IngressObservation :=
  {| event_kind := TextCommandEnvelope; media_url := None |}.

Record IngressRequest := {
  source : IngressSource;
  provider_scope : rstr;
  provider_event_id : rstr;
  provider_sender_id : rstr;
  provider_chat_id : rstr;
  sender_allowed : bool;
  user_text : rstr;
  observed_at : Z;
}.

End Ingress.
