(* ===== verification/IngressStore.v ===== *)
(** * The ingress store ([src/src/ingress/store.rs])

    One event is one transaction: the event row, the account of the sender, the context
    of the decision, the effects decided on and the reply.  A statement that breaks a
    constraint of the schema fails and rolls the transaction back.

    [Env] holds what a run is given from outside: [NOW()], [Utc::now()] and the ids
    of [Uuid::new_v4()], one per place that draws an id.  Rows that tie in an [ORDER BY]
    come in any order.  Text is assumed free of NUL, which PostgreSQL does not store. *)

From S2P Require Import Prelude RustStr RustStrFacts Platform Errors Work Quota Schedule ConvTypes Templates.
From S2P Require Import ReceiptTypes Receipt Database Insight Account IngressTypes.

Module IngressStore.
Import Db Ingress.
Import (hints) Errors Work Quota ReceiptTypes Receipt.

Record Env := { db_now : Z; utc_now : Z; fresh : nat -> uuid }.

(** The id drawn first or second by the [i]-th effect. *)
Definition effect_id (env : Env) (i k : nat) : uuid := fresh env (7 + 2 * i + k).

(** [IngressStore]: whether a receipt lifecycle is wired in, and the policy. *)
Record IngressStore := { st_receipt : bool; st_policy : Insight.IngressPolicy }.

(** [IngressError] is its message. *)
Definition IngressError : Type := rstr.
Abbreviation etx A := (ptxn db IngressEffectError A).
Definition invalid {E} (_ : E) : IngressEffectError := InvalidTransition.

(** A Rust call that may panic; its errors become [InvalidTransition]. *)
Definition call_invalid {A E} (m : run (result A E)) : etx A :=
  x_call (let! r := m in Ret (match r with Ok a => Ok a | Err e => Err (invalid e) end)).

(** ** The event row *)

Definition event_key (r : IngressRequest) : rstr * rstr := (provider_scope r, provider_event_id r).

Definition event_row (id : uuid) (r : IngressRequest) (o : IngressObservation) (processing_state : rstr)
    : inbound_event :=
  {| ev_id := id; ev_kind := IngressEventKind.as_str (event_kind o); ev_processing_state := processing_state;
     ev_ingress_source := IngressSource.as_str (source r); ev_account := None; ev_processed_at := None;
     ev_media_url := media_url o; ev_provider_chat_id := provider_chat_id r |}.

Definition set_event (r : IngressRequest) (row : inbound_event) (d : db) : db :=
  upd_rt (fun t => {| Receipt.accounts := Receipt.accounts t;
                      Receipt.inbound_events := {[ ev_id row ]} ∪ Receipt.inbound_events t;
                      Receipt.categories := Receipt.categories t;
                      Receipt.submissions := Receipt.submissions t; Receipt.assets := Receipt.assets t;
                      Receipt.drafts := Receipt.drafts t; Receipt.corrections := Receipt.corrections t;
                      Receipt.extraction_attempts := Receipt.extraction_attempts t;
                      Receipt.expenses := Receipt.expenses t; Receipt.queue := Receipt.queue t;
                      Receipt.usage := Receipt.usage t |})
    (upd_inbound_events <[event_key r := row]> d).

(** A new event is inserted; accepting promotes a rejected one and keeps its id. *)
Definition insert_observed_event (event_id : uuid) (r : IngressRequest) (o : IngressObservation)
    (processing_state : rstr) : txn db IngressError IngressOutcome :=
  fun d =>
    let accepting := str_eqb processing_state (s! "accepted") in
    match inbound_events d !! event_key r with
    | None =>
        if bool_decide (event_id ∈ Receipt.inbound_events (rt d))
        then Err (if accepting then s! "failed to insert or promote inbound event"
                  else s! "failed to insert inbound event")
        else Ok (Accepted event_id, set_event r (event_row event_id r o processing_state) d)
    | Some old =>
        if accepting && str_eqb (ev_processing_state old) (s! "rejected")
        then Ok (Accepted (ev_id old), set_event r (event_row (ev_id old) r o processing_state) d)
        else Ok (Duplicate (ev_id old), d)
    end.

(** ** The account *)

Definition resolve_or_create_account (fresh_account : uuid) (r : IngressRequest)
    : txn db IngressEffectError uuid :=
  fun d =>
    match provider_identities d !! (provider_scope r, provider_sender_id r) with
    | Some a => Ok (a, d)
    | None =>
        if negb (Receipt.is_none (accounts d !! fresh_account)) then Err InvalidTransition
        else
        Ok (fresh_account,
            upd_provider_identities <[(provider_scope r, provider_sender_id r) := fresh_account]>
              (upd_account_cols <[fresh_account := default_account]>
                (Account.upd_accounts <[fresh_account := {|
                   Receipt.acc_lifecycle_state := s! "pending_consent";
                   Receipt.retention_preference_days := DEFAULT_RETENTION_DAYS |}]> d)))
    end.

Definition load_account (d : db) (a : uuid) : result (Receipt.account * account_columns) IngressEffectError :=
  ok_or (account_row d a) InvalidTransition.
Definition account_timezone (a : uuid) : etx rstr :=
  let^ row := x_read (fun d => load_account d a) in x_ret (timezone row.2).

(** ** The decision context *)

Definition load_period_totals (d : db) (a : uuid) (period_start period_end : Z) (fallback_currency : rstr)
    : result (Z * Z * rstr) IngressEffectError :=
  let? t := Insight.totals_of InvalidTransition (Insight.confirmed_in d a period_start period_end)
              fallback_currency in
  let '(total_minor, count, currency) := t in
  Ok (total_minor, as_u32 count, currency).

Section Context_.
Context `{CH : Chrono} `{PG : Postgres} `{UT : UuidText}.

(** Confirmed expenses of the local day of [now] in PostgreSQL's reading of the zone. *)
Definition same_local_day (tz : rstr) (now : Z) (e : Receipt.expense) : bool :=
  match pg_date tz (Receipt.ex_occurred_at e), pg_date tz now with
  | Some x, Some y => x =? y
  | _, _ => false
  end.
Definition load_today_totals (d : db) (a : uuid) (tz : rstr) (now : Z)
    : result (Z * Z * rstr) IngressEffectError :=
  if Receipt.is_none (pg_date tz now) then Err InvalidTransition
  else Insight.totals_of InvalidTransition
         (List.filter (same_local_day tz now) (map snd (confirmed_of d a))) (s! "VND").

(** [ORDER BY occurred_at DESC, created_at DESC]. *)
Definition newer (d : db) (p q : uuid * Receipt.expense) : Prop :=
  Receipt.ex_occurred_at q.2 < Receipt.ex_occurred_at p.2
  \/ (Receipt.ex_occurred_at p.2 = Receipt.ex_occurred_at q.2
      /\ expense_created_at d q.1 <= expense_created_at d p.1).
#[export] Instance newer_dec d p q : Decision (newer d p q).
Proof. unfold newer. apply _. Defined.

Definition recent_expense (d : db) (p : uuid * Receipt.expense) : option RecentExpense :=
  let '(id, e) := p in
  (fun st => {| rx_id := id; rx_amount_minor := Receipt.ex_amount_minor e; rx_currency := Receipt.ex_currency e;
                rx_occurred_at := Receipt.ex_occurred_at e; rx_description := Receipt.ex_description e;
                rx_source := Receipt.ex_source e; rx_state := st; rx_version := expense_version d id;
                rx_category_key := Receipt.ex_category_key e;
                rx_transaction_type := Receipt.ex_transaction_type e |})
    <$> ExpenseState.from_str (Receipt.ex_state e).

Definition load_recent_expenses (d : db) (a : uuid) : list RecentExpense :=
  omap (recent_expense d) (take 10 (merge_sort (newer d) (expenses_of d a))).

(** The expense a pending action refers to: among the recent ones, or by its id. *)
Definition load_pending_expense (d : db) (a : uuid) (recent : list RecentExpense) (id : uuid)
    : option RecentExpense :=
  match List.find (fun x => bool_decide (rx_id x = id)) recent with
  | Some x => Some x
  | None =>
      match expenses d !! id with
      | Some e => if bool_decide (Receipt.ex_account e = a) then recent_expense d (id, e) else None
      | None => None
      end
  end.

Definition load_receipt_draft_snapshot (d : db) (a submission_id : uuid)
    : result (option ReceiptDraftSnapshot) IngressEffectError :=
  let? row := load_account d a in
  let use_en := starts_with (to_ascii_lowercase (locale row.2)) (s! "en") in
  Ok (draft ← Receipt.drafts (rt d) !! submission_id;
      s ← Receipt.submissions (rt d) !! submission_id;
      names ← category_names d !! ReceiptTypes.category_key draft;
      if bool_decide (ReceiptTypes.dr_account_id draft = a)
         && bool_decide (Receipt.sub_account s = ReceiptTypes.dr_account_id draft)
         && bool_decide (Receipt.sub_state s = ReceiptTypes.ReviewRequired)
      then Some {| rd_submission_id := submission_id; rd_amount_minor := ReceiptTypes.amount_minor draft;
                   rd_currency := ReceiptTypes.currency draft; rd_merchant := ReceiptTypes.merchant draft;
                   rd_category_key := ReceiptTypes.category_key draft;
                   rd_category_display := (if use_en then names.2 else names.1);
                   rd_transaction_type := ReceiptTypes.transaction_type draft;
                   rd_occurred_at := ReceiptTypes.occurred_at draft; rd_version := ReceiptTypes.version draft |}
      else None).

Definition load_pending_action (d : db) (a : uuid) (recent : list RecentExpense)
    : result (option PendingAction) IngressEffectError :=
  match conversation_states d !! a with
  | Some {| pending_action_type := Some action_type; pending_payload_ref := payload_ref;
            expires_at := Some exp; cs_version := v |} =>
      let action expense draft :=
        {| pa_action_type := action_type; pa_payload_ref := payload_ref; pa_expires_at := exp;
           pa_version := v; pa_expense := expense; pa_receipt_draft := draft |} in
      let reference := payload_ref ≫= parse_uuid in
      if str_eqb action_type (s! "manual_expense_confirmation")
      then Ok (Some (action (reference ≫= load_pending_expense d a recent) None))
      else if str_eqb action_type (s! "receipt_review") then
        match reference with
        | Some id => let? draft := load_receipt_draft_snapshot d a id in Ok (Some (action None draft))
        | None => Ok (Some (action None None))
        end
      else if str_eqb action_type (s! "account_deletion") then Ok (Some (action None None))
      else Ok None
  | _ => Ok None
  end.

(** [ORDER BY frequency]. *)
Definition frequency_before (p q : SummaryScheduleSnapshot) : Prop :=
  code_point_le (ss_frequency p) (ss_frequency q) = true.
#[export] Instance frequency_before_dec p q : Decision (frequency_before p q).
Proof. unfold frequency_before. apply _. Defined.

Definition load_schedules (d : db) (a : uuid) : list SummaryScheduleSnapshot :=
  merge_sort frequency_before
    (map (fun p => {| ss_frequency := p.1.2; ss_delivery_minute := sch_delivery_minute p.2;
                      ss_enabled := sch_enabled p.2 |})
       (List.filter (fun p => bool_decide (p.1.1 = a)) (map_to_list (summary_schedules d)))).

Definition receipts_counter (a : uuid) (now : Z) (tz : rstr) : Quota.counter_key :=
  {| Quota.scope := Quota.SCOPE_ACCOUNT; Quota.scope_id := uuid_str a;
     Quota.period := Quota.daily_period_key now tz; Quota.metric := Quota.METRIC_RECEIPTS |}.

Definition period_of (f : Schedule.Frequency) (now : Z) (tz : rstr) : etx Schedule.Period :=
  let^ p := call_invalid (Schedule.interactive_period f now tz) in x_ret p.1.

Definition load_decision_context (env : Env) (a event_id : uuid) (r : IngressRequest)
    (per_user_daily_receipts : Z) : etx DecisionContext :=
  let now := observed_at r in
  let^ row := x_read (fun d => ok_or (account_row d a) NotFound) in
  let '(acc, cols) := row in
  let^ lifecycle := x_read (fun _ => ok_or (LifecycleState.from_str (Receipt.acc_lifecycle_state acc))
                                       InvalidTransition) in
  let tz := timezone cols in
  let^ today := x_read (fun d => load_today_totals d a tz now) in
  let^ week_period := period_of Schedule.Weekly now tz in
  let^ week := x_read (fun d => load_period_totals d a (Schedule.start week_period) (Schedule.pend week_period)
                                  (default_currency cols)) in
  let^ month_period := period_of Schedule.Monthly now tz in
  let^ month := x_read (fun d => load_period_totals d a (Schedule.start month_period)
                                   (Schedule.pend month_period) (default_currency cols)) in
  let^ d := x_read (fun d => Ok d) in
  let recent := load_recent_expenses d a in
  let^ pending := x_read (fun d => load_pending_action d a recent) in
  let expense_count := Z.of_nat (length (confirmed_of d a)) in
  x_ret {|
    dc_account_id := Some a; dc_inbound_event_id := Some event_id; dc_lifecycle_state := Some lifecycle;
    dc_consent_version := consent_version cols; dc_pending_action := pending;
    dc_confirmed_today_total_minor := today.1.1; dc_confirmed_today_count := as_u32 today.1.2;
    dc_today_currency := today.2;
    dc_week_total_minor := week.1.1; dc_week_tx_count := week.1.2; dc_week_currency := week.2;
    dc_month_total_minor := month.1.1; dc_month_tx_count := month.1.2; dc_month_currency := month.2;
    dc_default_currency := default_currency cols; dc_schedules := load_schedules d a;
    dc_recent_expenses := recent; dc_sender_allowed := true; dc_user_text := user_text r;
    dc_timezone := tz; dc_locale := locale cols;
    dc_original_receipt_retention_days := as_u32 (Receipt.retention_preference_days acc);
    dc_next_expense_id := fresh env 2; dc_next_submission_id := fresh env 3;
    dc_next_ingest_job_id := fresh env 4;
    dc_remaining_daily_receipts :=
      Quota.remaining_in_transaction (Receipt.usage (rt d)) (receipts_counter a now tz)
        (i64_or_max per_user_daily_receipts);
    dc_confirmed_expense_count := if expense_count <=? u32_max then expense_count else u32_max;
    dc_now := now |}.

(** The context of a sender that is not allowed. *)
Definition stranger_context (env : Env) (event_id : uuid) (r : IngressRequest) (per_user_daily_receipts : Z)
    : DecisionContext :=
  {| dc_account_id := None; dc_inbound_event_id := Some event_id; dc_lifecycle_state := None;
     dc_consent_version := None; dc_pending_action := None;
     dc_confirmed_today_total_minor := 0; dc_confirmed_today_count := 0; dc_today_currency := s! "VND";
     dc_week_total_minor := 0; dc_week_tx_count := 0; dc_week_currency := s! "VND";
     dc_month_total_minor := 0; dc_month_tx_count := 0; dc_month_currency := s! "VND";
     dc_default_currency := s! "VND"; dc_schedules := []; dc_recent_expenses := [];
     dc_sender_allowed := false; dc_user_text := user_text r;
     dc_timezone := s! "Asia/Ho_Chi_Minh"; dc_locale := s! "vi-VN";
     dc_original_receipt_retention_days := 7;
     dc_next_expense_id := fresh env 2; dc_next_submission_id := fresh env 3;
     dc_next_ingest_job_id := fresh env 4;
     dc_remaining_daily_receipts := i64_or_max per_user_daily_receipts;
     dc_confirmed_expense_count := 0; dc_now := observed_at r |}.

End Context_.

End IngressStore.
