(* ===== verification/IngressApply.v ===== *)
(** * Applying effects and replies ([src/src/ingress/store.rs], second part)

    One definition per statement or helper, one branch of [apply_effect] per effect, and
    [process], the transaction of one event. *)

From S2P Require Import Prelude RustStr RustStrFacts Platform Errors Work Quota Schedule ConvTypes Templates.
From S2P Require Import ReceiptTypes Receipt Database Insight Account IngressTypes IngressStore.

Module IngressApply.
Import Db Ingress IngressStore.
Import (hints) Errors Work Quota ReceiptTypes Receipt.

Abbreviation stx A := (txn db IngressEffectError A).

(** ** Accounts *)

Definition grant_consent (a : uuid) (version : rstr) : stx unit :=
  fun d =>
    match accounts d !! a with
    | Some row =>
        if str_eqb (Receipt.acc_lifecycle_state row) (s! "pending_consent")
        then Ok (tt, Account.upd_columns a (Account.set_consent (Some version))
                       (Account.upd_accounts (alter (Account.set_lifecycle (s! "active")) a) d))
        else Err NotFound
    | None => Err NotFound
    end.

Definition set_locale (v : rstr) (c : account_columns) : account_columns :=
  {| consent_version := consent_version c; locale := v; timezone := timezone c;
     default_currency := default_currency c |}.
Definition set_timezone (v : rstr) (c : account_columns) : account_columns :=
  {| consent_version := consent_version c; locale := locale c; timezone := v;
     default_currency := default_currency c |}.
(** [UPDATE accounts SET column = $2 WHERE id = $1], with no row an error. *)
Definition update_columns (a : uuid) (f : account_columns -> account_columns) : stx unit :=
  fun d => if Receipt.is_none (accounts d !! a) then Err NotFound else Ok (tt, Account.upd_columns a f d).

(** ** Expenses *)

Definition currency_ok (c : rstr) : bool := (char_count c =? 3) && forallb is_ascii_upper c.

Definition insert_manual_expense (now : Z) (a eid : uuid) (amount_minor : Z) (currency description : rstr)
    (occurred_at version : Z) : stx unit :=
  fun d =>
    if negb (Receipt.is_none (expenses d !! eid)) || Receipt.is_none (accounts d !! a)
       || negb (currency_ok currency) || negb ((0 <? version) && in_i32 version) || negb (in_i64 amount_minor)
       || negb (bool_decide (s! "khac" ∈ Receipt.categories (rt d)))
    then Err InvalidTransition
    else Ok (tt, upd_expense_cols <[eid := {| ex_version := version; ex_created_at := now |}]>
           (upd_rt (Receipt.set_expenses <[eid := {|
              Receipt.ex_account := a; Receipt.ex_amount_minor := amount_minor; Receipt.ex_currency := currency;
              Receipt.ex_occurred_at := occurred_at; Receipt.ex_description := description;
              Receipt.ex_source := s! "manual"; Receipt.ex_state := s! "awaiting_confirmation";
              Receipt.ex_receipt_submission := None; Receipt.ex_category_key := s! "khac";
              Receipt.ex_transaction_type := s! "expense" |}]>) d)).

Definition set_expense_state (st : rstr) (e : Receipt.expense) : Receipt.expense :=
  {| Receipt.ex_account := Receipt.ex_account e; Receipt.ex_amount_minor := Receipt.ex_amount_minor e;
     Receipt.ex_currency := Receipt.ex_currency e; Receipt.ex_occurred_at := Receipt.ex_occurred_at e;
     Receipt.ex_description := Receipt.ex_description e; Receipt.ex_source := Receipt.ex_source e;
     Receipt.ex_state := st; Receipt.ex_receipt_submission := Receipt.ex_receipt_submission e;
     Receipt.ex_category_key := Receipt.ex_category_key e;
     Receipt.ex_transaction_type := Receipt.ex_transaction_type e |}.

(** The row of [WHERE id = $1 AND account_id = $2 AND version = $3 AND
    state = 'awaiting_confirmation']. *)
Definition awaiting_expense (d : db) (a eid : uuid) (expected_version : Z) : option Receipt.expense :=
  match expenses d !! eid with
  | Some e =>
      if bool_decide (Receipt.ex_account e = a) && (expense_version d eid =? expected_version)
         && str_eqb (Receipt.ex_state e) (s! "awaiting_confirmation")
      then Some e else None
  | None => None
  end.

(** Replaces the row and bumps its version. *)
Definition put_expense (eid : uuid) (e : Receipt.expense) (d : db) : db :=
  upd_expense_cols <[eid := {| ex_version := expense_version d eid + 1;
                               ex_created_at := expense_created_at d eid |}]>
    (upd_rt (Receipt.set_expenses <[eid := e]>) d).

Definition settle_expense (a eid : uuid) (expected_version : Z) (st : rstr) : stx unit :=
  fun d =>
    match awaiting_expense d a eid expected_version with
    | Some e => if in_i32 (expense_version d eid + 1)
                then Ok (tt, put_expense eid (set_expense_state st e) d)
                else Err InvalidTransition
    | None => Err VersionConflict
    end.

Definition edit_manual_expense_in_transaction (a eid : uuid) (expected_version : Z) (amount_minor : option Z)
    (merchant category_key : option rstr) (occurred_at : option Z) (transaction_type : option rstr) : stx unit :=
  fun d =>
    match awaiting_expense d a eid expected_version with
    | None => Err VersionConflict
    | Some e =>
        let next_amount := default (Receipt.ex_amount_minor e) amount_minor in
        let next_desc := trim (default (Receipt.ex_description e) merchant) in
        if is_empty next_desc then Err InvalidTransition
        else
        let next_cat := default (Receipt.ex_category_key e) category_key in
        let next_occurred := default (Receipt.ex_occurred_at e) occurred_at in
        let next_type := default (Receipt.ex_transaction_type e) transaction_type in
        if negb (bool_decide (next_cat ∈ Receipt.categories (rt d))) then Err InvalidTransition
        else if negb (existsb (str_eqb next_type) ReceiptTypes.TRANSACTION_TYPES)
                || negb (in_i64 next_amount) || negb (in_i32 (expense_version d eid + 1))
        then Err InvalidTransition
        else Ok (tt, put_expense eid {|
               Receipt.ex_account := Receipt.ex_account e; Receipt.ex_amount_minor := next_amount;
               Receipt.ex_currency := Receipt.ex_currency e; Receipt.ex_occurred_at := next_occurred;
               Receipt.ex_description := next_desc; Receipt.ex_source := Receipt.ex_source e;
               Receipt.ex_state := Receipt.ex_state e;
               Receipt.ex_receipt_submission := Receipt.ex_receipt_submission e;
               Receipt.ex_category_key := next_cat; Receipt.ex_transaction_type := next_type |} d)
    end.

Definition set_expense_category (k : rstr) (e : Receipt.expense) : Receipt.expense :=
  {| Receipt.ex_account := Receipt.ex_account e; Receipt.ex_amount_minor := Receipt.ex_amount_minor e;
     Receipt.ex_currency := Receipt.ex_currency e; Receipt.ex_occurred_at := Receipt.ex_occurred_at e;
     Receipt.ex_description := Receipt.ex_description e; Receipt.ex_source := Receipt.ex_source e;
     Receipt.ex_state := Receipt.ex_state e; Receipt.ex_receipt_submission := Receipt.ex_receipt_submission e;
     Receipt.ex_category_key := k; Receipt.ex_transaction_type := Receipt.ex_transaction_type e |}.
Definition set_draft_category (a : uuid) (k : rstr) (n : ReceiptTypes.ExpenseDraftView)
    : ReceiptTypes.ExpenseDraftView :=
  if bool_decide (ReceiptTypes.dr_account_id n = a)
  then {| ReceiptTypes.draft_id := ReceiptTypes.draft_id n; ReceiptTypes.dr_account_id := ReceiptTypes.dr_account_id n;
          ReceiptTypes.amount_minor := ReceiptTypes.amount_minor n; ReceiptTypes.currency := ReceiptTypes.currency n;
          ReceiptTypes.merchant := ReceiptTypes.merchant n; ReceiptTypes.category_key := k;
          ReceiptTypes.transaction_type := ReceiptTypes.transaction_type n;
          ReceiptTypes.occurred_at := ReceiptTypes.occurred_at n;
          ReceiptTypes.confidence := ReceiptTypes.confidence n; ReceiptTypes.version := ReceiptTypes.version n |}
  else n.

(** Neither the expense nor its draft get a new version. *)
Definition recategorize_latest_in_transaction (a : uuid) (category_key : rstr) : stx unit :=
  fun d =>
    if negb (bool_decide (category_key ∈ Receipt.categories (rt d))) then Err InvalidTransition
    else match merge_sort (newer d) (confirmed_of d a) with
    | [] => Err NotFound
    | (eid, e) :: _ =>
        let d1 := upd_rt (Receipt.set_expenses <[eid := set_expense_category category_key e]>) d in
        Ok (tt, match Receipt.ex_receipt_submission e with
                | Some sid => upd_rt (Receipt.set_drafts (alter (set_draft_category a category_key) sid)) d1
                | None => d1
                end)
    end.

(** ** The pending action of a conversation *)

Definition PENDING_ACTION_TYPES : list rstr :=
  [s! "manual_expense_confirmation"; s! "receipt_review"; s! "account_deletion"].

Definition put_pending (a : uuid) (action : option rstr) (payload : option rstr) (expires : option Z)
    (version : Z) : stx unit :=
  fun d =>
    if match action with Some t => existsb (str_eqb t) PENDING_ACTION_TYPES | None => true end
       && in_i32 version
    then Ok (tt, upd_conversation_states <[a := {| pending_action_type := action; pending_payload_ref := payload;
                                                  expires_at := expires; cs_version := version |}]> d)
    else Err InvalidTransition.

(** [UPDATE conversation_states ... WHERE account_id = $1 AND version = expected]. *)
Definition update_pending (a : uuid) (expected : Z) (action payload : option rstr) (expires : option Z)
    : stx unit :=
  fun d =>
    match conversation_states d !! a with
    | Some c => if cs_version c =? expected
                then put_pending a action payload expires (cs_version c + 1) d
                else Err VersionConflict
    | None => Err VersionConflict
    end.

Definition upsert_pending_action (a : uuid) (action_type : rstr) (payload_ref : option rstr) (expires : Z)
    (expected_version : option Z) : stx unit :=
  fun d =>
    match expected_version with
    | Some expected => update_pending a expected (Some action_type) payload_ref (Some expires) d
    | None =>
        match conversation_states d !! a with
        | None =>
            if Receipt.is_none (accounts d !! a) then Err InvalidTransition
            else put_pending a (Some action_type) payload_ref (Some expires) 1 d
        | Some c => update_pending a (cs_version c) (Some action_type) payload_ref (Some expires) d
        end
    end.

(** The UPDATE of [ConfirmAccountDeletion], which takes the row at any version. *)
Definition reset_pending (a : uuid) : stx unit :=
  fun d =>
    match conversation_states d !! a with
    | Some c => put_pending a None None None (cs_version c + 1) d
    | None => Ok (tt, d)
    end.

(** ** Schedules *)

Definition SCHEDULE_FREQUENCIES : list rstr := [s! "daily"; s! "weekly"; s! "monthly"].

Definition schedule_id_taken (d : db) (id : uuid) : bool :=
  existsb (fun p => bool_decide (sch_id p.2 = id)) (map_to_list (summary_schedules d)).

Definition upsert_schedule (id a : uuid) (frequency : rstr) (delivery_minute : Z) (r : IngressRequest)
    (next_run_at : Z) : stx unit :=
  fun d =>
    let put sid last :=
      Ok (tt, upd_summary_schedules <[(a, frequency) := {|
            sch_id := sid; sch_delivery_minute := delivery_minute; sch_provider_scope := provider_scope r;
            sch_provider_chat_id := provider_chat_id r; sch_enabled := true; sch_next_run_at := next_run_at;
            sch_last_emitted_at := last |}]> d) in
    if negb (existsb (str_eqb frequency) SCHEDULE_FREQUENCIES) then Err InvalidTransition
    else match summary_schedules d !! (a, frequency) with
    | Some old => put (sch_id old) (sch_last_emitted_at old)
    | None => if schedule_id_taken d id || Receipt.is_none (accounts d !! a) then Err InvalidTransition
              else put id None
    end.

Definition disable_schedule (s : summary_schedule) : summary_schedule :=
  {| sch_id := sch_id s; sch_delivery_minute := sch_delivery_minute s;
     sch_provider_scope := sch_provider_scope s; sch_provider_chat_id := sch_provider_chat_id s;
     sch_enabled := false; sch_next_run_at := sch_next_run_at s;
     sch_last_emitted_at := sch_last_emitted_at s |}.
Definition disable_schedules (a : uuid) (frequency : option rstr) (d : db) : db :=
  upd_summary_schedules
    (fun m => match frequency with
              | Some f => alter disable_schedule (a, f) m
              | None => map_imap (fun k s => Some (if bool_decide (k.1 = a) then disable_schedule s else s)) m
              end) d.

Definition set_next_run (id : uuid) (next_run_at : Z) (d : db) : db :=
  upd_summary_schedules (fmap (fun s =>
    if bool_decide (sch_id s = id)
    then {| sch_id := sch_id s; sch_delivery_minute := sch_delivery_minute s;
            sch_provider_scope := sch_provider_scope s; sch_provider_chat_id := sch_provider_chat_id s;
            sch_enabled := sch_enabled s; sch_next_run_at := next_run_at;
            sch_last_emitted_at := sch_last_emitted_at s |}
    else s)) d.

Section Apply.
Context `{CH : Chrono} `{PG : Postgres} `{UT : UuidText} `{IL : ImageLib} `{SJ : SerdeJson} `{UC : UnicodeCase}.

Fixpoint recompute_loop (now : Z) (tz : rstr) (rows : list (uuid * rstr * Z)) : etx unit :=
  match rows with
  | [] => x_ret tt
  | (id, frequency, delivery_minute) :: rows' =>
      let^ f := x_read (fun _ => ok_or (Schedule.parse frequency) InvalidTransition) in
      let^ next := call_invalid (Schedule.next_delivery now tz f delivery_minute) in
      let^ _ := x_exec (fun d => Ok (tt, set_next_run id next d)) in
      recompute_loop now tz rows'
  end.

Definition enabled_schedules (d : db) (a : uuid) : list (uuid * rstr * Z) :=
  map (fun p => (sch_id p.2, p.1.2, sch_delivery_minute p.2))
    (List.filter (fun p => bool_decide (p.1.1 = a) && sch_enabled p.2) (map_to_list (summary_schedules d))).

Definition recompute_account_schedule_runs (a : uuid) (now : Z) : etx unit :=
  let^ tz := account_timezone a in
  let^ rows := x_read (fun d => Ok (enabled_schedules d a)) in
  recompute_loop now tz rows.

(** ** Receipts *)

Definition map_receipt_error (e : ReceiptTypes.ReceiptError) : IngressEffectError :=
  match ReceiptTypes.re_class e with
  | Errors.Conflict => VersionConflict
  | Errors.NotFound => NotFound
  | _ => InvalidTransition
  end.

Definition receipt_tx {A} (env : Env) (wired : bool)
    (m : txn Receipt.tables ReceiptTypes.ReceiptError A) : stx unit :=
  if negb wired then t_err InvalidTransition
  else let* _ := on_receipts (db_now env) map_receipt_error m in t_ret tt.

(** [Some text] when the daily quota is used up. *)
Definition accept_receipt (env : Env) (wired : bool) (policy : Insight.IngressPolicy) (a event_id : uuid) (now : Z)
    (submission_id ingest_job_id effect_event_id : uuid) : stx (option rstr) :=
  if negb wired then t_err InvalidTransition
  else if negb (bool_decide (effect_event_id = event_id)) then t_err InvalidTransition
  else
  let* row := (fun d => let? row := load_account d a in Ok (row, d)) in
  let* quota := on_usage invalid (Quota.increment_in_transaction
                  (receipts_counter a now (timezone row.2))
                  (i64_or_max (Insight.per_user_daily_receipts policy))) in
  if Quota.exceeded quota
  then t_ret (Some (Templates.daily_receipt_quota_text (Conv.Locale.parse (locale row.2))))
  else
  let* _ := on_receipts (db_now env) map_receipt_error
    (Receipt.accept_submission_in_transaction (db_now env) (utc_now env) {|
       ReceiptTypes.ac_submission_id := submission_id; ReceiptTypes.ac_account_id := a;
       ReceiptTypes.ac_inbound_event_id := Some event_id;
       ReceiptTypes.ac_ingest_job_id := ingest_job_id |}) in
  t_ret None.

(** ** Account deletion *)

Definition request_deletion (request_id a : uuid) (expense_count : Z) : stx uuid :=
  fun d =>
    let row id := {| dq_id := id; dq_state := s! "requested"; dq_expense_count := expense_count;
                     dq_completed_at := None |} in
    match deletion_requests d !! a with
    | Some old =>
        if str_eqb (dq_state old) (s! "completed") then Ok (dq_id old, d)
        else Ok (dq_id old, upd_deletion_requests <[a := row (dq_id old)]> d)
    | None =>
        if existsb (fun p => bool_decide (dq_id p.2 = request_id)) (map_to_list (deletion_requests d))
        then Err InvalidTransition
        else Ok (request_id, upd_deletion_requests <[a := row request_id]> d)
    end.

Definition start_deleting (a : uuid) : stx unit :=
  fun d =>
    match accounts d !! a with
    | Some row =>
        if str_eqb (Receipt.acc_lifecycle_state row) (s! "active")
           || str_eqb (Receipt.acc_lifecycle_state row) (s! "deleting")
        then Ok (tt, Account.upd_accounts (alter (Account.set_lifecycle (s! "deleting")) a) d)
        else Err InvalidTransition
    | None => Err InvalidTransition
    end.

Definition map_tx_err {E A} (m : txn db E A) : stx A :=
  fun d => match m d with Ok r => Ok r | Err e => Err (invalid e) end.

Definition confirm_account_deletion (env : Env) (i : nat) (a : uuid) (now : Z) : stx unit :=
  let* _ := start_deleting a in
  let* count := (fun d => Ok (Z.of_nat (length (confirmed_of d a)), d)) in
  let* request_id := request_deletion (effect_id env i 0) a (if in_i32 count then count else i32_max) in
  let* _ := map_tx_err (Account.enqueue_delete_in_transaction (db_now env) (effect_id env i 1) a request_id now) in
  reset_pending a.

(** ** Insight snapshots and their reply *)

Definition summary_body (locale : Conv.Locale) (label default_currency : rstr) (aggregate : Work.json) : rstr :=
  let total_minor := default 0 (json_field aggregate (s! "total_minor") Work.json_as_i64) in
  let tx_count := default 0 (json_field aggregate (s! "tx_count") Work.json_as_i64) in
  let currency := default default_currency (json_field aggregate (s! "currency") json_as_str) in
  if tx_count =? 0 then Templates.empty_summary_text locale label
  else Templates.period_summary_text locale label currency total_minor (Insight.top_category_lines aggregate).

Definition record_insight (env : Env) (i : nat) (policy : Insight.IngressPolicy) (a : uuid) (now : Z)
    (period_kind : rstr) : etx rstr :=
  let^ kind := x_read (fun _ => ok_or (Insight.parse period_kind) InvalidTransition) in
  let^ row := x_read (fun d => load_account d a) in
  let cols := row.2 in
  let^ snap := x_map_err invalid
    (Insight.record_snapshot_in_transaction (db_now env) (effect_id env i 0) (effect_id env i 1) a kind now
       (timezone cols) (default_currency cols) policy) in
  let^ p := call_invalid (Schedule.interactive_period (Insight.frequency kind) now (timezone cols)) in
  x_ret (summary_body (Conv.Locale.parse (locale cols)) p.2 (default_currency cols) snap.2).

(** ** [apply_effect]: an effect may replace the reply *)

Definition quiet (m : stx unit) : etx (option rstr) := x_exec (let* _ := m in t_ret None).

Definition apply_effect (env : Env) (i : nat) (st : IngressStore) (a event_id : uuid) (r : IngressRequest)
    (effect : IngressEffect) : etx (option rstr) :=
  let now := observed_at r in
  let wired := st_receipt st in
  match effect with
  | ReadOnly => x_ret None
  | GrantConsent version => quiet (grant_consent a version)
  | CreateManualExpenseAwaitingConfirmation eid amount_minor currency description occurred_at
      optimistic_version pending_expires_at pending_action_type =>
      quiet (let* _ := insert_manual_expense (db_now env) a eid amount_minor currency description occurred_at
                         optimistic_version in
             upsert_pending_action a pending_action_type (Some (uuid_str eid)) pending_expires_at None)
  | ConfirmExpense eid expected_version => quiet (settle_expense a eid expected_version (s! "confirmed"))
  | RejectExpense eid expected_version => quiet (settle_expense a eid expected_version (s! "rejected"))
  | SetPendingAction action_type payload_ref expires expected_version =>
      quiet (upsert_pending_action a action_type payload_ref expires expected_version)
  | ClearPendingAction expected_version => quiet (update_pending a expected_version None None None)
  | AcceptReceiptSubmission submission_id ingest_job_id effect_event_id =>
      x_exec (accept_receipt env wired (st_policy st) a event_id now submission_id ingest_job_id effect_event_id)
  | ConfirmReceipt submission_id expense_id expected_draft_version =>
      quiet (receipt_tx env wired (Receipt.confirm_in_transaction (db_now env) {|
               ReceiptTypes.cf_account_id := a; ReceiptTypes.cf_submission_id := submission_id;
               ReceiptTypes.cf_expected_draft_version := expected_draft_version;
               ReceiptTypes.cf_expense_id := expense_id |}))
  | RejectReceipt submission_id expected_draft_version =>
      quiet (receipt_tx env wired (Receipt.reject_in_transaction (db_now env) {|
               ReceiptTypes.rj_account_id := a; ReceiptTypes.rj_submission_id := submission_id;
               ReceiptTypes.rj_expected_draft_version := expected_draft_version |}))
  | EditReceiptDraft submission_id expected_draft_version amount_minor merchant category_key occurred_at
      transaction_type =>
      quiet (receipt_tx env wired (Receipt.edit_draft_in_transaction {|
               ReceiptTypes.ed_account_id := a; ReceiptTypes.ed_submission_id := submission_id;
               ReceiptTypes.ed_expected_version := expected_draft_version;
               ReceiptTypes.ed_amount_minor := amount_minor; ReceiptTypes.ed_currency := None;
               ReceiptTypes.ed_merchant := merchant; ReceiptTypes.ed_category_key := category_key;
               ReceiptTypes.ed_occurred_at := occurred_at;
               ReceiptTypes.ed_transaction_type := transaction_type |}))
  | EditManualExpense eid expected_version amount_minor merchant category_key occurred_at transaction_type =>
      quiet (edit_manual_expense_in_transaction a eid expected_version amount_minor merchant category_key
               occurred_at transaction_type)
  | RecategorizeLatest category_key => quiet (recategorize_latest_in_transaction a category_key)
  | SetLocale value =>
      quiet (update_columns a (set_locale (if starts_with (to_ascii_lowercase value) (s! "en")
                                           then s! "en-US" else s! "vi-VN")))
  | SetTimezone iana =>
      match Schedule.parse_timezone iana with
      | Err _ => x_err InvalidTransition
      | Ok _ =>
          let^ _ := x_exec (update_columns a (set_timezone iana)) in
          let^ _ := recompute_account_schedule_runs a now in
          x_ret None
      end
  | UpsertSummarySchedule frequency delivery_minute =>
      let^ _ := call_invalid (Ret (Schedule.validate_delivery_minute delivery_minute)) in
      let^ f := x_read (fun _ => ok_or (Schedule.parse frequency) InvalidTransition) in
      let^ tz := account_timezone a in
      let^ next := call_invalid (Schedule.next_delivery now tz f delivery_minute) in
      quiet (upsert_schedule (effect_id env i 0) a frequency delivery_minute r next)
  | DisableSummarySchedule frequency => x_exec (fun d => Ok (None, disable_schedules a frequency d))
  | ArmAccountDeletion expires =>
      quiet (upsert_pending_action a (s! "account_deletion") None expires None)
  | ConfirmAccountDeletion => quiet (confirm_account_deletion env i a now)
  | RequestAccountExport =>
      quiet (map_tx_err (Account.enqueue_export_in_transaction (db_now env) (effect_id env i 1) a
                           (effect_id env i 0) (provider_scope r) (provider_chat_id r) now))
  | RecordInsightSnapshot period_kind =>
      let^ body := record_insight env i (st_policy st) a now period_kind in x_ret (Some body)
  end.

(** The last effect with a reply of its own wins. *)
Fixpoint apply_effects (env : Env) (i : nat) (st : IngressStore) (a event_id : uuid) (r : IngressRequest)
    (l : list IngressEffect) (reply_override : option rstr) : etx (option rstr) :=
  match l with
  | [] => x_ret reply_override
  | e :: l' =>
      let^ o := apply_effect env i st a event_id r e in
      apply_effects env (S i) st a event_id r l' (match o with Some _ => o | None => reply_override end)
  end.

(** ** The outbox *)

Definition messages_counter (a : uuid) (now : Z) : Quota.counter_key :=
  {| Quota.scope := Quota.SCOPE_ACCOUNT; Quota.scope_id := uuid_str a;
     Quota.period := Quota.monthly_period_key now; Quota.metric := Quota.METRIC_ZALO_MESSAGES |}.

Definition outbound_delivery_allowed (policy : Insight.IngressPolicy) (now : Z) (a : option uuid) : stx bool :=
  if negb (Insight.outbound_enabled policy) then t_ret false
  else match a with
  | Some a =>
      let* quota := on_usage invalid (Quota.increment_in_transaction (messages_counter a now)
                                        (i64_or_max (Insight.zalo_monthly_messages policy))) in
      t_ret (negb (Quota.exceeded quota))
  | None => t_ret true
  end.

Definition body_ok (body : rstr) : bool := (1 <=? char_count body) && (char_count body <=? 2000).

(** [ON CONFLICT (idempotency_key) DO NOTHING], then the id of the row with the key. *)
Definition insert_outbound (now : Z) (id : uuid) (a event_id : option uuid) (scope target body key : rstr)
    (st : OutboundState) : stx uuid :=
  fun d =>
    if negb (body_ok body) then Err InvalidTransition
    else match outbound_with_key d key with
    | Some (existing, _) => Ok (existing, d)
    | None =>
        if negb (Receipt.is_none (outbound_messages d !! id))
           || match a with Some a => Receipt.is_none (accounts d !! a) | None => false end
           || match event_id with Some e => negb (bool_decide (e ∈ Receipt.inbound_events (rt d))) | None => false end
        then Err InvalidTransition
        else Ok (id, upd_outbound_messages <[id := {|
               ob_account := a; ob_inbound_event := event_id; ob_idempotency_key := key;
               ob_provider_scope := scope; ob_provider_target := target; ob_body := body; ob_state := st;
               ob_provider_message_id := None; ob_attempt_count := 0; ob_last_error_class := None;
               ob_ambiguity_reason := None; ob_created_at := now |}]> d)
    end.

Definition deliver_dedupe_key (idempotency_key : rstr) : rstr := s! "outbound.deliver:" ++ idempotency_key.
Definition deliver_payload (outbound_id : uuid) : Work.json :=
  Work.JObject [(s! "schema_version", Work.JInt 1); (s! "outbound_id", Work.JString (uuid_str outbound_id))].

(** [ids] are the ids of a new message and of a new job. *)
Definition enqueue_outbound_in_transaction (db_now utc_now : Z) (ids : uuid * uuid) (policy : Insight.IngressPolicy)
    (now : Z) (a event_id : option uuid) (scope target body key : rstr) : stx unit :=
  let* deliver := outbound_delivery_allowed policy now a in
  let serialization_key := match a with
                           | Some a => s! "account:" ++ uuid_str a
                           | None => s! "provider_chat:" ++ scope ++ s! ":" ++ target
                           end in
  let* outbound_id := insert_outbound db_now ids.1 a event_id scope target body key
                        (if deliver then ObQueued else ObSuppressed) in
  if negb deliver then t_ret tt
  else
  let* _ := on_queue invalid (Work.enqueue_in_transaction db_now {|
    Work.req_id := ids.2; Work.req_job_type := s! "outbound.deliver";
    Work.req_payload := deliver_payload outbound_id; Work.req_dedupe_key := deliver_dedupe_key key;
    Work.req_serialization_key := Some serialization_key;
    Work.req_priority := 10; Work.req_run_at := utc_now; Work.req_max_attempts := 10 |}) in
  t_ret tt.

Definition reply_key (r : IngressRequest) : rstr :=
  s! "reply:" ++ provider_scope r ++ s! ":" ++ provider_event_id r.

Definition enqueue_reply (env : Env) (event_id : uuid) (a : option uuid) (r : IngressRequest) (body : rstr)
    (policy : Insight.IngressPolicy) : stx unit :=
  enqueue_outbound_in_transaction (db_now env) (utc_now env) (fresh env 5, fresh env 6) policy (observed_at r)
    a (Some event_id) (provider_scope r) (provider_chat_id r) body (reply_key r).

(** ** [process] *)

(** [UPDATE inbound_events SET account_id = $2, processed_at = NOW() WHERE id = $1]. *)
Definition finalize_event (now : Z) (event_id : uuid) (a : option uuid) (d : db) : db :=
  upd_inbound_events (fmap (fun e =>
    if bool_decide (ev_id e = event_id)
    then {| ev_id := ev_id e; ev_kind := ev_kind e; ev_processing_state := ev_processing_state e;
            ev_ingress_source := ev_ingress_source e; ev_account := a; ev_processed_at := Some now;
            ev_media_url := ev_media_url e; ev_provider_chat_id := ev_provider_chat_id e |}
    else e)) d.

Definition decision : Type := DecisionContext -> run (result DecisionOutput IngressEffectError).
Abbreviation itx A := (ptxn db IngressError A).
Definition effect_tx {A} (m : etx A) : itx A := x_map_err effect_error_text m.

(** The transaction after the event row was inserted as accepted. *)
Definition process_accepted (env : Env) (st : IngressStore) (r : IngressRequest) (decide : decision)
    (event_id : uuid) : itx IngressOutcome :=
  let^ account := (if sender_allowed r
                   then let^ a := effect_tx (x_exec (resolve_or_create_account (fresh env 1) r)) in
                        x_ret (Some a)
                   else x_ret None) in
  let^ context :=
    match account with
    | Some a => effect_tx (load_decision_context env a event_id r
                             (Insight.per_user_daily_receipts (st_policy st)))
    | None => x_ret (stranger_context env event_id r (Insight.per_user_daily_receipts (st_policy st)))
    end in
  let^ out := effect_tx (x_call (decide context)) in
  let^ reply_override :=
    match account with
    | Some a => effect_tx (apply_effects env 0 st a event_id r (effects out) None)
    | None =>
        if existsb (fun e => match e with ReadOnly => false | _ => true end) (effects out)
        then x_err (s! "domain effects require an allowed sender account")
        else x_ret None
    end in
  let^ _ :=
    match (match reply_override with Some b => Some b | None => reply out end) with
    | Some body => effect_tx (x_exec (enqueue_reply env event_id account r body (st_policy st)))
    | None => x_ret tt
    end in
  let^ _ := x_exec (fun d => Ok (tt, finalize_event (db_now env) event_id account d)) in
  x_ret (Accepted event_id).

Definition process_tx (env : Env) (st : IngressStore) (r : IngressRequest) (o : IngressObservation)
    (decide : decision) : itx IngressOutcome :=
  let^ mode := x_read (fun d => Ok (ingress_mode d)) in
  if negb (str_eqb mode (IngressSource.as_str (source r))) then
    let^ outcome := x_exec (insert_observed_event (fresh env 0) r o (s! "rejected")) in
    x_ret (match outcome with Accepted id => ModeRejected id | other => other end)
  else
  let^ outcome := x_exec (insert_observed_event (fresh env 0) r o (s! "accepted")) in
  match outcome with
  | Accepted event_id => process_accepted env st r decide event_id
  | Duplicate event_id => x_ret (Duplicate event_id)
  | ModeRejected _ => x_err (s! "unexpected mode rejection on accepted path")
  end.

Definition process (env : Env) (st : IngressStore) (r : IngressRequest) (o : IngressObservation)
    (decide : decision) : db -> db * run (result IngressOutcome IngressError) :=
  x_atomically (process_tx env st r o decide).

End Apply.
End IngressApply.
