(* ===== verification/IngressApp.v ===== *)
(** * The ingress application ([src/src/ingress/application.rs], [followup.rs])

    The bridge between the ingress store and the conversation: a decision context becomes
    an account context, commands become effects.  After an extraction, the follow-ups put
    the review card or a failure notice into the outbox. *)

From S2P Require Import Prelude RustStr RustStrFacts Platform Money Errors Work Quota Schedule ConvTypes.
From S2P Require Import Templates Conversation ReceiptTypes Receipt Database Insight Account IngressTypes IngressStore IngressApply.

Module IngressApp.
Import Db Ingress IngressStore IngressApply.
Import (hints) Errors Work Quota ReceiptTypes Receipt.

Section App.
Context `{CH : Chrono} `{PG : Postgres} `{UT : UuidText} `{IL : ImageLib} `{SJ : SerdeJson} `{UC : UnicodeCase}
  `{UN : UnicodeNorm}.

(** ** [to_conversation_context] *)

Definition to_lifecycle (s : option LifecycleState) : Conv.LifecycleState :=
  match s with
  | Some Active => Conv.Active
  | Some (Suspended | Deleting | Deleted) => Conv.Suspended
  | Some PendingConsent | None => Conv.PendingConsent
  end.

Definition deletion_confirmation (c : DecisionContext) (p : PendingAction) : Conv.PendingConfirmation :=
  {| Conv.pc_kind := Conv.AccountDeletion; Conv.pc_reference_id := default 0%N (dc_account_id c);
     Conv.pc_optimistic_version := as_u64 (pa_version p); Conv.pc_expires_at := pa_expires_at p;
     Conv.pc_draft := {|
       Conv.dv_version := as_u64 (pa_version p); Conv.dv_amount_minor := 0;
       Conv.dv_currency := dc_default_currency c; Conv.dv_merchant := []; Conv.dv_category_key := s! "khac";
       Conv.dv_category_display := []; Conv.dv_transaction_type := s! "expense"; Conv.dv_type_label := [];
       Conv.dv_date_display := []; Conv.dv_occurred_at := dc_now c |} |}.

Definition expense_confirmation (c : DecisionContext) (p : PendingAction) (x : RecentExpense)
    : Conv.PendingConfirmation :=
  let locale := Conv.Locale.parse (dc_locale c) in
  {| Conv.pc_kind := Conv.ManualExpense; Conv.pc_reference_id := rx_id x;
     Conv.pc_optimistic_version := as_u64 (rx_version x); Conv.pc_expires_at := pa_expires_at p;
     Conv.pc_draft := {|
       Conv.dv_version := as_u64 (rx_version x); Conv.dv_amount_minor := rx_amount_minor x;
       Conv.dv_currency := rx_currency x; Conv.dv_merchant := rx_description x;
       Conv.dv_category_key := rx_category_key x;
       Conv.dv_category_display := Conversation.category_display locale (rx_category_key x);
       Conv.dv_transaction_type := rx_transaction_type x;
       Conv.dv_type_label := Templates.transaction_type_label locale (rx_transaction_type x);
       Conv.dv_date_display := Conversation.format_date_vn (rx_occurred_at x) (dc_timezone c);
       Conv.dv_occurred_at := rx_occurred_at x |} |}.

Definition draft_confirmation (c : DecisionContext) (p : PendingAction) (x : ReceiptDraftSnapshot)
    : Conv.PendingConfirmation :=
  let locale := Conv.Locale.parse (dc_locale c) in
  {| Conv.pc_kind := Conv.ReceiptReview; Conv.pc_reference_id := rd_submission_id x;
     Conv.pc_optimistic_version := as_u64 (rd_version x); Conv.pc_expires_at := pa_expires_at p;
     Conv.pc_draft := {|
       Conv.dv_version := as_u64 (rd_version x); Conv.dv_amount_minor := rd_amount_minor x;
       Conv.dv_currency := rd_currency x; Conv.dv_merchant := rd_merchant x;
       Conv.dv_category_key := rd_category_key x; Conv.dv_category_display := rd_category_display x;
       Conv.dv_transaction_type := rd_transaction_type x;
       Conv.dv_type_label := Templates.transaction_type_label locale (rd_transaction_type x);
       Conv.dv_date_display := Conversation.format_date_vn (rd_occurred_at x) (dc_timezone c);
       Conv.dv_occurred_at := rd_occurred_at x |} |}.

Definition to_pending (c : DecisionContext) : option Conv.PendingConfirmation :=
  match dc_pending_action c with
  | Some p =>
      if str_eqb (pa_action_type p) (s! "account_deletion") then Some (deletion_confirmation c p)
      else match pa_expense p with
           | Some x => Some (expense_confirmation c p x)
           | None => draft_confirmation c p <$> pa_receipt_draft p
           end
  | None => None
  end.

Definition recent_line (c : DecisionContext) (x : RecentExpense) : Conv.RecentExpenseLine :=
  let locale := Conv.Locale.parse (dc_locale c) in
  {| Conv.re_date_display := Conversation.format_date_vn (rx_occurred_at x) (dc_timezone c);
     Conv.re_amount_minor := rx_amount_minor x; Conv.re_currency := rx_currency x;
     Conv.re_merchant := rx_description x;
     Conv.re_category_display := Conversation.category_display locale (rx_category_key x);
     Conv.re_type_label := Some (Templates.transaction_type_label locale (rx_transaction_type x)) |}.

Definition to_conversation_context (c : DecisionContext) : Conv.AccountContext :=
  let locale := Conv.Locale.parse (dc_locale c) in
  {| Conv.next_expense_id := dc_next_expense_id c; Conv.next_submission_id := dc_next_submission_id c;
     Conv.next_ingest_job_id := dc_next_ingest_job_id c;
     Conv.lifecycle := to_lifecycle (dc_lifecycle_state c); Conv.allowlisted := dc_sender_allowed c;
     Conv.default_currency := dc_default_currency c; Conv.timezone := dc_timezone c;
     Conv.locale_text := dc_locale c;
     Conv.original_receipt_retention_days := dc_original_receipt_retention_days c;
     Conv.remaining_daily_receipts := dc_remaining_daily_receipts c;
     Conv.confirmed_expense_count := dc_confirmed_expense_count c;
     Conv.pending := to_pending c;
     Conv.today_summary := Some {| Conv.ps_label := Templates.period_label_today locale;
                                   Conv.ps_currency := dc_today_currency c;
                                   Conv.ps_total_minor := dc_confirmed_today_total_minor c;
                                   Conv.ps_tx_count := dc_confirmed_today_count c |};
     Conv.week_summary := Some {| Conv.ps_label := Templates.period_label_week locale;
                                  Conv.ps_currency := dc_week_currency c;
                                  Conv.ps_total_minor := dc_week_total_minor c;
                                  Conv.ps_tx_count := dc_week_tx_count c |};
     Conv.month_summary := Some {| Conv.ps_label := Templates.period_label_month locale;
                                   Conv.ps_currency := dc_month_currency c;
                                   Conv.ps_total_minor := dc_month_total_minor c;
                                   Conv.ps_tx_count := dc_month_tx_count c |};
     Conv.schedules := map (fun s => {| Conv.sl_frequency := ss_frequency s;
                                        Conv.sl_delivery_minute := ss_delivery_minute s;
                                        Conv.sl_enabled := ss_enabled s |}) (dc_schedules c);
     Conv.recent_lines := map (recent_line c)
       (List.filter (fun x => bool_decide (rx_state x = Confirmed)) (dc_recent_expenses c)) |}.

(** ** [map_command], [map_outcome] *)

(** [i32::try_from]. *)
Definition to_i32 (v : Z) : result Z IngressEffectError := if in_i32 v then Ok v else Err InvalidTransition.

Definition map_command (command : Conv.DomainCommand) (pending_state_version : option Z) (event_id : uuid)
    : result IngressEffect IngressEffectError :=
  match command with
  | Conv.GrantConsent v => Ok (GrantConsent v)
  | Conv.CreateManualAwaitingConfirmation eid amount_minor currency description _ occurred_at
      optimistic_version pending_expires_at =>
      let? v := to_i32 optimistic_version in
      Ok (CreateManualExpenseAwaitingConfirmation eid amount_minor currency description occurred_at v
            pending_expires_at (s! "manual_expense_confirmation"))
  | Conv.ConfirmExpense eid expected => let? v := to_i32 expected in Ok (ConfirmExpense eid v)
  | Conv.RejectExpense eid expected => let? v := to_i32 expected in Ok (RejectExpense eid v)
  | Conv.AcceptReceiptSubmission sid job => Ok (AcceptReceiptSubmission sid job event_id)
  | Conv.ConfirmReceipt sid eid expected => let? v := to_i32 expected in Ok (ConfirmReceipt sid eid v)
  | Conv.RejectReceipt sid expected => let? v := to_i32 expected in Ok (RejectReceipt sid v)
  | Conv.EditReceiptDraft sid expected amount merchant category occurred_at type_ =>
      let? v := to_i32 expected in Ok (EditReceiptDraft sid v amount merchant category occurred_at type_)
  | Conv.EditManualExpense eid expected amount merchant category occurred_at type_ =>
      let? v := to_i32 expected in Ok (EditManualExpense eid v amount merchant category occurred_at type_)
  | Conv.RecategorizeLatest k => Ok (RecategorizeLatest k)
  | Conv.ClearPending => let? v := ok_or pending_state_version NotFound in Ok (ClearPendingAction v)
  | Conv.SetLocale l => Ok (SetLocale l)
  | Conv.SetTimezone iana => Ok (SetTimezone iana)
  | Conv.UpsertSchedule f m => Ok (UpsertSummarySchedule f m)
  | Conv.DisableSchedule f => Ok (DisableSummarySchedule f)
  | Conv.RequestAccountDeletion expires => Ok (ArmAccountDeletion expires)
  | Conv.ConfirmAccountDeletion => Ok ConfirmAccountDeletion
  | Conv.RequestAccountExport => Ok RequestAccountExport
  | Conv.RecordInsightSnapshot k => Ok (RecordInsightSnapshot k)
  end.

Fixpoint map_commands (l : list Conv.DomainCommand) (pending_state_version : option Z) (event_id : uuid)
    : result (list IngressEffect) IngressEffectError :=
  match l with
  | [] => Ok []
  | c :: l' =>
      let? e := map_command c pending_state_version event_id in
      let? es := map_commands l' pending_state_version event_id in
      Ok (e :: es)
  end.

Definition map_outcome (o : Conv.ConversationOutcome) (c : DecisionContext)
    : result DecisionOutput IngressEffectError :=
  let? event_id := ok_or (dc_inbound_event_id c) InvalidTransition in
  let? es := map_commands (Conv.commands o) (pa_version <$> dc_pending_action c) event_id in
  let? reply := match Conv.replies o with
                | [] => Ok None
                | [body] => Ok (Some body)
                | _ => Err InvalidTransition
                end in
  Ok {| effects := es; reply := reply |}.

Definition decide_text_and_map (c : DecisionContext) : run (result DecisionOutput IngressEffectError) :=
  let! o := Conversation.decide (to_conversation_context c) (dc_user_text c) (dc_now c) in
  Ret (map_outcome o c).
Definition decide_image_and_map (c : DecisionContext) : run (result DecisionOutput IngressEffectError) :=
  Ret (map_outcome (Conversation.decide_image (to_conversation_context c) (dc_now c)) c).

Definition process_text_command (env : Env) (st : IngressStore) (r : IngressRequest)
    : db -> db * run (result IngressOutcome IngressError) :=
  process env st r default_observation decide_text_and_map.

Definition process_image (env : Env) (st : IngressStore) (r : IngressRequest) (url : rstr)
    : db -> db * run (result IngressOutcome IngressError) :=
  fun d =>
    if negb (st_receipt st) then (d, Ret (Err (s! "receipt lifecycle is required for images")))
    else process env st r {| event_kind := ImageReceived; media_url := Some url |} decide_image_and_map d.

(** ** [followup.rs] *)

(** [FollowupError] is its message. *)
Abbreviation ftx A := (txn db rstr A).

Definition review_idempotency_key (submission_id : uuid) : rstr := s! "receipt-review:" ++ uuid_str submission_id.
Definition failure_idempotency_key (submission_id : uuid) : rstr := s! "receipt-failure:" ++ uuid_str submission_id.

(** The join of submission, event and account. *)
Definition event_by_id (d : db) (id : uuid) : option ((rstr * rstr) * inbound_event) :=
  List.find (fun p => bool_decide (ev_id p.2 = id)) (map_to_list (inbound_events d)).
Definition load_routing (d : db) (a submission_id : uuid)
    : result (uuid * rstr * rstr * account_columns) rstr :=
  ok_or (s ← Receipt.submissions (rt d) !! submission_id;
         event_id ← Receipt.sub_inbound_event s;
         p ← event_by_id d event_id;
         row ← account_row d (Receipt.sub_account s);
         if bool_decide (Receipt.sub_account s = a)
         then Some (event_id, p.1.1, ev_provider_chat_id p.2, row.2) else None)
    (s! "submission routing not found").

Definition load_followup_draft (d : db) (a submission_id : uuid) (use_en : bool)
    : result (ReceiptTypes.ExpenseDraftView * rstr) rstr :=
  ok_or (draft ← Receipt.drafts (rt d) !! submission_id;
         names ← category_names d !! ReceiptTypes.category_key draft;
         if bool_decide (ReceiptTypes.dr_account_id draft = a)
         then Some (draft, if use_en then names.2 else names.1) else None)
    (s! "expense draft not found").

Definition review_card_body (cols : account_columns) (draft : ReceiptTypes.ExpenseDraftView)
    (category_display : rstr) : rstr :=
  let loc := Conv.Locale.parse (locale cols) in
  Templates.manual_confirmation_card loc (ReceiptTypes.merchant draft)
    (Money.format_minor (ReceiptTypes.amount_minor draft) (ReceiptTypes.currency draft))
    (Conversation.format_date_vn (ReceiptTypes.occurred_at draft) (timezone cols))
    (Templates.transaction_type_label loc (ReceiptTypes.transaction_type draft)) category_display.

(** A new row, or the row at its current version, as in [upsert_pending_action]. *)
Definition upsert_receipt_review_pending (a submission_id : uuid) (expires : Z) : ftx unit :=
  fun d =>
    match conversation_states d !! a with
    | None =>
        if Receipt.is_none (accounts d !! a) then Err (s! "pending insert failed")
        else match put_pending a (Some (s! "receipt_review")) (Some (uuid_str submission_id)) (Some expires) 1 d with
             | Ok r => Ok r
             | Err _ => Err (s! "pending insert failed")
             end
    | Some c =>
        match put_pending a (Some (s! "receipt_review")) (Some (uuid_str submission_id)) (Some expires)
                (cs_version c + 1) d with
        | Ok r => Ok r
        | Err _ => Err (s! "pending update failed")
        end
    end.

Definition enqueue_followup (db_now utc_now : Z) (ids : uuid * uuid) (policy : Insight.IngressPolicy)
    (a event_id : uuid) (scope chat body key : rstr) : ftx unit :=
  fun d => match enqueue_outbound_in_transaction db_now utc_now ids policy utc_now (Some a) (Some event_id)
                   scope chat body key d with
           | Ok r => Ok r
           | Err _ => Err (s! "outbound enqueue failed")
           end.

Definition review_followup_tx (db_now utc_now : Z) (ids : uuid * uuid) (cfg : ReceiptTypes.ReceiptConfig)
    (policy : Insight.IngressPolicy) (a submission_id : uuid) : ftx unit :=
  let* routing := (fun d => let? x := load_routing d a submission_id in Ok (x, d)) in
  let '(event_id, scope, chat, cols) := routing in
  let use_en := starts_with (to_ascii_lowercase (locale cols)) (s! "en") in
  let* draft := (fun d => let? x := load_followup_draft d a submission_id use_en in Ok (x, d)) in
  let expires := utc_now + Z.max (ReceiptTypes.review_expiry_hours cfg) 1 * hour in
  let* _ := upsert_receipt_review_pending a submission_id expires in
  enqueue_followup db_now utc_now ids policy a event_id scope chat (review_card_body cols draft.1 draft.2)
    (review_idempotency_key submission_id).

Definition enqueue_receipt_review_followup (db_now utc_now : Z) (ids : uuid * uuid)
    (cfg : ReceiptTypes.ReceiptConfig) (policy : Insight.IngressPolicy) (a submission_id : uuid)
    : prog db rstr unit :=
  fun d =>
    if negb (Receipt.is_none (outbound_with_key d (review_idempotency_key submission_id))) then (d, Ok tt)
    else atomically (review_followup_tx db_now utc_now ids cfg policy a submission_id) d.

Definition failure_text (loc : Conv.Locale) (class : Errors.ErrorClass) : rstr :=
  match class with
  | Errors.Unsupported => Templates.extraction_unsupported_text loc
  | Errors.KillSwitch => Templates.extraction_kill_switch_text loc
  | _ => Templates.extraction_failed_text loc
  end.

Definition failure_followup_tx (db_now utc_now : Z) (ids : uuid * uuid) (policy : Insight.IngressPolicy)
    (a submission_id : uuid) (class : Errors.ErrorClass) : ftx unit :=
  let* routing := (fun d => let? x := load_routing d a submission_id in Ok (x, d)) in
  let '(event_id, scope, chat, cols) := routing in
  enqueue_followup db_now utc_now ids policy a event_id scope chat
    (failure_text (Conv.Locale.parse (locale cols)) class) (failure_idempotency_key submission_id).

Definition enqueue_receipt_failure_followup (db_now utc_now : Z) (ids : uuid * uuid)
    (policy : Insight.IngressPolicy) (a submission_id : uuid) (class : Errors.ErrorClass) : prog db rstr unit :=
  fun d =>
    if negb (Receipt.is_none (outbound_with_key d (failure_idempotency_key submission_id))) then (d, Ok tt)
    else atomically (failure_followup_tx db_now utc_now ids policy a submission_id class) d.

End App.
End IngressApp.
