(* ===== verification/Outbound.v ===== *)
(** * Outbox delivery ([src/src/outbound/mod.rs])

    A delivery is a program of database statements and one provider call; other workers
    run between any two of them.  [proc] is such a program: each statement is atomic and
    sees the time at which it runs; [PSend] is the call of the provider, tagged with the
    message it is for.  [run_proc] runs one program alone, [step] interleaves any number
    of them with crashes and with the rest of the system. *)

From S2P Require Import Prelude RustStr RustStrFacts Platform Errors Work Quota ReceiptTypes Receipt Database.
From S2P Require Import Insight IngressApply.

Module Outbound.
Import Db.
Import (hints) Errors Work Quota ReceiptTypes Receipt.

(** The answer of [send_message]: the provider's message id, or the class of the error. *)
Abbreviation send_result := (result rstr Errors.ErrorClass).

Inductive proc (A : Type) : Type :=
| PRet (a : A)
| PAtomic {X : Set} (f : Z -> db -> db * X) (k : X -> proc A)
| PSend (id : uuid) (target body : rstr) (k : send_result -> proc A).
Arguments PRet {A} a.
Arguments PAtomic {A X} f k.
Arguments PSend {A} id target body k.

(** Alone, with the clock and the answers of the provider given. *)
Fixpoint run_proc {A} (now : Z) (answer : rstr -> rstr -> send_result) (p : proc A) (d : db) : db * A :=
  match p with
  | PRet a => (d, a)
  | PAtomic f k => let '(d', x) := f now d in run_proc now answer (k x) d'
  | PSend _ target body k => run_proc now answer (k (answer target body)) d
  end.

Definition OUTBOUND_DELIVER_JOB_TYPE : rstr := s! "outbound.deliver".
Definition OUTBOUND_DELIVER_SCHEMA_VERSION : Z := 1.

Inductive DeliveryState := Sent | Failed | Ambiguous.
#[export] Instance DeliveryState_eq_dec : EqDecision DeliveryState.
Proof. solve_decision. Defined.
Definition as_str (s : DeliveryState) : rstr :=
  match s with Sent => s! "sent" | Failed => s! "failed" | Ambiguous => s! "ambiguous" end.
Definition to_row_state (s : DeliveryState) : OutboundState :=
  match s with Sent => ObSent | Failed => ObFailed | Ambiguous => ObAmbiguous end.

Record DeliveryResult := { outbound_id : uuid; delivery_state : DeliveryState }.

Inductive OutboundJobExecution :=
| Complete (r : DeliveryResult)
| Fail (class : Errors.ErrorClass)
| StaleLease
| InvalidJob.

Definition completed (id : uuid) (s : DeliveryState) : OutboundJobExecution :=
  Complete {| outbound_id := id; delivery_state := s |}.

(** ** Statements *)

Definition set_message (id : uuid) (m : outbound_message) (d : db) : db :=
  upd_outbound_messages <[id := m]> d.

(** [SET state = 'sending', attempt_count = attempt_count + 1]. *)
Definition reserved_row (m : outbound_message) : outbound_message :=
  {| ob_account := ob_account m; ob_inbound_event := ob_inbound_event m;
     ob_idempotency_key := ob_idempotency_key m; ob_provider_scope := ob_provider_scope m;
     ob_provider_target := ob_provider_target m; ob_body := ob_body m; ob_state := ObSending;
     ob_provider_message_id := ob_provider_message_id m; ob_attempt_count := ob_attempt_count m + 1;
     ob_last_error_class := ob_last_error_class m; ob_ambiguity_reason := ob_ambiguity_reason m;
     ob_created_at := ob_created_at m |}.

(** The SET clause of [update_delivery] and [update_delivery_under_lease]. *)
Definition delivered_row (s : DeliveryState) (message_id error_class : option rstr) (m : outbound_message)
    : outbound_message :=
  {| ob_account := ob_account m; ob_inbound_event := ob_inbound_event m;
     ob_idempotency_key := ob_idempotency_key m; ob_provider_scope := ob_provider_scope m;
     ob_provider_target := ob_provider_target m; ob_body := ob_body m; ob_state := to_row_state s;
     ob_provider_message_id := message_id; ob_attempt_count := ob_attempt_count m;
     ob_last_error_class := error_class;
     ob_ambiguity_reason := match s with Ambiguous => Some (s! "provider_result_ambiguous") | _ => None end;
     ob_created_at := ob_created_at m |}.

(** The SET clause of [mark_ambiguous_under_lease]. *)
Definition recovered_row (m : outbound_message) : outbound_message :=
  {| ob_account := ob_account m; ob_inbound_event := ob_inbound_event m;
     ob_idempotency_key := ob_idempotency_key m; ob_provider_scope := ob_provider_scope m;
     ob_provider_target := ob_provider_target m; ob_body := ob_body m; ob_state := ObAmbiguous;
     ob_provider_message_id := ob_provider_message_id m; ob_attempt_count := ob_attempt_count m;
     ob_last_error_class := Some (Errors.as_str Errors.ProviderAmbiguous);
     ob_ambiguity_reason := Some (s! "recovered_after_unfinished_send"); ob_created_at := ob_created_at m |}.

(** [EXISTS (SELECT 1 FROM jobs WHERE ... state = 'leased' AND lease_deadline >= NOW())]. *)
Definition job_lease_current (now : Z) (job_id token : uuid) (d : db) : bool :=
  match Work.jobs (Receipt.queue (rt d)) !! job_id with
  | Some j => bool_decide (Work.lease_token j = Some token) && bool_decide (Work.state j = Work.Leased)
              && match Work.lease_deadline j with Some t => now <=? t | None => false end
  | None => false
  end.

Definition reservable (m : outbound_message) : bool :=
  bool_decide (ob_state m = ObQueued) || bool_decide (ob_state m = ObFailed).

Definition reserve_outbound_under_lease (job_id token id : uuid) (now : Z) (d : db)
    : db * option (rstr * rstr) :=
  match outbound_messages d !! id with
  | Some m => if reservable m && job_lease_current now job_id token d
              then (set_message id (reserved_row m) d, Some (ob_provider_target m, ob_body m))
              else (d, None)
  | None => (d, None)
  end.

Definition mark_ambiguous_under_lease (job_id token id : uuid) (now : Z) (d : db) : db * bool :=
  match outbound_messages d !! id with
  | Some m => if bool_decide (ob_state m = ObSending) && job_lease_current now job_id token d
              then (set_message id (recovered_row m) d, true)
              else (d, false)
  | None => (d, false)
  end.

(** [true] when one row was updated. *)
Definition update_delivery (id : uuid) (s : DeliveryState) (message_id error_class : option rstr)
    (now : Z) (d : db) : db * bool :=
  match outbound_messages d !! id with
  | Some m => if bool_decide (ob_state m = ObSending)
              then (set_message id (delivered_row s message_id error_class m) d, true)
              else (d, false)
  | None => (d, false)
  end.

Definition update_delivery_under_lease (job_id token id : uuid) (s : DeliveryState)
    (message_id error_class : option rstr) (now : Z) (d : db) : db * bool :=
  if job_lease_current now job_id token d then update_delivery id s message_id error_class now d
  else (d, false).

(** ** [deliver_next] *)

Definition created_before (p q : uuid * outbound_message) : Prop :=
  ob_created_at p.2 < ob_created_at q.2 \/ (ob_created_at p.2 = ob_created_at q.2 /\ (p.1 <= q.1)%N).
#[export] Instance created_before_dec p q : Decision (created_before p q).
Proof. unfold created_before. apply _. Defined.

(** The candidate that no other transaction has locked. *)
Definition next_queued (row_locked : uuid -> bool) (d : db) : option (uuid * outbound_message) :=
  head (merge_sort created_before
    (List.filter (fun p => bool_decide (ob_state p.2 = ObQueued)
                           && str_eqb (ob_provider_scope p.2) (s! "zalo_bot") && negb (row_locked p.1))
       (map_to_list (outbound_messages d)))).

Definition reserve_next (row_locked : uuid -> bool) (now : Z) (d : db)
    : db * option (uuid * (rstr * rstr)) :=
  match next_queued row_locked d with
  | Some (id, m) => (set_message id (reserved_row m) d, Some (id, (ob_provider_target m, ob_body m)))
  | None => (d, None)
  end.

Definition message_id_opt (id : rstr) : option rstr := if is_empty id then None else Some id.
Definition error_state (class : Errors.ErrorClass) : DeliveryState :=
  if bool_decide (class = Errors.ProviderAmbiguous) then Ambiguous else Failed.

(** [None]: the store error of an update that found no row in [sending]. *)
Definition deliver_next (row_locked : uuid -> bool) : proc (option (option DeliveryResult)) :=
  PAtomic (reserve_next row_locked) (fun reserved =>
  match reserved with
  | None => PRet (Some None)
  | Some (id, (target, body)) =>
      PSend id target body (fun answer =>
        let '(s, message_id, error_class) :=
          match answer with
          | Ok sent => (Sent, message_id_opt sent, None)
          | Err class => (error_state class, None, Some (Errors.as_str class))
          end in
        PAtomic (update_delivery id s message_id error_class) (fun updated =>
          PRet (if updated : bool then Some (Some {| outbound_id := id; delivery_state := s |}) else None)))
  end).

(** ** [deliver_for_job] *)

Section Deliver.
Context `{UT : UuidText}.

Definition parse_outbound_id (job : Work.ClaimedJob) : option uuid :=
  if negb (str_eqb (Work.cl_job_type job) OUTBOUND_DELIVER_JOB_TYPE) then None
  else if negb (Work.cl_payload_version job =? OUTBOUND_DELIVER_SCHEMA_VERSION) then None
  else json_field (Work.cl_payload job) (s! "outbound_id") json_as_str ≫= parse_uuid.

(** After the provider answered, under a lease that is still current. *)
Definition record_answer (job_id token id : uuid) (answer : send_result) : proc OutboundJobExecution :=
  match answer with
  | Ok sent =>
      PAtomic (update_delivery_under_lease job_id token id Sent (message_id_opt sent) None) (fun updated =>
        PRet (if updated : bool then completed id Sent else StaleLease))
  | Err class =>
      let s := error_state class in
      PAtomic (update_delivery_under_lease job_id token id s None (Some (Errors.as_str class))) (fun updated =>
        PRet (if negb updated then StaleLease
              else if bool_decide (s = Ambiguous) then completed id Ambiguous
              else Fail class))
  end.

(** Nothing was reserved: the lease is stale, or another worker was there before. *)
Definition not_reserved (job_id token id : uuid) : proc OutboundJobExecution :=
  PAtomic (fun now d => (d, job_lease_current now job_id token d)) (fun current =>
  if negb current then PRet StaleLease
  else PAtomic (fun _ d => (d, option_map ob_state (outbound_messages d !! id))) (fun refreshed =>
       PRet (match refreshed with
             | Some ObSent => completed id Sent
             | Some ObAmbiguous => completed id Ambiguous
             | _ => StaleLease
             end))).

Definition deliver_for_job (job : Work.ClaimedJob) : proc OutboundJobExecution :=
  let job_id := Work.cl_id job in
  let token := Work.cl_lease_token job in
  match parse_outbound_id job with
  | None => PRet InvalidJob
  | Some id =>
      PAtomic (fun _ d => (d, outbound_messages d !! id)) (fun row =>
      match row with
      | None => PRet InvalidJob
      | Some m =>
          if negb (str_eqb (Work.cl_dedupe_key job) (OUTBOUND_DELIVER_JOB_TYPE ++ s! ":" ++ ob_idempotency_key m))
          then PRet InvalidJob
          else match ob_state m with
          | ObSent => PRet (completed id Sent)
          | ObAmbiguous => PRet (completed id Ambiguous)
          | ObSending =>
              PAtomic (fun now d => (d, job_lease_current now job_id token d)) (fun current =>
              if negb current then PRet StaleLease
              else PAtomic (mark_ambiguous_under_lease job_id token id) (fun marked =>
                   PRet (if marked : bool then completed id Ambiguous else StaleLease)))
          | ObQueued | ObFailed =>
              PAtomic (reserve_outbound_under_lease job_id token id) (fun reserved =>
              match reserved with
              | None => not_reserved job_id token id
              | Some (target, body) =>
                  PSend id target body (fun answer =>
                  PAtomic (fun now d => (d, job_lease_current now job_id token d)) (fun current =>
                  if negb current then PRet StaleLease else record_answer job_id token id answer))
              end)
          | ObSuppressed => PRet InvalidJob
          end
      end)
  end.

(** ** Interleaving

    The system runs any number of deliveries.  [sends] records every provider call with
    its answer.  The rest of the system may change the database in any way that leaves
    the messages alone, adds messages with new ids, or removes messages. *)

Record send_entry := { se_id : uuid; se_target : rstr; se_body : rstr; se_answer : send_result }.

Inductive worker :=
| Deliver (p : proc OutboundJobExecution)
| DeliverNext (p : proc (option (option DeliveryResult))).

(** [seen]: the ids of all messages there ever were. *)
Record config := { c_db : db; c_workers : list worker; sends : list send_entry; seen : gset uuid }.

(** One step of a program. *)
Inductive proc_step {A} : db -> proc A -> db -> proc A -> list send_entry -> Prop :=
| step_atomic {X : Set} now d (f : Z -> db -> db * X) k d' x :
    f now d = (d', x) -> proc_step d (PAtomic f k) d' (k x) []
| step_send d id target body k answer :
    proc_step d (PSend id target body k) d (k answer)
      [{| se_id := id; se_target := target; se_body := body; se_answer := answer |}].

Inductive worker_step : db -> worker -> db -> worker -> list send_entry -> Prop :=
| ws_deliver d p d' p' l : proc_step d p d' p' l -> worker_step d (Deliver p) d' (Deliver p') l
| ws_next d p d' p' l : proc_step d p d' p' l -> worker_step d (DeliverNext p) d' (DeliverNext p') l.

(** What the rest of the system does to the messages; ids are never used again. *)
Definition outside_change (seen : gset uuid) (d d' : db) : Prop :=
  forall id m', outbound_messages d' !! id = Some m' ->
    outbound_messages d !! id = Some m'
    \/ ((id ∉ seen) /\ (ob_state m' = ObQueued \/ ob_state m' = ObSuppressed)).

Inductive step : config -> config -> Prop :=
| step_worker d d' ws1 w w' ws2 l new ids :
    worker_step d w d' w' new ->
    step {| c_db := d; c_workers := ws1 ++ w :: ws2; sends := l; seen := ids |}
         {| c_db := d'; c_workers := ws1 ++ w' :: ws2; sends := l ++ new; seen := ids |}
| step_crash d ws1 w ws2 l ids :
    step {| c_db := d; c_workers := ws1 ++ w :: ws2; sends := l; seen := ids |}
         {| c_db := d; c_workers := ws1 ++ ws2; sends := l; seen := ids |}
| step_job d ws l ids job :
    step {| c_db := d; c_workers := ws; sends := l; seen := ids |}
         {| c_db := d; c_workers := Deliver (deliver_for_job job) :: ws; sends := l; seen := ids |}
| step_next d ws l ids row_locked :
    step {| c_db := d; c_workers := ws; sends := l; seen := ids |}
         {| c_db := d; c_workers := DeliverNext (deliver_next row_locked) :: ws; sends := l; seen := ids |}
| step_outside d d' ws l ids :
    outside_change ids d d' ->
    step {| c_db := d; c_workers := ws; sends := l; seen := ids |}
         {| c_db := d'; c_workers := ws; sends := l; seen := dom (outbound_messages d') ∪ ids |}.

(** A start without deliveries: every message is new. *)
Definition initial (c : config) : Prop :=
  c_workers c = [] /\ sends c = [] /\ dom (outbound_messages (c_db c)) ⊆ seen c
  /\ map_Forall (fun _ m => ob_state m = ObQueued \/ ob_state m = ObSuppressed) (outbound_messages (c_db c)).

Definition reachable (c : config) : Prop := exists c0, initial c0 /\ rtc step c0 c.

(** The provider calls made for one message, in order. *)
Definition sends_of (id : uuid) (c : config) : list send_entry :=
  List.filter (fun e => bool_decide (se_id e = id)) (sends c).

(** The provider refused for sure: an error that is not ambiguous. *)
Definition refused (answer : send_result) : bool :=
  match answer with Ok _ => false | Err class => negb (bool_decide (class = Errors.ProviderAmbiguous)) end.

End Deliver.
End Outbound.
