(* ===== verification/Scheduler.v ===== *)
(** * The scheduler role ([src/src/runtime/scheduler.rs])

    A tick selects due schedules of active accounts, enqueues one emission per period and
    moves the schedules on, in one transaction.  The lease of the role is one row. *)

From S2P Require Import Prelude RustStr RustStrFacts Platform Errors Work Quota Schedule ReceiptTypes Receipt Database.

Module Scheduler.
Import Db.
Import (hints) Errors Work Quota ReceiptTypes Receipt.

Definition LEASE_DURATION_SECS : Z := 90.
Definition BATCH_LIMIT : Z := 100.
Definition ROLE : rstr := s! "scheduler".

Record DueScheduleRow := {
  due_schedule_id : uuid;
  due_account_id : uuid;
  due_frequency : rstr;
  due_delivery_minute : Z;
  due_last_emitted_at : option Z;
  due_timezone : rstr;
}.

Definition run_before (p q : (uuid * rstr) * summary_schedule) : Prop :=
  sch_next_run_at p.2 <= sch_next_run_at q.2.
#[export] Instance run_before_dec p q : Decision (run_before p q).
Proof. unfold run_before. apply _. Defined.

(** [s.enabled = TRUE AND s.next_run_at <= NOW() AND a.lifecycle_state = 'active']. *)
Definition is_due (db_now : Z) (d : db) (p : (uuid * rstr) * summary_schedule) : bool :=
  sch_enabled p.2 && (sch_next_run_at p.2 <=? db_now) && Receipt.account_is_active (rt d) p.1.1.

Definition due_row (d : db) (p : (uuid * rstr) * summary_schedule) : DueScheduleRow :=
  {| due_schedule_id := sch_id p.2; due_account_id := p.1.1; due_frequency := p.1.2;
     due_delivery_minute := sch_delivery_minute p.2; due_last_emitted_at := sch_last_emitted_at p.2;
     due_timezone := timezone (default default_account (account_cols d !! p.1.1)) |}.

(** Rows that another transaction has locked are skipped. *)
Definition due_rows (db_now : Z) (row_locked : uuid -> bool) (d : db) : list DueScheduleRow :=
  map (due_row d) (take (Z.to_nat BATCH_LIMIT) (merge_sort run_before
    (List.filter (fun p => is_due db_now d p && negb (row_locked (sch_id p.2)))
       (map_to_list (summary_schedules d))))).

(** [UPDATE summary_schedules SET next_run_at = $2, last_emitted_at = CASE ...]. *)
Definition advance (db_now : Z) (id : uuid) (next : Z) (emitted : bool) (s : summary_schedule) : summary_schedule :=
  if bool_decide (sch_id s = id)
  then {| sch_id := sch_id s; sch_delivery_minute := sch_delivery_minute s;
          sch_provider_scope := sch_provider_scope s; sch_provider_chat_id := sch_provider_chat_id s;
          sch_enabled := sch_enabled s; sch_next_run_at := next;
          sch_last_emitted_at := if emitted then Some db_now else sch_last_emitted_at s |}
  else s.

Section Tick.
Context `{CH : Chrono} `{CT : ChronoText} `{UT : UuidText}.

(** Errors are messages of an internal [AppError]. *)
Definition internal {A} (what : rstr) (m : run (result A Schedule.ScheduleError)) : ptxn db rstr A :=
  x_call (let! r := m in Ret (match r with Ok a => Ok a | Err e => Err (what ++ Schedule.schedule_error_display e) end)).

Definition emit_payload (p : Schedule.ScheduleEmitPayload) : Work.json :=
  Work.JObject [(s! "schema_version", Work.JInt (Schedule.schema_version p));
                (s! "account_id", Work.JString (uuid_str (Schedule.account_id p)));
                (s! "schedule_id", Work.JString (uuid_str (Schedule.schedule_id p)));
                (s! "frequency", Work.JString (Schedule.frequency p));
                (s! "period_start", Work.JString (datetime_json (Schedule.period_start p)));
                (s! "period_end", Work.JString (datetime_json (Schedule.period_end p)))].

Definition emit_request (job_id : uuid) (now : Z) (row : DueScheduleRow) (period : Schedule.Period)
    : Work.EnqueueRequest :=
  {| Work.req_id := job_id; Work.req_job_type := Schedule.JOB_TYPE_SCHEDULE_EMIT;
     Work.req_payload := emit_payload {|
       Schedule.schema_version := Schedule.SCHEDULE_PAYLOAD_VERSION;
       Schedule.account_id := due_account_id row; Schedule.schedule_id := due_schedule_id row;
       Schedule.frequency := due_frequency row; Schedule.period_start := Schedule.start period;
       Schedule.period_end := Schedule.pend period |};
     Work.req_dedupe_key := Schedule.schedule_emit_dedupe_key (due_account_id row) (due_frequency row)
                              (Schedule.start period);
     Work.req_serialization_key := Some (Schedule.account_serialization_key (due_account_id row));
     Work.req_priority := 0; Work.req_run_at := now; Work.req_max_attempts := 10 |}.

Definition tick_row (db_now now : Z) (job_id : uuid) (row : DueScheduleRow) : ptxn db rstr unit :=
  let^ f := x_read (fun _ => ok_or (Schedule.parse (due_frequency row)) (s! "invalid schedule frequency: " ++ due_frequency row)) in
  let^ latest := internal (s! "latest delivery: ")
                   (Schedule.latest_delivery now (due_timezone row) f (due_delivery_minute row)) in
  let^ next := internal (s! "next delivery: ")
                 (Schedule.next_delivery now (due_timezone row) f (due_delivery_minute row)) in
  let skip_emit := match due_last_emitted_at row with Some emitted => latest <=? emitted | None => false end in
  let^ _ := (if negb skip_emit then
               let^ p := internal (s! "scheduled period: ")
                           (Schedule.scheduled_period f latest (due_timezone row)) in
               let^ _ := x_exec (on_queue (fun _ => s! "scheduler enqueue failed")
                           (Work.enqueue_in_transaction db_now (emit_request job_id now row p.1))) in
               x_ret tt
             else x_ret tt) in
  x_exec (fun d => Ok (tt, upd_summary_schedules
                             (fmap (advance db_now (due_schedule_id row) next (negb skip_emit))) d)).

(** [fresh i] is the id of the job of the [i]-th row. *)
Fixpoint tick_loop (db_now now : Z) (fresh : nat -> uuid) (i : nat) (rows : list DueScheduleRow)
    : ptxn db rstr unit :=
  match rows with
  | [] => x_ret tt
  | row :: rows' =>
      let^ _ := tick_row db_now now (fresh i) row in
      tick_loop db_now now fresh (S i) rows'
  end.

Definition scheduler_tick_tx (db_now now : Z) (fresh : nat -> uuid) (row_locked : uuid -> bool)
    : ptxn db rstr unit :=
  let^ rows := x_read (fun d => Ok (due_rows db_now row_locked d)) in
  tick_loop db_now now fresh 0 rows.

Definition scheduler_tick (db_now now : Z) (fresh : nat -> uuid) (row_locked : uuid -> bool)
    : db -> db * run (result unit rstr) :=
  x_atomically (scheduler_tick_tx db_now now fresh row_locked).

End Tick.

(** ** The lease of a role (the same statement in [maintenance.rs]) *)

Definition try_acquire_role_lease (role : rstr) (db_now : Z) (owner : rstr) (duration_secs : Z) (d : db)
    : db * bool :=
  let take := (upd_role_leases <[role := (owner, db_now + duration_secs * second)]> d, true) in
  match role_leases d !! role with
  | None => take
  | Some (holder, deadline) =>
      if (deadline <=? db_now) || str_eqb holder owner then take else (d, false)
  end.

End Scheduler.
