(* ===== verification/Jobs.v ===== *)
(** * Leased jobs ([src/src/runtime/jobs.rs], [mod.rs], [maintenance.rs], [roles.rs])

    What a worker does with a claimed job: decode the payload, check it against the
    deduplication key, run the operation and report.  [JobEnv] holds the clock, fresh ids,
    the provider and the media download as one execution meets them. *)

From S2P Require Import Prelude RustStr RustStrFacts Platform Errors Work Quota Schedule ConvTypes Templates.
From S2P Require Import ReceiptTypes Receipt Database Insight Account IngressTypes IngressApply IngressApp Outbound.

Module Jobs.
Import Db Outbound.
Import (hints) Errors Work Quota ReceiptTypes Receipt.

Record MediaDownloadResult := { bytes : list Z; content_type : option rstr }.

Record JobEnv := {
  je_db_now : Z;
  je_utc_now : Z;
  je_latency_ms : Z;
  je_id : nat -> uuid;
  je_send : rstr -> rstr -> send_result;
  je_download : rstr -> result MediaDownloadResult Errors.ErrorClass;
}.

Record JobDeps := {
  jd_receipt_config : ReceiptTypes.ReceiptConfig;
  jd_ingress_policy : Insight.IngressPolicy;
}.

Definition RECEIPT_PAYLOAD_VERSION : Z := 1.

(** ** Decoding payloads ([serde_json::from_value]) *)

Section Decode.
Context `{UT : UuidText} `{CT : ChronoText}.

Definition get_i32 (v : Work.json) (k : rstr) : option Z :=
  json_field v k (fun x => match x with Work.JInt z => if in_i32 z then Some z else None | _ => None end).
Definition get_str (v : Work.json) (k : rstr) : option rstr := json_field v k json_as_str.
Definition get_uuid (v : Work.json) (k : rstr) : option uuid := get_str v k ≫= parse_uuid.
Definition get_time (v : Work.json) (k : rstr) : option Z := get_str v k ≫= parse_datetime.

Definition decode_receipt (v : Work.json) : option (Z * uuid) :=
  ver ← get_i32 v (s! "schema_version"); id ← get_uuid v (s! "receipt_submission_id"); Some (ver, id).

Definition decode_schedule (v : Work.json) : option Schedule.ScheduleEmitPayload :=
  ver ← get_i32 v (s! "schema_version"); a ← get_uuid v (s! "account_id");
  s ← get_uuid v (s! "schedule_id"); f ← get_str v (s! "frequency");
  st ← get_time v (s! "period_start"); en ← get_time v (s! "period_end");
  Some {| Schedule.schema_version := ver; Schedule.account_id := a; Schedule.schedule_id := s;
          Schedule.frequency := f; Schedule.period_start := st; Schedule.period_end := en |}.

Definition decode_delete (v : Work.json) : option Account.AccountDeletePayload :=
  ver ← get_i32 v (s! "schema_version"); a ← get_uuid v (s! "account_id");
  r ← get_uuid v (s! "deletion_request_id");
  Some {| Account.ad_schema_version := ver; Account.ad_account_id := a; Account.ad_deletion_request_id := r |}.

Definition decode_export (v : Work.json) : option Account.AccountExportPayload :=
  ver ← get_i32 v (s! "schema_version"); a ← get_uuid v (s! "account_id"); e ← get_uuid v (s! "export_id");
  sc ← get_str v (s! "provider_scope"); ch ← get_str v (s! "provider_chat_id");
  Some {| Account.ae_schema_version := ver; Account.ae_account_id := a; Account.ae_export_id := e;
          Account.ae_provider_scope := sc; Account.ae_provider_chat_id := ch |}.

Definition decode_narrate (v : Work.json) : option Insight.InsightNarratePayload :=
  ver ← get_i32 v (s! "schema_version"); a ← get_uuid v (s! "account_id");
  s ← get_uuid v (s! "snapshot_id"); g ← get_str v (s! "aggregate_digest");
  Some {| Insight.np_schema_version := ver; Insight.np_account_id := a; Insight.np_snapshot_id := s;
          Insight.np_aggregate_digest := g |}.

Definition parse_receipt_submission_id (job : Work.ClaimedJob) (expected_type : rstr) : option uuid :=
  if negb (str_eqb (Work.cl_job_type job) expected_type)
     || negb (Work.cl_payload_version job =? RECEIPT_PAYLOAD_VERSION) then None
  else match decode_receipt (Work.cl_payload job) with
       | Some (ver, id) => if ver =? RECEIPT_PAYLOAD_VERSION then Some id else None
       | None => None
       end.

End Decode.

Definition receipt_job_complete : OutboundJobExecution := completed 0%N Sent.

Definition is_permanent_media_failure (class : Errors.ErrorClass) : bool :=
  match class with Errors.Validation | Errors.Unsupported | Errors.Forbidden => true | _ => false end.

Definition scheduled_period_label (frequency : rstr) : rstr :=
  if str_eqb frequency (s! "daily") then s! "Hôm qua"
  else if str_eqb frequency (s! "weekly") then s! "Tuần trước"
  else if str_eqb frequency (s! "monthly") then s! "Tháng trước"
  else s! "Tổng kết".

Section Dispatch.
Context `{CH : Chrono} `{CT : ChronoText} `{PG : Postgres} `{UT : UuidText} `{IL : ImageLib} `{SJ : SerdeJson}
  `{UC : UnicodeCase} `{OS : ReceiptTypes.ObjectStore} `{XT : ReceiptTypes.Extractor} `{NR : Insight.Narrator}.
Context (env : JobEnv) (deps : JobDeps).

Definition world : Type := db * ReceiptTypes.objects.
(** A job always reports an execution. *)
Definition jprog (A : Type) : Type := world -> world * A.

(** A method of the receipt lifecycle. *)
Definition on_receipt {A} (m : prog (Receipt.tables * ReceiptTypes.objects) ReceiptTypes.ReceiptError A)
    : jprog (result A ReceiptTypes.ReceiptError) :=
  fun w => let '((t, o), r) := m (rt w.1, w.2) in ((set_rt (je_db_now env) t w.1, o), r).
(** A program on the database alone. *)
Definition on_db {E A} (m : prog db E A) : jprog (result A E) :=
  fun w => let '(d, r) := m w.1 in ((d, w.2), r).

Definition load_submission_media_url (d : db) (id : uuid) : option (uuid * rstr) :=
  s ← Receipt.submissions (rt d) !! id;
  event_id ← Receipt.sub_inbound_event s;
  p ← IngressApp.event_by_id d event_id;
  url ← ev_media_url p.2;
  Some (Receipt.sub_account s, url).

Definition failure_followup (a id : uuid) (class : Errors.ErrorClass) : jprog unit :=
  fun w => let '(w', _) := on_db (IngressApp.enqueue_receipt_failure_followup (je_db_now env) (je_utc_now env)
                                    (je_id env 0, je_id env 1) (jd_ingress_policy deps) a id class) w in (w', tt).

(** [fail_queued] and the failure notice; the results of both are ignored. *)
Definition abandon (a id : uuid) (class : Errors.ErrorClass) : jprog unit :=
  fun w => let '(w1, _) := on_receipt (Receipt.in_tx (Receipt.fail_queued (je_db_now env) id a class)) w in
           failure_followup a id class w1.

Definition dispatch_receipt_ingest (job : Work.ClaimedJob) : jprog OutboundJobExecution :=
  fun w =>
    match parse_receipt_submission_id job ReceiptTypes.JOB_TYPE_INGEST with
    | None => (w, InvalidJob)
    | Some id =>
        if negb (str_eqb (Work.cl_dedupe_key job) (ReceiptTypes.ingest_dedupe_key id)) then (w, InvalidJob)
        else match load_submission_media_url w.1 id with
        | None => (w, InvalidJob)
        | Some (a, url) =>
            match je_download env url with
            | Err class =>
                if is_permanent_media_failure class
                then let '(w1, _) := abandon a id class w in (w1, Fail class)
                else (w, Fail class)
            | Ok media =>
                let mime := default (s! "application/octet-stream") (content_type media) in
                let '(w1, r) := on_receipt (Receipt.ingest (je_db_now env) (je_utc_now env) a id (bytes media) mime
                                              (je_id env 2)) w in
                match r with
                | Ok _ => (w1, receipt_job_complete)
                | Err e =>
                    match ReceiptTypes.re_class e with
                    | Errors.Validation | Errors.Unsupported =>
                        let '(w2, _) := abandon a id (ReceiptTypes.re_class e) w1 in
                        (w2, Fail (ReceiptTypes.re_class e))
                    | _ => (w1, Fail (ReceiptTypes.re_class e))
                    end
                end
            end
        end
    end.

Definition reports_failure (class : Errors.ErrorClass) : bool :=
  match class with
  | Errors.Validation | Errors.Unsupported | Errors.KillSwitch | Errors.QuotaExceeded | Errors.Auth => true
  | _ => false
  end.

Definition dispatch_receipt_extract (job : Work.ClaimedJob) : jprog OutboundJobExecution :=
  fun w =>
    match parse_receipt_submission_id job ReceiptTypes.JOB_TYPE_EXTRACT with
    | None => (w, InvalidJob)
    | Some id =>
        if negb (str_eqb (Work.cl_dedupe_key job) (ReceiptTypes.extract_dedupe_key id)) then (w, InvalidJob)
        else match Receipt.sub_account <$> Receipt.submissions (rt w.1) !! id with
        | None => (w, InvalidJob)
        | Some a =>
            let '(w1, r) := on_receipt (Receipt.extract (jd_receipt_config deps) (je_db_now env) (je_utc_now env)
                                          (je_latency_ms env) (je_id env 2) a id) w in
            match r with
            | Ok (ReceiptTypes.XReviewRequired _ _) | Ok (ReceiptTypes.XAlreadyReviewRequired _) =>
                let '(w2, f) := on_db (IngressApp.enqueue_receipt_review_followup (je_db_now env) (je_utc_now env)
                                  (je_id env 0, je_id env 1) (jd_receipt_config deps) (jd_ingress_policy deps) a id) w1 in
                (w2, match f with Ok _ => receipt_job_complete | Err _ => Fail Errors.Dependency end)
            | Ok (ReceiptTypes.XAlreadyTerminal _) => (w1, receipt_job_complete)
            | Ok ReceiptTypes.XUnsupported =>
                let '(w2, _) := failure_followup a id Errors.Unsupported w1 in (w2, Fail Errors.Unsupported)
            | Err e =>
                if reports_failure (ReceiptTypes.re_class e)
                then let '(w2, _) := failure_followup a id (ReceiptTypes.re_class e) w1 in
                     (w2, Fail (ReceiptTypes.re_class e))
                else (w1, Fail (ReceiptTypes.re_class e))
            end
        end
    end.

Definition summary_key (p : Schedule.ScheduleEmitPayload) : rstr :=
  s! "scheduled-summary:" ++ uuid_str (Schedule.account_id p) ++ s! ":" ++ Schedule.frequency p ++ s! ":"
  ++ fmt_compact (Schedule.period_start p).

Definition find_schedule (d : db) (id a : uuid) : option ((uuid * rstr) * summary_schedule) :=
  List.find (fun p => bool_decide (sch_id p.2 = id) && bool_decide (p.1.1 = a) && sch_enabled p.2)
    (map_to_list (summary_schedules d)).

(** A total that does not fit is reported as no expenses. *)
Definition summary_totals (d : db) (p : Schedule.ScheduleEmitPayload) : Z * Z * rstr :=
  match Insight.totals_of tt (Insight.confirmed_in d (Schedule.account_id p) (Schedule.period_start p)
                                (Schedule.period_end p)) (s! "VND") with
  | Ok t => t
  | Err _ => (0, 0, s! "VND")
  end.

Definition dispatch_schedule_emit (job : Work.ClaimedJob) : jprog OutboundJobExecution :=
  fun w =>
    if negb (str_eqb (Work.cl_job_type job) Schedule.JOB_TYPE_SCHEDULE_EMIT)
       || negb (Work.cl_payload_version job =? Schedule.SCHEDULE_PAYLOAD_VERSION) then (w, InvalidJob)
    else match decode_schedule (Work.cl_payload job) with
    | None => (w, InvalidJob)
    | Some p =>
        if negb (Schedule.schema_version p =? Schedule.SCHEDULE_PAYLOAD_VERSION) then (w, InvalidJob)
        else if negb (str_eqb (Work.cl_dedupe_key job)
                        (Schedule.schedule_emit_dedupe_key (Schedule.account_id p) (Schedule.frequency p)
                           (Schedule.period_start p))) then (w, InvalidJob)
        else match account_row w.1 (Schedule.account_id p) with
        | None => (w, receipt_job_complete)
        | Some (acc, cols) =>
            if existsb (str_eqb (Receipt.acc_lifecycle_state acc)) [s! "suspended"; s! "deleting"; s! "deleted"]
            then (w, receipt_job_complete)
            else match find_schedule w.1 (Schedule.schedule_id p) (Schedule.account_id p) with
            | None => (w, receipt_job_complete)
            | Some ((_, frequency), sch) =>
                if negb (str_eqb frequency (Schedule.frequency p)) then (w, InvalidJob)
                else
                let '(total_minor, tx_count, currency) := summary_totals w.1 p in
                let loc := Conv.Locale.parse (locale cols) in
                let label := scheduled_period_label (Schedule.frequency p) in
                let body := if tx_count =? 0 then Templates.empty_summary_text loc label
                            else Templates.today_summary_text loc label currency total_minor in
                let '(w1, r) := on_db (atomically (IngressApply.enqueue_outbound_in_transaction (je_db_now env)
                                  (je_utc_now env) (je_id env 0, je_id env 1) (jd_ingress_policy deps) (je_utc_now env)
                                  (Some (Schedule.account_id p)) None (sch_provider_scope sch)
                                  (sch_provider_chat_id sch) body (summary_key p))) w in
                (w1, match r with Ok _ => receipt_job_complete | Err _ => Fail Errors.Dependency end)
            end
        end
    end.

(** The report of an account job. *)
Definition account_report (r : result unit Errors.ErrorClass) : OutboundJobExecution :=
  match r with
  | Ok _ => receipt_job_complete
  | Err Errors.Validation => InvalidJob
  | Err class => Fail class
  end.

Definition dispatch_account_delete (job : Work.ClaimedJob) : jprog OutboundJobExecution :=
  fun w =>
    if negb (str_eqb (Work.cl_job_type job) Account.JOB_TYPE_ACCOUNT_DELETE)
       || negb (Work.cl_payload_version job =? Account.ACCOUNT_JOB_PAYLOAD_VERSION) then (w, InvalidJob)
    else match decode_delete (Work.cl_payload job) with
    | None => (w, InvalidJob)
    | Some p => let '(w1, r) := Account.execute_account_delete (je_db_now env) p w in (w1, account_report r)
    end.

Definition dispatch_account_export (job : Work.ClaimedJob) : jprog OutboundJobExecution :=
  fun w =>
    if negb (str_eqb (Work.cl_job_type job) Account.JOB_TYPE_ACCOUNT_EXPORT)
       || negb (Work.cl_payload_version job =? Account.ACCOUNT_JOB_PAYLOAD_VERSION) then (w, InvalidJob)
    else match decode_export (Work.cl_payload job) with
    | None => (w, InvalidJob)
    | Some p =>
        let '(w1, r) := Account.execute_account_export (je_utc_now env) (je_id env 0) (je_id env 1) p w in
        (w1, account_report r)
    end.

Definition dispatch_insight_narrate (job : Work.ClaimedJob) : jprog OutboundJobExecution :=
  fun w =>
    if negb (Insight.insights_llm_enabled (jd_ingress_policy deps)) then (w, receipt_job_complete)
    else if negb (str_eqb (Work.cl_job_type job) Insight.JOB_TYPE_INSIGHT_NARRATE)
            || negb (Work.cl_payload_version job =? Insight.INSIGHT_NARRATE_PAYLOAD_VERSION) then (w, InvalidJob)
    else match decode_narrate (Work.cl_payload job) with
    | None => (w, InvalidJob)
    | Some p =>
        if negb (Insight.np_schema_version p =? Insight.INSIGHT_NARRATE_PAYLOAD_VERSION) then (w, InvalidJob)
        else if negb (str_eqb (Work.cl_dedupe_key job)
                        (Insight.narrate_dedupe_key (Insight.np_snapshot_id p) (Insight.np_aggregate_digest p)))
        then (w, InvalidJob)
        else
        let '(w1, r) := on_db (Insight.execute_insight_narrate (je_db_now env) (je_utc_now env) p
                                 (Insight.monthly_insight_narratives (jd_ingress_policy deps))) w in
        (w1, match r with Ok _ => receipt_job_complete | Err _ => Fail Errors.Dependency end)
    end.

Definition dispatch_leased_job (job : Work.ClaimedJob) : jprog OutboundJobExecution :=
  let t := Work.cl_job_type job in
  if str_eqb t (s! "outbound.deliver")
  then fun w => let '(d, x) := run_proc (je_db_now env) (je_send env) (deliver_for_job job) w.1 in ((d, w.2), x)
  else if str_eqb t ReceiptTypes.JOB_TYPE_INGEST then dispatch_receipt_ingest job
  else if str_eqb t ReceiptTypes.JOB_TYPE_EXTRACT then dispatch_receipt_extract job
  else if str_eqb t Schedule.JOB_TYPE_SCHEDULE_EMIT then dispatch_schedule_emit job
  else if str_eqb t Account.JOB_TYPE_ACCOUNT_DELETE then dispatch_account_delete job
  else if str_eqb t Account.JOB_TYPE_ACCOUNT_EXPORT then dispatch_account_export job
  else if str_eqb t Insight.JOB_TYPE_INSIGHT_NARRATE then dispatch_insight_narrate job
  else fun w => (w, InvalidJob).

(** ** Reporting to the queue ([apply_execution_result], [shutdown_execution]) *)

(** A rejected report is logged and changes nothing. *)
Definition apply_execution_result (now : Z) (job : Work.ClaimedJob) (x : OutboundJobExecution) (q : Work.db)
    : Work.db :=
  let id := Work.cl_id job in
  let token := Work.cl_lease_token job in
  match x with
  | Complete _ => (Work.complete now id token q).1
  | Fail class => (Work.fail now id token class q).1
  | InvalidJob => (Work.fail now id token Errors.Validation q).1
  | StaleLease => q
  end.

Definition shutdown_execution (now : Z) (job : Work.ClaimedJob) (q : Work.db) : Work.db * OutboundJobExecution :=
  ((Work.fail now (Work.cl_id job) (Work.cl_lease_token job) Errors.Transient q).1, StaleLease).

(** ** Maintenance *)

Definition MAINTENANCE_BATCH_LIMIT : Z := 50.

Definition maintenance_tick (locked_submissions locked_assets : uuid -> bool) : jprog unit :=
  fun w =>
    let '(w1, _) := on_receipt (Receipt.in_tx (Receipt.expire_reviews (je_db_now env) MAINTENANCE_BATCH_LIMIT
                                                 locked_submissions)) w in
    let '(w2, _) := on_receipt (Receipt.retention_sweep (je_db_now env) MAINTENANCE_BATCH_LIMIT locked_assets) w1 in
    (w2, tt).

End Dispatch.

(** ** Leases of workers *)

Definition worker_lease_duration_secs (send_timeout_seconds : Z) : Z :=
  let n := Z.max (Z.min u64_max (send_timeout_seconds * 3)) 60 in
  if n <=? i64_max then n else n - 2 ^ 64.
Definition worker_heartbeat_interval_secs (lease_duration_secs : Z) : Z :=
  Z.max (as_u64 lease_duration_secs / 3) 1.

Definition valid_runtime_secret (value : rstr) : bool :=
  (16 <=? blen value) && negb (str_eqb value (s! "dev-secret-change-me")) && negb (str_eqb value (s! "change-me")).

(** ** Roles *)

Inductive Role := RIngress | RWorker | RScheduler | RMaintenance.
#[export] Instance Role_eq_dec : EqDecision Role.
Proof. solve_decision. Defined.

Definition role_as_str (r : Role) : rstr :=
  match r with
  | RIngress => s! "ingress"
  | RWorker => s! "worker"
  | RScheduler => s! "scheduler"
  | RMaintenance => s! "maintenance"
  end.
(** Errors are usage messages. *)
Definition role_from_str (v : rstr) : result Role rstr :=
  if str_eqb v (s! "ingress") then Ok RIngress
  else if str_eqb v (s! "worker") then Ok RWorker
  else if str_eqb v (s! "scheduler") then Ok RScheduler
  else if str_eqb v (s! "maintenance") then Ok RMaintenance
  else if str_eqb v (s! "all") then Err (s! "use --roles without 'all' or omit for all roles")
  else Err (s! "unknown role: " ++ v).

Definition all_roles : list Role := [RIngress; RWorker; RScheduler; RMaintenance].

Fixpoint parse_roles_loop (values : list rstr) (roles : list Role) : result (list Role) rstr :=
  match values with
  | [] => Ok roles
  | v :: vs =>
      if str_eqb v (s! "all") then Ok all_roles
      else
      let? role := role_from_str v in
      parse_roles_loop vs (if bool_decide (role ∈ roles) then roles else roles ++ [role])
  end.
Definition parse_roles (values : list rstr) : result (list Role) rstr :=
  match values with [] => Ok all_roles | _ => parse_roles_loop values [] end.

End Jobs.
