(* ===== verification/Provider.v ===== *)
(** * The Zalo provider ([src/src/provider/])

    Redaction of errors, the webhook secret, parsing of webhook bodies and the sending of
    messages.  The JSON reader and the HTTP client are parameters; the derived
    [Deserialize] code of the wire types is written out, arrays included. *)

From S2P Require Import Prelude RustStr Platform Errors Work.

(** [serde_json] on input: the document as written (fields in order, repetitions kept),
    and the text of a number that is not an integer. *)
Class SerdeParse := {
  json_from_slice : list Z -> option Work.json;
  float_text : Z -> rstr;
}.

(** The [url] crate, as far as the program reads and extends URLs. *)
Class UrlLib := {
  Url : Type;
  url_parse : rstr -> option Url;
  url_join : Url -> rstr -> option Url;
  url_push : Url -> list rstr -> option Url;   (* [path_segments_mut], [pop_if_empty], [push] *)
  username : Url -> rstr;
  password : Url -> option rstr;
  scheme : Url -> rstr;
  port : Url -> option Z;
  port_or_known_default : Url -> option Z;
  host_str : Url -> option rstr;
  query : Url -> option rstr;
  fragment : Url -> option rstr;
}.

Module Provider.
Import Work.

(** ** [redact.rs] *)

(** [str::replace]; [skip] characters of a match are still to be passed over. *)
Fixpoint replace_from (needle r s : rstr) (skip : nat) : rstr :=
  match s with
  | [] => []
  | c :: s' =>
      match skip with
      | S k => replace_from needle r s' k
      | O => if starts_with s needle
             then r ++ replace_from needle r s' (length needle - 1)
             else c :: replace_from needle r s' 0
      end
  end.
Definition replace (s needle r : rstr) : rstr := replace_from needle r s 0.

Definition REDACTED : rstr := s! "[REDACTED]".

Definition redact_needle (out needle : rstr) : rstr :=
  if contains out needle then replace out needle REDACTED else out.

(** Escapes other than these keep the character. *)
Definition URL_ESCAPES : list (Z * rstr) :=
  [(c! ":", s! "%3A"); (c! "/", s! "%2F"); (c! "?", s! "%3F"); (c! "#", s! "%23"); (c! "[", s! "%5B");
   (c! "]", s! "%5D"); (c! "@", s! "%40"); (c! "!", s! "%21"); (c! "$", s! "%24"); (c! "&", s! "%26");
   (c! "'", s! "%27"); (c! "(", s! "%28"); (c! ")", s! "%29"); (c! "*", s! "%2A"); (c! "+", s! "%2B");
   (c! ",", s! "%2C"); (c! ";", s! "%3B"); (c! "=", s! "%3D"); (c! "%", s! "%25"); (c! " ", s! "%20")].
Definition url_escape_char (c : Z) : rstr :=
  match List.find (fun p => p.1 =? c) URL_ESCAPES with Some (_, e) => e | None => [c] end.
Definition url_escape (value : rstr) : rstr := concat (map url_escape_char value).
Definition path_escape (value : rstr) : rstr := replace_char value (c! ":") (s! "%3A").

(** The plain forms in the order token, chat, text, url; then the escaped ones. *)
Definition redact_plain (out needle : rstr) : rstr :=
  if is_empty needle then out else redact_needle out needle.
Definition redact_escaped (out secret : rstr) : rstr :=
  if is_empty secret then out else redact_needle (redact_needle out (url_escape secret)) (path_escape secret).
Definition redact_value (value token chat_id text url : rstr) : rstr :=
  if is_empty value then value
  else redact_escaped (redact_escaped (foldl redact_plain value [token; chat_id; text; url]) token) url.

(** ** [error.rs] *)

Record RedactionNeedles := { n_token : rstr; n_chat_id : rstr; n_text : rstr; n_url : rstr }.
Definition no_needles : RedactionNeedles := {| n_token := []; n_chat_id := []; n_text := []; n_url := [] |}.

Record ZaloProviderError := { pe_class : Errors.ErrorClass; pe_message : rstr; needles : RedactionNeedles }.

Definition new_error (class : Errors.ErrorClass) (message : rstr) : ZaloProviderError :=
  {| pe_class := class; pe_message := message; needles := no_needles |}.
Definition attach_send_context (token chat_id text : rstr) (e : ZaloProviderError) : ZaloProviderError :=
  {| pe_class := pe_class e; pe_message := pe_message e;
     needles := {| n_token := token; n_chat_id := chat_id; n_text := text; n_url := n_url (needles e) |} |}.
Definition attach_media_context (url : rstr) (e : ZaloProviderError) : ZaloProviderError :=
  {| pe_class := pe_class e; pe_message := pe_message e;
     needles := {| n_token := n_token (needles e); n_chat_id := n_chat_id (needles e);
                   n_text := n_text (needles e); n_url := url |} |}.

Definition redacted_message (e : ZaloProviderError) : rstr :=
  redact_value (pe_message e) (n_token (needles e)) (n_chat_id (needles e)) (n_text (needles e))
    (n_url (needles e)).
(** [Display]. *)
Definition error_text (e : ZaloProviderError) : rstr :=
  Errors.as_str (pe_class e) ++ s! ": " ++ redacted_message e.

(** ** [types.rs] *)

Definition DEFAULT_API_BASE : rstr := s! "https://bot-api.zaloplatforms.com".
Definition EVENT_TEXT_RECEIVED : rstr := s! "message.text.received".
Definition EVENT_IMAGE_RECEIVED : rstr := s! "message.image.received".

Record ZaloHttpConfig := {
  api_base : rstr;
  bot_token : rstr;
  webhook_secret : rstr;
  cfg_provider_scope : rstr;
  request_timeout_secs : Z;
}.
Definition default_config : ZaloHttpConfig := {|
  api_base := DEFAULT_API_BASE; bot_token := []; webhook_secret := []; cfg_provider_scope := s! "zalo_bot";
  request_timeout_secs := 10 |}.
Definition normalized_api_base (c : ZaloHttpConfig) : rstr := trim_end_matches (Z.eqb (c! "/")) (api_base c).

Inductive InboundEventKind := TextReceived | ImageReceived | Unsupported (event_name : rstr).

Record NormalizedInboundText := {
  nt_provider_scope : rstr; nt_event_id : rstr; nt_sender_id : rstr; nt_chat_id : rstr; nt_text : rstr;
  nt_received_at : Z; nt_kind : InboundEventKind;
}.
Record NormalizedInboundImage := {
  ni_provider_scope : rstr; ni_event_id : rstr; ni_sender_id : rstr; ni_chat_id : rstr; ni_image_url : rstr;
  ni_caption : rstr; ni_received_at : Z; ni_kind : InboundEventKind;
}.

(** ** [parse.rs]: the webhook secret *)

Definition validation (message : rstr) : ZaloProviderError := new_error Errors.Validation message.

Definition verify_webhook_secret (config : ZaloHttpConfig) (header_value : option rstr)
    : result unit ZaloProviderError :=
  let configured := trim (webhook_secret config) in
  if is_empty configured then Err (new_error Errors.Forbidden (s! "webhook secret not configured"))
  else
  let provided := default [] (trim <$> header_value) in
  if negb (blen provided =? blen configured) || negb (bool_decide (encode_utf8 provided = encode_utf8 configured))
  then Err (new_error Errors.Auth (s! "invalid webhook secret"))
  else Ok tt.

(** ** Derived [Deserialize] code *)

Definition count_key (k : rstr) (fields : list (rstr * json)) : nat :=
  length (List.filter (fun p => str_eqb p.1 k) fields).

(** The fields of a struct, by name from an object or by position from an array of
    exactly that length.  Read from text, a known field must not be repeated. *)
Definition struct_from_slice (names : list rstr) (v : json) : option (list (option json)) :=
  match v with
  | JArray l => if (length l =? length names)%nat then Some (map Some l) else None
  | JObject fields =>
      if forallb (fun k => (count_key k fields <=? 1)%nat) names
      then Some (map (fun k => assoc k fields) names) else None
  | _ => None
  end.

(** In a [Value] the last field of a name is the one kept. *)
Definition value_get (k : rstr) (fields : list (rstr * json)) : option json := assoc k (rev fields).
Definition struct_from_value (names : list rstr) (v : json) : option (list (option json)) :=
  match v with
  | JArray l => if (length l =? length names)%nat then Some (map Some l) else None
  | JObject fields => Some (map (fun k => value_get k fields) names)
  | _ => None
  end.

(** An [Option] field: absent and [null] are [None]. *)
Definition opt_field {A} (decode : json -> option A) (o : option json) : option (option A) :=
  match o with
  | None | Some JNull => Some None
  | Some v => Some <$> decode v
  end.
Definition de_value (v : json) : option json := Some v.
Definition de_bool (v : json) : option bool := match v with JBool b => Some b | _ => None end.
Definition de_string (v : json) : option rstr := match v with JString s => Some s | _ => None end.
Definition de_i64 (v : json) : option Z := match v with JInt z => if in_i64 z then Some z else None | _ => None end.
(** [#[serde(default)] i64]. *)
Definition default_i64 (o : option json) : option Z :=
  match o with None => Some 0 | Some v => de_i64 v end.

Record ProviderEnvelope := {
  en_ok : option bool; en_result : option json; en_event_name : option rstr; en_message : option json;
}.
Definition de_provider_envelope (v : json) : option ProviderEnvelope :=
  fs ← struct_from_slice [s! "ok"; s! "result"; s! "event_name"; s! "message"] v;
  match fs with
  | [a; b; c; d] =>
      ok ← opt_field de_bool a; result ← opt_field de_value b;
      event_name ← opt_field de_string c; message ← opt_field de_value d;
      Some {| en_ok := ok; en_result := result; en_event_name := event_name; en_message := message |}
  | _ => None
  end.

Record InnerEnvelope := { in_event_name : option rstr; in_message : option json }.
Definition de_inner_envelope (v : json) : option InnerEnvelope :=
  fs ← struct_from_value [s! "event_name"; s! "message"] v;
  match fs with
  | [a; b] =>
      event_name ← opt_field de_string a; message ← opt_field de_value b;
      Some {| in_event_name := event_name; in_message := message |}
  | _ => None
  end.

(** [WireParty], as its [id]. *)
Definition de_wire_party (v : json) : option (option json) :=
  fs ← struct_from_value [s! "id"] v;
  match fs with [a] => opt_field de_value a | _ => None end.

Record WireMessage := {
  wm_message_id : option json; wm_from : option (option json); wm_chat : option (option json);
  wm_date : Z; wm_text : option rstr;
}.
Definition de_wire_message (v : json) : option WireMessage :=
  fs ← struct_from_value [s! "message_id"; s! "from"; s! "chat"; s! "date"; s! "text"] v;
  match fs with
  | [a; b; c; d; e] =>
      message_id ← opt_field de_value a; from ← opt_field de_wire_party b; chat ← opt_field de_wire_party c;
      date ← default_i64 d; text ← opt_field de_string e;
      Some {| wm_message_id := message_id; wm_from := from; wm_chat := chat; wm_date := date; wm_text := text |}
  | _ => None
  end.

Record WireImageMessage := {
  wi_message_id : option json; wi_from : option (option json); wi_chat : option (option json); wi_date : Z;
  wi_photo : option json; wi_photo_url : option json; wi_file_url : option json; wi_photos : option json;
  wi_image : option json; wi_attachments : option json; wi_caption : option rstr; wi_text : option rstr;
}.
Definition de_wire_image_message (v : json) : option WireImageMessage :=
  fs ← struct_from_value
         [s! "message_id"; s! "from"; s! "chat"; s! "date"; s! "photo"; s! "photo_url"; s! "file_url";
          s! "photos"; s! "image"; s! "attachments"; s! "caption"; s! "text"] v;
  match fs with
  | [a; b; c; d; f1; f2; f3; f4; f5; f6; e; g] =>
      message_id ← opt_field de_value a; from ← opt_field de_wire_party b; chat ← opt_field de_wire_party c;
      date ← default_i64 d;
      photo ← opt_field de_value f1; photo_url ← opt_field de_value f2; file_url ← opt_field de_value f3;
      photos ← opt_field de_value f4; image ← opt_field de_value f5; attachments ← opt_field de_value f6;
      caption ← opt_field de_string e; text ← opt_field de_string g;
      Some {| wi_message_id := message_id; wi_from := from; wi_chat := chat; wi_date := date; wi_photo := photo;
              wi_photo_url := photo_url; wi_file_url := file_url; wi_photos := photos; wi_image := image;
              wi_attachments := attachments; wi_caption := caption; wi_text := text |}
  | _ => None
  end.

(** ** [parse.rs]: the events *)

Definition event_kind (event_name expected : rstr) (kind : InboundEventKind) : InboundEventKind :=
  if str_eqb event_name expected then kind else Unsupported event_name.

Definition extract_envelope (outer : ProviderEnvelope) : result (rstr * json) ZaloProviderError :=
  let event_name := default [] (en_event_name outer) in
  let? em :=
    match en_result outer with
    | Some v =>
        match de_inner_envelope v with
        | Some inner =>
            Ok (if is_empty event_name then default [] (in_event_name inner) else event_name,
                match en_message outer with Some m => Some m | None => in_message inner end)
        | None => Err (validation (s! "invalid webhook result"))
        end
    | None => Ok (event_name, en_message outer)
    end in
  if is_empty (trim em.1) then Err (validation (s! "webhook event_name is required"))
  else let? message := ok_or em.2 (validation (s! "message payload required")) in Ok (em.1, message).

(** Objects and arrays are searched depth first. *)
Definition NESTED_KEYS : list rstr := [s! "url"; s! "photo"; s! "photo_url"; s! "file_url"; s! "image"].

(** The children searched: of an array in order, of an object by the order of [keys]. *)
Fixpoint find_map {A B} (f : A -> option B) (l : list A) : option B :=
  match l with
  | [] => None
  | x :: l' => match f x with Some y => Some y | None => find_map f l' end
  end.

Definition nonblank (s : rstr) : option rstr := let t := trim s in if is_empty t then None else Some t.

(** The value a key of a [Value] object leads to, each nested value already searched. *)
Definition search_keys {B} (results : list (rstr * option B)) : option B :=
  find_map (fun k => match List.find (fun p => str_eqb p.1 k) (rev results) with
                     | Some (_, r) => r
                     | None => None
                     end) NESTED_KEYS.

Fixpoint extract_url_from_value (v : json) : option rstr :=
  match v with
  | JString url => nonblank url
  | JObject fields => search_keys (map (fun p => (p.1, extract_url_from_value p.2)) fields)
  | JArray items => find_map (fun x => x) (map extract_url_from_value items)
  | _ => None
  end.

Fixpoint extract_caption_from_value (v : json) : option rstr :=
  match v with
  | JObject fields =>
      match (match value_get (s! "caption") fields with Some (JString c) => nonblank c | _ => None end) with
      | Some c => Some c
      | None => search_keys (map (fun p => (p.1, extract_caption_from_value p.2)) fields)
      end
  | JArray items => find_map (fun x => x) (map extract_caption_from_value items)
  | _ => None
  end.

Definition media_fields (wire : WireImageMessage) : list json :=
  omap (fun x => x) [wi_photo wire; wi_photo_url wire; wi_file_url wire; wi_photos wire; wi_image wire;
                     wi_attachments wire].
Definition extract_image_url (wire : WireImageMessage) : option rstr :=
  find_map extract_url_from_value (media_fields wire).
Definition extract_caption (wire : WireImageMessage) : rstr :=
  match wi_caption wire ≫= nonblank with
  | Some c => c
  | None =>
      match wi_text wire ≫= nonblank with
      | Some t => t
      | None => default [] (find_map extract_caption_from_value (media_fields wire))
      end
  end.

Definition out_of_limits (s : rstr) : bool := is_empty s || (256 <? char_count s).

Section Parse.
Context `{SP : SerdeParse} `{CH : Chrono}.

Definition id_string (v : json) : option rstr :=
  match v with
  | JString s => Some s
  | JInt z => Some (dec_signed z)
  | JFloat b => Some (float_text b)
  | _ => None
  end.

(** Seconds, or milliseconds from 10{^11} on; [None] outside chrono's range. *)
Definition MILLISECOND_THRESHOLD : Z := 100000000000.
Definition provider_time (value : Z) : option Z :=
  let t := if (MILLISECOND_THRESHOLD <=? value) || (value <=? - MILLISECOND_THRESHOLD)
           then value * 1000 else value * second in
  if date_ok (date_naive t) then Some t else None.

Definition received_at (now date : Z) : result Z ZaloProviderError :=
  if date =? 0 then Ok now else ok_or (provider_time date) (validation (s! "message date is out of range")).

Definition party_id (o : option (option json)) : rstr :=
  default [] (o ≫= (fun party => party ≫= id_string)).

Definition check_ids (event_id sender_id chat_id : rstr) : result unit ZaloProviderError :=
  if out_of_limits event_id then Err (validation (s! "message missing message_id"))
  else if out_of_limits sender_id then Err (validation (s! "message missing from.id"))
  else if out_of_limits chat_id then Err (validation (s! "message missing chat.id"))
  else Ok tt.

(** The envelope of a body: the event name and the message. *)
Definition parse_envelope (body : list Z) : result (rstr * json) ZaloProviderError :=
  let? outer := ok_or (json_from_slice body ≫= de_provider_envelope)
                  (validation (s! "invalid webhook body")) in
  if match en_ok outer with Some false => true | _ => false end
  then Err (validation (s! "webhook envelope was not ok"))
  else extract_envelope outer.

Definition parse_text_webhook (now : Z) (config : ZaloHttpConfig) (body : list Z)
    : result NormalizedInboundText ZaloProviderError :=
  let? em := parse_envelope body in
  let kind := event_kind em.1 EVENT_TEXT_RECEIVED TextReceived in
  let? wire := ok_or (de_wire_message em.2) (validation (s! "invalid message payload")) in
  let event_id := default [] (wm_message_id wire ≫= id_string) in
  let sender_id := party_id (wm_from wire) in
  let chat_id := party_id (wm_chat wire) in
  let text := default [] (wm_text wire) in
  let? _ :=
    match kind with
    | TextReceived =>
        let? _ := check_ids event_id sender_id chat_id in
        if is_empty (trim text) || (2000 <? char_count text)
        then Err (validation (s! "text message has invalid length")) else Ok tt
    | _ => Ok tt
    end in
  let? at_ := received_at now (wm_date wire) in
  Ok {| nt_provider_scope := cfg_provider_scope config; nt_event_id := event_id; nt_sender_id := sender_id;
        nt_chat_id := chat_id; nt_text := text; nt_received_at := at_; nt_kind := kind |}.

Definition parse_image_webhook (now : Z) (config : ZaloHttpConfig) (body : list Z)
    : result NormalizedInboundImage ZaloProviderError :=
  let? em := parse_envelope body in
  let event_name := trim em.1 in
  if 256 <? char_count event_name then Err (validation (s! "webhook event_name exceeds limit"))
  else
  let kind := event_kind event_name EVENT_IMAGE_RECEIVED ImageReceived in
  let? wire := ok_or (de_wire_image_message em.2) (validation (s! "invalid message payload")) in
  let event_id := default [] (wi_message_id wire ≫= id_string) in
  let sender_id := party_id (wi_from wire) in
  let chat_id := party_id (wi_chat wire) in
  let? _ := check_ids event_id sender_id chat_id in
  let image_url := default [] (extract_image_url wire) in
  if match kind with ImageReceived => is_empty image_url || (2048 <? char_count image_url) | _ => false end
  then Err (validation (s! "image message has invalid photo url"))
  else
  let caption := extract_caption wire in
  if 2000 <? char_count caption then Err (validation (s! "image message caption exceeds limit"))
  else
  let? at_ := received_at now (wi_date wire) in
  Ok {| ni_provider_scope := cfg_provider_scope config; ni_event_id := event_id; ni_sender_id := sender_id;
        ni_chat_id := chat_id; ni_image_url := image_url; ni_caption := caption; ni_received_at := at_;
        ni_kind := kind |}.

End Parse.

(** ** [send.rs] *)

Definition validate_outbound (chat_id text : rstr) : result unit ZaloProviderError :=
  if is_empty (trim chat_id) then Err (validation (s! "provider chat id required"))
  else if is_empty (trim text) then Err (validation (s! "message text required"))
  else if 2000 <? char_count text then Err (validation (s! "message text exceeds 2000 characters"))
  else Ok tt.

Definition ambiguous (message : rstr) : ZaloProviderError := new_error Errors.ProviderAmbiguous message.

(** What the HTTP client reports: no response (whether by a timeout, and the cause without
    the URL), or a status and the outcome of reading the body. *)
Record transport_error := { is_timeout : bool; cause : rstr }.
Inductive http_answer :=
| NoResponse (e : transport_error)
| Response (status : Z) (body : result (list Z) transport_error).

Definition is_success (status : Z) : bool := (200 <=? status) && (status <? 300).

Definition map_transport_error (token chat_id text : rstr) (e : transport_error) : ZaloProviderError :=
  attach_send_context token chat_id text
    (if is_timeout e then ambiguous (s! "sendMessage request timed out")
     else new_error Errors.ProviderError
            (s! "sendMessage request failed: " ++ redact_value (cause e) token chat_id text [])).

Definition classify_http_status (status : Z) (token chat_id text : rstr) : ZaloProviderError :=
  attach_send_context token chat_id text
    (new_error (if status =? 429 then Errors.RateLimited else Errors.ProviderError)
       (s! "zalo api returned HTTP " ++ dec status)).

(** [SendResponse], as [ok] and the message id. *)
Definition de_send_result (v : json) : option (option json) :=
  fs ← struct_from_slice [s! "message_id"] v;
  match fs with [a] => opt_field de_value a | _ => None end.
Definition de_send_response (v : json) : option (bool * option json) :=
  fs ← struct_from_slice [s! "ok"; s! "result"] v;
  match fs with
  | [a; b] =>
      ok ← (match a with Some v => de_bool v | None => None end); body ← opt_field de_send_result b;
      Some (ok, match body with Some message_id => message_id | None => None end)
  | _ => None
  end.

Section Send.
Context `{SP : SerdeParse} `{UL : UrlLib}.

Definition parse_success_body (body : list Z) (token chat_id text : rstr) : result rstr ZaloProviderError :=
  match json_from_slice body ≫= de_send_response with
  | None => Err (attach_send_context token chat_id text (ambiguous (s! "malformed sendMessage response")))
  | Some (ok, message_id) =>
      if negb ok
      then Err (attach_send_context token chat_id text (ambiguous (s! "sendMessage response was not ok")))
      else Ok (default [] (message_id ≫= id_string))
  end.

Definition send_url (config : ZaloHttpConfig) : result Url ZaloProviderError :=
  let? url := ok_or (url_parse (normalized_api_base config)) (validation (s! "zalo api base is invalid")) in
  ok_or (url_push url [s! "bot" ++ bot_token config; s! "sendMessage"])
    (validation (s! "zalo api base cannot be a base URL")).

Definition send_payload (chat_id text : rstr) : json :=
  JObject [(s! "chat_id", JString chat_id); (s! "text", JString text)].

(** The provider's message id; [post] is one request of the client. *)
Definition send_message (post : Url -> json -> http_answer) (config : ZaloHttpConfig) (chat_id text : rstr)
    : result rstr ZaloProviderError :=
  let? _ := validate_outbound chat_id text in
  if is_empty (trim (bot_token config)) then Err (validation (s! "zalo bot token not configured"))
  else
  let token := bot_token config in
  match send_url config with
  | Err e => Err (attach_send_context token chat_id text e)
  | Ok url =>
      match post url (send_payload chat_id text) with
      | NoResponse e => Err (map_transport_error token chat_id text e)
      | Response status body =>
          match body with
          | Err e => Err (map_transport_error token chat_id text e)
          | Ok bytes =>
              if negb (is_success status) then Err (classify_http_status status token chat_id text)
              else parse_success_body bytes token chat_id text
          end
      end
  end.

End Send.
End Provider.
