(* ===== verification/Media.v ===== *)
(** * Media download ([src/src/provider/media.rs])

    The download loop with its checks against requests to addresses inside the network:
    scheme, port, host allowlist, resolved addresses, redirects and size.  DNS, the HTTP
    client and the clock are arguments; the model also returns the requests it issued. *)

From S2P Require Import Prelude RustStr Platform Errors Work Provider Jobs.

Module Media.
Import Provider.

Definition MAX_URL_CHARS : Z := 2048.
Definition MAX_CONTENT_TYPE_CHARS : Z := 256.
Definition DEFAULT_MEDIA_MAX_BYTES : Z := 10 * 1024 * 1024.
Definition DEFAULT_MEDIA_TIMEOUT_SECS : Z := 15.
Definition DEFAULT_MEDIA_MAX_REDIRECTS : nat := 3.
Definition DEFAULT_MEDIA_HOST_SUFFIXES : list rstr :=
  [s! "zaloplatforms.com"; s! "zaloapp.com"; s! "zdn.vn"; s! "zadn.vn"; s! "zapps.me"].

Record MediaDownloadPolicy := {
  host_suffixes : list rstr;
  max_bytes : Z;
  total_timeout : Z;
  max_redirects : nat;
  require_https : bool;
  permit_private_resolved_addresses : bool;
  allowed_explicit_port : option Z;
}.
Definition production_default : MediaDownloadPolicy := {|
  host_suffixes := DEFAULT_MEDIA_HOST_SUFFIXES; max_bytes := DEFAULT_MEDIA_MAX_BYTES;
  total_timeout := DEFAULT_MEDIA_TIMEOUT_SECS * second; max_redirects := DEFAULT_MEDIA_MAX_REDIRECTS;
  require_https := true; permit_private_resolved_addresses := false; allowed_explicit_port := None |}.

(** ** [std::net]: addresses as their bits *)

Inductive IpAddr := V4 (bits : Z) | V6 (bits : Z).

Definition octet (i bits : Z) : Z := Z.land (Z.shiftr bits (24 - 8 * i)) 255.
Definition is_private (b : Z) : bool :=
  (octet 0 b =? 10)
  || ((octet 0 b =? 172) && (16 <=? octet 1 b) && (octet 1 b <=? 31))
  || ((octet 0 b =? 192) && (octet 1 b =? 168)).
Definition is_loopback_v4 (b : Z) : bool := octet 0 b =? 127.
Definition is_link_local (b : Z) : bool := (octet 0 b =? 169) && (octet 1 b =? 254).
Definition is_multicast_v4 (b : Z) : bool := (224 <=? octet 0 b) && (octet 0 b <=? 239).
Definition is_unspecified_v4 (b : Z) : bool := b =? 0.
Definition is_broadcast (b : Z) : bool := b =? 2 ^ 32 - 1.

Definition segment0 (b : Z) : Z := Z.shiftr b 112.
Definition to_ipv4_mapped (b : Z) : option Z :=
  if Z.shiftr b 32 =? 65535 then Some (Z.land b (2 ^ 32 - 1)) else None.
Definition is_loopback_v6 (b : Z) : bool := b =? 1.
Definition is_unspecified_v6 (b : Z) : bool := b =? 0.
Definition is_multicast_v6 (b : Z) : bool := Z.land (segment0 b) 65280 =? 65280.
Definition is_unique_local (b : Z) : bool := Z.land (segment0 b) 65024 =? 64512.
Definition is_unicast_link_local (b : Z) : bool := Z.land (segment0 b) 65472 =? 65152.

(** [Ipv4Addr::new], [Ipv6Addr::new] of the leading segments, as bits. *)
Definition v4 (a b c d : Z) : Z := a * 2 ^ 24 + b * 2 ^ 16 + c * 2 ^ 8 + d.
Definition v6 (a b : Z) : Z := a * 2 ^ 112 + b * 2 ^ 96.

Definition ipv4_prefix (addr_bits prefix prefix_len : Z) : bool :=
  Z.shiftr addr_bits (32 - prefix_len) =? Z.shiftr prefix (32 - prefix_len).
Definition ipv6_prefix (addr_bits prefix prefix_len : Z) : bool :=
  Z.shiftr addr_bits (128 - prefix_len) =? Z.shiftr prefix (128 - prefix_len).

Definition is_forbidden_v4 (bits : Z) : bool :=
  is_private bits || is_loopback_v4 bits || is_link_local bits || is_multicast_v4 bits
  || is_unspecified_v4 bits || is_broadcast bits || (bits =? v4 169 254 169 254)
  || ipv4_prefix bits (v4 0 0 0 0) 8
  || ipv4_prefix bits (v4 100 64 0 0) 10
  || ipv4_prefix bits (v4 192 0 0 0) 24
  || ipv4_prefix bits (v4 192 0 2 0) 24
  || ipv4_prefix bits (v4 198 51 100 0) 24
  || ipv4_prefix bits (v4 203 0 113 0) 24
  || ipv4_prefix bits (v4 198 18 0 0) 15
  || ipv4_prefix bits (v4 240 0 0 0) 4.

Definition is_forbidden_v6 (bits : Z) : bool :=
  match to_ipv4_mapped bits with
  | Some mapped => is_forbidden_v4 mapped
  | None =>
      is_loopback_v6 bits || is_unspecified_v6 bits || is_multicast_v6 bits || is_unique_local bits
      || is_unicast_link_local bits
      || ipv6_prefix bits (v6 65216 0) 10
      || ipv6_prefix bits (v6 256 0) 64
      || ipv6_prefix bits (v6 8193 3512) 32
      || ipv6_prefix bits (v6 16383 0) 20
      || ipv6_prefix bits (v6 8193 0) 23
      || negb (ipv6_prefix bits (v6 8192 0) 3)
  end.

Definition is_forbidden_ip (ip : IpAddr) : bool :=
  match ip with V4 b => is_forbidden_v4 b | V6 b => is_forbidden_v6 b end.

(** ** [str::parse::<IpAddr>], after the standard library's reader *)

Definition to_digit (radix c : Z) : option Z :=
  let d := if is_ascii_digit c then c - 48
           else if is_ascii_lower c then c - 87
           else if is_ascii_upper c then c - 55 else 36 in
  if d <? radix then Some d else None.

Fixpoint read_digits (radix : Z) (s : rstr) (value : Z) (count : nat) : Z * nat * rstr :=
  match s with
  | c :: s' =>
      match to_digit radix c with
      | Some d => read_digits radix s' (value * radix + d) (S count)
      | None => (value, count, s)
      end
  | [] => (value, count, s)
  end.
Definition read_number (radix : Z) (max_digits : nat) (allow_zero_prefix : bool) (bound : Z) (s : rstr)
    : option (Z * rstr) :=
  let '(value, count, rest) := read_digits radix s 0 0 in
  if (max_digits <? count)%nat || (count =? 0)%nat
     || (negb allow_zero_prefix && starts_with s [48] && (1 <? count)%nat) || (bound <? value)
  then None else Some (value, rest).

Definition read_char (c : Z) (s : rstr) : option rstr := strip_prefix s [c].
(** [read_separator]: the separator comes before every part but the first. *)
Definition read_separator {A} (sep : Z) (index : nat) (inner : rstr -> option A) (s : rstr) : option A :=
  match index with O => inner s | S _ => read_char sep s ≫= inner end.

Definition read_octet (index : nat) : rstr -> option (Z * rstr) :=
  read_separator (c! ".") index (read_number 10 3 false 255).
Definition read_ipv4 (s : rstr) : option (Z * rstr) :=
  '(a, s) ← read_octet 0 s; '(b, s) ← read_octet 1 s; '(c, s) ← read_octet 2 s; '(d, s) ← read_octet 3 s;
  Some (v4 a b c d, s).

(** [left] groups may still be read; the groups read, whether they end with an IPv4
    address, and the rest. *)
Fixpoint read_groups (left index : nat) (s : rstr) : list Z * bool * rstr :=
  match left with
  | O => ([], false, s)
  | S left' =>
      match (if (1 <=? left')%nat then read_separator (c! ":") index read_ipv4 s else None) with
      | Some (v, s') => ([Z.shiftr v 16; Z.land v 65535], true, s')
      | None =>
          match read_separator (c! ":") index (read_number 16 4 true 65535) s with
          | Some (g, s') =>
              let '(gs, ipv4, rest) := read_groups left' (S index) s' in (g :: gs, ipv4, rest)
          | None => ([], false, s)
          end
      end
  end.
Definition of_groups (gs : list Z) : Z := foldl (fun acc g => acc * 65536 + g) 0 gs.
Definition read_ipv6 (s : rstr) : option (Z * rstr) :=
  let '(head, head_ipv4, s1) := read_groups 8 0 s in
  if (length head =? 8)%nat then Some (of_groups head, s1)
  else if head_ipv4 then None
  else
    s2 ← read_char (c! ":") s1 ≫= read_char (c! ":");
    let '(tail, _, s3) := read_groups (8 - (length head + 1)) 0 s2 in
    Some (of_groups (head ++ repeat 0 (8 - length head - length tail) ++ tail), s3).
Definition parse_ip (s : rstr) : option IpAddr :=
  match read_ipv4 s with
  | Some (v, []) => Some (V4 v)
  | Some _ => None
  | None => match read_ipv6 s with Some (v, []) => Some (V6 v) | _ => None end
  end.

(** ** Checks of a URL *)

Definition host_allowed (host : rstr) (suffixes : list rstr) : bool :=
  let host := to_ascii_lowercase host in
  existsb (fun suffix => let suffix := to_ascii_lowercase suffix in
                         str_eqb host suffix || ends_with host (c! "." :: suffix)) suffixes.

Section Download.
Context `{UL : UrlLib}.

Definition port_allowed (policy : MediaDownloadPolicy) (url : Url) : bool :=
  match port url with
  | None => true
  | Some p => ((p =? 443) && str_eqb (scheme url) (s! "https"))
              || bool_decide (allowed_explicit_port policy = Some p)
  end.

Definition media_error (original message : rstr) : ZaloProviderError :=
  attach_media_context original (validation message).

Definition validate_media_url (policy : MediaDownloadPolicy) (url : Url) (original : rstr)
    : result unit ZaloProviderError :=
  if negb (is_empty (username url)) || bool_decide (is_Some (password url))
  then Err (media_error original (s! "media url must not contain userinfo"))
  else if require_https policy && negb (str_eqb (scheme url) (s! "https"))
  then Err (media_error original (s! "media url must use https"))
  else if negb (require_https policy) && negb (str_eqb (scheme url) (s! "http"))
          && negb (str_eqb (scheme url) (s! "https"))
  then Err (media_error original (s! "media url must use http or https"))
  else if negb (port_allowed policy url)
  then Err (media_error original (s! "media url port is not allowed"))
  else match host_str url with
  | None => Err (media_error original (s! "media url host is required"))
  | Some host =>
      if match parse_ip host with Some ip => is_forbidden_ip ip | None => false end
      then Err (media_error original (s! "media url host is forbidden"))
      else if negb (host_allowed host (host_suffixes policy))
      then Err (media_error original (s! "media url host is not allowlisted"))
      else Ok tt
  end.

(** [MediaHostResolver]: the system's answer for port 443, or a table of hosts. *)
Definition system_resolve_host (lookup_host : rstr -> option (list IpAddr)) (host : rstr)
    : result (list IpAddr) ZaloProviderError :=
  let? ips := ok_or (lookup_host host) (validation (s! "dns resolution failed")) in
  if bool_decide (ips = []) then Err (validation (s! "dns resolution returned no addresses")) else Ok ips.
Definition injected_resolve_host (hosts : gmap rstr (list IpAddr)) (host : rstr) : result (list IpAddr) ZaloProviderError :=
  ok_or (addrs ← hosts !! host; if bool_decide (addrs = []) then None else Some addrs)
    (validation (s! "dns resolution failed")).

Definition pin_resolved_addrs (policy : MediaDownloadPolicy) (host : rstr) (resolved : list IpAddr)
    : result (list IpAddr) ZaloProviderError :=
  match resolved with
  | [] => Err (validation (s! "dns resolution returned no addresses"))
  | _ =>
      if existsb is_forbidden_ip resolved
         && (negb (permit_private_resolved_addresses policy) || bool_decide (is_Some (parse_ip host)))
      then Err (validation (s! "media url resolves to forbidden addresses"))
      else Ok resolved
  end.

(** ** The download *)

Definition timeout_error : ZaloProviderError := new_error Errors.Timeout (s! "media download timed out").

Definition map_media_transport_error (url : rstr) (e : transport_error) : ZaloProviderError :=
  attach_media_context url
    (if is_timeout e then timeout_error
     else new_error Errors.ProviderError
            (s! "media download failed: " ++ redact_value (cause e) [] [] [] url)).

Definition classify_media_status (status : Z) (url : rstr) : ZaloProviderError :=
  attach_media_context url
    (new_error (if status =? 429 then Errors.RateLimited
                else if (500 <=? status) && (status <=? 599) then Errors.ProviderError
                else Errors.Validation)
       (s! "media download returned HTTP " ++ dec status)).

(** One chunk of the body: bytes, the end, a transport error, or the deadline. *)
Inductive chunk := Chunk (bytes : list Z) | ChunkError (e : transport_error) | ChunkTimeout.

Record response := {
  rs_status : Z;
  rs_location : option rstr;         (* readable header values *)
  rs_content_length : option Z;      (* the client's reading of the body size *)
  rs_length_header : option rstr;
  rs_content_type : option rstr;
  rs_chunks : list chunk;
}.

(** What one round of the loop meets: the time left at its two checks, the resolver and
    the client, [None] when the deadline passes first; whether the client can be built. *)
Record hop_env := {
  time_left : bool;
  resolve : rstr -> option (result (list IpAddr) ZaloProviderError);
  time_left_to_send : bool;
  client_builds : bool;
  get : Url -> list (IpAddr * Z) -> option (result response transport_error);
}.

Record media_request := { mr_url : Url; mr_addrs : list (IpAddr * Z) }.

Definition usize_max : Z := 2 ^ 64 - 1.
Definition usize_max_bytes (n : Z) : Z := Z.min n usize_max.
Definition is_redirection (status : Z) : bool := (300 <=? status) && (status <? 400).
Definition parse_u64 (s : rstr) : option Z :=
  let ds := match s with 43 :: ds => ds | _ => s end in
  if is_empty ds then None
  else if all_digits ds && (digits_val ds <=? u64_max) then Some (digits_val ds) else None.

Fixpoint read_body (limit : Z) (url : rstr) (chunks : list chunk) (body : list Z)
    : result (list Z) ZaloProviderError :=
  match chunks with
  | [] => Ok body
  | Chunk bytes :: rest =>
      let next_len := Z.of_nat (length body) + Z.of_nat (length bytes) in
      if (usize_max <? next_len) || (limit <? next_len)
      then Err (media_error url (s! "media body exceeds size limit"))
      else read_body limit url rest (body ++ bytes)
  | ChunkError e :: _ => Err (map_media_transport_error url e)
  | ChunkTimeout :: _ => Err (attach_media_context url timeout_error)
  end.

Definition content_type_of (value : option rstr) : option rstr :=
  (fun t => if MAX_CONTENT_TYPE_CHARS <? char_count t then take (Z.to_nat MAX_CONTENT_TYPE_CHARS) t else t)
    <$> (value ≫= nonblank).

Definition accept_response (policy : MediaDownloadPolicy) (url : rstr) (rs : response)
    : result Jobs.MediaDownloadResult ZaloProviderError :=
  let too_long o := match o with Some n => max_bytes policy <? n | None => false end in
  if negb (is_success (rs_status rs)) then Err (classify_media_status (rs_status rs) url)
  else if too_long (rs_content_length rs) || too_long (rs_length_header rs ≫= parse_u64)
  then Err (media_error url (s! "media content length exceeds limit"))
  else
  let? body := read_body (usize_max_bytes (max_bytes policy)) url (rs_chunks rs) [] in
  Ok {| Jobs.bytes := body; Jobs.content_type := content_type_of (rs_content_type rs) |}.

(** One round: the request issued, if any, and the response to it. *)
Definition media_hop (policy : MediaDownloadPolicy) (env : hop_env) (current : Url) (url : rstr)
    : list media_request * result response ZaloProviderError :=
  if negb (time_left env) then ([], Err (attach_media_context url timeout_error))
  else match validate_media_url policy current url, host_str current with
  | Err e, _ => ([], Err e)
  | Ok _, None => ([], Err (media_error url (s! "media url host is required")))
  | Ok _, Some host =>
      let p := default 443 (port_or_known_default current) in
      match resolve env host with
      | None => ([], Err (attach_media_context url timeout_error))
      | Some (Err e) => ([], Err e)
      | Some (Ok resolved) =>
          match pin_resolved_addrs policy host resolved with
          | Err e => ([], Err (attach_media_context url e))
          | Ok pinned =>
              let addrs := map (fun ip => (ip, p)) pinned in
              if negb (time_left_to_send env) then ([], Err (attach_media_context url timeout_error))
              else if negb (client_builds env)
              then ([], Err (new_error Errors.Dependency (s! "build media HTTP client failed")))
              else ([{| mr_url := current; mr_addrs := addrs |}],
                    match get env current addrs with
                    | None => Err (attach_media_context url timeout_error)
                    | Some (Err e) => Err (map_media_transport_error url e)
                    | Some (Ok rs) => Ok rs
                    end)
          end
      end
  end.

(** [left] redirects may still be followed; [envs] gives the environment of each round. *)
Fixpoint media_loop (policy : MediaDownloadPolicy) (envs : nat -> hop_env) (i left : nat) (current : Url)
    (url : rstr) : list media_request * result Jobs.MediaDownloadResult ZaloProviderError :=
  match media_hop policy (envs i) current url with
  | (log, Err e) => (log, Err e)
  | (log, Ok rs) =>
      if is_redirection (rs_status rs) then
        match left with
        | O => (log, Err (media_error url (s! "media redirect limit exceeded")))
        | S left' =>
            match rs_location rs ≫= nonblank with
            | None => (log, Err (media_error url (s! "media redirect missing location")))
            | Some location =>
                match url_join current location with
                | None => (log, Err (media_error url (s! "media redirect location is invalid")))
                | Some next =>
                    let '(log', r) := media_loop policy envs (S i) left' next url in (log ++ log', r)
                end
            end
        end
      else (log, accept_response policy url rs)
  end.

Definition download_media (policy : MediaDownloadPolicy) (envs : nat -> hop_env) (url : rstr)
    : list media_request * result Jobs.MediaDownloadResult ZaloProviderError :=
  if is_empty (trim url) || (MAX_URL_CHARS <? char_count url)
  then ([], Err (media_error url (s! "media url is invalid")))
  else match url_parse url with
  | None => ([], Err (media_error url (s! "media url is invalid")))
  | Some current => media_loop policy envs 0 (max_redirects policy) current url
  end.

End Download.
End Media.
