(* ===== verification/Http.v ===== *)
(** * The HTTP server ([src/src/http/mod.rs], [health/mod.rs], [metrics/mod.rs])

    The webhook handler as one function of the request and the database: authentication,
    content type, size, parsing, and the ingress transaction, with its responses and
    counters.  The framework's routing and the readers of headers are arguments. *)

From S2P Require Import Prelude RustStr Platform Errors Work ConvTypes Database Insight IngressTypes IngressStore.
From S2P Require Import IngressApply IngressApp Provider.

Module Http.
Import Db Ingress IngressStore.

(** ** [metrics/mod.rs]: counters that wrap *)

Record Metrics := {
  webhook_accepted_total : Z;
  webhook_duplicate_total : Z;
  webhook_unauthorized_total : Z;
}.
Definition fetch_add (n : Z) : Z := (n + 1) mod 2 ^ 64.
Definition inc_webhook_accepted (m : Metrics) : Metrics :=
  {| webhook_accepted_total := fetch_add (webhook_accepted_total m);
     webhook_duplicate_total := webhook_duplicate_total m;
     webhook_unauthorized_total := webhook_unauthorized_total m |}.
Definition inc_webhook_duplicate (m : Metrics) : Metrics :=
  {| webhook_accepted_total := webhook_accepted_total m;
     webhook_duplicate_total := fetch_add (webhook_duplicate_total m);
     webhook_unauthorized_total := webhook_unauthorized_total m |}.
Definition inc_webhook_unauthorized (m : Metrics) : Metrics :=
  {| webhook_accepted_total := webhook_accepted_total m;
     webhook_duplicate_total := webhook_duplicate_total m;
     webhook_unauthorized_total := fetch_add (webhook_unauthorized_total m) |}.

(** ** [health/mod.rs] *)

Record ReadinessState := {
  config_valid : bool; db_reachable : bool; migrations_current : bool; shutting_down : bool;
}.
Definition new_ready : ReadinessState :=
  {| config_valid := true; db_reachable := false; migrations_current := false; shutting_down := false |}.
Definition set_db_reachable (b : bool) (r : ReadinessState) : ReadinessState :=
  {| config_valid := config_valid r; db_reachable := b; migrations_current := migrations_current r;
     shutting_down := shutting_down r |}.
Definition set_migrations_current (b : bool) (r : ReadinessState) : ReadinessState :=
  {| config_valid := config_valid r; db_reachable := db_reachable r; migrations_current := b;
     shutting_down := shutting_down r |}.
Definition mark_shutting_down (r : ReadinessState) : ReadinessState :=
  {| config_valid := config_valid r; db_reachable := db_reachable r;
     migrations_current := migrations_current r; shutting_down := true |}.
Definition is_ready (r : ReadinessState) : bool :=
  config_valid r && db_reachable r && migrations_current r && negb (shutting_down r).
Definition is_live (r : ReadinessState) : bool := negb (shutting_down r).

(** ** Responses and the application *)

(** Status code and the [status] field of the body. *)
Definition response : Type := Z * rstr.
Definition status_json (status : Z) (value : rstr) : response := (status, value).

Definition live_handler (r : ReadinessState) : response :=
  if is_live r then status_json 200 (s! "live") else status_json 503 (s! "not_live").
(** [pool] is what the connection and the migration check find, [None] without a pool. *)
Definition ready_handler (pool : option (bool * option bool)) (r : ReadinessState) : ReadinessState * response :=
  let r := match pool with
           | Some (db_ok, migrations) =>
               set_migrations_current (db_ok && default false migrations) (set_db_reachable db_ok r)
           | None => r
           end in
  (r, if is_ready r then status_json 200 (s! "ready") else status_json 503 (s! "not_ready")).

Record WebhookService := {
  ws_config : Provider.ZaloHttpConfig;
  ws_store : IngressStore;
  allowed_provider_sender_ids : list rstr;
  max_body_bytes : Z;
}.
Record AppState := { webhook : option WebhookService; metrics : option Metrics }.

(** A request: the readable headers and the body. *)
Record request := { rq_secret : option rstr; rq_content_type : option rstr; rq_body : list Z }.

Definition is_json (content_type : option rstr) : bool :=
  match content_type with
  | Some v => eq_ignore_ascii_case (trim (hd [] (split_char v (c! ";")))) (s! "application/json")
  | None => false
  end.

Section Handler.
Context `{CH : Chrono} `{PG : Postgres} `{UT : UuidText} `{IL : ImageLib} `{SJ : SerdeJson} `{UC : UnicodeCase}
  `{UN : UnicodeNorm} `{SP : SerdeParse}.

Definition text_request (s : WebhookService) (e : Provider.NormalizedInboundText) : IngressRequest := {|
  source := Webhook; provider_scope := Provider.nt_provider_scope e;
  provider_event_id := Provider.nt_event_id e; provider_sender_id := Provider.nt_sender_id e;
  provider_chat_id := Provider.nt_chat_id e;
  sender_allowed := bool_decide (Provider.nt_sender_id e ∈ allowed_provider_sender_ids s);
  user_text := Provider.nt_text e; observed_at := Provider.nt_received_at e |}.
Definition image_request (s : WebhookService) (e : Provider.NormalizedInboundImage) : IngressRequest := {|
  source := Webhook; provider_scope := Provider.ni_provider_scope e;
  provider_event_id := Provider.ni_event_id e; provider_sender_id := Provider.ni_sender_id e;
  provider_chat_id := Provider.ni_chat_id e;
  sender_allowed := bool_decide (Provider.ni_sender_id e ∈ allowed_provider_sender_ids s);
  user_text := Provider.ni_caption e; observed_at := Provider.ni_received_at e |}.

Definition count (f : Metrics -> Metrics) (st : AppState) : AppState :=
  {| webhook := webhook st; metrics := f <$> metrics st |}.

(** The response to the outcome of the ingress transaction. *)
Definition outcome_response (st : AppState) (o : result IngressOutcome IngressError) : AppState * response :=
  match o with
  | Ok (Accepted _) => (count inc_webhook_accepted st, status_json 200 (s! "accepted"))
  | Ok (Duplicate _) => (count inc_webhook_duplicate st, status_json 200 (s! "duplicate"))
  | Ok (ModeRejected _) => (st, status_json 409 (s! "mode_rejected"))
  | Err _ => (st, status_json 500 (s! "internal_error"))
  end.

(** What a body asks for once it is let in. *)
Inductive intake :=
| Reject (r : response)
| Text (r : IngressRequest)
| Image (r : IngressRequest) (url : rstr).

(** Checks and parsing; [true] in the first part counts an unauthorised call.  [now] is the
    clock at each of the two parsers. *)
Definition let_in (now : bool -> Z) (s : WebhookService) (rq : request) : bool * intake :=
  match Provider.verify_webhook_secret (ws_config s) (rq_secret rq) with
  | Err _ => (true, Reject (status_json 401 (s! "unauthorized")))
  | Ok _ =>
    (false,
     if negb (is_json (rq_content_type rq)) then Reject (status_json 415 (s! "invalid_content_type"))
     else if max_body_bytes s <? Z.of_nat (length (rq_body rq))
     then Reject (status_json 413 (s! "payload_too_large"))
     else match Provider.parse_text_webhook (now false) (ws_config s) (rq_body rq) with
     | Err _ => Reject (status_json 400 (s! "invalid_payload"))
     | Ok e =>
         match Provider.nt_kind e with
         | Provider.TextReceived => Text (text_request s e)
         | kind =>
             if match kind with
                | Provider.Unsupported name => negb (str_eqb name Provider.EVENT_IMAGE_RECEIVED)
                | _ => false
                end
             then Reject (status_json 200 (s! "unsupported"))
             else match Provider.parse_image_webhook (now true) (ws_config s) (rq_body rq) with
             | Err _ => Reject (status_json 400 (s! "invalid_payload"))
             | Ok e =>
                 match Provider.ni_kind e with
                 | Provider.ImageReceived => Image (image_request s e) (Provider.ni_image_url e)
                 | _ => Reject (status_json 200 (s! "unsupported"))
                 end
             end
         end
     end)
  end.

Definition zalo_webhook_handler (env : Env) (now : bool -> Z) (rq : request) (st : AppState) (d : db)
    : db * AppState * run response :=
  let answer o d' := match o with
                     | Ret r => let '(st', resp) := outcome_response st r in (d', st', Ret resp)
                     | Panic => (d', st, Panic)
                     | Timeout => (d', st, Timeout)
                     end in
  match webhook st with
  | None => (d, st, Ret (status_json 404 (s! "not_configured")))
  | Some s =>
      match let_in now s rq with
      | (unauthorized, Reject resp) =>
          (d, if unauthorized then count inc_webhook_unauthorized st else st, Ret resp)
      | (_, Text r) => let '(d', o) := IngressApp.process_text_command env (ws_store s) r d in answer o d'
      | (_, Image r url) => let '(d', o) := IngressApp.process_image env (ws_store s) r url d in answer o d'
      end
  end.

End Handler.
End Http.
