(* ===== verification/Extractors.v ===== *)
(** * Receipt extractors ([src/src/receipt/extractor.rs], [downscale.rs], [gemini.rs])

    The deterministic corpus extractor, the downscaling of the image sent out, and the
    adapter of the Gemini service: its request, the classes of its failures and the
    validation of its answer.  The digest, the image codec, base64, the JSON reader and
    the HTTP client are parameters. *)

From S2P Require Import Prelude RustStr Platform Errors Work Provider Floats ReceiptTypes.
From Stdlib Require Import Floats.SpecFloat.

(** [image]: decoding, dimensions, [resize] into a box, and the JPEG encoder. *)
Class ImageCodec := {
  image : Type;
  load_from_memory : list Z -> option image;
  dimensions : image -> Z * Z;
  resize : image -> Z -> Z -> image;
  write_jpeg : image -> option (list Z);
}.

(** [sha2]. *)
Class Sha256 := { sha256 : list Z -> list Z }.
Class Sha256Laws `{Sha256} : Prop := {
  sha256_length : forall b, length (sha256 b) = 32%nat;
  sha256_bytes : forall b, Forall (fun x => 0 <= x < 256) (sha256 b);
}.

(** [base64] and [http]: the text of bytes, and which text can be a header value. *)
Class Base64 := { base64_encode : list Z -> rstr; header_value_ok : rstr -> bool }.

(** [DateTime::parse_from_rfc3339], as an instant. *)
Class Rfc3339 := { parse_from_rfc3339 : rstr -> option Z }.

Module Extractors.
Import ReceiptTypes.
Import Work (json(..)).

Definition receipt_error (class : Errors.ErrorClass) (message : rstr) : ReceiptError :=
  {| re_class := class; re_message := message |}.

(** ** The fake extractor *)

Definition MOCK_PREFIX : rstr := s! "MOCK-FIXTURE:".

Record CorpusEntry := {
  ce_id : rstr;
  ce_merchant : rstr;
  ce_amount_minor : Z;
  ce_currency : rstr;
  ce_category_key : rstr;
  ce_transaction_type : rstr;
  ce_year : Z;
  ce_month : Z;
  ce_day : Z;
  ce_hour : Z;
  ce_minute : Z;
  ce_confidence : Z;         (* the bits of the [f32] *)
  ce_unsupported : bool;
}.

Definition CORPUS : list CorpusEntry :=
  [{| ce_id := s! "coopmart-clean"; ce_merchant := s! "Co.opmart"; ce_amount_minor := 325000;
      ce_currency := s! "VND"; ce_category_key := s! "thuc-pham"; ce_transaction_type := s! "expense";
      ce_year := 2026; ce_month := 7; ce_day := 15; ce_hour := 9; ce_minute := 24;
      ce_confidence := 1064514355; ce_unsupported := false |};
   {| ce_id := s! "highlands-clean"; ce_merchant := s! "Highlands Coffee"; ce_amount_minor := 65000;
      ce_currency := s! "VND"; ce_category_key := s! "an-uong"; ce_transaction_type := s! "expense";
      ce_year := 2026; ce_month := 7; ce_day := 16; ce_hour := 14; ce_minute := 5;
      ce_confidence := 1064178811; ce_unsupported := false |};
   {| ce_id := s! "petrolimex-clean"; ce_merchant := s! "Petrolimex"; ce_amount_minor := 500000;
      ce_currency := s! "VND"; ce_category_key := s! "di-lai"; ce_transaction_type := s! "expense";
      ce_year := 2026; ce_month := 7; ce_day := 17; ce_hour := 8; ce_minute := 12;
      ce_confidence := 1063675494; ce_unsupported := false |};
   {| ce_id := s! "guardian-low-total"; ce_merchant := s! "Guardian"; ce_amount_minor := 142000;
      ce_currency := s! "VND"; ce_category_key := s! "suc-khoe"; ce_transaction_type := s! "expense";
      ce_year := 2026; ce_month := 7; ce_day := 14; ce_hour := 19; ce_minute := 41;
      ce_confidence := 1060655596; ce_unsupported := false |};
   {| ce_id := s! "unsupported-image"; ce_merchant := s! "Unsupported"; ce_amount_minor := 0;
      ce_currency := s! "VND"; ce_category_key := s! "khac"; ce_transaction_type := s! "expense";
      ce_year := 2026; ce_month := 1; ce_day := 1; ce_hour := 0; ce_minute := 0;
      ce_confidence := 0; ce_unsupported := true |}].

(** [std::str::from_utf8]: exactly the encodings of scalar values. *)
Definition is_scalar (c : Z) : bool := (0 <=? c) && (c <=? 1114111) && negb ((55296 <=? c) && (c <=? 57343)).
Definition from_utf8 (bytes : list Z) : option rstr :=
  let s := decode_utf8 bytes in
  if bool_decide (encode_utf8 s = bytes) && forallb is_scalar s then Some s else None.

Definition u64_from_be_bytes (bytes : list Z) : Z := foldl (fun acc b => acc * 256 + b) 0 bytes.

Definition fake_meta : ExtractionMeta := {|
  provider := s! "fake"; model := s! "fake-corpus"; profile_name := s! "receipt-fast";
  prompt_version := s! "v1"; input_tokens := Some 0; output_tokens := Some 0 |}.

Section Fake.
Context `{SH : Sha256} `{CH : Chrono}.

Definition index_for (bytes : list Z) : Z :=
  u64_from_be_bytes (take 8 (sha256 bytes)) mod Z.of_nat (length CORPUS).
Definition corpus_index_for : list Z -> Z := index_for.

Definition corpus_entry (bytes : list Z) : run (result CorpusEntry ReceiptError) :=
  match strip_prefix bytes (encode_utf8 MOCK_PREFIX) with
  | Some rest =>
      Ret (let? text := ok_or (from_utf8 rest) (validation (s! "invalid mock fixture id")) in
           let id := trim text in
           ok_or (List.find (fun entry => str_eqb (ce_id entry) id) CORPUS)
             (validation (s! "unknown mock fixture id")))
  | None => let! entry := expect (CORPUS !! Z.to_nat (index_for bytes)) in Ret (Ok entry)
  end.

(** [Utc.with_ymd_and_hms(...).unwrap()]. *)
Definition with_ymd_and_hms (y mo d h mi : Z) : run Z :=
  let! day_count := expect (from_ymd_opt y mo d) in Ret (day_count * day + h * hour + mi * minute).

Definition extract (bytes : list Z) : run (result ExtractionResult ReceiptError) :=
  let!? entry := corpus_entry bytes in
  let! at_ := with_ymd_and_hms (ce_year entry) (ce_month entry) (ce_day entry) (ce_hour entry) (ce_minute entry) in
  Ret (Ok {| x_merchant := ce_merchant entry; x_amount_minor := ce_amount_minor entry;
             x_currency := ce_currency entry; x_category_key := ce_category_key entry;
             x_transaction_type := ce_transaction_type entry; x_occurred_at := at_;
             x_confidence := ce_confidence entry; x_unsupported := ce_unsupported entry |}).

(** [FakeExtractor]'s [extract]. *)
Definition fake_extract (bytes : list Z) : run (result ExtractedAttempt ReceiptError) :=
  let!? result := extract bytes in Ret (Ok {| x_result := result; x_meta := fake_meta |}).

(** The search of [bytes_for_corpus_index] over the nonces from [nonce] on. *)
Fixpoint search_nonce (fuel : nat) (index nonce : Z) : run (list Z) :=
  match fuel with
  | O => Timeout
  | S fuel' =>
      let digest := sha256 (encode_utf8 (s! "mock-fixture-" ++ dec index ++ s! "-" ++ dec nonce)) in
      if index_for digest =? index then Ret digest
      else if nonce =? u32_max then Panic else search_nonce fuel' index (nonce + 1)
  end.
Definition bytes_for_corpus_index (fuel : nat) (index : Z) : run (option (list Z)) :=
  if Z.of_nat (length CORPUS) <=? index then Ret None
  else let! digest := search_nonce fuel index 0 in Ret (Some digest).
End Fake.

(** ** Downscaling *)

Definition MAX_EXTRACTION_EDGE : Z := 2048.

(** The two dimensions of an image whose longest edge is too long. *)
Definition scaled (width height max_edge : Z) : Z * Z :=
  let scale := Floats.f64_div (Floats.f64_of_int MAX_EXTRACTION_EDGE) (Floats.f64_of_int max_edge) in
  (Z.max (Floats.round_as_u32 (Floats.f64_mul (Floats.f64_of_int width) scale)) 1,
   Z.max (Floats.round_as_u32 (Floats.f64_mul (Floats.f64_of_int height) scale)) 1).

Section Gemini.
Context `{IC : ImageCodec} `{SP : SerdeParse} `{B64 : Base64} `{RF : Rfc3339}.

Definition downscale_to_jpeg (bytes : list Z) : result (list Z) ReceiptError :=
  let? image := ok_or (load_from_memory bytes) (validation (s! "unable to decode image for extraction")) in
  let '(width, height) := dimensions image in
  if (width =? 0) || (height =? 0) then Err (validation (s! "image dimensions must be positive"))
  else
  let max_edge := Z.max width height in
  let image :=
    if MAX_EXTRACTION_EDGE <? max_edge
    then let '(next_width, next_height) := scaled width height max_edge in resize image next_width next_height
    else image in
  ok_or (write_jpeg image) (dependency (s! "failed to encode extraction jpeg")).

(** ** Gemini: the request *)

Definition EXTRACTION_PROMPT_VERSION : rstr := s! "extraction-json-v2".
Definition EXTRACTION_PROMPT : rstr :=
  s! "Extract one Vietnamese receipt or invoice into JSON matching the schema. "
  ++ s! "Read the merchant/store carefully from the header (company or shop name), not product line items. "
  ++ s! "amount_minor is the FINAL amount the customer pays in VND đồng as an integer "
  ++ s! "(example: 118.000đ → 118000). Prefer totals labeled Tổng cộng, Thành tiền, Tổng thanh toán, "
  ++ s! "or similar over unit prices or subtotals. "
  ++ s! "occurred_at is the receipt date/time as RFC3339 UTC; if only a calendar date is printed, "
  ++ s! "use that date at 00:00:00Z. "
  ++ s! "Choose the best category_key from the allowed enum. "
  ++ s! "Set unsupported=true only when the image is clearly not a receipt/invoice.".

Definition CATEGORY_KEYS : list rstr :=
  [s! "an-uong"; s! "thuc-pham"; s! "di-lai"; s! "hoa-don"; s! "mua-sam"; s! "suc-khoe"; s! "giai-tri";
   s! "giao-duc"; s! "nha-o"; s! "thu-nhap"; s! "hoan-tien"; s! "chuyen-khoan"; s! "khac"].

(** [GeminiHttpExtractor], less its client; the timeout belongs to the client. *)
Record GeminiHttpExtractor := {
  g_api_base : rstr;
  g_api_key : rstr;
  g_model : rstr;
  g_profile_name : rstr;
  g_max_input_bytes : Z;
  g_max_output_tokens : Z;
  g_thinking_effort : rstr;
  g_schema_version : rstr;
}.
(** [new], once the client is built. *)
Definition gemini_new (config : GeminiHttpExtractor) : GeminiHttpExtractor := {|
  g_api_base := trim_end_matches (Z.eqb (c! "/")) (g_api_base config); g_api_key := g_api_key config;
  g_model := g_model config; g_profile_name := g_profile_name config;
  g_max_input_bytes := g_max_input_bytes config; g_max_output_tokens := g_max_output_tokens config;
  g_thinking_effort := g_thinking_effort config; g_schema_version := g_schema_version config |}.

Definition static_meta (g : GeminiHttpExtractor) : ExtractionMeta := {|
  provider := s! "gemini"; model := g_model g; profile_name := g_profile_name g;
  prompt_version := EXTRACTION_PROMPT_VERSION; input_tokens := None; output_tokens := None |}.

(** [Debug] of the extractor: the fields it prints. *)
Definition gemini_debug_fields (g : GeminiHttpExtractor) : list (rstr * rstr) :=
  [(s! "model", g_model g); (s! "profile_name", g_profile_name g); (s! "schema_version", g_schema_version g)].

Definition thinking_budget (effort : rstr) : option Z :=
  if str_eqb effort (s! "none") then Some 0
  else if str_eqb effort (s! "low") then Some 2048
  else if str_eqb effort (s! "medium") then Some 8192
  else if str_eqb effort (s! "high") then Some 16384
  else None.
Definition thinking_config (model effort : rstr) : option json :=
  let model := to_ascii_lowercase model in
  if starts_with model (s! "gemini-3") then
    if existsb (str_eqb effort) [s! "none"; s! "low"]
    then Some (JObject [(s! "thinkingLevel", JString (s! "LOW"))])
    else if existsb (str_eqb effort) [s! "medium"; s! "high"]
    then Some (JObject [(s! "thinkingLevel", JString (s! "HIGH"))])
    else None
  else (fun budget => JObject [(s! "thinkingBudget", JInt budget)]) <$> thinking_budget effort.

Definition of_type (t : rstr) : json := JObject [(s! "type", JString t)].
Definition one_of_strings (l : list rstr) : json :=
  JObject [(s! "type", JString (s! "string")); (s! "enum", JArray (map JString l))].
Definition RESULT_FIELDS : list rstr :=
  [s! "merchant"; s! "amount_minor"; s! "currency"; s! "category_key"; s! "transaction_type"; s! "occurred_at";
   s! "confidence"; s! "unsupported"].
Definition response_schema : json :=
  JObject
    [(s! "type", JString (s! "object"));
     (s! "properties", JObject
        [(s! "merchant", of_type (s! "string")); (s! "amount_minor", of_type (s! "integer"));
         (s! "currency", of_type (s! "string")); (s! "category_key", one_of_strings CATEGORY_KEYS);
         (s! "transaction_type", one_of_strings [s! "expense"; s! "income"; s! "transfer"]);
         (s! "occurred_at", of_type (s! "string")); (s! "confidence", of_type (s! "number"));
         (s! "unsupported", of_type (s! "boolean"))]);
     (s! "required", JArray (map JString RESULT_FIELDS))].

Definition request_body (g : GeminiHttpExtractor) (jpeg : list Z) : json :=
  let generation_config :=
    [(s! "responseMimeType", JString (s! "application/json")); (s! "responseSchema", response_schema);
     (s! "maxOutputTokens", JInt (g_max_output_tokens g))]
    ++ match thinking_config (g_model g) (g_thinking_effort g) with
       | Some thinking => [(s! "thinkingConfig", thinking)]
       | None => []
       end in
  JObject
    [(s! "contents", JArray [JObject
        [(s! "role", JString (s! "user"));
         (s! "parts", JArray
            [JObject [(s! "text", JString EXTRACTION_PROMPT)];
             JObject [(s! "inlineData", JObject
                [(s! "mimeType", JString (s! "image/jpeg")); (s! "data", JString (base64_encode jpeg))])]])]]);
     (s! "generationConfig", JObject generation_config)].

(** ** Gemini: the answer *)

Definition in_range (lo hi n : Z) : bool := (lo <=? n) && (n <=? hi).
Definition gemini_status (status : Z) : option ReceiptError :=
  if in_range 200 299 status then None
  else if existsb (Z.eqb status) [401; 403] then Some (receipt_error Errors.Auth (s! "gemini authentication failed"))
  else if status =? 429 then Some (receipt_error Errors.RateLimited (s! "gemini rate limited"))
  else if existsb (Z.eqb status) [400; 404; 411; 413; 422] then Some (validation (s! "gemini rejected the request"))
  else if in_range 500 599 status then Some (receipt_error Errors.Transient (s! "gemini upstream error"))
  else Some (validation (s! "gemini returned an unexpected status")).

(** [Value::pointer]; an array is indexed by a number without sign or leading zero. *)
Definition parse_index (s : rstr) : option nat :=
  if starts_with s (s! "+") || (starts_with s (s! "0") && negb (length s =? 1)%nat) then None
  else if negb (is_empty s) && all_digits s && (digits_val s <=? u64_max) then Some (Z.to_nat (digits_val s))
  else None.
Definition pointer_step (v : json) (token : rstr) : option json :=
  match v with
  | JObject fields => Provider.value_get token fields
  | JArray l => parse_index token ≫= (fun i => l !! i)
  | _ => None
  end.
Definition pointer (v : json) (tokens : list rstr) : option json :=
  foldl (fun o token => o ≫= (fun v => pointer_step v token)) (Some v) tokens.
(** [Value::get] with a string, [as_str], [as_bool], [as_array]. *)
Definition get (v : json) (k : rstr) : option json :=
  match v with JObject fields => Provider.value_get k fields | _ => None end.
Definition value_as_str (v : json) : option rstr := match v with JString s => Some s | _ => None end.
Definition value_as_bool (v : json) : option bool := match v with JBool b => Some b | _ => None end.
Definition value_as_array (v : json) : option (list json) := match v with JArray l => Some l | _ => None end.
(** [as_f64]. *)
Definition value_as_f64 (v : json) : option spec_float :=
  match v with
  | JInt z => Some (Floats.f64_of_int z)
  | JFloat bits => Some (Floats.f64_of_bits bits)
  | _ => None
  end.

Definition part_text (part : json) : option rstr :=
  match get part (s! "thought") ≫= value_as_bool with
  | Some true => None
  | _ =>
      text ← get part (s! "text") ≫= value_as_str;
      let text := trim text in if is_empty text then None else Some text
  end.
Definition extract_candidate_text (parsed : json) : option rstr :=
  parts ← pointer parsed [s! "candidates"; s! "0"; s! "content"; s! "parts"] ≫= value_as_array;
  Provider.find_map part_text (rev parts).

Definition missing (field : rstr) : ReceiptError := validation (s! "gemini output missing " ++ field).
Definition field {A} (parsed : json) (name : rstr) (decode : json -> option A) : result A ReceiptError :=
  ok_or (get parsed name ≫= decode) (missing name).

Definition parse_extraction_json (text : rstr) : result ExtractionResult ReceiptError :=
  let? parsed := ok_or (json_from_slice (encode_utf8 text)) (validation (s! "gemini output was not json")) in
  let? raw_merchant := field parsed (s! "merchant") value_as_str in
  let? merchant := validate_merchant raw_merchant in
  let? amount_minor := field parsed (s! "amount_minor") Work.json_as_i64 in
  let? currency := field parsed (s! "currency") value_as_str in
  let? category_key := field parsed (s! "category_key") value_as_str in
  if negb (existsb (str_eqb category_key) CATEGORY_KEYS)
  then Err (validation (s! "gemini output category_key is not allowed"))
  else
  let? transaction_type := field parsed (s! "transaction_type") value_as_str in
  if negb (existsb (str_eqb transaction_type) [s! "expense"; s! "income"; s! "transfer"])
  then Err (validation (s! "gemini output transaction_type is not allowed"))
  else
  let? occurred_text := field parsed (s! "occurred_at") value_as_str in
  let? occurred_at := ok_or (parse_from_rfc3339 occurred_text)
                        (validation (s! "gemini output occurred_at is invalid")) in
  let? confidence64 := field parsed (s! "confidence") value_as_f64 in
  let confidence := Floats.f32_of_f64 confidence64 in
  let? unsupported := field parsed (s! "unsupported") value_as_bool in
  let? _ := (if unsupported then Ok tt
             else let? _ := validate_amount_minor amount_minor in validate_currency currency) in
  Ok {| x_merchant := merchant; x_amount_minor := amount_minor; x_currency := currency;
        x_category_key := category_key; x_transaction_type := transaction_type; x_occurred_at := occurred_at;
        x_confidence := Floats.f32_bits (Floats.clamp confidence Floats.f32_zero Floats.f32_one);
        x_unsupported := unsupported |}.

(** A count that does not fit [i32] is dropped; no count leaves [None]. *)
Definition token_count (parsed : json) (name : rstr) (before : option Z) : option Z :=
  match pointer parsed [s! "usageMetadata"; name] ≫= Work.json_as_i64 with
  | Some n => if in_i32 n then Some n else None
  | None => before
  end.

Definition parse_generate_content (body : rstr) (meta : ExtractionMeta) : result ExtractedAttempt ReceiptError :=
  let? parsed := ok_or (json_from_slice (encode_utf8 body)) (validation (s! "gemini response was not json")) in
  if bool_decide (is_Some (pointer parsed [s! "promptFeedback"; s! "blockReason"]))
  then Err (validation (s! "gemini blocked the prompt"))
  else if match pointer parsed [s! "candidates"; s! "0"; s! "finishReason"] ≫= value_as_str with
          | Some reason => negb (str_eqb reason (s! "STOP")) && negb (str_eqb reason (s! "stop"))
          | None => false
          end
  then Err (validation (s! "gemini did not finish normally"))
  else
  let? text := ok_or (extract_candidate_text parsed) (validation (s! "gemini response missing candidates")) in
  let meta := {| provider := provider meta; model := model meta; profile_name := profile_name meta;
                 prompt_version := prompt_version meta;
                 input_tokens := token_count parsed (s! "promptTokenCount") (input_tokens meta);
                 output_tokens := token_count parsed (s! "candidatesTokenCount") (output_tokens meta) |} in
  let? result := parse_extraction_json text in
  Ok {| x_result := result; x_meta := meta |}.

(** What the client reports: no answer (by a timeout or not), or a status and the text of
    the body if it could be read. *)
Inductive gemini_answer := GNoAnswer (timed_out : bool) | GAnswer (status : Z) (body : option rstr).

Record gemini_request := { gr_url : rstr; gr_api_key : rstr; gr_body : json }.

Definition gemini_execute (post : gemini_request -> gemini_answer) (g : GeminiHttpExtractor) (bytes : list Z)
    : result ExtractedAttempt ReceiptError :=
  let? jpeg := downscale_to_jpeg bytes in
  if g_max_input_bytes g <? Z.of_nat (length jpeg)
  then Err (validation (s! "extraction input exceeds profile max_input_bytes"))
  else if negb (header_value_ok (g_api_key g))
  then Err (receipt_error Errors.Auth (s! "gemini credential is invalid"))
  else
  let url := g_api_base g ++ s! "/v1beta/models/" ++ g_model g ++ s! ":generateContent" in
  match post {| gr_url := url; gr_api_key := g_api_key g; gr_body := request_body g jpeg |} with
  | GNoAnswer true => Err (receipt_error Errors.Timeout (s! "gemini request timed out"))
  | GNoAnswer false => Err (dependency (s! "gemini request failed"))
  | GAnswer status body =>
      if in_range 300 399 status then Err (validation (s! "gemini returned an unexpected redirect"))
      else match gemini_status status with
      | Some error => Err error
      | None =>
          let? text := ok_or body (dependency (s! "failed to read gemini response")) in
          parse_generate_content text (static_meta g)
      end
  end.

Definition GeminiExtractor (post : gemini_request -> gemini_answer) (g : GeminiHttpExtractor) : Extractor := {|
  extract_bytes := gemini_execute post g; extractor_meta := static_meta g |}.

End Gemini.

End Extractors.
