(* ===== verification/FsStore.v ===== *)
(** * The filesystem object store ([src/src/receipt/fs_store.rs])

    Files and directories are a finite map from path components; symbolic links are not
    modelled.  Every call may fail for reasons outside the program: a failed
    [create_dir_all] has made some of the directories, a failed [write] may leave part of
    the bytes. *)

From S2P Require Import Prelude RustStr RustStrFacts Platform Errors Paths ReceiptTypes.

Module FsStore.
Import ReceiptTypes Paths.

(** ** [std::fs] *)

#[export] Instance Component_countable : Countable Component.
Proof.
  refine (inj_countable' (fun c => match c with RootDir => inl 0%nat | CurDir => inl 1%nat | ParentDir => inl 2%nat
                                   | Normal n => inr n end)
                         (fun x => match x with inl 0%nat => RootDir | inl 1%nat => CurDir | inl _ => ParentDir
                                   | inr n => Normal n end) _).
  by intros [].
Defined.

Inductive node := FileNode (bytes : list Z) | DirNode.
Abbreviation path := (list Component).
Abbreviation fs := (gmap path node).

Inductive io_error := NotFoundError | OtherError.

Definition is_file (f : fs) (p : path) : bool := match f !! p with Some (FileNode _) => true | _ => false end.
Definition is_dir (f : fs) (p : path) : bool := match f !! p with Some DirNode => true | _ => false end.

(** The prefixes of a path, the path itself last. *)
Definition prefixes (p : path) : list path := map (fun n => take n p) (seq 1 (length p)).
Definition parent_of (p : path) : path := take (length p - 1) p.

(** The error of looking up a missing entry: something above it is not a directory, or
    nothing is there. *)
Definition missing_error (f : fs) (p : path) : io_error :=
  if existsb (is_file f) (prefixes (parent_of p)) then OtherError else NotFoundError.

(** [create_dir_all]; [stop] directories are passed before an outside failure. *)
Fixpoint make_dirs (f : fs) (ps : list path) (stop : option nat) : fs * bool :=
  match ps with
  | [] => (f, bool_decide (stop = None))
  | p :: ps' =>
      match stop with
      | Some O => (f, false)
      | _ =>
          let stop' := match stop with Some (S n) => Some n | _ => None end in
          match f !! p with
          | Some DirNode => make_dirs f ps' stop'
          | Some (FileNode _) => (f, false)
          | None => make_dirs (<[p := DirNode]> f) ps' stop'
          end
      end
  end.
Definition create_dir_all (f : fs) (p : path) (stop : option nat) : fs * bool := make_dirs f (prefixes p) stop.

(** [write]: an outside failure may leave some bytes behind. *)
Inductive write_fault := WriteFails (left_behind : option (list Z)).
Definition write (f : fs) (p : path) (bytes : list Z) (fault : option write_fault) : fs * bool :=
  if negb (is_dir f (parent_of p)) || is_dir f p then (f, false)
  else match fault with
       | None => (<[p := FileNode bytes]> f, true)
       | Some (WriteFails None) => (f, false)
       | Some (WriteFails (Some part)) => (<[p := FileNode part]> f, false)
       end.

(** [rename] of a file. *)
Definition rename (f : fs) (src dst : path) (fails : bool) : fs * bool :=
  match f !! src with
  | Some (FileNode bytes) =>
      if fails || is_dir f dst || negb (is_dir f (parent_of dst)) then (f, false)
      else (<[dst := FileNode bytes]> (delete src f), true)
  | _ => (f, false)
  end.

Definition read (f : fs) (p : path) (fails : bool) : result (list Z) io_error :=
  if fails then Err OtherError
  else match f !! p with
       | Some (FileNode bytes) => Ok bytes
       | Some DirNode => Err OtherError
       | None => Err (missing_error f p)
       end.

Definition remove_file (f : fs) (p : path) (fails : bool) : fs * result unit io_error :=
  if fails then (f, Err OtherError)
  else match f !! p with
       | Some (FileNode _) => (delete p f, Ok tt)
       | Some DirNode => (f, Err OtherError)
       | None => (f, Err (missing_error f p))
       end.

(** ** The store *)

Record FilesystemObjectStore := { root : rstr }.

Definition new (directory : rstr) (f : fs) (stop : option nat) : fs * result FilesystemObjectStore ReceiptError :=
  if is_empty directory then (f, Err (validation (s! "storage directory must not be empty")))
  else let '(f', ok) := create_dir_all f (components directory) stop in
       (f', if ok then Ok {| root := directory |}
            else Err (dependency (s! "failed to initialize filesystem object store root"))).

Definition key_component_ok (component : rstr) : bool :=
  negb (is_empty component || str_eqb component (s! ".") || str_eqb component (s! ".."))
  && negb (contains_char component 92 || contains_char component 0).

Definition push_component (acc : result rstr ReceiptError) (component : rstr) : result rstr ReceiptError :=
  let? p := acc in
  if key_component_ok component then Ok (path_join p component)
  else Err (validation (s! "object key is invalid")).
Definition key_to_relative_path (key : rstr) : result rstr ReceiptError :=
  let? p := foldl push_component (Ok []) (split_by is_slash key) in
  if is_empty p then Err (validation (s! "object key must not be empty")) else Ok p.

(** [Path::starts_with], by components. *)
Definition path_starts_with (p q : path) : bool := bool_decide (take (length q) p = q).

Definition resolve_path (store : FilesystemObjectStore) (key : rstr) : result path ReceiptError :=
  let? _ := validate_object_key key in
  let? relative := key_to_relative_path key in
  let p := components (path_join (root store) relative) in
  if negb (path_starts_with p (components (root store)))
  then Err (validation (s! "object key escapes storage root"))
  else Ok p.

(** [Path::parent]. *)
Definition parent (p : path) : option path :=
  match rev p with Normal _ :: _ | CurDir :: _ | ParentDir :: _ => Some (parent_of p) | _ => None end.

(** The failures of one [put]. *)
Record put_faults := {
  pf_dirs : option nat;
  pf_write : option write_fault;
  pf_rename : bool;
  pf_cleanup : bool;
}.
Definition no_faults : put_faults := {| pf_dirs := None; pf_write := None; pf_rename := false; pf_cleanup := false |}.

Section Store.
Context {UT : UuidText}.

Definition temp_name (fresh : uuid) : rstr := s! "." ++ uuid_str fresh ++ s! ".tmp".

Definition put (store : FilesystemObjectStore) (key : rstr) (bytes : list Z) (fresh : uuid) (faults : put_faults)
    : prog fs ReceiptError unit :=
  fun f =>
    match resolve_path store key with
    | Err e => (f, Err e)
    | Ok p =>
        match parent p with
        | None => (f, Err (validation (s! "object key must include a path component")))
        | Some dir =>
            let '(f1, ok) := create_dir_all f dir (pf_dirs faults) in
            if negb ok then (f1, Err (dependency (s! "failed to create object parent directory")))
            else
            let temp := dir ++ [Normal (temp_name fresh)] in
            let '(f2, ok) := write f1 temp bytes (pf_write faults) in
            if negb ok then (f2, Err (dependency (s! "failed to write object bytes")))
            else
            let '(f3, ok) := rename f2 temp p (pf_rename faults) in
            if ok then (f3, Ok tt)
            else ((remove_file f3 temp (pf_cleanup faults)).1,
                  Err (dependency (s! "failed to finalize object write")))
        end
    end.

Definition get (store : FilesystemObjectStore) (key : rstr) (fails : bool) (f : fs)
    : result (option (list Z)) ReceiptError :=
  let? p := resolve_path store key in
  match read f p fails with
  | Ok bytes => Ok (Some bytes)
  | Err NotFoundError => Ok None
  | Err OtherError => Err (dependency (s! "failed to read object"))
  end.

Definition delete_object (store : FilesystemObjectStore) (key : rstr) (fails : bool) : prog fs ReceiptError unit :=
  fun f =>
    match resolve_path store key with
    | Err e => (f, Err e)
    | Ok p =>
        match remove_file f p fails with
        | (f', Ok _) | (f', Err NotFoundError) => (f', Ok tt)
        | (f', Err OtherError) => (f', Err (dependency (s! "failed to delete object")))
        end
    end.

End Store.

End FsStore.
