(* ===== verification/S3Store.v ===== *)
(** * The S3-compatible object store ([src/src/receipt/s3_store.rs])

    Requests signed with AWS Signature Version 4, and the meaning of the answers.  The
    digest, HMAC, the [url] crate, the clock and the service are parameters. *)

From S2P Require Import Prelude RustStr RustStrFacts Platform Errors Provider ReceiptTypes Extractors.

(** [Url::path], [Url::set_path]. *)
Class UrlPath `{UrlLib} := { url_path : Url -> rstr; set_path : Url -> rstr -> Url }.
(** [hmac] over [sha2]. *)
Class HmacSha256 := { hmac_sha256 : list Z -> list Z -> list Z }.

Module S3Store.
Import ReceiptTypes.

Definition UNSIGNED_PAYLOAD : rstr := s! "UNSIGNED-PAYLOAD".

(** ** Texts *)

Definition hex_upper (n : Z) : Z := if n <? 10 then n + 48 else n + 55.
Definition hex_lower (n : Z) : Z := if n <? 10 then n + 48 else n + 87.
(** [hex::encode]. *)
Definition hex_encode (bytes : list Z) : rstr := concat (map (fun b => [hex_lower (b / 16); hex_lower (b mod 16)]) bytes).

Definition unreserved (b : Z) : bool :=
  is_ascii_upper b || is_ascii_lower b || is_ascii_digit b || existsb (Z.eqb b) [c! "-"; c! "."; c! "_"; c! "~"].
Definition percent_encode_byte (b : Z) : rstr :=
  if unreserved b then [b] else [c! "%"; hex_upper (b / 16); hex_upper (b mod 16)].
Definition percent_encode_path_segment (segment : rstr) : rstr :=
  concat (map percent_encode_byte (encode_utf8 segment)).

Definition canonical_path (path : rstr) : rstr :=
  if is_empty path then s! "/"
  else join (s! "/") (map (fun segment => if is_empty segment then [] else percent_encode_path_segment segment)
                        (split_char path (c! "/"))).

(** [canonical_headers]: the header values that are visible ASCII, others as empty. *)
Definition header_order (p q : rstr * rstr) : Prop := str_le p.1 q.1 = true.
#[export] Instance header_order_dec p q : Decision (header_order p q).
Proof. unfold header_order. apply _. Defined.
Definition visible_ascii (c : Z) : bool := ((32 <=? c) && (c <? 127)) || (c =? 9).
Definition header_text (value : rstr) : rstr := if forallb visible_ascii value then value else [].
Definition canonical_headers (headers : list (rstr * rstr)) (host : rstr) : rstr * rstr :=
  let kept := omap (fun p => let key := to_ascii_lowercase p.1 in
                             if str_eqb key (s! "authorization") then None
                             else Some (key, trim (header_text p.2))) headers in
  let pairs := merge_sort header_order ((s! "host", host) :: kept) in
  (join [10] (map (fun p => p.1 ++ s! ":" ++ p.2) pairs) ++ [10], join (s! ";") (map fst pairs)).

Inductive Method := PUT | GET | DELETE.
#[export] Instance Method_eq_dec : EqDecision Method.
Proof. solve_decision. Defined.
Definition method_as_str (m : Method) : rstr := match m with PUT => s! "PUT" | GET => s! "GET" | DELETE => s! "DELETE" end.

Section Client.
Context `{UL : UrlLib} `{UP : !UrlPath} `{SH : Sha256} `{HM : HmacSha256} `{B64 : Base64}.

Definition sha256_hex (data : rstr) : rstr := hex_encode (sha256 (encode_utf8 data)).

Definition signing_key (secret_key date_stamp region service : rstr) : list Z :=
  let k_date := hmac_sha256 (encode_utf8 (s! "AWS4" ++ secret_key)) (encode_utf8 date_stamp) in
  let k_region := hmac_sha256 k_date (encode_utf8 region) in
  let k_service := hmac_sha256 k_region (encode_utf8 service) in
  hmac_sha256 k_service (encode_utf8 (s! "aws4_request")).

Definition canonical_uri (url : Url) : rstr := canonical_path (url_path url).
Definition canonical_query (url : Url) : rstr := default [] (query url).

Record SignContext := {
  sc_method : rstr;
  sc_url : Url;
  sc_headers : list (rstr * rstr);
  sc_payload_hash : rstr;
  sc_access_key : rstr;
  sc_secret_key : rstr;
  sc_date_stamp : rstr;
  sc_amz_date : rstr;
  sc_region : rstr;
}.

Definition signing_host (url : Url) : rstr :=
  match host_str url with
  | Some value => match port url with Some p => value ++ s! ":" ++ dec p | None => value end
  | None => []
  end.

Definition sign_request (c : SignContext) : rstr :=
  let '(canonical_headers, signed_headers) := canonical_headers (sc_headers c) (signing_host (sc_url c)) in
  let canonical_request :=
    join [10] [sc_method c; canonical_uri (sc_url c); canonical_query (sc_url c); canonical_headers;
               signed_headers; sc_payload_hash c] in
  let scope := sc_date_stamp c ++ s! "/" ++ sc_region c ++ s! "/s3/aws4_request" in
  let string_to_sign :=
    join [10] [s! "AWS4-HMAC-SHA256"; sc_amz_date c; scope; sha256_hex canonical_request] in
  let signature_key := signing_key (sc_secret_key c) (sc_date_stamp c) (sc_region c) (s! "s3") in
  let signature := hex_encode (hmac_sha256 signature_key (encode_utf8 string_to_sign)) in
  s! "AWS4-HMAC-SHA256 Credential=" ++ sc_access_key c ++ s! "/" ++ scope
  ++ s! ", SignedHeaders=" ++ signed_headers ++ s! ", Signature=" ++ signature.

(** ** The client *)

Record S3ObjectStoreConfig := {
  s3c_endpoint : rstr;
  s3c_bucket : rstr;
  s3c_region : rstr;
  s3c_access_key : rstr;
  s3c_secret_key : rstr;
  s3c_force_path_style : bool;
}.
Record S3CompatibleObjectStore := {
  s3_endpoint : Url;
  s3_bucket : rstr;
  s3_region : rstr;
  s3_access_key : rstr;
  s3_secret_key : rstr;
  s3_force_path_style : bool;
}.

(** [new], given whether the HTTP client can be built. *)
Definition new (client_builds : bool) (config : S3ObjectStoreConfig) : result S3CompatibleObjectStore ReceiptError :=
  let? endpoint := ok_or (url_parse (trim_end_matches (Z.eqb (c! "/")) (s3c_endpoint config)))
                     (validation (s! "storage endpoint must be a valid URL")) in
  if bool_decide (host_str endpoint = None) then Err (validation (s! "storage endpoint must include a host"))
  else if is_empty (trim (s3c_bucket config)) then Err (validation (s! "storage bucket must not be empty"))
  else if is_empty (s3c_access_key config) || is_empty (s3c_secret_key config)
  then Err (validation (s! "storage credentials must not be empty"))
  else if negb client_builds then Err (dependency (s! "failed to build object store HTTP client"))
  else Ok {| s3_endpoint := endpoint; s3_bucket := s3c_bucket config; s3_region := s3c_region config;
             s3_access_key := s3c_access_key config; s3_secret_key := s3c_secret_key config;
             s3_force_path_style := s3c_force_path_style config |}.

Definition object_url (store : S3CompatibleObjectStore) (key : rstr) : result Url ReceiptError :=
  let? _ := validate_object_key key in
  let path := if s3_force_path_style store then s! "/" ++ s3_bucket store ++ s! "/" ++ key else s! "/" ++ key in
  Ok (set_path (s3_endpoint store) path).

Record s3_request := { rq_method : Method; rq_url : Url; rq_headers : list (rstr * rstr); rq_body : option (list Z) }.
(** What the client reports: no answer (by a timeout or not), or a status and the body if
    it could be read. *)
Inductive s3_answer := NoAnswer (timed_out : bool) | Answer (status : Z) (body : option (list Z)).

(** The headers of a request at [amz_date], whose first eight characters are the date. *)
Definition unsigned_headers (amz_date : rstr) : list (rstr * rstr) :=
  [(s! "x-amz-date", amz_date); (s! "x-amz-content-sha256", UNSIGNED_PAYLOAD)].
Definition signed_request (store : S3CompatibleObjectStore) (amz_date : rstr) (method : Method) (url : Url)
    (body : option (list Z)) : result s3_request ReceiptError :=
  if negb (header_value_ok amz_date) then Err (dependency (s! "invalid request timestamp"))
  else
  let headers := unsigned_headers amz_date in
  let authorization := sign_request
    {| sc_method := method_as_str method; sc_url := url; sc_headers := headers;
       sc_payload_hash := UNSIGNED_PAYLOAD; sc_access_key := s3_access_key store;
       sc_secret_key := s3_secret_key store; sc_date_stamp := take 8 amz_date; sc_amz_date := amz_date;
       sc_region := s3_region store |} in
  if negb (header_value_ok authorization) then Err (dependency (s! "invalid authorization header"))
  else Ok {| rq_method := method; rq_url := url; rq_headers := headers ++ [(s! "authorization", authorization)];
             rq_body := body |}.

Definition read_answer (method : Method) (answer : s3_answer) : result (option (list Z)) ReceiptError :=
  match answer with
  | NoAnswer true => Err {| re_class := Errors.Timeout; re_message := s! "object store request timed out" |}
  | NoAnswer false => Err (dependency (s! "object store request failed"))
  | Answer status body =>
      if status =? 403
      then Err {| re_class := Errors.Forbidden; re_message := s! "object store access denied" |}
      else if status =? 404
      then match method with
           | GET | DELETE => Ok None
           | PUT => Err (dependency (s! "object store object missing"))
           end
      else if (500 <=? status) && (status <? 600) then Err (dependency (s! "object store upstream error"))
      else if negb ((200 <=? status) && (status <? 300)) then Err (dependency (s! "object store request rejected"))
      else if (status =? 204) || bool_decide (method = DELETE) then Ok None
      else let? bytes := ok_or body (dependency (s! "failed to read object store response")) in Ok (Some bytes)
  end.

(** The service as a state and a function from requests to answers. *)
Section Service.
Context {srv : Type} (serve : s3_request -> srv -> srv * s3_answer) (clock : srv -> rstr).
Variable store : S3CompatibleObjectStore.

Definition execute (method : Method) (key : rstr) (body : option (list Z))
    : prog srv ReceiptError (option (list Z)) :=
  fun s =>
    match (let? url := object_url store key in signed_request store (clock s) method url body) with
    | Err e => (s, Err e)
    | Ok request => let '(s', answer) := serve request s in (s', read_answer method answer)
    end.

Definition put (key : rstr) (bytes : list Z) : prog srv ReceiptError unit :=
  let% _ := execute PUT key (Some bytes) in p_ret tt.
Definition get (key : rstr) : prog srv ReceiptError (option (list Z)) := execute GET key None.
Definition delete_object (key : rstr) : prog srv ReceiptError unit :=
  let% _ := execute DELETE key None in p_ret tt.
End Service.

End Client.

End S3Store.
