(* ===== verification/ConfigLoad.v ===== *)
(** * Validation and loading of the configuration ([src/src/config/load.rs], second half)

    The TOML reader, the [url] crate, the check of a PostgreSQL URL, the environment and
    the file system are parameters. *)

From S2P Require Import Prelude RustStr Platform Errors Work Provider Media Paths ConfigTypes ConfigLayers.
From S2P Require Import Insight.

Module ConfigLoad.
Import ConfigTypes ConfigLayers.
Import Errors (AppError).
Import Errors.AppError (config, refuse_if).

Inductive StorageBackend := Filesystem | S3 | Memory.
#[export] Instance StorageBackend_eq_dec : EqDecision StorageBackend.
Proof. solve_decision. Defined.
Definition StorageBackend_parse (value : rstr) : result StorageBackend AppError :=
  let v := to_ascii_lowercase (trim value) in
  if str_eqb v (s! "filesystem") then Ok Filesystem
  else if str_eqb v (s! "s3") then Ok S3
  else if str_eqb v (s! "memory") then Ok Memory
  else Err (config (s! "storage.backend must be filesystem, s3, or memory")).

Inductive ExtractionBackend := Fake | Gemini.
#[export] Instance ExtractionBackend_eq_dec : EqDecision ExtractionBackend.
Proof. solve_decision. Defined.
Definition ExtractionBackend_parse (value : rstr) : result ExtractionBackend AppError :=
  let v := to_ascii_lowercase (trim value) in
  if str_eqb v (s! "fake") then Ok Fake
  else if str_eqb v (s! "gemini") then Ok Gemini
  else Err (config (s! "extraction.backend must be fake or gemini")).

(** [ResolvedAiProfile] has the fields of the configured profile. *)
Definition ResolvedAiProfile : Type := AiProfileConfig.
Definition resolve_ai_profiles (cfg : Config) : list ResolvedAiProfile :=
  map (fun p => {| name := name p; provider := provider p; model := model p; credential := credential p;
                   task := task p; timeout_seconds := timeout_seconds p; max_attempts := max_attempts p;
                   max_input_bytes := max_input_bytes p; max_output_tokens := max_output_tokens p;
                   thinking_effort := thinking_effort p; schema_version := schema_version p |})
    (profiles (ai cfg)).

(** ** [str::parse::<SocketAddr>] *)

Definition read_port (s : rstr) : option (Z * rstr) :=
  s ← Media.read_char (c! ":") s; Media.read_number 10 (length s) true 65535 s.
Definition read_socket_addr_v4 (s : rstr) : option (Media.IpAddr * Z * rstr) :=
  '(ip, s) ← Media.read_ipv4 s; '(p, s) ← read_port s; Some (Media.V4 ip, p, s).
Definition read_scope_id (s : rstr) : rstr :=
  match (s' ← Media.read_char (c! "%") s; Media.read_number 10 (length s') true u32_max s') with
  | Some (_, rest) => rest
  | None => s
  end.
Definition read_socket_addr_v6 (s : rstr) : option (Media.IpAddr * Z * rstr) :=
  s ← Media.read_char (c! "[") s; '(ip, s) ← Media.read_ipv6 s;
  s ← Media.read_char (c! "]") (read_scope_id s); '(p, s) ← read_port s; Some (Media.V6 ip, p, s).
Definition parse_socket_addr (s : rstr) : option (Media.IpAddr * Z) :=
  match read_socket_addr_v4 s with
  | Some (ip, p, []) => Some (ip, p)
  | Some _ => None
  | None => match read_socket_addr_v6 s with Some (ip, p, []) => Some (ip, p) | _ => None end
  end.

Definition is_loopback (ip : Media.IpAddr) : bool :=
  match ip with Media.V4 b => Media.is_loopback_v4 b | Media.V6 b => Media.is_loopback_v6 b end.

(** ** Names *)

Definition credential_char (c : Z) : bool :=
  is_ascii_digit c || is_ascii_lower c || is_ascii_upper c || (c =? c! "-") || (c =? c! "_").
Definition valid_credential_reference (value : rstr) : bool :=
  if is_empty value || (64 <? blen value) || negb (forallb credential_char value) then false
  else match Paths.components value with [Paths.Normal _] => true | _ => false end.

(** [char::is_control]: Unicode's category Cc. *)
Definition is_control (c : Z) : bool := (c <? 32) || ((127 <=? c) && (c <=? 159)).
Definition valid_provider_sender_id (value : rstr) : bool :=
  let trimmed := trim value in
  negb (is_empty trimmed) && (blen trimmed <=? 128) && str_eqb trimmed value && negb (existsb is_control trimmed).

Definition model_supports_thinking (model : rstr) : bool :=
  let model := to_ascii_lowercase model in
  starts_with model (s! "gemini-2.5") || starts_with model (s! "gemini-3") || contains model (s! "thinking").
Definition validate_thinking_effort (model effort : rstr) : result unit AppError :=
  if str_eqb effort (s! "none") then Ok tt
  else if existsb (str_eqb effort) [s! "low"; s! "medium"; s! "high"] then
    if model_supports_thinking model then Ok tt
    else Err (config (s! "ai.profiles thinking_effort is not supported for this model"))
  else Err (config (s! "ai.profiles thinking_effort must be none, low, medium, or high")).

Section Load.
Context `{UL : UrlLib} `{TL : TomlLib}.

(** ** URLs *)

(** The test the three URL checks share: HTTPS, or HTTP to a loopback address, with
    nothing but a host and a path. *)
Definition safe_base (url : Url) : bool :=
  let is_https := str_eqb (scheme url) (s! "https") in
  let is_loopback_http :=
    str_eqb (scheme url) (s! "http")
    && match host_str url ≫= Media.parse_ip with Some ip => is_loopback ip | None => false end in
  negb ((negb is_https && negb is_loopback_http)
        || bool_decide (host_str url = None)
        || negb (is_empty (username url))
        || bool_decide (is_Some (password url))
        || bool_decide (is_Some (query url))
        || bool_decide (is_Some (fragment url))).

Definition validate_https_or_loopback (value message : rstr) : result unit AppError :=
  let? url := ok_or (url_parse value) (config message) in
  refuse_if (negb (safe_base url)) (config message).
Definition validate_storage_endpoint (value : rstr) : result unit AppError :=
  let? url := ok_or (url_parse value) (config (s! "storage.endpoint must be a valid URL")) in
  refuse_if (negb (safe_base url))
    (config (s! "storage.endpoint must use HTTPS (HTTP is allowed only for a loopback IP)")).
Definition validate_zalo_api_base (value : rstr) : result unit AppError :=
  let? url := ok_or (url_parse value) (config (s! "zalo.api_base must be a valid URL")) in
  refuse_if (negb (safe_base url))
    (config (s! "zalo.api_base must use HTTPS (HTTP is allowed only for a loopback IP)")).

(** ** [validate_extraction] *)

Definition outside (lo hi n : Z) : bool := (n <? lo) || (hi <? n).

Definition validate_profile (names : gset rstr) (p : AiProfileConfig) : result unit AppError :=
  let? _ := refuse_if (is_empty (trim (name p)) || bool_decide (name p ∈ names))
              (config (s! "ai.profiles names must be unique and non-empty")) in
  let? _ := refuse_if (negb (str_eqb (provider p) (s! "gemini")))
              (config (s! "ai.profiles provider must be gemini in the first release")) in
  let? _ := refuse_if (is_empty (trim (model p))) (config (s! "ai.profiles model must not be empty")) in
  let? _ := refuse_if (negb (valid_credential_reference (credential p)))
              (config (s! "ai.profiles credential must be a safe credential name")) in
  let? _ := refuse_if (negb (str_eqb (task p) (s! "extraction")) && negb (str_eqb (task p) (s! "insight")))
              (config (s! "ai.profiles task must be extraction or insight")) in
  let? _ := refuse_if (outside 1 120 (timeout_seconds p))
              (config (s! "ai.profiles timeout_seconds must be between 1 and 120")) in
  let? _ := refuse_if (outside 1 10 (max_attempts p))
              (config (s! "ai.profiles max_attempts must be between 1 and 10")) in
  let? _ := refuse_if (outside 1 (10 * 1024 * 1024) (max_input_bytes p))
              (config (s! "ai.profiles max_input_bytes must be between 1 and 10485760")) in
  let? _ := refuse_if (outside 1 8192 (max_output_tokens p))
              (config (s! "ai.profiles max_output_tokens must be between 1 and 8192")) in
  let? _ := validate_thinking_effort (model p) (thinking_effort p) in
  refuse_if (is_empty (trim (schema_version p))) (config (s! "ai.profiles schema_version must not be empty")).

Fixpoint validate_profiles (names : gset rstr) (ps : list AiProfileConfig) : result unit AppError :=
  match ps with
  | [] => Ok tt
  | p :: ps' => let? _ := validate_profile names p in validate_profiles ({[name p]} ∪ names) ps'
  end.

Definition validate_extraction (cfg : Config) : result unit AppError :=
  let? backend := ExtractionBackend_parse (extraction_backend (extraction cfg)) in
  let? _ := validate_https_or_loopback (extraction_api_base (extraction cfg))
              (s! "extraction.api_base must use HTTPS (HTTP is allowed only for a loopback IP)") in
  let? _ := refuse_if (is_empty (trim (default_profile (extraction cfg))))
              (config (s! "extraction.default_profile must not be empty")) in
  let? _ := validate_profiles ∅ (profiles (ai cfg)) in
  match backend with
  | Fake => Ok tt
  | Gemini =>
      let? p := ok_or (List.find (fun p => str_eqb (name p) (default_profile (extraction cfg)))
                         (profiles (ai cfg)))
                  (config (s! "extraction.default_profile must name a configured ai.profiles entry")) in
      refuse_if (negb (str_eqb (task p) (s! "extraction")) || negb (str_eqb (provider p) (s! "gemini")))
        (config (s! "extraction.default_profile must be a gemini extraction profile"))
  end.

(** ** [validate_resolved] *)

(** [as_deref().map(str::trim).unwrap_or]. *)
Definition trimmed_or_empty (o : option rstr) : rstr := default [] (trim <$> o).

Definition validate_storage (cfg : Config) (backend : StorageBackend) : result unit AppError :=
  let st := storage cfg in
  match backend with
  | Filesystem => refuse_if (is_empty (trim (storage_directory st)))
                    (config (s! "storage.directory must not be empty"))
  | S3 =>
      let? _ := refuse_if (negb (force_path_style st))
        (config (s! "storage.force_path_style must be true; virtual-hosted-style S3 is not supported")) in
      let endpoint := trimmed_or_empty (endpoint st) in
      let? _ := refuse_if (is_empty endpoint) (config (s! "storage.endpoint is required for s3 backend")) in
      let? _ := validate_storage_endpoint endpoint in
      let? _ := refuse_if (is_empty (trimmed_or_empty (bucket st)))
                  (config (s! "storage.bucket is required for s3 backend")) in
      let access_key := trimmed_or_empty (access_key_credential st) in
      let secret_key := trimmed_or_empty (secret_key_credential st) in
      let? _ := refuse_if (negb (valid_credential_reference access_key))
                  (config (s! "storage.access_key_credential must be a safe credential name")) in
      refuse_if (negb (valid_credential_reference secret_key))
        (config (s! "storage.secret_key_credential must be a safe credential name"))
  | Memory => Ok tt
  end.

(** Addresses, limits and names, up to the storage backend. *)
Definition validate_server (cfg : Config) : result unit AppError :=
  let? _ := refuse_if (bool_decide (parse_socket_addr (listen_address (server cfg)) = None))
              (config (s! "server.listen_address must be a valid IP socket address")) in
  let? _ := refuse_if (max_connections (database cfg) =? 0)
              (config (s! "database.max_connections must be greater than zero")) in
  let? _ := refuse_if (receipt_extraction (concurrency cfg) =? 0)
              (config (s! "concurrency.receipt_extraction must be greater than zero")) in
  let? _ := refuse_if (outbound_delivery (concurrency cfg) =? 0)
              (config (s! "concurrency.outbound_delivery must be greater than zero")) in
  let? _ := refuse_if (outside 1 30 (original_receipt_days (retention cfg)))
              (config (s! "retention.original_receipt_days must be between 1 and 30")) in
  let? _ := refuse_if (negb (valid_credential_reference (url_credential (database cfg))))
              (config (s! "database.url_credential must be a safe credential name")) in
  let? _ := refuse_if (negb (valid_credential_reference (bot_token_credential (zalo cfg))))
              (config (s! "zalo.bot_token_credential must be a safe credential name")) in
  let? _ := refuse_if (negb (valid_credential_reference (webhook_secret_credential (zalo cfg))))
              (config (s! "zalo.webhook_secret_credential must be a safe credential name")) in
  let? _ := refuse_if (is_empty (trim (credentials_directory (credentials cfg))))
              (config (s! "credentials.directory must not be empty")) in
  let? _ := refuse_if (existsb (fun v => negb (valid_provider_sender_id v)) (allowed_provider_sender_ids (access cfg)))
              (config (s! "access.allowed_provider_sender_ids contains an invalid identifier")) in
  let? _ := validate_zalo_api_base (zalo_api_base (zalo cfg)) in
  let? _ := refuse_if (outside 1 60 (send_timeout_seconds (zalo cfg)))
              (config (s! "zalo.send_timeout_seconds must be between 1 and 60")) in
  refuse_if (outside 1 1048576 (webhook_max_body_bytes (zalo cfg)))
    (config (s! "zalo.webhook_max_body_bytes must be between 1 and 1048576")).

Definition validate_quotas (q : QuotasConfig) : result unit AppError :=
  let? _ := refuse_if (per_user_daily_receipts q =? 0)
              (config (s! "quotas.per_user_daily_receipts must be greater than zero")) in
  let? _ := refuse_if (monthly_extraction_pages q =? 0)
              (config (s! "quotas.monthly_extraction_pages must be greater than zero")) in
  let? _ := refuse_if (zalo_monthly_messages q =? 0)
              (config (s! "quotas.zalo_monthly_messages must be greater than zero")) in
  refuse_if (monthly_insight_narratives q =? 0)
    (config (s! "quotas.monthly_insight_narratives must be greater than zero")).

Definition validate_resolved (cfg : Config) : result unit AppError :=
  let? _ := validate_server cfg in
  let? backend := StorageBackend_parse (storage_backend (storage cfg)) in
  let? _ := validate_storage cfg backend in
  let? _ := refuse_if (is_empty (trim (region (storage cfg)))) (config (s! "storage.region must not be empty")) in
  let? _ := validate_extraction cfg in
  validate_quotas (quotas cfg).

(** ** [ResolvedConfig] *)

Record ResolvedConfig := {
  r_listen_address : rstr;
  r_database_url : rstr;
  r_max_connections : Z;
  r_receipt_extraction : Z;
  r_outbound_delivery : Z;
  r_original_receipt_days : Z;
  r_credentials_directory : rstr;
  r_allowed_provider_sender_ids : gset rstr;
  r_bot_token_credential : rstr;
  r_webhook_secret_credential : rstr;
  r_zalo_api_base : rstr;
  r_zalo_send_timeout_seconds : Z;
  r_webhook_max_body_bytes : Z;
  r_storage_backend : StorageBackend;
  r_storage_directory : rstr;
  r_storage_endpoint : option rstr;
  r_storage_bucket : option rstr;
  r_storage_region : rstr;
  r_storage_access_key_credential : option rstr;
  r_storage_secret_key_credential : option rstr;
  r_storage_force_path_style : bool;
  r_extraction_backend : ExtractionBackend;
  r_extraction_default_profile : rstr;
  r_gemini_api_base : rstr;
  r_ai_profiles : list ResolvedAiProfile;
  r_per_user_daily_receipts : Z;
  r_monthly_extraction_pages : Z;
  r_zalo_monthly_messages : Z;
  r_monthly_insight_narratives : Z;
  r_insights_llm_enabled : bool;
  r_extraction_enabled : bool;
  r_outbound_enabled : bool;
  r_metrics_enabled : bool;
  r_metrics_bind : rstr;
  r_update_public_keys_directory : rstr;
  r_update_install_path : rstr;
  r_update_state_directory : rstr;
  r_attribution : attribution;
}.

Definition trim_slashes (s : rstr) : rstr := trim_end_matches (Z.eqb (c! "/")) s.

(** The record [load_config] builds. *)
Definition resolved (cfg : Config) (a : attribution) (database_url : rstr) (backend : StorageBackend)
    (extractor : ExtractionBackend) : ResolvedConfig := {|
  r_listen_address := listen_address (server cfg);
  r_database_url := database_url;
  r_max_connections := max_connections (database cfg);
  r_receipt_extraction := receipt_extraction (concurrency cfg);
  r_outbound_delivery := outbound_delivery (concurrency cfg);
  r_original_receipt_days := original_receipt_days (retention cfg);
  r_credentials_directory := credentials_directory (credentials cfg);
  r_allowed_provider_sender_ids := list_to_set (allowed_provider_sender_ids (access cfg));
  r_bot_token_credential := bot_token_credential (zalo cfg);
  r_webhook_secret_credential := webhook_secret_credential (zalo cfg);
  r_zalo_api_base := trim_slashes (zalo_api_base (zalo cfg));
  r_zalo_send_timeout_seconds := send_timeout_seconds (zalo cfg);
  r_webhook_max_body_bytes := webhook_max_body_bytes (zalo cfg);
  r_storage_backend := backend;
  r_storage_directory := storage_directory (storage cfg);
  r_storage_endpoint := endpoint (storage cfg);
  r_storage_bucket := bucket (storage cfg);
  r_storage_region := region (storage cfg);
  r_storage_access_key_credential := access_key_credential (storage cfg);
  r_storage_secret_key_credential := secret_key_credential (storage cfg);
  r_storage_force_path_style := force_path_style (storage cfg);
  r_extraction_backend := extractor;
  r_extraction_default_profile := default_profile (extraction cfg);
  r_gemini_api_base := trim_slashes (extraction_api_base (extraction cfg));
  r_ai_profiles := resolve_ai_profiles cfg;
  r_per_user_daily_receipts := per_user_daily_receipts (quotas cfg);
  r_monthly_extraction_pages := monthly_extraction_pages (quotas cfg);
  r_zalo_monthly_messages := zalo_monthly_messages (quotas cfg);
  r_monthly_insight_narratives := monthly_insight_narratives (quotas cfg);
  r_insights_llm_enabled := llm_enabled (insights cfg);
  r_extraction_enabled := extraction_enabled (features cfg);
  r_outbound_enabled := outbound_enabled (features cfg);
  r_metrics_enabled := metrics_enabled (metrics cfg);
  r_metrics_bind := metrics_bind (metrics cfg);
  r_update_public_keys_directory := public_keys_directory (update cfg);
  r_update_install_path := install_path (update cfg);
  r_update_state_directory := state_directory (update cfg);
  r_attribution := a |}.

(** The process: its variables, the files it can read as UTF-8 text, and whether
    [PgConnectOptions::from_str] accepts a URL. *)
Record host := {
  h_env : environment;
  h_read : rstr -> option rstr;
  h_pg_url : rstr -> bool;
}.

Definition resolve_database_url (h : host) (cfg : Config) : result rstr AppError :=
  match h_env h (s! "TEST_DATABASE_URL") with
  | Some url => Ok url
  | None =>
      match h_env h (s! "ZL_EXPENSE_DATABASE_URL") with
      | Some url => Ok url
      | None =>
          let? contents :=
            ok_or (h_read h (Paths.path_join (credentials_directory (credentials cfg)) (url_credential (database cfg))))
              (config (s! "database credential reference '" ++ url_credential (database cfg)
                       ++ s! "' not found at expected path")) in
          let url := trim contents in
          let? _ := refuse_if (is_empty url) (config (s! "database credential file is empty")) in
          Ok url
      end
  end.

(** Defaults, then the file. *)
Definition load_file (h : host) (config_path : option rstr) : result (Config * attribution) AppError :=
  let a := record_default_sources ∅ in
  match config_path with
  | None => Ok (default_config, a)
  | Some path =>
      let? contents := ok_or (h_read h path) (config (s! "failed to read config file")) in
      let? document := ok_or (toml_parse contents) (config (s! "invalid config TOML")) in
      let? file_cfg := ok_or (toml_parse contents ≫= de_config) (config (s! "invalid config TOML")) in
      Ok (merge_config default_config file_cfg, record_file_sources file_cfg document a)
  end.

Definition load_config (h : host) (config_path : option rstr) : result ResolvedConfig AppError :=
  let? layered := load_file h config_path in
  let? final := apply_env_overrides (h_env h) layered.1 layered.2 in
  let cfg := final.1 in
  let? _ := validate_resolved cfg in
  let? database_url := resolve_database_url h cfg in
  let? _ := refuse_if (negb (h_pg_url h database_url))
              (config (s! "database credential is not a valid PostgreSQL URL")) in
  let? backend := StorageBackend_parse (storage_backend (storage cfg)) in
  let? extractor := ExtractionBackend_parse (extraction_backend (extraction cfg)) in
  Ok (resolved cfg final.2 database_url backend extractor).

(** [validate.rs]. *)
Definition validate_config (h : host) (config_path : option rstr) : result unit AppError :=
  let? _ := load_config h config_path in Ok tt.

(** ** Methods of [ResolvedConfig] *)

Definition is_provider_sender_allowed (r : ResolvedConfig) (id : rstr) : bool :=
  bool_decide (id ∈ r_allowed_provider_sender_ids r).

Definition read_credential (h : host) (r : ResolvedConfig) (reference : rstr) : result rstr AppError :=
  let unavailable := config (s! "required credential is unavailable") in
  let? _ := refuse_if (negb (valid_credential_reference reference)) unavailable in
  let? value := ok_or (h_read h (Paths.path_join (r_credentials_directory r) reference)) unavailable in
  let value := trim value in
  let? _ := refuse_if (is_empty value) unavailable in
  Ok value.
Definition read_zalo_bot_token (h : host) (r : ResolvedConfig) : result rstr AppError :=
  read_credential h r (r_bot_token_credential r).
Definition read_webhook_secret (h : host) (r : ResolvedConfig) : result rstr AppError :=
  read_credential h r (r_webhook_secret_credential r).
Definition read_storage_access_key (h : host) (r : ResolvedConfig) : result rstr AppError :=
  let? reference := ok_or (r_storage_access_key_credential r)
                      (config (s! "storage access key credential is unavailable")) in
  read_credential h r reference.
Definition read_storage_secret_key (h : host) (r : ResolvedConfig) : result rstr AppError :=
  let? reference := ok_or (r_storage_secret_key_credential r)
                      (config (s! "storage secret key credential is unavailable")) in
  read_credential h r reference.
Definition read_named_credential : host -> ResolvedConfig -> rstr -> result rstr AppError := read_credential.
Definition extraction_profile (r : ResolvedConfig) (wanted : rstr) : option ResolvedAiProfile :=
  List.find (fun p => str_eqb (name p) wanted) (r_ai_profiles r).

(** [show_json]: the attribution in the order of its keys, through the pretty printer. *)
Definition source_text (s : ConfigSource) : rstr :=
  match s with Default => s! "default" | File => s! "file" | Env => s! "env" end.
Definition show_value (v : ResolvedValue) : Work.json :=
  Work.JObject [(s! "value", value v); (s! "source", Work.JString (source_text (source v)))].
Definition key_order (p q : rstr * Work.json) : Prop := str_le p.1 q.1 = true.
#[local] Instance key_order_dec p q : Decision (key_order p q).
Proof. unfold key_order. apply _. Defined.
Definition show_json (to_string_pretty : Work.json -> rstr) (r : ResolvedConfig) : rstr :=
  to_string_pretty (Work.JObject
    (merge_sort key_order (map (fun p => (p.1, show_value p.2)) (map_to_list (r_attribution r))))).

(** [Debug]: the fields in order; [DbgText] is written without quotes. *)
Inductive debug_value :=
| DbgString (s : rstr) | DbgInt (z : Z) | DbgBool (b : bool) | DbgOption (o : option rstr) | DbgText (s : rstr)
| DbgStorage (b : StorageBackend) | DbgExtraction (b : ExtractionBackend) | DbgAttribution (a : attribution).
Definition debug_fields (r : ResolvedConfig) : list (rstr * debug_value) :=
  [(s! "listen_address", DbgString (r_listen_address r));
   (s! "database_url", DbgString REDACTED);
   (s! "max_connections", DbgInt (r_max_connections r));
   (s! "receipt_extraction", DbgInt (r_receipt_extraction r));
   (s! "outbound_delivery", DbgInt (r_outbound_delivery r));
   (s! "original_receipt_days", DbgInt (r_original_receipt_days r));
   (s! "credentials_directory", DbgString (r_credentials_directory r));
   (s! "allowed_provider_sender_ids",
    DbgText (s! "[REDACTED; " ++ dec (Z.of_nat (size (r_allowed_provider_sender_ids r))) ++ s! " entries]"));
   (s! "bot_token_credential", DbgString (r_bot_token_credential r));
   (s! "webhook_secret_credential", DbgString (r_webhook_secret_credential r));
   (s! "zalo_api_base", DbgString (r_zalo_api_base r));
   (s! "zalo_send_timeout_seconds", DbgInt (r_zalo_send_timeout_seconds r));
   (s! "webhook_max_body_bytes", DbgInt (r_webhook_max_body_bytes r));
   (s! "storage_backend", DbgStorage (r_storage_backend r));
   (s! "storage_directory", DbgString (r_storage_directory r));
   (s! "storage_endpoint",
    DbgString (match r_storage_endpoint r with Some _ => REDACTED | None => s! "[unset]" end));
   (s! "storage_bucket", DbgOption (r_storage_bucket r));
   (s! "storage_region", DbgString (r_storage_region r));
   (s! "storage_access_key_credential", DbgOption (r_storage_access_key_credential r));
   (s! "storage_secret_key_credential", DbgOption (r_storage_secret_key_credential r));
   (s! "storage_force_path_style", DbgBool (r_storage_force_path_style r));
   (s! "extraction_backend", DbgExtraction (r_extraction_backend r));
   (s! "extraction_default_profile", DbgString (r_extraction_default_profile r));
   (s! "gemini_api_base", DbgString (r_gemini_api_base r));
   (s! "ai_profiles", DbgText (s! "[" ++ dec (Z.of_nat (length (r_ai_profiles r))) ++ s! " profiles]"));
   (s! "per_user_daily_receipts", DbgInt (r_per_user_daily_receipts r));
   (s! "monthly_extraction_pages", DbgInt (r_monthly_extraction_pages r));
   (s! "zalo_monthly_messages", DbgInt (r_zalo_monthly_messages r));
   (s! "monthly_insight_narratives", DbgInt (r_monthly_insight_narratives r));
   (s! "insights_llm_enabled", DbgBool (r_insights_llm_enabled r));
   (s! "extraction_enabled", DbgBool (r_extraction_enabled r));
   (s! "outbound_enabled", DbgBool (r_outbound_enabled r));
   (s! "metrics_enabled", DbgBool (r_metrics_enabled r));
   (s! "metrics_bind", DbgString (r_metrics_bind r));
   (s! "update_public_keys_directory", DbgString (r_update_public_keys_directory r));
   (s! "update_install_path", DbgString (r_update_install_path r));
   (s! "update_state_directory", DbgString (r_update_state_directory r));
   (s! "attribution", DbgAttribution (r_attribution r))].

(** [IngressPolicy::from_config]. *)
Definition from_config (r : ResolvedConfig) : Insight.IngressPolicy := {|
  Insight.per_user_daily_receipts := r_per_user_daily_receipts r;
  Insight.outbound_enabled := r_outbound_enabled r;
  Insight.zalo_monthly_messages := r_zalo_monthly_messages r;
  Insight.insights_llm_enabled := r_insights_llm_enabled r;
  Insight.monthly_insight_narratives := r_monthly_insight_narratives r |}.

End Load.

End ConfigLoad.
