(* ===== verification/Update.v ===== *)
(** * Signed updates ([src/src/update/mod.rs], [src/src/operator/backup.rs], [src/src/db/migrate.rs])

    The machine is its files, the database with its migration table, what has been printed
    and the outcomes of the calls still to come: each call takes one outcome, so every call
    may fail, having done part of its work.  File modes are not modelled. *)

From S2P Require Import Prelude RustStr RustStrFacts Platform Errors Paths ConfigTypes Work ReceiptTypes Provider.
From S2P Require Import Receipt Database Extractors FsStore S3Store ConfigLoad Insight.

(** ** [ed25519_dalek], [sqlx::migrate], the PostgreSQL tools, and [to_vec_pretty] *)

Class Ed25519 := {
  VerifyingKey : Type;
  key_from_bytes : list Z -> option VerifyingKey;
  verify : VerifyingKey -> list Z -> list Z -> bool;      (* message, signature *)
}.

(** [_sqlx_migrations]: version and [success]; [None] before the table exists. *)
Abbreviation migration_table := (option (list (Z * bool))).
(** [Migrator::run]; an outside failure may come after some of the migrations. *)
Class SqlxMigrate := { migrator_run : option nat -> migration_table -> migration_table * bool }.

Class PgTools := {
  pg_dump : rstr -> migration_table * Db.db -> list Z;
  pg_restore : rstr -> list Z -> migration_table * Db.db -> (migration_table * Db.db) * bool;
}.

Class SerdePretty := { json_to_vec_pretty : Work.json -> list Z }.

Module Update.
Import Paths FsStore ConfigLoad Errors.AppError.
Import Work (json(..)).

(** ** The machine *)

(** A call works, or breaks with some of its directories made and some bytes written. *)
Inductive outcome := Works | Breaks (dirs : nat) (left_behind : option (list Z)).
Inductive line := Stdout (text : rstr) | Stderr (text : rstr).
Record machine := {
  files : fs;
  applied : migration_table;
  tables : Db.db;
  printed : list line;
  outcomes : list outcome;
}.
Abbreviation upd := (prog machine AppError).

Definition breaks (o : outcome) : bool := match o with Works => false | Breaks _ _ => true end.
Definition stop_of (o : outcome) : option nat := match o with Works => None | Breaks n _ => Some n end.
Definition fault_of (o : outcome) : option write_fault :=
  match o with Works => None | Breaks _ part => Some (WriteFails part) end.

(** One call on the files, [error] if it fails; and one on the database. *)
Definition file_call {A} (op : outcome -> fs -> fs * option A) (error : AppError) : upd A := fun m =>
  let o := hd Works (outcomes m) in
  let '(f, r) := op o (files m) in
  ({| files := f; applied := applied m; tables := tables m; printed := printed m; outcomes := tl (outcomes m) |},
   ok_or r error).
Definition db_call {A} (op : outcome -> migration_table -> migration_table * option A) (error : AppError) : upd A := fun m =>
  let o := hd Works (outcomes m) in
  let '(t, r) := op o (applied m) in
  ({| files := files m; applied := t; tables := tables m; printed := printed m; outcomes := tl (outcomes m) |},
   ok_or r error).
Definition print (l : line) : upd unit := fun m =>
  ({| files := files m; applied := applied m; tables := tables m; printed := printed m ++ [l]; outcomes := outcomes m |},
   Ok tt).
Definition println (text : rstr) : upd unit := print (Stdout text).
Definition eprintln (text : rstr) : upd unit := print (Stderr text).

Definition done_if (ok : bool) : option unit := if ok then Some tt else None.

(** *** [std::fs] and [std::path] *)

Definition read_op (p : path) (o : outcome) (f : fs) : fs * option (list Z) :=
  (f, match FsStore.read f p (breaks o) with Ok bytes => Some bytes | Err _ => None end).
Definition create_dir_op (p : path) (o : outcome) (f : fs) : fs * option unit :=
  let '(f', ok) := create_dir_all f p (stop_of o) in (f', done_if ok).
Definition write_op (p : path) (bytes : list Z) (o : outcome) (f : fs) : fs * option unit :=
  let '(f', ok) := FsStore.write f p bytes (fault_of o) in (f', done_if ok).
(** [fs::copy] opens the source, then truncates the destination. *)
Definition copy_op (src dst : path) (o : outcome) (f : fs) : fs * option unit :=
  match f !! src with
  | Some (FileNode bytes) => write_op dst (if bool_decide (src = dst) then [] else bytes) o f
  | _ => (f, None)
  end.
Definition rename_op (src dst : path) (o : outcome) (f : fs) : fs * option unit :=
  let '(f', ok) := FsStore.rename f src dst (breaks o) in (f', done_if ok).
Definition set_permissions_op (p : path) (o : outcome) (f : fs) : fs * option unit :=
  (f, if breaks o then None else const tt <$> f !! p).
(** [Path::exists], [Path::is_dir]: an error is [false]. *)
Definition exists_op (p : path) (o : outcome) (f : fs) : fs * option bool :=
  (f, Some (negb (breaks o) && negb (bool_decide (p = [])) && bool_decide (is_Some (f !! p)))).
Definition is_dir_op (p : path) (o : outcome) (f : fs) : fs * option bool :=
  (f, Some (negb (breaks o) && negb (bool_decide (p = [])) && is_dir f p)).

Definition never : AppError := internal [].
Definition fs_read (p : path) (e : AppError) : upd (list Z) := file_call (read_op p) e.
Definition path_exists (p : path) : upd bool := file_call (exists_op p) never.
Definition path_is_dir (p : path) : upd bool := file_call (is_dir_op p) never.

(** [Path::parent]. *)
Definition parent (p : path) : option path :=
  match rev p with [] | [RootDir] => None | _ :: up => Some (rev up) end.

(** [Path::with_extension] on the last name. *)
Fixpoint last_dot (name : rstr) : option (rstr * rstr) :=
  match name with
  | [] => None
  | c :: name' =>
      match last_dot name' with
      | Some (before, after) => Some (c :: before, after)
      | None => if c =? c! "." then Some ([], name') else None
      end
  end.
Definition file_stem (name : rstr) : rstr :=
  match last_dot name with Some ([], _) | None => name | Some (before, _) => before end.
Definition with_extension (p : path) (ext : rstr) : path :=
  match rev p with
  | Normal name :: up => rev (Normal (file_stem name ++ s! "." ++ ext) :: up)
  | _ => p
  end.

(** The plain files of a directory, in the order of their names. *)
Definition file_in (dir p : path) : option rstr :=
  match rev p with
  | Normal name :: up => if bool_decide (rev up = dir) then Some name else None
  | _ => None
  end.
Definition name_order (a b : rstr) : Prop := str_le a b = true.
#[export] Instance name_order_dec a b : Decision (name_order a b).
Proof. unfold name_order. apply _. Defined.
Definition read_dir_op (dir : path) (o : outcome) (f : fs) : fs * option (list path) :=
  (f, if breaks o then None
      else Some (map (fun name => dir ++ [Normal name])
             (merge_sort name_order
                (omap (fun e => match e.2 with FileNode _ => file_in dir e.1 | DirNode => None end)
                   (map_to_list f))))).

(** ** [db/migrate.rs] *)

(** The files of [migrations/]. *)
Definition MIGRATOR_LEN : Z := 11.

Section Migrate.
Context {SM : SqlxMigrate}.

Definition connect (error : AppError) : upd unit :=
  db_call (fun o t => (t, done_if (negb (breaks o)))) error.
Definition create_pool : upd unit := connect (dependency (s! "database connection failed")).
Definition check_connection : upd unit := connect (dependency (s! "database connection failed")).

Definition migrate : upd unit :=
  db_call (fun o t => let '(t', ok) := migrator_run (stop_of o) t in (t', done_if (ok && negb (breaks o))))
    (migration (s! "migration failed")).

Definition check_migrations_current : upd bool :=
  let% applied := db_call (fun o t => (t, if breaks o then None
                                          else Some (match t with
                                                     | Some rows => Some (Z.of_nat (length rows))
                                                     | None => None           (* 42P01 *)
                                                     end)))
                    (dependency (s! "failed to read migration state")) in
  match applied with
  | None => p_ret false
  | Some applied => p_ret (MIGRATOR_LEN <=? applied)
  end.

End Migrate.

Definition current_database_schema : upd Z :=
  db_call (fun o t => (t, if breaks o then None
                          else rows ← t; Some (Z.of_nat (length (List.filter snd rows)))))
    (dependency (s! "failed to read applied migration count")).

(** ** [operator/backup.rs] *)

Section Backup.
Context {PG : PgTools}.

(** [pg_dump]: its outcome says whether it starts, and what a failed run leaves. *)
Definition pg_dump_run (url : rstr) (output : path) : upd bool := fun m =>
  let o := hd Works (outcomes m) in
  let m' f := {| files := f; applied := applied m; tables := tables m; printed := printed m;
                 outcomes := tl (outcomes m) |} in
  match o with
  | Works => let '(f, ok) := FsStore.write (files m) output (pg_dump url (applied m, tables m)) None in (m' f, Ok ok)
  | Breaks _ None => (m' (files m), Err (dependency (s! "pg_dump unavailable")))
  | Breaks _ (Some part) => (m' (FsStore.write (files m) output part None).1, Ok false)
  end.

Definition run_backup (config : ResolvedConfig) (output_path : rstr) : upd unit :=
  if is_empty output_path then p_err (usage (s! "backup output path must not be empty"))
  else
  let output := components output_path in
  let% _ := match parent output with
            | Some (c :: up) =>
                file_call (create_dir_op (c :: up)) (dependency (s! "failed to create backup parent directory"))
            | _ => p_ret tt
            end in
  let% success := pg_dump_run (r_database_url config) output in
  if success then println (s! "backup written to " ++ output_path) else p_err (dependency (s! "pg_dump failed")).

Definition pg_restore_run (url : rstr) (input : path) : upd bool := fun m =>
  let o := hd Works (outcomes m) in
  let m' t := {| files := files m; applied := t.1; tables := t.2; printed := printed m;
                 outcomes := tl (outcomes m) |} in
  let before := (applied m, tables m) in
  match o, files m !! input with
  | Breaks _ None, _ => (m' before, Err (dependency (s! "pg_restore unavailable")))
  | Works, Some (FileNode bytes) => let '(t, ok) := pg_restore url bytes before in (m' t, Ok ok)
  | _, _ => (m' before, Ok false)
  end.

Definition run_restore (config : ResolvedConfig) (input : rstr) (yes : bool) : upd unit :=
  if negb yes then p_err (usage (s! "restore requires --yes"))
  else
  let% present := path_exists (components input) in
  if negb present then p_err (usage (s! "restore input file does not exist"))
  else
  let% success := pg_restore_run (r_database_url config) (components input) in
  if success then println (s! "restore completed from " ++ input) else p_err (dependency (s! "pg_restore failed")).

End Backup.

(** ** The data *)

Definition PREVIOUS_BINARY : rstr := s! "previous-binary".
Definition PREVIOUS_METADATA : rstr := s! "previous.json".
Definition CURRENT_METADATA : rstr := s! "current.json".
Definition BACKUP_NAME : rstr := s! "pre-update.dump".

Record UpdateMetadata := {
  package_version : rstr;
  schema_version : Z;
  min_runtime_schema : Z;
  max_runtime_schema : Z;
  md_sha256 : rstr;
  arch : rstr;
}.
Definition METADATA_FIELDS : list rstr :=
  [s! "package_version"; s! "schema_version"; s! "min_runtime_schema"; s! "max_runtime_schema"; s! "sha256"; s! "arch"].
Definition metadata_to_json (md : UpdateMetadata) : json := JObject
  [(s! "package_version", JString (package_version md)); (s! "schema_version", JInt (schema_version md));
   (s! "min_runtime_schema", JInt (min_runtime_schema md)); (s! "max_runtime_schema", JInt (max_runtime_schema md));
   (s! "sha256", JString (md_sha256 md)); (s! "arch", JString (arch md))].
Definition metadata_from_json (v : json) : option UpdateMetadata :=
  fs ← Provider.struct_from_slice METADATA_FIELDS v;
  match fs with
  | [Some a; Some b; Some c; Some d; Some e; Some f] =>
      package ← Provider.de_string a; schema ← Provider.de_i64 b; lo ← Provider.de_i64 c; hi ← Provider.de_i64 d;
      sha ← Provider.de_string e; arch ← Provider.de_string f;
      Some {| package_version := package; schema_version := schema; min_runtime_schema := lo;
              max_runtime_schema := hi; md_sha256 := sha; arch := arch |}
  | _ => None
  end.

Record UpdatePaths := {
  artifact : rstr;
  metadata : rstr;
  signature : rstr;
  public_keys : list rstr;
  public_keys_directory : rstr;
  install_path : rstr;
  state_dir : rstr;
}.

Record ApplyOptions := {
  yes : bool;
  skip_backup : bool;
  skip_migrate : bool;
  skip_health : bool;
  health_url : option rstr;
}.

Definition state_file (paths : UpdatePaths) (name : rstr) : path := components (path_join (state_dir paths) name).

Definition current_binary_schema_version : Z := if MIGRATOR_LEN <=? i64_max then MIGRATOR_LEN else 0.

Definition rollback_permitted (database_schema : Z) (previous : UpdateMetadata) : bool :=
  (min_runtime_schema previous <=? database_schema) && (database_schema <=? max_runtime_schema previous).

Definition check_schema_preflight (db_schema : Z) (md : UpdateMetadata) : result unit AppError :=
  let? _ := refuse_if (db_schema <? min_runtime_schema md)
              (preflight (s! "database schema " ++ dec_signed db_schema ++ s! " is older than binary min "
                          ++ dec_signed (min_runtime_schema md))) in
  refuse_if (schema_version md <? db_schema)
    (preflight (s! "database schema " ++ dec_signed db_schema ++ s! " is newer than this package ("
                ++ dec_signed (schema_version md) ++ s! ")")).

(** [hex::decode]. *)
Definition hex_nibble (c : Z) : option Z :=
  if (48 <=? c) && (c <=? 57) then Some (c - 48)
  else if (97 <=? c) && (c <=? 102) then Some (c - 87)
  else if (65 <=? c) && (c <=? 70) then Some (c - 55)
  else None.
Fixpoint hex_decode (s : rstr) : option (list Z) :=
  match s with
  | [] => Some []
  | [_] => None
  | a :: b :: s' => x ← hex_nibble a; y ← hex_nibble b; rest ← hex_decode s'; Some (16 * x + y :: rest)
  end.

(** ** [update/mod.rs] *)

Section Update.
Context {ED : Ed25519} {SM : SqlxMigrate} {PG : PgTools} {SP : SerdeParse} {SPr : SerdePretty} {SH : Sha256}.
(** [std::env::consts::ARCH], and what an HTTP GET of a URL gives. *)
Context (ARCH : rstr).
Inductive health_answer := NoClient | NoResponse | Status (code : Z).
Context (http_get : rstr -> health_answer).

Definition decode_hex (text : rstr) : result (list Z) AppError :=
  ok_or (hex_decode (trim text)) (preflight (s! "value is not valid hex")).
Definition array_of (n : nat) (bytes : list Z) (error : AppError) : result (list Z) AppError :=
  if (length bytes =? n)%nat then Ok bytes else Err error.
Definition parse_public_key (text : rstr) : result VerifyingKey AppError :=
  let? bytes := decode_hex text in
  let? raw := array_of 32 bytes (preflight (s! "update public key must be 32 bytes")) in
  ok_or (key_from_bytes raw) (preflight (s! "update public key is invalid")).
Definition parse_signature (bytes : list Z) : result (list Z) AppError :=
  let? text := ok_or (Extractors.from_utf8 bytes) (preflight (s! "update signature must be hex text")) in
  let? decoded := decode_hex (trim text) in
  array_of 64 decoded (preflight (s! "update signature must be 64 bytes")).

Fixpoint read_keys (ps : list path) : upd (list VerifyingKey) :=
  match ps with
  | [] => p_ret []
  | p :: ps' =>
      let unreadable := preflight (s! "update public key file is unreadable") in
      let% bytes := fs_read p unreadable in
      let% text := p_read (fun _ => ok_or (Extractors.from_utf8 bytes) unreadable) in
      let% key := p_read (fun _ => parse_public_key (trim text)) in
      let% keys := read_keys ps' in
      p_ret (key :: keys)
  end.
Definition load_public_keys (paths : UpdatePaths) : upd (list VerifyingKey) :=
  let directory := components (public_keys_directory paths) in
  let% is_directory := path_is_dir directory in
  let% entries :=
    if is_directory
    then file_call (read_dir_op directory) (preflight (s! "update public keys directory is unreadable"))
    else p_ret [] in
  read_keys (map components (public_keys paths) ++ entries).

(** What follows the reads. *)
Definition check_artifact (keys : list VerifyingKey) (metadata_bytes signature_bytes artifact_bytes : list Z)
    : result UpdateMetadata AppError :=
  let? _ := refuse_if (length keys =? 0)%nat (preflight (s! "no update public keys configured")) in
  let? sig := parse_signature signature_bytes in
  let? _ := refuse_if (negb (existsb (fun key => verify key metadata_bytes sig) keys))
              (preflight (s! "update signature verification failed")) in
  let? md := ok_or (json_from_slice metadata_bytes ≫= metadata_from_json)
               (preflight (s! "update metadata is not valid JSON")) in
  let? _ := refuse_if (negb (eq_ignore_ascii_case (S3Store.hex_encode (sha256 artifact_bytes)) (trim (md_sha256 md))))
              (preflight (s! "artifact checksum does not match metadata")) in
  let? _ := refuse_if ((max_runtime_schema md <? min_runtime_schema md) || (schema_version md <? min_runtime_schema md))
              (preflight (s! "update metadata schema compatibility range is invalid")) in
  Ok md.
Definition verify_artifact (paths : UpdatePaths) : upd UpdateMetadata :=
  let% metadata_bytes := fs_read (components (metadata paths)) (preflight (s! "update metadata file is unreadable")) in
  let% signature_bytes := fs_read (components (signature paths)) (preflight (s! "update signature file is unreadable")) in
  let% artifact_bytes := fs_read (components (artifact paths)) (preflight (s! "update artifact is unreadable")) in
  let% keys := load_public_keys paths in
  p_read (fun _ => check_artifact keys metadata_bytes signature_bytes artifact_bytes).

Definition run_preflight (paths : UpdatePaths) : upd UpdateMetadata :=
  let% md := verify_artifact paths in
  let% db_schema := current_database_schema in
  let% _ := p_read (fun _ => check_schema_preflight db_schema md) in
  let% _ := println (s! "preflight ok package_version=" ++ package_version md ++ s! " artifact_sha256=" ++ md_sha256 md
                     ++ s! " db_schema=" ++ dec_signed db_schema ++ s! " target_schema=" ++ dec_signed (schema_version md)) in
  p_ret md.

Definition create_parent (dest : path) : upd unit :=
  match parent dest with
  | Some [] | None => p_ret tt
  | Some up => file_call (create_dir_op up) (dependency (s! "failed to create install directory"))
  end.
Definition atomic_replace (src dest : path) : upd unit :=
  let% _ := create_parent dest in
  let tmp := with_extension dest (s! "tmp-update") in
  let% _ := file_call (copy_op src tmp) (dependency (s! "failed to stage update binary")) in
  let% _ := file_call (set_permissions_op tmp) (permission (s! "failed to set update binary mode")) in
  file_call (rename_op tmp dest) (dependency (s! "failed to replace installed binary")).

(** [File::create], then [write_all]; the metadata always serializes. *)
Definition write_json (p : path) (md : UpdateMetadata) : upd unit :=
  let% _ := file_call (write_op p []) (dependency (s! "failed to write update metadata")) in
  file_call (write_op p (json_to_vec_pretty (metadata_to_json md))) (dependency (s! "failed to write update metadata")).

Definition sha256_file (p : path) : upd rstr :=
  let% bytes := fs_read p (dependency (s! "failed to hash installed binary")) in
  p_ret (S3Store.hex_encode (sha256 bytes)).

Definition blocked (database_schema : Z) (previous : UpdateMetadata) (paths : UpdatePaths) : AppError :=
  conflict (s! "rollback blocked: database schema " ++ dec_signed database_schema
            ++ s! " is outside previous binary range " ++ dec_signed (min_runtime_schema previous) ++ s! "-"
            ++ dec_signed (max_runtime_schema previous) ++ s! "; restore from "
            ++ path_join (state_dir paths) BACKUP_NAME).
Definition restore_previous (paths : UpdatePaths) (database_schema : Z) : upd unit :=
  let previous_binary := state_file paths PREVIOUS_BINARY in
  let% present := path_exists previous_binary in
  if negb present then p_err (conflict (s! "no previous binary is available; restore from backup"))
  else
  let previous_meta_path := state_file paths PREVIOUS_METADATA in
  let% present := path_exists previous_meta_path in
  if negb present then p_err (conflict (s! "previous metadata missing; restore from backup"))
  else
  let% bytes := fs_read previous_meta_path (dependency (s! "failed to read previous update metadata")) in
  let% previous := p_read (fun _ => ok_or (json_from_slice bytes ≫= metadata_from_json)
                                      (dependency (s! "previous update metadata is invalid"))) in
  if negb (rollback_permitted database_schema previous) then p_err (blocked database_schema previous paths)
  else
  let% _ := atomic_replace previous_binary (components (install_path paths)) in
  write_json (state_file paths CURRENT_METADATA) previous.

Definition run_rollback (paths : UpdatePaths) (yes : bool) (database_schema : Z) : upd unit :=
  if negb yes then p_err (usage (s! "update rollback requires --yes"))
  else
  let% _ := restore_previous paths database_schema in
  println (s! "rollback restored previous binary to " ++ install_path paths).

Definition verify_health (url : rstr) : result unit AppError :=
  match http_get url with
  | NoClient => Err (dependency (s! "health client unavailable"))
  | NoResponse => Err (health (s! "post-update health request failed"))
  | Status code => if (200 <=? code) && (code <? 300) then Ok tt
                   else Err (health (s! "post-update health returned " ++ dec_signed code))
  end.

(** The binary in place and its metadata, kept for a rollback. *)
Definition CARGO_PKG_VERSION : rstr := s! "0.1.0".
Definition own_metadata (sha : rstr) : UpdateMetadata :=
  {| package_version := CARGO_PKG_VERSION; schema_version := current_binary_schema_version;
     min_runtime_schema := current_binary_schema_version; max_runtime_schema := current_binary_schema_version;
     md_sha256 := sha; arch := ARCH |}.
Definition snapshot_current (paths : UpdatePaths) : upd unit :=
  let install := components (install_path paths) in
  let% present := path_exists install in
  if negb present then p_ret tt
  else
  let% _ := file_call (copy_op install (state_file paths PREVIOUS_BINARY))
              (dependency (s! "failed to snapshot current binary")) in
  p_try (fs_read (state_file paths CURRENT_METADATA) never) (fun current =>
    match current with
    | Ok current_meta =>
        file_call (write_op (state_file paths PREVIOUS_METADATA) current_meta)
          (dependency (s! "failed to snapshot current metadata"))
    | Err _ =>
        let% sha := sha256_file install in
        write_json (state_file paths PREVIOUS_METADATA) (own_metadata sha)
    end).

Definition default_health_url (config : ResolvedConfig) : rstr :=
  s! "http://" ++ Provider.replace (r_listen_address config) (s! "0.0.0.0") (s! "127.0.0.1") ++ s! "/health/ready".
Definition RESTORED : AppError := health (s! "health check failed after update; previous binary restored").

Definition announce (paths : UpdatePaths) (md : UpdateMetadata) : upd unit :=
  println (s! "update applied package_version=" ++ package_version md ++ s! " install_path=" ++ install_path paths).

(** After the installation: health, and the way back. *)
Definition confirm_or_restore (config : ResolvedConfig) (paths : UpdatePaths) (options : ApplyOptions) (db_schema : Z)
    (md : UpdateMetadata) : upd unit :=
  match verify_health (default (default_health_url config) (health_url options)) with
  | Ok _ => announce paths md
  | Err error =>
      p_try current_database_schema (fun after =>
        let db_schema_after := match after with Ok n => n | Err _ => db_schema end in
        p_try (restore_previous paths db_schema_after) (fun restored =>
          match restored with
          | Err rollback_error =>
              p_err (health (s! "health check failed after update (" ++ message error ++ s! "); rollback blocked: "
                             ++ message rollback_error))
          | Ok _ => p_err RESTORED
          end))
  end.

(** From the replacement on. *)
Definition install_artifact (config : ResolvedConfig) (paths : UpdatePaths) (options : ApplyOptions) (db_schema : Z)
    (md : UpdateMetadata) : upd unit :=
  let% _ := atomic_replace (components (artifact paths)) (components (install_path paths)) in
  let% _ := write_json (state_file paths CURRENT_METADATA) md in
  let% _ := if skip_migrate options then p_ret tt else migrate in
  if skip_health options then announce paths md else confirm_or_restore config paths options db_schema md.

Definition run_apply (config : ResolvedConfig) (paths : UpdatePaths) (options : ApplyOptions) : upd unit :=
  if negb (yes options) then p_err (usage (s! "update apply requires --yes"))
  else
  let% md := verify_artifact paths in
  let% db_schema := current_database_schema in
  let% _ := p_read (fun _ => check_schema_preflight db_schema md) in
  let% _ := file_call (create_dir_op (components (state_dir paths)))
              (dependency (s! "failed to create update state directory")) in
  let% _ := if skip_backup options then p_ret tt
            else run_backup config (path_join (state_dir paths) BACKUP_NAME) in
  let% _ := snapshot_current paths in
  install_artifact config paths options db_schema md.

(** [cli.rs], [update_paths]. *)
Definition update_paths (config : ResolvedConfig) (artifact metadata signature : rstr) (public_key : list rstr)
    (install state : option rstr) : UpdatePaths :=
  {| artifact := artifact; metadata := metadata; signature := signature; public_keys := public_key;
     public_keys_directory := r_update_public_keys_directory config;
     install_path := default (r_update_install_path config) install;
     state_dir := default (r_update_state_directory config) state |}.

End Update.

End Update.
