(* ===== verification/AccountProps.v ===== *)
(** * Exports and job payloads read back what was written

    A reader of comma-separated values after RFC 4180, and the round trips of the CSV
    export and of the payloads of jobs. *)

From S2P Require Import Prelude RustStr RustStrFacts Platform Errors Work Quota Schedule ReceiptTypes Receipt.
From S2P Require Import Database Insight Account Scheduler Jobs.
Import Db.

(** ** Reading comma-separated values *)

Inductive csv_state := FieldStart | Plain | Quoted | QuoteSeen.

(** One character at a time: the field so far, the record so far, the records so far.
    A quoted field ends at a quote that is not doubled. *)
Fixpoint csv_read (st : csv_state) (field : rstr) (record : list rstr) (records : list (list rstr)) (s : rstr)
    : option (list (list rstr)) :=
  let close := csv_read FieldStart [] in
  match s with
  | [] => match st, field, record with FieldStart, [], [] => Some records | _, _, _ => None end
  | c :: s' =>
      match st with
      | Quoted => if c =? 34 then csv_read QuoteSeen field record records s'
                  else csv_read Quoted (field ++ [c]) record records s'
      | _ =>
          if c =? 44 then close (record ++ [field]) records s'
          else if c =? 10 then close [] (records ++ [record ++ [field]]) s'
          else match st with
               | FieldStart => if c =? 34 then csv_read Quoted [] record records s'
                               else csv_read Plain [c] record records s'
               | Plain => if c =? 34 then None else csv_read Plain (field ++ [c]) record records s'
               | _ => if c =? 34 then csv_read Quoted (field ++ [34]) record records s' else None
               end
      end
  end.
Definition parse_csv : rstr -> option (list (list rstr)) := csv_read FieldStart [] [] [].

(** The fields of an exported row. *)
Definition export_fields `{Chrono} (e : Receipt.expense) : list rstr :=
  [to_rfc3339 (Receipt.ex_occurred_at e); dec_signed (Receipt.ex_amount_minor e);
   Receipt.ex_currency e; Receipt.ex_description e; Receipt.ex_source e].
Definition export_header : list rstr :=
  [s! "occurred_at"; s! "amount_minor"; s! "currency"; s! "description"; s! "source"].

Definition special (c : Z) : bool := (c =? 44) || (c =? 34) || (c =? 10) || (c =? 13).
Definition plain_text (s : rstr) : bool := forallb (fun c => negb (special c)) s.

(** A separator after a field. *)
Definition csv_sep (c : Z) (field : rstr) (record : list rstr) (records : list (list rstr)) (rest : rstr)
    : option (list (list rstr)) :=
  if c =? 44 then csv_read FieldStart [] (record ++ [field]) records rest
  else csv_read FieldStart [] [] (records ++ [record ++ [field]]) rest.

Lemma csv_read_sep st c f r rs rest :
  st <> Quoted -> c = 44 \/ c = 10 -> csv_read st f r rs (c :: rest) = csv_sep c f r rs rest.
Proof. intros H [->| ->]; destruct st; done. Qed.

Lemma csv_read_plain s c f r rs rest :
  plain_text s = true -> c = 44 \/ c = 10 ->
  csv_read Plain f r rs (s ++ c :: rest) = csv_sep c (f ++ s) r rs rest.
Proof.
  intros Hs Hc. revert f. induction s as [|x s IH]; intros f.
  - rewrite app_nil_r. by apply csv_read_sep.
  - cbn [plain_text forallb] in Hs. apply andb_true_iff in Hs as [Hx Hs]. unfold special in Hx. b2p.
    cbn [app csv_read]. rewrite (proj2 (Z.eqb_neq x 44)), (proj2 (Z.eqb_neq x 10)), (proj2 (Z.eqb_neq x 34)) by done.
    rewrite (IH Hs). by rewrite <- app_assoc.
Qed.

Lemma csv_read_field_plain s c r rs rest :
  plain_text s = true -> c = 44 \/ c = 10 ->
  csv_read FieldStart [] r rs (s ++ c :: rest) = csv_sep c s r rs rest.
Proof.
  intros Hs Hc. destruct s as [|x s]; [by apply csv_read_sep|].
  cbn [plain_text forallb] in Hs. apply andb_true_iff in Hs as [Hx Hs]. unfold special in Hx. b2p.
  cbn [app csv_read]. rewrite (proj2 (Z.eqb_neq x 44)), (proj2 (Z.eqb_neq x 10)), (proj2 (Z.eqb_neq x 34)) by done.
  by rewrite (csv_read_plain s) by done.
Qed.

Lemma replace_char_cons x s c r :
  replace_char (x :: s) c r = (if x =? c then r else [x]) ++ replace_char s c r.
Proof. reflexivity. Qed.

Lemma csv_read_quoted s c f r rs rest :
  c = 44 \/ c = 10 ->
  csv_read Quoted f r rs (replace_char s 34 [34; 34] ++ 34 :: c :: rest) = csv_sep c (f ++ s) r rs rest.
Proof.
  intros Hc. revert f. induction s as [|x s IH]; intros f.
  - rewrite app_nil_r. cbn [replace_char app csv_read]. by apply (csv_read_sep QuoteSeen).
  - rewrite replace_char_cons. destruct (Z.eqb_spec x 34) as [->|Hx].
    + cbn [app csv_read]. rewrite IH. by rewrite <- app_assoc.
    + cbn [app csv_read]. rewrite (proj2 (Z.eqb_neq x 34)) by done. rewrite IH. by rewrite <- app_assoc.
Qed.

Lemma csv_read_escaped v c r rs rest :
  c = 44 \/ c = 10 ->
  csv_read FieldStart [] r rs (Account.csv_escape v ++ c :: rest) = csv_sep c v r rs rest.
Proof.
  intros Hc. unfold Account.csv_escape. change (fun c => _ || _ || _ || _) with special.
  destruct (existsb special v) eqn:E.
  - rewrite <- !app_assoc. cbn [app csv_read]. by rewrite csv_read_quoted.
  - apply csv_read_field_plain; [|done]. unfold plain_text. apply forallb_forall. intros x Hx.
    destruct (special x) eqn:Ex; [|done]. exfalso. apply not_true_iff_false in E. apply E, existsb_exists. eauto.
Qed.

Lemma dec_plain n : plain_text (dec_signed n) = true.
Proof.
  assert (Hd : forall s, all_digits s = true -> plain_text s = true).
  { intros s Hs. apply forallb_forall. intros x Hx. unfold all_digits in Hs.
    apply (proj1 (forallb_forall _ _) Hs) in Hx. unfold is_ascii_digit, special in *. b2p.
    rewrite !(proj2 (Z.eqb_neq _ _)) by lia. done. }
  unfold dec_signed. destruct (n <? 0) eqn:E; b2p.
  - change (plain_text (45 :: dec (- n))) with (plain_text (dec (- n))). apply Hd, dec_spec. lia.
  - apply Hd, dec_spec. lia.
Qed.

(** C34. Reading back a CSV export gives the header and, row by row, the very fields of
    the expenses, whatever commas, quotes and line breaks the descriptions contain; the
    text of a date is free of those characters. *)
Theorem csv_export_reads_back `{CH : Chrono} `{UT : UuidText} (rows : list Receipt.expense) :
  (forall t, plain_text (to_rfc3339 t) = true) ->
  parse_csv (Account.csv_body rows) = Some (export_header :: map export_fields rows).
Proof.
  intros Hdate. unfold parse_csv, Account.csv_body.
  assert (Hrow : forall e recs rest, csv_read FieldStart [] [] recs (Account.csv_row e ++ rest)
    = csv_read FieldStart [] [] (recs ++ [export_fields e]) rest).
  { intros e recs rest. unfold Account.csv_row. rewrite <- !app_assoc.
    change (s! ",") with [44]. cbn [app].
    rewrite csv_read_field_plain by auto. unfold csv_sep at 1. cbn [Z.eqb Pos.eqb app].
    rewrite csv_read_field_plain by auto using dec_plain. unfold csv_sep at 1. cbn [Z.eqb Pos.eqb app].
    do 3 (rewrite csv_read_escaped by auto; unfold csv_sep at 1; cbn [Z.eqb Pos.eqb app]). done. }
  assert (Hrows : forall recs, csv_read FieldStart [] [] recs (concat (map Account.csv_row rows))
    = Some (recs ++ map export_fields rows)).
  { induction rows as [|e rows IH]; intros recs; cbn [map concat]; [by rewrite app_nil_r|].
    rewrite Hrow, IH. by rewrite <- app_assoc. }
  change (csv_read FieldStart [] [] [] _) with
    (csv_read FieldStart [] [] [export_header] (concat (map Account.csv_row rows))).
  apply Hrows.
Qed.

(** The witness: a description with a comma, quotes and a line break. *)
Definition demo_expense (description : rstr) : Receipt.expense := {|
  Receipt.ex_account := 1%N; Receipt.ex_amount_minor := -45000; Receipt.ex_currency := s! "VND";
  Receipt.ex_occurred_at := 0; Receipt.ex_description := description; Receipt.ex_source := s! "manual";
  Receipt.ex_state := s! "confirmed"; Receipt.ex_receipt_submission := None;
  Receipt.ex_category_key := s! "khac"; Receipt.ex_transaction_type := s! "expense" |}.

Lemma csv_export_reads_back_witness :
  let rows := [demo_expense (s! "cafe, ba" ++ [34; 10]); demo_expense [44]] in
  @parse_csv (@Account.csv_body fixed_offset_chrono rows)
  = Some (export_header :: map (@export_fields fixed_offset_chrono) rows).
Proof.
  apply (@csv_export_reads_back fixed_offset_chrono hyphenated_uuid). intros t. apply dec_plain.
Defined.

(** ** Payloads of jobs *)

(** Decide equality of literals in the goal. *)
Ltac literals :=
  repeat match goal with
  | |- context [str_eqb (lit ?a) (lit ?b)] =>
      let v := eval vm_compute in (str_eqb (lit a) (lit b)) in
      change (str_eqb (lit a) (lit b)) with v
  end.
Ltac read_fields :=
  unfold Jobs.get_time, Jobs.get_uuid, Jobs.get_str, Jobs.get_i32, json_field;
  cbn [Work.json_get Work.assoc]; literals; cbv iota;
  cbn [mbind option_bind json_as_str].

Section Payloads.
Context `{UT : UuidText} `{UTL : !UuidTextLaws} `{CT : ChronoText} `{CTL : !ChronoTextLaws}.

(** What the code writes into the payload of a job, the worker reads back: payloads of
    account deletion and export, narratives, schedules and receipts decode to the values
    they were made from. *)
Theorem payloads_read_back (pd : Account.AccountDeletePayload) (pe : Account.AccountExportPayload)
    (pn : Insight.InsightNarratePayload) (ps : Schedule.ScheduleEmitPayload) (sid : uuid) :
  (uuid_range (Account.ad_account_id pd) /\ uuid_range (Account.ad_deletion_request_id pd)
   /\ in_i32 (Account.ad_schema_version pd) = true) ->
  (uuid_range (Account.ae_account_id pe) /\ uuid_range (Account.ae_export_id pe)
   /\ in_i32 (Account.ae_schema_version pe) = true) ->
  (uuid_range (Insight.np_account_id pn) /\ uuid_range (Insight.np_snapshot_id pn)
   /\ in_i32 (Insight.np_schema_version pn) = true) ->
  (uuid_range (Schedule.account_id ps) /\ uuid_range (Schedule.schedule_id ps)
   /\ in_i32 (Schedule.schema_version ps) = true) ->
  uuid_range sid ->
  Jobs.decode_delete (Account.delete_payload pd) = Some pd
  /\ Jobs.decode_export (Account.export_payload pe) = Some pe
  /\ Jobs.decode_narrate (Insight.narrate_payload pn) = Some pn
  /\ Jobs.decode_schedule (Scheduler.emit_payload ps) = Some ps
  /\ Jobs.decode_receipt (Receipt.receipt_job_payload sid) = Some (1, sid).
Proof.
  intros (A1 & A2 & A3) (B1 & B2 & B3) (C1 & C2 & C3) (D1 & D2 & D3) E1.
  destruct pd, pe, pn, ps.
  unfold Jobs.decode_delete, Jobs.decode_export, Jobs.decode_narrate, Jobs.decode_schedule, Jobs.decode_receipt,
    Account.delete_payload, Account.export_payload, Insight.narrate_payload, Scheduler.emit_payload,
    Receipt.receipt_job_payload.
  cbn [Account.ad_schema_version Account.ad_account_id Account.ad_deletion_request_id Account.ae_schema_version
    Account.ae_account_id Account.ae_export_id Account.ae_provider_scope Account.ae_provider_chat_id
    Insight.np_schema_version Insight.np_account_id Insight.np_snapshot_id Insight.np_aggregate_digest
    Schedule.schema_version Schedule.account_id Schedule.schedule_id Schedule.frequency Schedule.period_start
    Schedule.period_end] in *.
  read_fields. rewrite A3, B3, C3, D3. cbn [mbind option_bind]. rewrite !parse_uuid_str by done.
  cbn [mbind option_bind]. rewrite !parse_datetime_json. auto 10.
Qed.
End Payloads.

(** Payloads with the ids 1 to 9. *)
Lemma payloads_read_back_witness :
  let U := hyphenated_uuid in let T := micros_text in
  let pd := {| Account.ad_schema_version := 1; Account.ad_account_id := 1; Account.ad_deletion_request_id := 2 |}%N in
  let ps := {| Schedule.schema_version := 1; Schedule.account_id := 7; Schedule.schedule_id := 8;
               Schedule.frequency := s! "daily"; Schedule.period_start := 0; Schedule.period_end := 86400000000 |} in
  Jobs.decode_delete (Account.delete_payload pd) = Some pd
  /\ Jobs.decode_schedule (Scheduler.emit_payload ps) = Some ps.
Proof.
  cbv zeta.
  pose proof (@payloads_read_back hyphenated_uuid hyphenated_uuid_laws micros_text micros_text_laws
    {| Account.ad_schema_version := 1; Account.ad_account_id := 1%N; Account.ad_deletion_request_id := 2%N |}
    {| Account.ae_schema_version := 1; Account.ae_account_id := 3%N; Account.ae_export_id := 4%N;
       Account.ae_provider_scope := s! "zalo_bot"; Account.ae_provider_chat_id := s! "chat" |}
    {| Insight.np_schema_version := 1; Insight.np_account_id := 5%N; Insight.np_snapshot_id := 6%N;
       Insight.np_aggregate_digest := s! "digest" |}
    {| Schedule.schema_version := 1; Schedule.account_id := 7%N; Schedule.schedule_id := 8%N;
       Schedule.frequency := s! "daily"; Schedule.period_start := 0; Schedule.period_end := 86400000000 |} 9%N) as H.
  destruct H as (H1 & _ & _ & H4 & _); [repeat split.. |]; [exact (conj H1 H4)].
Defined.
