(* ===== verification/System.v ===== *)
(** * The whole system as a history of operations

    Every way the running program changes the database and the object store: events from
    the webhook or from polling, claimed jobs and their reports, the work queue, the
    scheduler and maintenance roles, and the operator's switch of the ingress mode.  A
    history is a sequence of them in any order. *)

From S2P Require Import Prelude RustStr RustStrFacts Platform Errors Work Quota Schedule ConvTypes.
From S2P Require Import ReceiptTypes Receipt Database Insight Account IngressTypes IngressStore IngressApply IngressApp Outbound.
From S2P Require Import Scheduler Jobs.

Module System.
Import Db.
Import (hints) Errors Work Quota ReceiptTypes Receipt.

(** [run_ingress_switch] of [operator/ingress.rs]. *)
Definition run_ingress_switch (mode : rstr) (d : db) : db * result (rstr * Z) rstr :=
  let switch db_mode :=
    if in_i32 (mode_generation d + 1)
    then (upd_ingress_mode (fun _ => db_mode) (upd_mode_generation (Z.add 1) d),
          Ok (db_mode, mode_generation d + 1))
    else (d, Err (s! "ingress mode switch failed")) in
  if str_eqb mode (s! "webhook") then switch (s! "webhook")
  else if str_eqb mode (s! "poll") then switch (s! "polling")
  else (d, Err (s! "unknown ingress mode: " ++ mode)).

Section System.
Context `{CH : Chrono} `{CT : ChronoText} `{PG : Postgres} `{UT : UuidText} `{IL : ImageLib} `{SJ : SerdeJson}
  `{UC : UnicodeCase} `{OS : ReceiptTypes.ObjectStore} `{XT : ReceiptTypes.Extractor} `{NR : Insight.Narrator}.

Definition world : Type := db * ReceiptTypes.objects.

Inductive sys_op :=
| OEvent (env : IngressStore.Env) (st : IngressStore.IngressStore) (r : Ingress.IngressRequest)
    (o : Ingress.IngressObservation) (decide : IngressApply.decision)
| OJob (env : Jobs.JobEnv) (deps : Jobs.JobDeps) (job : Work.ClaimedJob)
| OReport (now : Z) (job : Work.ClaimedJob) (x : Outbound.OutboundJobExecution)
| OQueue (now : Z) (o : Work.op)
| OTick (db_now now : Z) (fresh : nat -> uuid) (row_locked : uuid -> bool)
| OMaintenance (env : Jobs.JobEnv) (locked_submissions locked_assets : uuid -> bool)
| ODeliverNext (now : Z) (answer : rstr -> rstr -> Outbound.send_result) (row_locked : uuid -> bool)
| OLease (role : rstr) (now : Z) (owner : rstr) (duration_secs : Z)
| OSwitch (mode : rstr).

Definition on_queue_state (f : Work.db -> Work.db) (d : db) : db :=
  upd_rt (fun t => Receipt.set_queue (f (Receipt.queue t)) t) d.

Definition sys_exec (o : sys_op) (w : world) : world :=
  match o with
  | OEvent env st r o decide => ((IngressApply.process env st r o decide w.1).1, w.2)
  | OJob env deps job => (Jobs.dispatch_leased_job env deps job w).1
  | OReport now job x => (on_queue_state (Jobs.apply_execution_result now job x) w.1, w.2)
  | OQueue now o => (on_queue_state (Work.exec now o) w.1, w.2)
  | OTick db_now now fresh row_locked => ((Scheduler.scheduler_tick db_now now fresh row_locked w.1).1, w.2)
  | OMaintenance env l1 l2 => (Jobs.maintenance_tick env l1 l2 w).1
  | ODeliverNext now answer row_locked =>
      ((Outbound.run_proc now answer (Outbound.deliver_next row_locked) w.1).1, w.2)
  | OLease role now owner secs => ((Scheduler.try_acquire_role_lease role now owner secs w.1).1, w.2)
  | OSwitch mode => ((run_ingress_switch mode w.1).1, w.2)
  end.

Definition sys_run (ops : list sys_op) (w : world) : world := fold_left (fun w o => sys_exec o w) ops w.

End System.
End System.
