(* ===== verification/Operator.v ===== *)
(** * Operator commands ([src/src/operator/], [src/src/metrics/mod.rs], [src/src/receipt/mod.rs])

    Status and metrics over the tables, job inspection and recovery, the doctor, the
    diagnostic bundle, and the construction of the object store and the extractor from the
    configuration.  The commands run on the machine of the updates: queries and file calls
    may fail, and what they print is part of the state. *)

From S2P Require Import Prelude RustStr RustStrFacts Platform Errors Paths ConfigTypes Work ConfigLayers ReceiptTypes Receipt.
From S2P Require Import Database Insight Provider Media Http Extractors FsStore S3Store ConfigLoad Update System.

(** [chrono]'s [Display] of an instant, the same with a left-aligned width, and [to_rfc3339]. *)
Class ChronoDisplay := { datetime_display : Z -> rstr; datetime_display_width : nat -> Z -> rstr; datetime_rfc3339 : Z -> rstr }.

Module Operator.
Import Db FsStore Errors.AppError Update.
Import Work (json(..)).
#[local] Existing Instance Work.JobState_eq_dec.

(** ** Calls *)

(** A query on the tables. *)
Definition query {A} (q : db -> A) (error : AppError) : upd A := fun m =>
  ({| files := files m; applied := applied m; tables := tables m; printed := printed m; outcomes := tl (outcomes m) |},
   if breaks (hd Works (outcomes m)) then Err error else Ok (q (tables m))).
(** A transaction of the work store. *)
Definition work_error (e : Work.WorkError) : AppError := Errors.AppError.new (Work.we_class e) (Work.we_message e).
Definition on_work {A} (f : Work.db -> Work.db * result A Work.WorkError) : upd A := fun m =>
  let '(q, r) := f (Receipt.queue (rt (tables m))) in
  ({| files := files m; applied := applied m; tables := upd_rt (Receipt.set_queue q) (tables m); printed := printed m;
      outcomes := outcomes m |},
   match r with Ok a => Ok a | Err e => Err (work_error e) end).
(** A pure check. *)
Definition check {A} (r : result A AppError) : upd A := p_read (fun _ => r).
(** The result of a call as a value. *)
Definition attempt_of {A} (m : upd A) : upd (result A AppError) := p_try m (fun r => p_ret r).

Fixpoint print_lines (ls : list rstr) : upd unit :=
  match ls with [] => p_ret tt | l :: ls' => let% _ := println l in print_lines ls' end.

(** ** Text *)

Definition pad_right (width : nat) (s : rstr) : rstr := s ++ repeat 32 (width - length s)%nat.
Definition pad_left (width : nat) (s : rstr) : rstr := repeat 32 (width - length s)%nat ++ s.
Definition or_dash (o : option rstr) : rstr := default (s! "-") o.
Definition bool_text (b : bool) : rstr := if b then s! "true" else s! "false".

Section Text.
Context {SJ : SerdeJson} {SPr : SerdePretty}.
Definition to_string (v : json) : rstr := decode_utf8 (json_to_vec v).
Definition to_string_pretty (v : json) : rstr := decode_utf8 (json_to_vec_pretty v).
(** [AppError::to_json_line]. *)
Definition to_json_line (e : AppError) : rstr :=
  to_string (JObject [(s! "error_class", JString (Errors.as_str (class e))); (s! "message", JString (message e))]).
End Text.

(** ** [operator/jobs.rs] *)

Section Jobs.
Context {SJ : SerdeJson} {SPr : SerdePretty} {CT : ChronoText} {CD : ChronoDisplay} {UT : UuidText}.

Definition opt_string (o : option rstr) : json := match o with Some s => JString s | None => JNull end.
Definition job_item (row : uuid * Work.job) : json := JObject
  [(s! "id", JString (uuid_str row.1)); (s! "job_type", JString (Work.job_type row.2));
   (s! "state", JString (Work.JobState_as_str (Work.state row.2))); (s! "attempt_count", JInt (Work.attempt_count row.2));
   (s! "run_at", JString (datetime_json (Work.run_at row.2)));
   (s! "last_error_class", opt_string (Work.last_error_class row.2))].
Definition table_row (id job_type state attempts run_at last : rstr) : rstr :=
  pad_right 36 id ++ s! " " ++ pad_right 22 job_type ++ s! " " ++ pad_right 10 state ++ s! " " ++ pad_left 7 attempts
  ++ s! " " ++ run_at ++ s! " " ++ last.
Definition job_line (row : uuid * Work.job) : rstr :=
  table_row (uuid_str row.1) (Work.job_type row.2) (Work.JobState_as_str (Work.state row.2))
    (dec_signed (Work.attempt_count row.2)) (datetime_display_width 28 (Work.run_at row.2)) (or_dash (Work.last_error_class row.2)).

Definition run_jobs_list (state : option rstr) (limit : Z) (as_json : bool) : upd unit :=
  let% _ := match state with
            | Some st => check (refuse_if (bool_decide (Work.JobState_parse st = None)) (usage (s! "unknown job state: " ++ st)))
            | None => p_ret tt
            end in
  let limit := Z.min (Z.max limit 1) 200 in
  let% rows := query (fun d => Work.list_jobs state limit (Receipt.queue (rt d))) (dependency (s! "job list failed")) in
  if as_json then println (to_string_pretty (JArray (map job_item rows)))
  else
  let% _ := println (table_row (s! "ID") (s! "JOB_TYPE") (s! "STATE") (s! "ATTEMPTS") (pad_right 28 (s! "RUN_AT")) (s! "LAST_ERROR")) in
  print_lines (map job_line rows).

Definition AttemptOutcome_as_str (o : Work.AttemptOutcome) : rstr :=
  match o with
  | Work.ACompleted => s! "completed" | Work.AFailed => s! "failed" | Work.ACancelled => s! "cancelled"
  | Work.ALostLease => s! "lost_lease" | Work.ASuperseded => s! "superseded"
  end.
(** How a row is read: [AttemptRow::into_summary]. *)
Definition AttemptOutcome_parse (v : rstr) : option Work.AttemptOutcome :=
  if str_eqb v (s! "completed") then Some Work.ACompleted
  else if str_eqb v (s! "failed") then Some Work.AFailed
  else if str_eqb v (s! "cancelled") then Some Work.ACancelled
  else if str_eqb v (s! "lost_lease") then Some Work.ALostLease
  else if str_eqb v (s! "superseded") then Some Work.ASuperseded
  else None.
Definition attempt_order (p q : Z * Work.attempt) : Prop := p.1 <= q.1.
#[local] Instance attempt_order_dec p q : Decision (attempt_order p q).
Proof. unfold attempt_order. apply _. Defined.
Definition list_attempts (job_id : uuid) (q : Work.db) : list (Z * Work.attempt) :=
  merge_sort attempt_order
    (omap (fun e => if bool_decide (e.1.1 = job_id) then Some (e.1.2, e.2) else None) (map_to_list (Work.attempts q))).

Definition newline : rstr := [10].
Definition field_line (name value : rstr) : rstr := name ++ s! "=" ++ value ++ newline.
Definition summary_text (id : uuid) (j : Work.job) : rstr :=
  field_line (s! "id") (uuid_str id) ++ field_line (s! "job_type") (Work.job_type j)
  ++ field_line (s! "payload_version") (dec_signed (Work.payload_version j))
  ++ field_line (s! "state") (Work.JobState_as_str (Work.state j))
  ++ field_line (s! "priority") (dec_signed (Work.priority j))
  ++ field_line (s! "run_at") (datetime_display (Work.run_at j))
  ++ field_line (s! "attempt_count") (dec_signed (Work.attempt_count j))
  ++ field_line (s! "max_attempts") (dec_signed (Work.max_attempts j))
  ++ field_line (s! "last_error_class") (or_dash (Work.last_error_class j)).
Definition attempt_text (a : Z * Work.attempt) : rstr :=
  s! "attempt number=" ++ dec_signed a.1 ++ s! " outcome=" ++ or_dash (AttemptOutcome_as_str <$> Work.outcome a.2)
  ++ s! " error_class=" ++ or_dash (Work.at_error_class a.2) ++ s! " started_at=" ++ datetime_display (Work.started_at a.2)
  ++ s! " ended_at=" ++ or_dash (datetime_rfc3339 <$> Work.ended_at a.2) ++ newline.

Definition FORBIDDEN : list rstr :=
  [34 :: s! "payload" ++ [34]; s! "dedupe_key"; s! "serialization_key"; s! "lease_token"; s! "secret_payload"].
Definition reject_sensitive_operator_output (output : rstr) : result unit AppError :=
  refuse_if (existsb (contains output) FORBIDDEN)
    (internal (s! "operator job output would include a forbidden field")).

Definition run_jobs_show (job_id : uuid) : upd unit :=
  let% found := query (fun d => Work.get_job_summary job_id (Receipt.queue (rt d))) (dependency (s! "job summary lookup failed")) in
  let% summary := check (match found with Ok p => Ok p | Err e => Err (work_error e) end) in
  let% attempts := query (fun d => list_attempts job_id (Receipt.queue (rt d))) (dependency (s! "attempt list failed")) in
  let output := summary_text summary.1 summary.2 ++ concat (map attempt_text attempts) in
  let% _ := check (reject_sensitive_operator_output output) in
  print (Stdout output).

Definition run_jobs_retry (now : Z) (job_id : uuid) : upd unit :=
  let% _ := on_work (Work.recover_dead now job_id) in
  println (s! "job " ++ uuid_str job_id ++ s! " requeued").
Definition run_jobs_cancel (now : Z) (job_id : uuid) : upd unit :=
  let% _ := on_work (Work.cancel_by_operator now job_id) in
  println (s! "job " ++ uuid_str job_id ++ s! " cancelled").

End Jobs.

(** ** [operator/status.rs] and [metrics/mod.rs] *)

(** [SELECT key, COUNT( * ) ... GROUP BY key]. *)
Definition group_counts (keys : list rstr) : list (rstr * Z) :=
  map (fun k => (k, Z.of_nat (length (List.filter (str_eqb k) keys)))) (remove_dups keys).

Definition job_states (d : db) : list rstr :=
  map (fun p => Work.JobState_as_str (Work.state p.2)) (map_to_list (Work.jobs (Receipt.queue (rt d)))).
Definition outbound_state_str (s : OutboundState) : rstr :=
  match s with
  | ObQueued => s! "queued" | ObSending => s! "sending" | ObSent => s! "sent" | ObFailed => s! "failed"
  | ObSuppressed => s! "suppressed" | ObAmbiguous => s! "ambiguous"
  end.
Definition outbound_states (d : db) : list rstr :=
  map (fun p => outbound_state_str (ob_state p.2)) (map_to_list (outbound_messages d)).

Record JobCounts := { jc_queued : Z; jc_leased : Z; jc_completed : Z; jc_cancelled : Z; jc_dead : Z }.
Definition no_jobs : JobCounts := {| jc_queued := 0; jc_leased := 0; jc_completed := 0; jc_cancelled := 0; jc_dead := 0 |}.
Definition count_jobs (c : JobCounts) (row : rstr * Z) : JobCounts :=
  let '(state, n) := row in
  if str_eqb state (s! "queued")
  then {| jc_queued := n; jc_leased := jc_leased c; jc_completed := jc_completed c; jc_cancelled := jc_cancelled c;
          jc_dead := jc_dead c |}
  else if str_eqb state (s! "leased")
  then {| jc_queued := jc_queued c; jc_leased := n; jc_completed := jc_completed c; jc_cancelled := jc_cancelled c;
          jc_dead := jc_dead c |}
  else if str_eqb state (s! "completed")
  then {| jc_queued := jc_queued c; jc_leased := jc_leased c; jc_completed := n; jc_cancelled := jc_cancelled c;
          jc_dead := jc_dead c |}
  else if str_eqb state (s! "cancelled")
  then {| jc_queued := jc_queued c; jc_leased := jc_leased c; jc_completed := jc_completed c; jc_cancelled := n;
          jc_dead := jc_dead c |}
  else if str_eqb state (s! "dead")
  then {| jc_queued := jc_queued c; jc_leased := jc_leased c; jc_completed := jc_completed c; jc_cancelled := jc_cancelled c;
          jc_dead := n |}
  else c.

Record OutboundCounts := { oc_queued : Z; oc_sending : Z; oc_sent : Z; oc_failed : Z; oc_suppressed : Z; oc_ambiguous : Z }.
Definition no_outbound : OutboundCounts :=
  {| oc_queued := 0; oc_sending := 0; oc_sent := 0; oc_failed := 0; oc_suppressed := 0; oc_ambiguous := 0 |}.
Definition count_outbound (c : OutboundCounts) (row : rstr * Z) : OutboundCounts :=
  let '(state, n) := row in
  if str_eqb state (s! "queued")
  then {| oc_queued := n; oc_sending := oc_sending c; oc_sent := oc_sent c; oc_failed := oc_failed c;
          oc_suppressed := oc_suppressed c; oc_ambiguous := oc_ambiguous c |}
  else if str_eqb state (s! "sending")
  then {| oc_queued := oc_queued c; oc_sending := n; oc_sent := oc_sent c; oc_failed := oc_failed c;
          oc_suppressed := oc_suppressed c; oc_ambiguous := oc_ambiguous c |}
  else if str_eqb state (s! "sent")
  then {| oc_queued := oc_queued c; oc_sending := oc_sending c; oc_sent := n; oc_failed := oc_failed c;
          oc_suppressed := oc_suppressed c; oc_ambiguous := oc_ambiguous c |}
  else if str_eqb state (s! "failed")
  then {| oc_queued := oc_queued c; oc_sending := oc_sending c; oc_sent := oc_sent c; oc_failed := n;
          oc_suppressed := oc_suppressed c; oc_ambiguous := oc_ambiguous c |}
  else if str_eqb state (s! "suppressed")
  then {| oc_queued := oc_queued c; oc_sending := oc_sending c; oc_sent := oc_sent c; oc_failed := oc_failed c;
          oc_suppressed := n; oc_ambiguous := oc_ambiguous c |}
  else if str_eqb state (s! "ambiguous")
  then {| oc_queued := oc_queued c; oc_sending := oc_sending c; oc_sent := oc_sent c; oc_failed := oc_failed c;
          oc_suppressed := oc_suppressed c; oc_ambiguous := n |}
  else c.

Record IngressStatus := { is_mode : rstr; is_mode_generation : Z }.
Record StatusReport := {
  healthy : bool;
  ready : bool;
  migrations_current : bool;
  ingress : IngressStatus;
  job_counts : JobCounts;
  jobs_dead : Z;
  jobs_oldest_queued_age_seconds : option Z;
  outbound_counts : OutboundCounts;
  last_inbound_received_at : option Z;
}.

(** [EXTRACT(EPOCH FROM ...)::BIGINT] of microseconds: to the nearest second, halves away
    from zero. *)
Definition epoch_seconds (micros : Z) : Z :=
  if 0 <=? micros then (micros + 500000) / 1000000 else - ((- micros + 500000) / 1000000).
Definition oldest_queued_age (now : Z) (d : db) : option Z :=
  match omap (fun p => if bool_decide (Work.state p.2 = Work.Queued) then Some (Work.run_at p.2) else None)
          (map_to_list (Work.jobs (Receipt.queue (rt d)))) with
  | [] => None
  | t :: ts => Some (epoch_seconds (now - foldl Z.min t ts))
  end.

Section Status.
Context {SM : SqlxMigrate} {SPr : SerdePretty} {CT : ChronoText} {CD : ChronoDisplay}.
(** [NOW()], and [MAX(received_at)] of the inbound events, a column the tables leave out. *)
Context (now : Z) (last_received_at : db -> option Z).

Definition is_ok {A} (r : result A AppError) : bool := match r with Ok _ => true | Err _ => false end.
Definition or_false (r : result bool AppError) : bool := match r with Ok b => b | Err _ => false end.

Definition collect_status : upd StatusReport :=
  let% db_ok := attempt_of check_connection in
  let db_ok := is_ok db_ok in
  let% migrations_current :=
    if db_ok then let% r := attempt_of check_migrations_current in p_ret (or_false r) else p_ret false in
  let% row := query (fun d => (ingress_mode d, mode_generation d)) (dependency (s! "failed to read ingress control")) in
  let% job_rows := query (fun d => group_counts (job_states d)) (dependency (s! "failed to count jobs")) in
  let jobs := foldl count_jobs no_jobs job_rows in
  let% age := query (oldest_queued_age now) (dependency (s! "failed to read oldest queued job age")) in
  let% outbound_rows := query (fun d => group_counts (outbound_states d))
                          (dependency (s! "failed to count outbound messages")) in
  let outbound := foldl count_outbound no_outbound outbound_rows in
  let% received := query last_received_at (dependency (s! "failed to read last inbound event")) in
  p_ret {| healthy := db_ok; ready := db_ok && migrations_current; migrations_current := migrations_current;
           ingress := {| is_mode := row.1; is_mode_generation := row.2 |}; job_counts := jobs;
           jobs_dead := jc_dead jobs; jobs_oldest_queued_age_seconds := age; outbound_counts := outbound;
           last_inbound_received_at := received |}.

Definition opt_int (o : option Z) : json := match o with Some z => JInt z | None => JNull end.
Definition job_fields (c : JobCounts) : list (rstr * Z) :=
  [(s! "queued", jc_queued c); (s! "leased", jc_leased c); (s! "completed", jc_completed c);
   (s! "cancelled", jc_cancelled c); (s! "dead", jc_dead c)].
Definition outbound_fields (c : OutboundCounts) : list (rstr * Z) :=
  [(s! "queued", oc_queued c); (s! "sending", oc_sending c); (s! "sent", oc_sent c); (s! "failed", oc_failed c);
   (s! "suppressed", oc_suppressed c); (s! "ambiguous", oc_ambiguous c)].
Definition counts_json (fields : list (rstr * Z)) : json := JObject (map (fun p => (p.1, JInt p.2)) fields).
Definition status_json (r : StatusReport) : json := JObject
  [(s! "healthy", JBool (healthy r)); (s! "ready", JBool (ready r)); (s! "migrations_current", JBool (migrations_current r));
   (s! "ingress", JObject [(s! "mode", JString (is_mode (ingress r))); (s! "mode_generation", JInt (is_mode_generation (ingress r)))]);
   (s! "jobs", counts_json (job_fields (job_counts r))); (s! "jobs_dead", JInt (jobs_dead r));
   (s! "jobs_oldest_queued_age_seconds", opt_int (jobs_oldest_queued_age_seconds r));
   (s! "outbound", counts_json (outbound_fields (outbound_counts r)));
   (s! "last_inbound_received_at", opt_string (datetime_json <$> last_inbound_received_at r))].

Definition counts_line (title : rstr) (fields : list (rstr * Z)) : rstr :=
  title ++ concat (map (fun p => s! " " ++ p.1 ++ s! "=" ++ dec_signed p.2) fields).
Definition status_lines (r : StatusReport) : list rstr :=
  [s! "healthy: " ++ bool_text (healthy r); s! "ready: " ++ bool_text (ready r);
   s! "migrations_current: " ++ bool_text (migrations_current r);
   s! "ingress: mode=" ++ is_mode (ingress r) ++ s! " generation=" ++ dec_signed (is_mode_generation (ingress r));
   counts_line (s! "jobs:") (job_fields (job_counts r))]
  ++ match jobs_oldest_queued_age_seconds r with
     | Some age => [s! "jobs_oldest_queued_age_seconds: " ++ dec_signed age]
     | None => []
     end
  ++ [counts_line (s! "outbound:") (outbound_fields (outbound_counts r))]
  ++ match last_inbound_received_at r with
     | Some t => [s! "last_inbound_received_at: " ++ datetime_display t]
     | None => []
     end.

Definition run_status (as_json : bool) : upd unit :=
  let% report := collect_status in
  if as_json then println (to_string_pretty (status_json report)) else print_lines (status_lines report).

Definition run_ingress_status : upd unit :=
  let% row := query (fun d => (ingress_mode d, mode_generation d)) (dependency (s! "failed to read ingress control")) in
  let% _ := println (s! "mode: " ++ row.1) in
  println (s! "mode_generation: " ++ dec_signed row.2).

(** *** Metrics *)

Definition KNOWN_JOB_TYPES : list rstr :=
  [s! "outbound.deliver"; s! "receipt.ingest"; s! "receipt.extract"; s! "schedule.emit"; s! "account.delete";
   s! "account.export"; s! "insight.narrate"].
Definition metric_line (name kind value : rstr) : rstr :=
  s! "# TYPE " ++ name ++ s! " " ++ kind ++ newline ++ name ++ s! " " ++ value ++ newline.
Definition append_gauge (body name : rstr) (value : Z) : rstr := body ++ metric_line name (s! "gauge") (dec_signed value).
Definition append_counter (body name : rstr) (value : Z) : rstr := body ++ metric_line name (s! "counter") (dec value).

(** The job types of queued and leased jobs. *)
Definition active_types (d : db) : list rstr :=
  omap (fun p => if bool_decide (Work.state p.2 = Work.Queued) || bool_decide (Work.state p.2 = Work.Leased)
                 then Some (Work.job_type p.2) else None)
    (map_to_list (Work.jobs (Receipt.queue (rt d)))).
Definition labeled_line (row : rstr * Z) : rstr :=
  s! "jobs_active{job_type=" ++ [34] ++ row.1 ++ [34] ++ s! "} " ++ dec_signed row.2 ++ newline.

(** The sizes of the connection pool. *)
Record pool_state := { pool_size : Z; pool_idle : Z }.
Definition render (m : Http.Metrics) (pool : pool_state) : upd rstr :=
  let% states := attempt_of (query (fun d => group_counts (job_states d)) never) in
  let body := match states with
              | Ok rows =>
                  let c := foldl count_jobs no_jobs rows in
                  append_gauge (append_gauge (append_gauge [] (s! "jobs_queued") (jc_queued c)) (s! "jobs_leased") (jc_leased c))
                    (s! "jobs_dead") (jc_dead c)
              | Err _ => []
              end in
  let% types := attempt_of (query (fun d => group_counts (active_types d)) never) in
  let body := match types with
              | Ok rows =>
                  let labeled := List.filter (fun row => existsb (str_eqb row.1) KNOWN_JOB_TYPES) rows in
                  match labeled with
                  | [] => body
                  | _ => body ++ s! "# TYPE jobs_active gauge" ++ newline ++ concat (map labeled_line labeled)
                  end
              | Err _ => body
              end in
  let body := append_counter body (s! "webhook_accepted_total") (Http.webhook_accepted_total m) in
  let body := append_counter body (s! "webhook_duplicate_total") (Http.webhook_duplicate_total m) in
  let body := append_counter body (s! "webhook_unauthorized_total") (Http.webhook_unauthorized_total m) in
  let% ambiguous := attempt_of (query (fun d => Z.of_nat (length (List.filter (str_eqb (s! "ambiguous")) (outbound_states d)))) never) in
  let body := match ambiguous with Ok n => append_gauge body (s! "outbound_ambiguous") n | Err _ => body end in
  let body := append_gauge body (s! "db_pool_size") (pool_size pool) in
  let body := append_gauge body (s! "db_pool_idle") (pool_idle pool) in
  p_ret (append_gauge body (s! "db_pool_active") (Z.max 0 (pool_size pool - pool_idle pool mod 2 ^ 32))).

End Status.

(** ** The object store and the extractor ([receipt/mod.rs]) *)

(** The environment of the process: its variables, and which texts are PostgreSQL URLs. *)
Record process := { p_env : ConfigLayers.environment; p_pg_url : rstr -> bool }.
Definition host_of (p : process) (m : machine) : ConfigLoad.host := {|
  ConfigLoad.h_env := p_env p;
  ConfigLoad.h_read := fun path => match files m !! Paths.components path with
                                   | Some (FileNode bytes) => Extractors.from_utf8 bytes
                                   | _ => None
                                   end;
  ConfigLoad.h_pg_url := p_pg_url p |}.

Section Build.
Context {UL : UrlLib}.

Inductive receipt_store :=
| MemoryStore
| FileStore (store : FsStore.FilesystemObjectStore)
| S3Store (store : S3Store.S3CompatibleObjectStore).

Definition config_error (prefix : rstr) (e : ReceiptTypes.ReceiptError) : AppError := config (prefix ++ ReceiptTypes.re_message e).
Definition build_object_store (p : process) (client_builds : bool) (c : ConfigLoad.ResolvedConfig) : upd receipt_store :=
  match ConfigLoad.r_storage_backend c with
  | ConfigLoad.Memory => p_ret MemoryStore
  | ConfigLoad.Filesystem => fun m =>
      let o := hd Works (outcomes m) in
      let '(f, r) := FsStore.new (ConfigLoad.r_storage_directory c) (files m) (stop_of o) in
      ({| files := f; applied := applied m; tables := tables m; printed := printed m; outcomes := tl (outcomes m) |},
       match r with Ok s => Ok (FileStore s) | Err e => Err (config_error (s! "filesystem object store: ") e) end)
  | ConfigLoad.S3 =>
      p_read (fun m =>
        let? endpoint := ok_or (ConfigLoad.r_storage_endpoint c) (config (s! "storage.endpoint is required for s3 backend")) in
        let? bucket := ok_or (ConfigLoad.r_storage_bucket c) (config (s! "storage.bucket is required for s3 backend")) in
        let? access_key := ConfigLoad.read_storage_access_key (host_of p m) c in
        let? secret_key := ConfigLoad.read_storage_secret_key (host_of p m) c in
        match S3Store.new client_builds
                {| S3Store.s3c_endpoint := endpoint; S3Store.s3c_bucket := bucket;
                   S3Store.s3c_region := ConfigLoad.r_storage_region c; S3Store.s3c_access_key := access_key;
                   S3Store.s3c_secret_key := secret_key;
                   S3Store.s3c_force_path_style := ConfigLoad.r_storage_force_path_style c |} with
        | Ok s => Ok (S3Store s)
        | Err e => Err (config_error (s! "s3 object store: ") e)
        end)
  end.

Inductive receipt_extractor := FakeExtractor | GeminiExtractor (g : Extractors.GeminiHttpExtractor) (timeout_seconds : Z).
Definition build_extractor (h : ConfigLoad.host) (client_builds : bool) (c : ConfigLoad.ResolvedConfig)
    : result receipt_extractor AppError :=
  match ConfigLoad.r_extraction_backend c with
  | ConfigLoad.Fake => Ok FakeExtractor
  | ConfigLoad.Gemini =>
      let? profile := ok_or (ConfigLoad.extraction_profile c (ConfigLoad.r_extraction_default_profile c))
                        (config (s! "extraction.default_profile is not a loaded AI profile")) in
      let? api_key := ConfigLoad.read_named_credential h c (ConfigTypes.credential profile) in
      if negb client_builds
      then Err (config (s! "gemini extractor: failed to build gemini HTTP client"))
      else Ok (GeminiExtractor
                 (Extractors.gemini_new
                    {| Extractors.g_api_base := ConfigLoad.r_gemini_api_base c; Extractors.g_api_key := api_key;
                       Extractors.g_model := ConfigTypes.model profile; Extractors.g_profile_name := ConfigTypes.name profile;
                       Extractors.g_max_input_bytes := ConfigTypes.max_input_bytes profile;
                       Extractors.g_max_output_tokens := ConfigTypes.max_output_tokens profile;
                       Extractors.g_thinking_effort := ConfigTypes.thinking_effort profile;
                       Extractors.g_schema_version := ConfigTypes.schema_version profile |})
                 (ConfigTypes.timeout_seconds profile))
  end.

End Build.

(** ** [operator/doctor.rs] *)

Inductive ActiveProbe := ProbeZalo | ProbeGemini | ProbeObjectStore.

(** [str::rsplit_once], [str::split_once] at a text. *)
Definition rsplit_once (s : rstr) (c : Z) : option (rstr * rstr) :=
  match split_char (rev s) c with
  | _ :: [] | [] => None
  | last :: rest => Some (rev (join [c] rest), rev last)
  end.
Fixpoint split_once (s sep : rstr) : option (rstr * rstr) :=
  match strip_prefix s sep with
  | Some rest => Some ([], rest)
  | None => match s with
            | [] => None
            | c :: s' => match split_once s' sep with Some (before, rest) => Some (c :: before, rest) | None => None end
            end
  end.
Definition listen_host (address : rstr) : rstr :=
  match strip_prefix address (s! "[") with
  | Some rest => hd rest (split_char rest (c! "]"))
  | None => match rsplit_once address (c! ":") with Some (host, _) => host | None => address end
  end.
Definition url_host (url : rstr) : rstr :=
  let rest := match split_once url (s! "://") with Some (_, rest) => rest | None => url end in
  listen_host (hd rest (split_char rest (c! "/"))).
Definition is_loopback_host (host : rstr) : bool :=
  existsb (str_eqb host) [s! "127.0.0.1"; s! "::1"; s! "localhost"].
Definition is_loopback_listen (address : rstr) : bool := is_loopback_host (listen_host address).
Definition is_loopback_url (url : rstr) : bool := is_loopback_host (url_host url).

Record DoctorWarning := { dw_error_class : rstr; dw_message : rstr }.
Definition warning_json (w : DoctorWarning) : json :=
  JObject [(s! "error_class", JString (dw_error_class w)); (s! "message", JString (dw_message w))].
Definition warning (class : Errors.ErrorClass) (text : rstr) : DoctorWarning :=
  {| dw_error_class := Errors.as_str class; dw_message := text |}.

(** The names in a directory, sorted. *)
Definition dir_names_op (dir : path) (o : outcome) (f : fs) : fs * option (list rstr) :=
  (f, if breaks o || negb (is_dir f dir) then None
      else Some (merge_sort name_order (omap (fun e => file_in dir e.1) (map_to_list f)))).

Section Doctor.
Context {UL : UrlLib} {UP : UrlPath} {TL : TomlLib} {SH : Sha256} {HM : HmacSha256} {B64 : Base64}.
Context {SM : SqlxMigrate} {SJ : SerdeJson} {SPr : SerdePretty} {UT : UuidText}.
(** The process, HTTP, and the object service: its answer to the n-th request of a probe. *)
Context (p : process) (http_get : rstr -> health_answer) (client_builds : bool) (fresh : uuid).
Context (serve : S3Store.s3_request -> nat -> S3Store.s3_answer) (clock : nat -> rstr).

Definition load (config_path : option rstr) : upd ConfigLoad.ResolvedConfig :=
  p_read (fun m => ConfigLoad.load_config (host_of p m) config_path).
Definition validate (config_path : option rstr) : upd unit :=
  p_read (fun m => ConfigLoad.validate_config (host_of p m) config_path).

(** Writing, reading and deleting the probe key. *)
Definition PROBE_KEY : rstr := s! "operator-doctor/probe".
Definition probe_bytes : list Z := encode_utf8 (s! "probe").
Definition with_error {S A} (m : prog S ReceiptTypes.ReceiptError A) (e : AppError) : prog S AppError A :=
  fun s => let '(s', r) := m s in (s', match r with Ok a => Ok a | Err _ => Err e end).
Definition probe {S} (put : prog S ReceiptTypes.ReceiptError unit)
    (get : prog S ReceiptTypes.ReceiptError (option (list Z))) (delete : prog S ReceiptTypes.ReceiptError unit)
    : prog S AppError bool :=
  let% _ := with_error put (dependency (s! "object store probe put failed")) in
  let% found := with_error get (dependency (s! "object store probe get failed")) in
  let% _ := with_error delete (dependency (s! "object store probe delete failed")) in
  p_ret (bool_decide (is_Some found)).

(** A program on the files, with the next [n] outcomes. *)
Definition on_files {A} (n : nat) (pr : list outcome -> fs -> fs * result A ReceiptTypes.ReceiptError)
    : prog machine ReceiptTypes.ReceiptError A := fun m =>
  let '(f, r) := pr (outcomes m) (files m) in
  ({| files := f; applied := applied m; tables := tables m; printed := printed m; outcomes := drop n (outcomes m) |}, r).
Definition nth_outcome (os : list outcome) (n : nat) : outcome := List.nth n os Works.
Definition probe_store (s : receipt_store) : upd bool :=
  match s with
  | MemoryStore => fun m =>
      let r := probe (ReceiptTypes.os_put (ObjectStore := ReceiptTypes.InMemoryObjectStore) PROBE_KEY probe_bytes)
                 (fun o => (o, ReceiptTypes.os_get (ObjectStore := ReceiptTypes.InMemoryObjectStore) PROBE_KEY o))
                 (ReceiptTypes.os_delete (ObjectStore := ReceiptTypes.InMemoryObjectStore) PROBE_KEY) ∅ in
      (m, r.2)
  | FileStore store =>
      probe
        (on_files 4 (fun os => FsStore.put store PROBE_KEY probe_bytes fresh
           {| pf_dirs := stop_of (nth_outcome os 0); pf_write := fault_of (nth_outcome os 1);
              pf_rename := breaks (nth_outcome os 2); pf_cleanup := breaks (nth_outcome os 3) |}))
        (on_files 1 (fun os f => (f, FsStore.get store PROBE_KEY (breaks (nth_outcome os 0)) f)))
        (on_files 1 (fun os => FsStore.delete_object store PROBE_KEY (breaks (nth_outcome os 0))))
  | S3Store store => fun m =>
      let serve n rq := (S n, serve rq n) in
      let r := probe (S3Store.put (fun rq n => serve n rq) clock store PROBE_KEY probe_bytes)
                 (S3Store.get (fun rq n => serve n rq) clock store PROBE_KEY)
                 (S3Store.delete_object (fun rq n => serve n rq) clock store PROBE_KEY) 0%nat in
      (m, r.2)
  end.

(** A GET of a service's root. *)
Definition probe_http (base name : rstr) : upd unit :=
  match http_get (trim_end_matches (Z.eqb (c! "/")) base ++ s! "/") with
  | NoClient => p_err (dependency (s! "http client unavailable"))
  | NoResponse => p_err (dependency (name ++ s! " api probe failed"))
  | Status code => println (name ++ s! "_probe_status: " ++ dec_signed code)
  end.
Definition run_active_probe (c : ConfigLoad.ResolvedConfig) (which : ActiveProbe) : upd unit :=
  match which with
  | ProbeZalo =>
      let% _ := eprintln (s! "warning: active probe makes an external HTTP call and may consume provider quota") in
      probe_http (ConfigLoad.r_zalo_api_base c) (s! "zalo")
  | ProbeGemini =>
      let% _ := eprintln (s! "warning: active probe may make an external HTTP call and consume provider quota") in
      if negb (is_loopback_url (ConfigLoad.r_gemini_api_base c))
      then p_err (usage (s! "live provider tests are opt-in; gemini api_base must be loopback for doctor --active gemini"))
      else probe_http (ConfigLoad.r_gemini_api_base c) (s! "gemini")
  | ProbeObjectStore =>
      let% _ := eprintln (s! "warning: active probe writes and deletes a tiny object-store probe key") in
      let% store := build_object_store p client_builds c in
      let% present := probe_store store in
      println (s! "object_store_probe: " ++ if present then s! "ok" else s! "missing")
  end.

Definition report (e : AppError) : upd unit := eprintln (to_json_line e).

(** The database: whether a check failed hard, and a warning. *)
Definition doctor_database : upd (bool * list DoctorWarning) :=
  p_try create_pool (fun pool =>
    match pool with
    | Err e => let% _ := report e in p_ret (true, [])
    | Ok _ =>
        p_try check_connection (fun connected =>
          match connected with
          | Err _ => let% _ := report (dependency (s! "database connection failed")) in p_ret (true, [])
          | Ok _ =>
              let% current := attempt_of check_migrations_current in
              p_ret (false, if or_false current then []
                            else [warning Errors.Migration (s! "database migrations are not current")])
          end)
    end).

Definition run_doctor (config_path : option rstr) (active : option ActiveProbe) : upd unit :=
  p_try (load config_path) (fun loaded =>
    match loaded with
    | Err e => let% _ := report e in p_err e
    | Ok c =>
        let% invalid := p_try (validate config_path) (fun r =>
          match r with Err e => let% _ := report e in p_ret true | Ok _ => p_ret false end) in
        let% database := doctor_database in
        let% names := attempt_of (file_call (dir_names_op (Paths.components (ConfigLoad.r_credentials_directory c))) never) in
        let% unreadable :=
          match names with
          | Ok ns => let% _ := println (s! "credential_files: " ++ join (s! ", ") ns) in p_ret []
          | Err _ => p_ret [warning Errors.Config (s! "credentials directory is unreadable")]
          end in
        let exposed := negb (is_loopback_listen (ConfigLoad.r_listen_address c)) in
        let warnings :=
          database.2 ++ unreadable
          ++ (if exposed then [warning Errors.HealthFailed (s! "listen_address is not loopback")] else [])
          ++ (if ConfigLoad.r_metrics_enabled c && exposed
              then [warning Errors.HealthFailed (s! "metrics enabled with non-loopback listener")] else []) in
        let% _ := println (s! "kill_switches: extraction_enabled=" ++ bool_text (ConfigLoad.r_extraction_enabled c)
                           ++ s! " outbound_enabled=" ++ bool_text (ConfigLoad.r_outbound_enabled c)
                           ++ s! " insights_llm_enabled=" ++ bool_text (ConfigLoad.r_insights_llm_enabled c)) in
        let% _ := print_lines (map (fun w => to_string (warning_json w)) warnings) in
        let% _ := match active with Some which => run_active_probe c which | None => p_ret tt end in
        if invalid || database.1 then p_err (dependency (s! "doctor detected hard failures")) else p_ret tt
    end).

End Doctor.

(** ** [operator/diagnose.rs] *)

Definition FORBIDDEN_SUBSTRINGS : list rstr := [s! "postgres://"; s! "BEGIN RSA"; s! "api-key"; s! "x-goog-api-key"].
Definition BUNDLE : list rstr := [s! "status.json"; s! "jobs-dead.json"; s! "config-show.json"; s! "doctor.json"].

Definition write_string (p text : rstr) : upd unit :=
  file_call (write_op (Paths.components p) (encode_utf8 text)) (dependency (s! "failed to write diagnose file")).
Definition scan_file (p : rstr) : upd unit :=
  let unreadable := dependency (s! "failed to read diagnose file for scan") in
  let% bytes := fs_read (Paths.components p) unreadable in
  let% contents := check (ok_or (Extractors.from_utf8 bytes) unreadable) in
  check (refuse_if (existsb (contains contents) FORBIDDEN_SUBSTRINGS)
           (internal (s! "diagnose bundle contains forbidden substring in " ++ p))).
Fixpoint scan_files (ps : list rstr) : upd unit :=
  match ps with [] => p_ret tt | p :: ps' => let% _ := scan_file p in scan_files ps' end.

Section Diagnose.
Context {UL : UrlLib} {TL : TomlLib} {SM : SqlxMigrate} {SPr : SerdePretty} {CT : ChronoText} {CD : ChronoDisplay} {UT : UuidText}.
Context (p : process) (now : Z) (last_received_at : db -> option Z).

(** [json!] keeps the fields of an object in the order of their names. *)
Definition dead_summary (row : uuid * Work.job) : json := JObject
  [(s! "attempt_count", JInt (Work.attempt_count row.2)); (s! "id", JString (uuid_str row.1));
   (s! "job_type", JString (Work.job_type row.2)); (s! "last_error_class", opt_string (Work.last_error_class row.2));
   (s! "run_at", JString (datetime_json (Work.run_at row.2)));
   (s! "state", JString (Work.JobState_as_str (Work.state row.2)))].

Definition check_json (name : rstr) (ok : bool) : json := JObject [(s! "check", JString name); (s! "ok", JBool ok)].
Definition capture_doctor_json (config_path : option rstr) : upd rstr :=
  p_try (load p config_path) (fun loaded =>
    let% lines :=
      match loaded with
      | Err _ => p_ret [check_json (s! "config_load") false]
      | Ok _ =>
          p_try create_pool (fun pool =>
            match pool with
            | Err _ => p_ret [check_json (s! "config_load") true; check_json (s! "db_connection") false]
            | Ok _ =>
                let% connected := attempt_of check_connection in
                let db_ok := is_ok connected in
                let% current := if db_ok then let% r := attempt_of check_migrations_current in p_ret (or_false r)
                                else p_ret false in
                p_ret [check_json (s! "config_load") true; check_json (s! "db_connection") db_ok;
                       check_json (s! "migrations_current") current]
            end)
      end in
    p_ret (to_string_pretty (JArray lines))).

Definition run_diagnose (c : ConfigLoad.ResolvedConfig) (config_path : option rstr) (output_dir : rstr) : upd unit :=
  let file name := Paths.path_join output_dir name in
  let% _ := print_lines (map file BUNDLE) in
  let% _ := file_call (create_dir_op (Paths.components output_dir))
              (dependency (s! "failed to create diagnose output directory")) in
  let% _ := create_pool in
  let% status := collect_status now last_received_at in
  let% _ := write_string (file (s! "status.json")) (to_string_pretty (status_json status)) in
  let% dead := query (fun d => Work.list_jobs (Some (s! "dead")) 200 (Receipt.queue (rt d))) (dependency (s! "job list failed")) in
  let% _ := write_string (file (s! "jobs-dead.json")) (to_string_pretty (JArray (map dead_summary dead))) in
  let% _ := write_string (file (s! "config-show.json")) (ConfigLoad.show_json to_string_pretty c) in
  let% doctor := capture_doctor_json config_path in
  let% _ := write_string (file (s! "doctor.json")) doctor in
  scan_files (map file BUNDLE).

End Diagnose.

(** ** [run_logs] *)

(** Whether systemd runs, and what [journalctl] with these arguments gives. *)
Definition run_logs (systemd : bool) (journalctl : list rstr -> option bool) (follow : bool) (since : option rstr) : upd unit :=
  if negb systemd then println (s! "journald unavailable on this host")
  else
  let args := [s! "-u"; s! "zl-expense.service"] ++ (if follow then [s! "-f"] else [])
              ++ match since with Some t => [s! "--since"; t] | None => [] end in
  match journalctl args with
  | None => p_err (dependency (s! "journalctl failed"))
  | Some true => p_ret tt
  | Some false => p_err (dependency (s! "journalctl exited with error"))
  end.

End Operator.
