(* ===== verification/Runtime.v ===== *)
(** * The runtime ([src/src/runtime/mod.rs], [shutdown.rs], the loops of [scheduler.rs] and [maintenance.rs])

    Start-up as a program on the machine; the supervisor and the worker as transition
    systems whose steps are the choices of the [select!] loops, the ends of tasks, signals
    and deadlines.  A dispatch is one step: a handler dropped half-way is not modelled. *)

From S2P Require Import Prelude RustStr RustStrFacts Platform Errors Paths ConfigTypes Work ConfigLayers Schedule ReceiptTypes Receipt.
From S2P Require Import Database Insight IngressTypes IngressStore Outbound Scheduler Jobs Provider Media Http Extractors.
From S2P Require Import FsStore S3Store ConfigLoad Update System Operator.

Module Runtime.
Import Db Update.
Import Errors (ExitCode).
Import Errors.AppError (AppError).
#[local] Existing Instance Jobs.Role_eq_dec.

(** ** Start-up *)

Section Start.
Context {UL : UrlLib} {SM : SqlxMigrate}.

Record services := {
  sv_adapter : option Provider.ZaloHttpConfig;
  sv_store : Operator.receipt_store;
  sv_extractor : Operator.receipt_extractor;
  sv_receipt : ReceiptTypes.ReceiptConfig;
  sv_policy : Insight.IngressPolicy;
  sv_webhook : option Http.WebhookService;
  sv_metrics : option Http.Metrics;
  sv_readiness : Http.ReadinessState;
}.

(** The process, and whether each HTTP client can be built. *)
Context (p : Operator.process) (zalo_client s3_client gemini_client : bool).

(** An error becomes an exit code. *)
Definition or_exit {A} (m : upd A) : prog machine ExitCode A :=
  fun s => let '(s', r) := m s in (s', match r with Ok a => Ok a | Err e => Err (Errors.AppError.exit e) end).

Definition has_role (roles : list Jobs.Role) (r : Jobs.Role) : bool := bool_decide (r ∈ roles).

Definition start_database : prog machine ExitCode Http.ReadinessState :=
  let% _ := or_exit create_pool in
  let% _ := or_exit migrate in
  or_exit (p_try check_connection (fun connected =>
    p_try check_migrations_current (fun current =>
      p_ret (Http.set_migrations_current (Operator.or_false current)
               (Http.set_db_reachable (Operator.is_ok connected) Http.new_ready))))).

Definition webhook_secret_of (c : ConfigLoad.ResolvedConfig) (roles : list Jobs.Role) : upd rstr :=
  if has_role roles Jobs.RIngress
  then p_read (fun m =>
         let? value := ConfigLoad.read_webhook_secret (Operator.host_of p m) c in
         if Jobs.valid_runtime_secret value then Ok value
         else Err (Errors.AppError.config (s! "webhook credential is unsafe")))
  else p_ret [].

Definition start_adapter (c : ConfigLoad.ResolvedConfig) (roles : list Jobs.Role) : upd (option Provider.ZaloHttpConfig) :=
  if has_role roles Jobs.RIngress || has_role roles Jobs.RWorker
  then
    let% bot_token := p_read (fun m => ConfigLoad.read_zalo_bot_token (Operator.host_of p m) c) in
    let% webhook_secret := webhook_secret_of c roles in
    if negb zalo_client then p_err (Errors.AppError.config (s! "failed to configure Zalo HTTP adapter"))
    else p_ret (Some {| Provider.api_base := ConfigLoad.r_zalo_api_base c; Provider.bot_token := bot_token;
                        Provider.webhook_secret := webhook_secret; Provider.cfg_provider_scope := s! "zalo_bot";
                        Provider.request_timeout_secs := ConfigLoad.r_zalo_send_timeout_seconds c |})
  else p_ret None.

(** [ReceiptConfig::default().review_expiry_hours]. *)
Definition DEFAULT_REVIEW_EXPIRY_HOURS : Z := 72.

(** [expect("adapter initialized")] panics without an adapter. *)
Definition start (c : ConfigLoad.ResolvedConfig) (roles : list Jobs.Role) : prog machine ExitCode (run services) :=
  let% readiness := start_database in
  let% adapter := or_exit (start_adapter c roles) in
  let% store := or_exit (Operator.build_object_store p s3_client c) in
  let% extractor := or_exit (p_read (fun m => Operator.build_extractor (Operator.host_of p m) gemini_client c)) in
  let policy := ConfigLoad.from_config c in
  let webhook :=
    if has_role roles Jobs.RIngress
    then match adapter with
         | None => Panic
         | Some a => Ret (Some {| Http.ws_config := a; Http.ws_store := {| IngressStore.st_receipt := true; IngressStore.st_policy := policy |};
                                  Http.allowed_provider_sender_ids := elements (ConfigLoad.r_allowed_provider_sender_ids c);
                                  Http.max_body_bytes := ConfigLoad.r_webhook_max_body_bytes c |})
         end
    else Ret None in
  p_ret (let! webhook := webhook in
         let! _ := if has_role roles Jobs.RWorker && bool_decide (adapter = None) then Panic else Ret tt in
         Ret {| sv_adapter := adapter; sv_store := store; sv_extractor := extractor;
                sv_receipt := {| ReceiptTypes.original_receipt_days := ConfigLoad.r_original_receipt_days c;
                                 ReceiptTypes.review_expiry_hours := DEFAULT_REVIEW_EXPIRY_HOURS;
                                 ReceiptTypes.extraction_enabled := ConfigLoad.r_extraction_enabled c;
                                 ReceiptTypes.monthly_extraction_pages := ConfigLoad.r_monthly_extraction_pages c |};
                sv_policy := policy; sv_webhook := webhook;
                sv_metrics := if ConfigLoad.r_metrics_enabled c
                              then Some {| Http.webhook_accepted_total := 0; Http.webhook_duplicate_total := 0;
                                           Http.webhook_unauthorized_total := 0 |}
                              else None;
                sv_readiness := readiness |}).

End Start.

(** ** The routes and the metrics page ([http/mod.rs]) *)

Inductive method := GET | POST.
Inductive handler := LiveHandler | ReadyHandler | ZaloWebhookHandler | MetricsHandler.
Definition router (metrics_enabled : bool) : list (rstr * (method * handler)) :=
  [(s! "/health/live", (GET, LiveHandler)); (s! "/health/ready", (GET, ReadyHandler));
   (s! "/webhooks/zalo", (POST, ZaloWebhookHandler)); (s! "/webhook/zalo", (POST, ZaloWebhookHandler))]
  ++ if metrics_enabled then [(s! "/metrics", (GET, MetricsHandler))] else [].

(** [pool] is the state of the connection pool, [None] without one. *)
Definition metrics_handler (pool : option Operator.pool_state) (metrics : option Http.Metrics) : upd (Z * rstr) :=
  match pool with
  | None => p_ret (503, s! "metrics unavailable")
  | Some pool =>
      match metrics with
      | None => p_ret (404, s! "metrics disabled")
      | Some metrics => let% body := Operator.render metrics pool in p_ret (200, body)
      end
  end.

(** ** The supervisor *)

(** How a task ends: with its result, by a panic, or cancelled; [error] is the text of the
    [JoinError]. *)
Inductive task_end := Returned (r : result unit AppError) | Panicked (error : rstr) | Cancelled (error : rstr).
(** [None]: still running. *)
Abbreviation tasks := (gmap rstr (option task_end)).

Inductive phase := Serving | Draining | Stopped (code : ExitCode).
Record supervisor := {
  sp_tasks : tasks;
  sp_listener : option bool;          (* how the shutdown listener ended, if it has *)
  sp_shutdown : bool;                 (* the watch channel *)
  sp_readiness : Http.ReadinessState;
  sp_phase : phase;
}.

(** [wait_for_role_failure] on a finished task; [None]: go on. *)
Definition role_failure (shutdown : bool) (role : rstr) (e : task_end) : option (option (rstr * AppError)) :=
  match e with
  | Returned (Ok _) => if shutdown then None
                       else Some (Some (role, Errors.AppError.internal (s! "critical role task exited unexpectedly")))
  | Returned (Err error) => Some (Some (role, error))
  | Panicked _ => Some None
  | Cancelled error => Some (Some (role, Errors.AppError.internal (s! "role task cancelled: " ++ error)))
  end.

(** [drain_role_tasks] on a finished task. *)
Definition drained_task (e : task_end) : result unit AppError :=
  match e with
  | Returned r => r
  | Panicked error | Cancelled error =>
      Err (Errors.AppError.internal (s! "role task failed during shutdown: " ++ error))
  end.

(** The tasks [run] spawns. *)
Definition start_supervisor (roles : list Jobs.Role) (readiness : Http.ReadinessState) : supervisor := {|
  sp_tasks := list_to_map (map (fun r => (Jobs.role_as_str r, None)) roles);
  sp_listener := None; sp_shutdown := false; sp_readiness := readiness; sp_phase := Serving |}.

Definition with_tasks (ts : tasks) (s : supervisor) : supervisor := {|
  sp_tasks := ts; sp_listener := sp_listener s; sp_shutdown := sp_shutdown s; sp_readiness := sp_readiness s;
  sp_phase := sp_phase s |}.
Definition in_phase (ph : phase) (s : supervisor) : supervisor := {|
  sp_tasks := sp_tasks s; sp_listener := sp_listener s; sp_shutdown := sp_shutdown s; sp_readiness := sp_readiness s;
  sp_phase := ph |}.
(** [ShutdownSignal::listen] at a signal. *)
Definition signalled (s : supervisor) : supervisor := {|
  sp_tasks := sp_tasks s; sp_listener := Some true; sp_shutdown := true;
  sp_readiness := Http.mark_shutting_down (sp_readiness s); sp_phase := sp_phase s |}.
(** [abort_role_tasks] drains the map and aborts every task. *)
Definition abort_role_tasks (ts : tasks) : tasks := ∅.
(** The critical path: the map is empty after the abort, so the drain ends at once. *)
Definition critical (s : supervisor) : supervisor := {|
  sp_tasks := abort_role_tasks (sp_tasks s); sp_listener := sp_listener s; sp_shutdown := true;
  sp_readiness := Http.mark_shutting_down (sp_readiness s); sp_phase := Stopped Errors.RuntimeError |}.

Definition is_stopped (ph : phase) : bool := match ph with Stopped _ => true | _ => false end.

(** [drain_role_tasks]: a finished task is taken out, an error of one ends the drain, and so
    do an empty map and the deadline. *)
Inductive drain_step : supervisor -> supervisor -> Prop :=
| Drains s role e : sp_phase s = Draining -> sp_tasks s !! role = Some (Some e) -> drained_task e = Ok tt ->
    drain_step s (with_tasks (delete role (sp_tasks s)) s)
| DrainFails s role e : sp_phase s = Draining -> sp_tasks s !! role = Some (Some e) -> drained_task e <> Ok tt ->
    drain_step s (in_phase (Stopped Errors.RuntimeError) (with_tasks (delete role (sp_tasks s)) s))
| Drained s : sp_phase s = Draining -> sp_tasks s = ∅ -> drain_step s (in_phase (Stopped Errors.Success) s)
| DrainDeadline s : sp_phase s = Draining -> sp_tasks s <> ∅ ->
    drain_step s (in_phase (Stopped Errors.Success) (with_tasks (abort_role_tasks (sp_tasks s)) s)).

Inductive supervisor_step : supervisor -> supervisor -> Prop :=
(* a role task ends *)
| TaskEnds s role e : is_stopped (sp_phase s) = false -> sp_tasks s !! role = Some None ->
    supervisor_step s (with_tasks (<[role := Some e]> (sp_tasks s)) s)
(* a signal, or the listener dies *)
| Signal s : is_stopped (sp_phase s) = false -> sp_listener s = None -> supervisor_step s (signalled s)
| ListenerDies s : is_stopped (sp_phase s) = false -> sp_listener s = None ->
    supervisor_step s {| sp_tasks := sp_tasks s; sp_listener := Some false; sp_shutdown := sp_shutdown s;
                         sp_readiness := sp_readiness s; sp_phase := sp_phase s |}
(* the [select!] of [run] *)
| SeesSignal s : sp_phase s = Serving -> sp_listener s = Some true -> supervisor_step s (in_phase Draining s)
| SeesListenerDead s : sp_phase s = Serving -> sp_listener s = Some false -> supervisor_step s (critical s)
| SeesRoleDone s role e : sp_phase s = Serving -> sp_tasks s !! role = Some (Some e) ->
    role_failure (sp_shutdown s) role e = None -> supervisor_step s (with_tasks (delete role (sp_tasks s)) s)
| SeesRoleFailure s role e : sp_phase s = Serving -> sp_tasks s !! role = Some (Some e) ->
    role_failure (sp_shutdown s) role e <> None -> supervisor_step s (critical s)
(* then the drain *)
| DrainsOn s t : drain_step s t -> supervisor_step s t.

(** ** The worker *)

(** A claimed job on its way: executing, its result to be reported, or its task ended. *)
Inductive flight_state := Executing | Reporting (x : Outbound.OutboundJobExecution) | Ended (r : result unit rstr).
Record flight := { fl_job : Work.ClaimedJob; fl_state : flight_state }.

Inductive worker_phase := Claiming | Finishing | Ending (r : result unit AppError).

(** [observe_handler_result]. *)
Definition observe_handler_result (joined : option (result unit rstr)) : result unit AppError :=
  match joined with
  | Some (Ok _) | None => Ok tt
  | Some (Err error) => Err (Errors.AppError.internal (s! "worker handler task failed: " ++ error))
  end.

(** The owners of leases, given the process id and a fresh id. *)
Definition host_name (env : ConfigLayers.environment) : rstr :=
  match env (s! "HOSTNAME") with
  | Some h => h
  | None => default (s! "localhost") (env (s! "HOST"))
  end.
Definition process_lease_owner `{UuidText} (env : ConfigLayers.environment) (pid : Z) (fresh : uuid) : rstr :=
  host_name env ++ s! ":" ++ dec pid ++ s! ":" ++ uuid_str fresh.
Definition scheduler_lease_owner `{UuidText} (env : ConfigLayers.environment) (pid : Z) (fresh : uuid) : rstr :=
  host_name env ++ s! ":" ++ dec pid ++ s! ":" ++ uuid_str fresh ++ s! ":scheduler".
Definition maintenance_lease_owner `{UuidText} (env : ConfigLayers.environment) (pid : Z) (fresh : uuid) : rstr :=
  host_name env ++ s! ":" ++ dec pid ++ s! ":" ++ uuid_str fresh ++ s! ":maintenance".

Section Worker.
Context `{CH : Chrono} `{CT : ChronoText} `{PG : Postgres} `{UT : UuidText} `{IL : ImageLib} `{SJ : SerdeJson}
  `{UC : UnicodeCase} `{OS : ReceiptTypes.ObjectStore} `{XT : ReceiptTypes.Extractor} `{NR : Insight.Narrator}.
Context (deps : Jobs.JobDeps) (outbound_delivery send_timeout_seconds : Z) (lease_owner : rstr).

Definition lease_secs : Z := Jobs.worker_lease_duration_secs send_timeout_seconds.
(** [usize::try_from(outbound_delivery).unwrap_or(1).max(1)]. *)
Definition capacity : nat := Nat.max 1 (Z.to_nat outbound_delivery).
Definition claim_options : Work.ClaimOptions := {|
  Work.batch_limit := 1; Work.opt_lease_owner := lease_owner; Work.lease_duration_secs := lease_secs |}.

Record worker := {
  wk_world : System.world;
  wk_shutdown : bool;
  wk_flights : list flight;
  wk_phase : worker_phase;
}.

Definition with_world (w : System.world) (k : worker) : worker := {|
  wk_world := w; wk_shutdown := wk_shutdown k; wk_flights := wk_flights k; wk_phase := wk_phase k |}.
Definition with_flights (fs : list flight) (k : worker) : worker := {|
  wk_world := wk_world k; wk_shutdown := wk_shutdown k; wk_flights := fs; wk_phase := wk_phase k |}.
Definition worker_in (ph : worker_phase) (k : worker) : worker := {|
  wk_world := wk_world k; wk_shutdown := wk_shutdown k; wk_flights := wk_flights k; wk_phase := ph |}.
(** A task of the worker runs unless the role has ended. *)
Definition is_ending (ph : worker_phase) : bool := match ph with Ending _ => true | _ => false end.

(** What a step in an executing job does: the world after it, and the job's new state. *)
Inductive flight_step (shutdown : bool) (w : System.world) (f : flight) : System.world -> flight_state -> Prop :=
(* the dispatch returns *)
| Dispatches env : fl_state f = Executing ->
    flight_step shutdown w f (Jobs.dispatch_leased_job env deps (fl_job f) w).1
      (Reporting (Jobs.dispatch_leased_job env deps (fl_job f) w).2)
(* a heartbeat; if it is refused the lease is stale *)
| Heartbeats now : fl_state f = Executing ->
    flight_step shutdown w f
      (System.on_queue_state (fun q => (Work.heartbeat now (Work.cl_id (fl_job f)) (Work.cl_lease_token (fl_job f)) lease_secs q).1) w.1, w.2)
      (match (Work.heartbeat now (Work.cl_id (fl_job f)) (Work.cl_lease_token (fl_job f)) lease_secs (Receipt.queue (rt w.1))).2 with
       | Ok _ => Executing
       | Err _ => Reporting Outbound.StaleLease
       end)
(* shutdown gives the job back *)
| ShutsDown now : fl_state f = Executing -> shutdown = true ->
    flight_step shutdown w f
      (System.on_queue_state (fun q => (Jobs.shutdown_execution now (fl_job f) q).1) w.1, w.2)
      (Reporting (Jobs.shutdown_execution now (fl_job f) (Receipt.queue (rt w.1))).2)
| Panics error : fl_state f = Executing -> flight_step shutdown w f w (Ended (Err error))
(* [apply_execution_result] *)
| Reports now x : fl_state f = Reporting x ->
    flight_step shutdown w f (System.on_queue_state (Jobs.apply_execution_result now (fl_job f) x) w.1, w.2) (Ended (Ok tt)).

(** [join_next]: a task that ended leaves, one that panicked ends the role. *)
Definition joins (before after : list flight) (r : result unit rstr) (k : worker) : worker :=
  match observe_handler_result (Some r) with
  | Ok _ => with_flights (before ++ after) k
  | Err e => worker_in (Ending (Err e)) (with_flights [] k)
  end.

(** [drain_in_flight_handlers]: until no job is left, or the deadline aborts them all. *)
Inductive finish_step : worker -> worker -> Prop :=
| Empties k : wk_phase k = Finishing -> wk_flights k = [] -> finish_step k (worker_in (Ending (Ok tt)) k)
| FinishJoins k before f after r : wk_phase k = Finishing -> wk_flights k = before ++ f :: after -> fl_state f = Ended r ->
    finish_step k (joins before after r k)
| Aborts k : wk_phase k = Finishing -> finish_step k (worker_in (Ending (Ok tt)) (with_flights [] k)).

Inductive worker_step : worker -> worker -> Prop :=
(* another part of the system, or the shutdown channel *)
| Others k o : worker_step k (with_world (System.sys_exec o (wk_world k)) k)
| ShutdownSent k : worker_step k {| wk_world := wk_world k; wk_shutdown := true; wk_flights := wk_flights k; wk_phase := wk_phase k |}
(* a claim with room for one more job; an error or an empty claim waits *)
| Claims k now env : wk_phase k = Claiming -> (length (wk_flights k) < capacity)%nat ->
    worker_step k
      (with_world (System.on_queue_state (fun q => (Work.claim now claim_options env q).1) (wk_world k).1, (wk_world k).2)
         (match (Work.claim now claim_options env (Receipt.queue (rt (wk_world k).1))).2 with
          | Ok (job :: _) => with_flights (wk_flights k ++ [{| fl_job := job; fl_state := Executing |}]) k
          | _ => k
          end))
(* a task of a job goes on *)
| Flies k before f after w st : is_ending (wk_phase k) = false -> wk_flights k = before ++ f :: after ->
    flight_step (wk_shutdown k) (wk_world k) f w st ->
    worker_step k (with_world w (with_flights (before ++ {| fl_job := fl_job f; fl_state := st |} :: after) k))
(* [join_next] of the loop *)
| Joins k before f after r : wk_phase k = Claiming -> wk_flights k = before ++ f :: after -> fl_state f = Ended r ->
    worker_step k (joins before after r k)
(* the loop ends at shutdown; then the jobs are drained *)
| Finishes k : wk_phase k = Claiming -> wk_shutdown k = true -> worker_step k (worker_in Finishing k)
| FinishesOn k k' : finish_step k k' -> worker_step k k'.

Definition start_worker (w : System.world) : worker := {|
  wk_world := w; wk_shutdown := false; wk_flights := []; wk_phase := Claiming |}.

(** ** The loops of the scheduler and of maintenance: one tick *)

Definition scheduler_round (owner : rstr) (db_now now : Z) (fresh : nat -> uuid) (row_locked : uuid -> bool) (w : System.world)
    : System.world :=
  let '(d, acquired) := Scheduler.try_acquire_role_lease Scheduler.ROLE db_now owner Scheduler.LEASE_DURATION_SECS w.1 in
  if acquired then ((Scheduler.scheduler_tick db_now now fresh row_locked d).1, w.2) else (d, w.2).

Definition MAINTENANCE_ROLE : rstr := s! "maintenance".
Definition MAINTENANCE_LEASE_DURATION_SECS : Z := 90.
Definition maintenance_lease (db_now : Z) (owner : rstr) : db -> db * bool :=
  Scheduler.try_acquire_role_lease MAINTENANCE_ROLE db_now owner MAINTENANCE_LEASE_DURATION_SECS.
Definition maintenance_round (owner : rstr) (env : Jobs.JobEnv) (locked_submissions locked_assets : uuid -> bool)
    (w : System.world) : System.world :=
  let '(d, acquired) := maintenance_lease (Jobs.je_db_now env) owner w.1 in
  if acquired then (Jobs.maintenance_tick env locked_submissions locked_assets (d, w.2)).1 else (d, w.2).

End Worker.

End Runtime.
