(* ===== verification/Cli.v ===== *)
(** * The command line ([src/src/cli.rs], [src/src/main.rs])

    The commands [clap] parses, their dispatch, and the exit code of the process.  A command
    runs on the machine; [run] comes up on it and then goes on as the supervisor of
    [Runtime].  The set-up of the log is not modelled. *)

From S2P Require Import Prelude RustStr RustStrFacts Platform Errors Paths ConfigTypes Work ConfigLayers ReceiptTypes Receipt.
From S2P Require Import Database Insight Jobs Provider Media Http Extractors FsStore S3Store ConfigLoad Update System Operator Runtime.

Module Cli.
Import Db Errors.AppError Update Operator.
Import Errors (ExitCode).

Inductive LogFormat := Pretty | Json.

Inductive DoctorActive := Zalo | Gemini | DObjectStore.
Definition probe_of (value : DoctorActive) : ActiveProbe :=
  match value with Zalo => ProbeZalo | Gemini => ProbeGemini | DObjectStore => ProbeObjectStore end.

Inductive JobsCommands :=
| JList (state : option rstr) (limit : Z) (json : bool)
| JShow (id : uuid)
| JRetry (id : uuid)
| JCancel (id : uuid).
Inductive IngressCommands := IStatus | IWebhook | IPoll.
Inductive ConfigCommands := ConfigValidate | ConfigShow.
Inductive DbCommands := DbCheck | DbMigrate.
Inductive UpdateCommands :=
| Preflight (artifact metadata signature : rstr) (public_key : list rstr) (install_path state_dir : option rstr)
| Apply (artifact metadata signature : rstr) (public_key : list rstr) (install_path state_dir : option rstr)
    (yes skip_backup skip_migrate skip_health : bool) (health_url : option rstr)
| Rollback (yes : bool) (install_path state_dir : option rstr).

Inductive Commands :=
| Config (command : ConfigCommands)
| CDb (command : DbCommands)
| CStatus (json : bool)
| CJobs (command : JobsCommands)
| Doctor (active : option DoctorActive)
| CIngress (command : IngressCommands)
| Backup (output : rstr)
| Restore (input : rstr) (yes : bool)
| Logs (follow : bool) (since : option rstr)
| Diagnose (output : rstr)
| CUpdate (command : UpdateCommands)
| Run (roles : list rstr).

Record Cli := { config_path : option rstr; log_format : LogFormat; command : Commands }.

(** ** [run_ingress_switch] on the machine *)

Definition run_ingress_switch (mode : rstr) : upd unit :=
  let% _ := check (refuse_if (negb (str_eqb mode (s! "webhook")) && negb (str_eqb mode (s! "poll")))
                     (usage (s! "unknown ingress mode: " ++ mode))) in
  let% row := fun m =>
    let after d := {| files := files m; applied := applied m; tables := d; printed := printed m; outcomes := tl (outcomes m) |} in
    if breaks (hd Works (outcomes m)) then (after (tables m), Err (dependency (s! "ingress mode switch failed")))
    else let '(d, r) := System.run_ingress_switch mode (tables m) in
         (after d, match r with Ok row => Ok row | Err _ => Err (dependency (s! "ingress mode switch failed")) end) in
  let% _ := println (s! "mode: " ++ row.1) in
  println (s! "mode_generation: " ++ dec_signed row.2).

Section Cli.
Context {UL : UrlLib} {UP : UrlPath} {TL : TomlLib} {SH : Sha256} {HM : HmacSha256} {B64 : Base64} {ED : Ed25519}
  {SM : SqlxMigrate} {PGT : PgTools} {SP : SerdeParse} {SJ : SerdeJson} {SPr : SerdePretty} {UT : UuidText} {CT : ChronoText}
  {CD : ChronoDisplay}.
(** The process: its environment and architecture, the clock of the database, its HTTP
    clients, the services it probes, and [journalctl]. *)
Context (p : process) (ARCH : rstr) (now : Z) (last_received_at : db -> option Z) (fresh : uuid).
Context (http_get : rstr -> health_answer) (zalo_client s3_client gemini_client : bool).
Context (serve : S3Store.s3_request -> nat -> S3Store.s3_answer) (clock : nat -> rstr).
Context (systemd : bool) (journalctl : list rstr -> option bool).

(** How a command ends: with an exit code, as a running service, or by a panic. *)
Inductive ended := Exits (code : ExitCode) | Serves (roles : list Jobs.Role) (sv : Runtime.services) | Dies.

Definition finish (m : upd unit) : upd ended := let% _ := m in p_ret (Exits Errors.Success).

(** [run]: its errors are exit codes already. *)
Definition run (c : ConfigLoad.ResolvedConfig) (roles : list Jobs.Role) : upd ended := fun m =>
  let '(m', r) := Runtime.start p zalo_client s3_client gemini_client c roles m in
  (m', Ok (match r with
           | Err code => Exits code
           | Ok (Ret sv) => Serves roles sv
           | Ok _ => Dies
           end)).

Definition run_jobs (command : JobsCommands) : upd unit :=
  match command with
  | JList state limit json => run_jobs_list state limit json
  | JShow id => run_jobs_show id
  | JRetry id => run_jobs_retry now id
  | JCancel id => run_jobs_cancel now id
  end.

Definition run_ingress (command : IngressCommands) : upd unit :=
  match command with
  | IStatus => run_ingress_status
  | IWebhook => run_ingress_switch (s! "webhook")
  | IPoll => run_ingress_switch (s! "poll")
  end.

Definition run_update (c : ConfigLoad.ResolvedConfig) (command : UpdateCommands) : upd unit :=
  let% _ := create_pool in
  match command with
  | Preflight artifact metadata signature public_key install state =>
      let% _ := run_preflight (update_paths c artifact metadata signature public_key install state) in p_ret tt
  | Apply artifact metadata signature public_key install state yes skip_backup skip_migrate skip_health health_url =>
      run_apply ARCH http_get c (update_paths c artifact metadata signature public_key install state)
        {| Update.yes := yes; Update.skip_backup := skip_backup; Update.skip_migrate := skip_migrate;
           Update.skip_health := skip_health; Update.health_url := health_url |}
  | Rollback yes install state =>
      let% schema := current_database_schema in
      run_rollback (update_paths c [] [] [] [] install state) yes schema
  end.

Definition run_command (cli : Cli) : upd ended :=
  let path := config_path cli in
  let load := Operator.load p path in
  match command cli with
  | Config ConfigValidate => finish (Operator.validate p path)
  | Config ConfigShow => finish (let% c := load in println (ConfigLoad.show_json to_string_pretty c))
  | CDb command =>
      finish (let% _ := load in
              let% _ := create_pool in
              match command with DbCheck => check_connection | DbMigrate => migrate end)
  | CStatus json => finish (let% _ := load in let% _ := create_pool in run_status now last_received_at json)
  | CJobs command => finish (let% _ := load in let% _ := create_pool in run_jobs command)
  | Doctor active => finish (run_doctor p http_get s3_client fresh serve clock path (probe_of <$> active))
  | CIngress command => finish (let% _ := load in let% _ := create_pool in run_ingress command)
  | Backup output => finish (let% c := load in run_backup c output)
  | Restore input yes => finish (let% c := load in run_restore c input yes)
  | Logs follow since => finish (run_logs systemd journalctl follow since)
  | Diagnose output => finish (let% c := load in run_diagnose p now last_received_at c path output)
  | CUpdate command => finish (let% c := load in run_update c command)
  | Run roles =>
      let% c := load in
      let% parsed := check (match Jobs.parse_roles roles with Ok rs => Ok rs | Err e => Err (usage e) end) in
      run c parsed
  end.

(** [execute]: an error is printed as a JSON line, and its class is the exit code. *)
Definition execute (cli : Cli) (m : machine) : machine * ended :=
  match run_command cli m with
  | (m', Ok e) => (m', e)
  | (m', Err e) => ((eprintln (to_json_line e) m').1, Exits (Errors.AppError.exit e))
  end.

(** [main]: the code the process exits with, once it does. *)
Definition exit_status (e : ended) : option Z :=
  match e with Exits code => Some (Errors.as_i32 code) | Serves _ _ | Dies => None end.

End Cli.
End Cli.
