(* ===== verification/DebugText.v ===== *)
(** * What logs show of a value: the [Debug] implementations

    [src/src/receipt/types.rs], [src/src/provider/types.rs], [src/src/provider/error.rs],
    [src/src/work/types.rs] and the object stores.  A [Formatter] is given a tree of names
    and fields; the text is rendered from it.  How a string is quoted, and the [Debug] of
    instants and durations, are parameters.  [DebugProps] shows that the text of a value
    depends only on the fields that may be shown. *)

From S2P Require Import Prelude RustStr RustStrFacts Platform Errors Paths Work ReceiptTypes Receipt.
From S2P Require Import Database Insight Outbound Jobs Provider Media Extractors FsStore S3Store.

(** [Debug] of [str], [DateTime<Utc>] and [Duration] (in seconds). *)
Class FmtDebug := { str_debug : rstr -> rstr; datetime_debug : Z -> rstr; duration_debug : Z -> rstr }.

Module DebugText.
Import Db.

(** ** The tree a [Formatter] is given *)

Inductive dbg :=
| DStr (s : rstr) | DInt (z : Z) | DBool (b : bool) | DTime (t : Z) | DDuration (secs : Z)
| DUuid (id : uuid)
| DNone | DSome (v : dbg)
| DName (name : rstr)                              (* a unit variant *)
| DTuple (name : rstr) (v : dbg)
| DList (vs : list dbg)
| DStruct (name : rstr) (fields : list (rstr * dbg)) (exhaustive : bool).

Definition REDACTED : rstr := s! "[REDACTED]".
Definition hidden : dbg := DStr REDACTED.
Definition DOpt {A} (f : A -> dbg) (o : option A) : dbg := match o with Some a => DSome (f a) | None => DNone end.
(** [redacted_opt]. *)
Definition redacted_opt {A} (o : option A) : dbg := DOpt (fun _ => hidden) o.

Section Render.
Context {FD : FmtDebug} {UT : UuidText}.

(** [{:?}]: [debug_struct], [debug_tuple], [debug_list]. *)
Fixpoint render (d : dbg) : rstr :=
  match d with
  | DStr s => str_debug s
  | DInt z => dec_signed z
  | DBool b => if b then s! "true" else s! "false"
  | DTime t => datetime_debug t
  | DDuration t => duration_debug t
  | DUuid id => uuid_str id
  | DNone => s! "None"
  | DSome v => s! "Some(" ++ render v ++ s! ")"
  | DName n => n
  | DTuple n v => n ++ s! "(" ++ render v ++ s! ")"
  | DList vs => s! "[" ++ join (s! ", ") (map render vs) ++ s! "]"
  | DStruct n fields exhaustive =>
      let shown := map (fun f => f.1 ++ s! ": " ++ render f.2) fields in
      match fields, exhaustive with
      | [], true => n
      | [], false => n ++ s! " { .. }"
      | _, _ => n ++ s! " { " ++ join (s! ", ") (shown ++ if exhaustive then [] else [s! ".."]) ++ s! " }"
      end
  end.
End Render.

Class Debug (A : Type) := debug : A -> dbg.
Definition debug_text `{FmtDebug} `{UuidText} {A} `{Debug A} (a : A) : rstr := render (debug a).

(** ** Derived implementations *)

Definition debug_ReceiptState (s : ReceiptTypes.ReceiptState) : dbg :=
  DName match s with
        | ReceiptTypes.Pending => s! "Pending" | ReceiptTypes.Queued => s! "Queued" | ReceiptTypes.Stored => s! "Stored"
        | ReceiptTypes.Extracting => s! "Extracting" | ReceiptTypes.ReviewRequired => s! "ReviewRequired"
        | ReceiptTypes.Confirmed => s! "Confirmed" | ReceiptTypes.Rejected => s! "Rejected"
        | ReceiptTypes.FailedTransient => s! "FailedTransient" | ReceiptTypes.FailedPermanent => s! "FailedPermanent"
        | ReceiptTypes.Expired => s! "Expired" | ReceiptTypes.Deleted => s! "Deleted"
        end.
Definition debug_JobState (s : Work.JobState) : dbg :=
  DName match s with
        | Work.Queued => s! "Queued" | Work.Leased => s! "Leased" | Work.Completed => s! "Completed"
        | Work.JobCancelled => s! "Cancelled" | Work.Dead => s! "Dead"
        end.
Definition debug_ErrorClass (c : Errors.ErrorClass) : dbg :=
  DName match c with
        | Errors.Validation => s! "Validation" | Errors.NotFound => s! "NotFound" | Errors.Conflict => s! "Conflict"
        | Errors.Forbidden => s! "Forbidden" | Errors.ConsentRequired => s! "ConsentRequired"
        | Errors.QuotaExceeded => s! "QuotaExceeded" | Errors.Unsupported => s! "Unsupported"
        | Errors.Duplicate => s! "Duplicate" | Errors.Auth => s! "Auth" | Errors.RateLimited => s! "RateLimited"
        | Errors.Timeout => s! "Timeout" | Errors.ProviderError => s! "ProviderError"
        | Errors.ProviderAmbiguous => s! "ProviderAmbiguous" | Errors.Transient => s! "Transient"
        | Errors.KillSwitch => s! "KillSwitch" | Errors.Internal => s! "Internal" | Errors.Config => s! "Config"
        | Errors.Dependency => s! "Dependency" | Errors.Migration => s! "Migration" | Errors.Permission => s! "Permission"
        | Errors.Cancelled => s! "Cancelled" | Errors.PreflightFailed => s! "PreflightFailed"
        | Errors.HealthFailed => s! "HealthFailed"
        end.
Definition debug_InboundEventKind (k : Provider.InboundEventKind) : dbg :=
  match k with
  | Provider.TextReceived => DName (s! "TextReceived")
  | Provider.ImageReceived => DName (s! "ImageReceived")
  | Provider.Unsupported name => DTuple (s! "Unsupported") (DStr name)
  end.

(** ** [receipt/types.rs] *)

Record ReceiptJobPayload := { rp_schema_version : Z; rp_receipt_submission_id : uuid }.
#[export] Instance debug_ReceiptJobPayload : Debug ReceiptJobPayload := fun p =>
  DStruct (s! "ReceiptJobPayload")
    [(s! "schema_version", DInt (rp_schema_version p)); (s! "receipt_submission_id", hidden)] true.

#[export] Instance debug_AcceptSubmissionRequest : Debug ReceiptTypes.AcceptSubmissionRequest := fun r =>
  DStruct (s! "AcceptSubmissionRequest")
    [(s! "submission_id", hidden); (s! "account_id", hidden);
     (s! "inbound_event_id", redacted_opt (ReceiptTypes.ac_inbound_event_id r)); (s! "ingest_job_id", hidden)] true.

#[export] Instance debug_AcceptSubmissionOutcome : Debug ReceiptTypes.AcceptSubmissionOutcome := fun o =>
  match o with
  | ReceiptTypes.Accepted state => DStruct (s! "Accepted") [(s! "state", debug_ReceiptState state)] true
  | ReceiptTypes.Replayed _ state =>
      DStruct (s! "Replayed") [(s! "submission_id", hidden); (s! "state", debug_ReceiptState state)] true
  | ReceiptTypes.DuplicateJob => DName (s! "DuplicateJob")
  end.

#[export] Instance debug_ValidatedImage : Debug ReceiptTypes.ValidatedImage := fun i =>
  DStruct (s! "ValidatedImage")
    [(s! "content_sha256", hidden); (s! "mime_type", DStr (ReceiptTypes.mime_type i));
     (s! "size_bytes", DInt (ReceiptTypes.size_bytes i)); (s! "width_px", DInt (ReceiptTypes.width_px i));
     (s! "height_px", DInt (ReceiptTypes.height_px i))] true.

#[export] Instance debug_IngestOutcome : Debug ReceiptTypes.IngestOutcome := fun o =>
  match o with
  | ReceiptTypes.IStored _ _ => DStruct (s! "Stored") [(s! "submission_id", hidden); (s! "content_sha256", hidden)] true
  | ReceiptTypes.IDuplicateAbsorbed _ _ =>
      DStruct (s! "DuplicateAbsorbed") [(s! "submission_id", hidden); (s! "original_submission_id", hidden)] true
  | ReceiptTypes.IAlreadyStored _ => DStruct (s! "AlreadyStored") [(s! "submission_id", hidden)] true
  | ReceiptTypes.IAlreadyTerminal state => DStruct (s! "AlreadyTerminal") [(s! "state", debug_ReceiptState state)] true
  end.

#[export] Instance debug_ExtractOutcome : Debug ReceiptTypes.ExtractOutcome := fun o =>
  match o with
  | ReceiptTypes.XReviewRequired _ _ =>
      DStruct (s! "ReviewRequired") [(s! "submission_id", hidden); (s! "draft_id", hidden)] true
  | ReceiptTypes.XAlreadyReviewRequired _ => DStruct (s! "AlreadyReviewRequired") [(s! "submission_id", hidden)] true
  | ReceiptTypes.XAlreadyTerminal state => DStruct (s! "AlreadyTerminal") [(s! "state", debug_ReceiptState state)] true
  | ReceiptTypes.XUnsupported => DName (s! "Unsupported")
  end.

#[export] Instance debug_ReceiptStateView : Debug Receipt.ReceiptStateView := fun v =>
  let row := Receipt.rv_row v in
  DStruct (s! "ReceiptStateView")
    [(s! "submission_id", hidden); (s! "account_id", hidden); (s! "state", debug_ReceiptState (Receipt.sub_state row));
     (s! "version", DInt (Receipt.sub_version row));
     (s! "duplicate_of_submission_id", redacted_opt (Receipt.sub_duplicate_of row));
     (s! "confirmed_expense_id", redacted_opt (Receipt.sub_confirmed_expense row));
     (s! "failure_error_class", DOpt DStr (Receipt.sub_failure_error_class row));
     (s! "review_expires_at", DOpt DTime (Receipt.sub_review_expires_at row));
     (s! "asset_deleted", DBool (Receipt.rv_asset_deleted v))] true.

#[export] Instance debug_ExpenseDraftView : Debug ReceiptTypes.ExpenseDraftView := fun v =>
  DStruct (s! "ExpenseDraftView")
    [(s! "draft_id", hidden); (s! "submission_id", hidden); (s! "account_id", hidden); (s! "amount_minor", hidden);
     (s! "currency", DStr (ReceiptTypes.currency v)); (s! "merchant", hidden);
     (s! "category_key", DStr (ReceiptTypes.category_key v)); (s! "transaction_type", DStr (ReceiptTypes.transaction_type v));
     (s! "occurred_at", hidden); (s! "confidence", hidden); (s! "version", DInt (ReceiptTypes.version v))] true.

#[export] Instance debug_EditDraftRequest : Debug ReceiptTypes.EditDraftRequest := fun r =>
  DStruct (s! "EditDraftRequest")
    [(s! "account_id", hidden); (s! "submission_id", hidden);
     (s! "expected_version", DInt (ReceiptTypes.ed_expected_version r));
     (s! "amount_minor", redacted_opt (ReceiptTypes.ed_amount_minor r));
     (s! "currency", DOpt DStr (ReceiptTypes.ed_currency r)); (s! "merchant", redacted_opt (ReceiptTypes.ed_merchant r));
     (s! "category_key", DOpt DStr (ReceiptTypes.ed_category_key r));
     (s! "occurred_at", redacted_opt (ReceiptTypes.ed_occurred_at r));
     (s! "transaction_type", DOpt DStr (ReceiptTypes.ed_transaction_type r))] true.

#[export] Instance debug_ConfirmRequest : Debug ReceiptTypes.ConfirmRequest := fun r =>
  DStruct (s! "ConfirmRequest")
    [(s! "account_id", hidden); (s! "submission_id", hidden);
     (s! "expected_draft_version", DInt (ReceiptTypes.cf_expected_draft_version r)); (s! "expense_id", hidden)] true.

#[export] Instance debug_ConfirmOutcome : Debug ReceiptTypes.ConfirmOutcome := fun o =>
  match o with
  | ReceiptTypes.CConfirmed _ => DStruct (s! "Confirmed") [(s! "expense_id", hidden)] true
  | ReceiptTypes.CAlreadyConfirmed _ => DStruct (s! "AlreadyConfirmed") [(s! "expense_id", hidden)] true
  end.

#[export] Instance debug_RejectRequest : Debug ReceiptTypes.RejectRequest := fun r =>
  DStruct (s! "RejectRequest")
    [(s! "account_id", hidden); (s! "submission_id", hidden);
     (s! "expected_draft_version", DInt (ReceiptTypes.rj_expected_draft_version r))] true.

#[export] Instance debug_ExtractionMeta : Debug ReceiptTypes.ExtractionMeta := fun x =>
  DStruct (s! "ExtractionMeta")
    [(s! "provider", DStr (ReceiptTypes.provider x)); (s! "model", DStr (ReceiptTypes.model x));
     (s! "profile_name", DStr (ReceiptTypes.profile_name x)); (s! "prompt_version", DStr (ReceiptTypes.prompt_version x));
     (s! "input_tokens", DOpt DInt (ReceiptTypes.input_tokens x));
     (s! "output_tokens", DOpt DInt (ReceiptTypes.output_tokens x))] true.

#[export] Instance debug_ExtractionResult : Debug ReceiptTypes.ExtractionResult := fun x =>
  DStruct (s! "ExtractionResult")
    [(s! "merchant", hidden); (s! "amount_minor", hidden); (s! "currency", DStr (ReceiptTypes.x_currency x));
     (s! "category_key", DStr (ReceiptTypes.x_category_key x));
     (s! "transaction_type", DStr (ReceiptTypes.x_transaction_type x)); (s! "occurred_at", hidden);
     (s! "confidence", hidden); (s! "unsupported", DBool (ReceiptTypes.x_unsupported x))] true.

#[export] Instance debug_ExtractedAttempt : Debug ReceiptTypes.ExtractedAttempt := fun x =>
  DStruct (s! "ExtractedAttempt")
    [(s! "result", debug (ReceiptTypes.x_result x)); (s! "meta", debug (ReceiptTypes.x_meta x))] true.

(** ** [provider/types.rs] and [provider/error.rs] *)

#[export] Instance debug_ZaloHttpConfig : Debug Provider.ZaloHttpConfig := fun c =>
  DStruct (s! "ZaloHttpConfig")
    [(s! "api_base", DStr (Provider.api_base c)); (s! "bot_token", hidden); (s! "webhook_secret", hidden);
     (s! "provider_scope", DStr (Provider.cfg_provider_scope c));
     (s! "request_timeout", DDuration (Provider.request_timeout_secs c))] true.

#[export] Instance debug_NormalizedInboundText : Debug Provider.NormalizedInboundText := fun t =>
  DStruct (s! "NormalizedInboundText")
    [(s! "provider_scope", DStr (Provider.nt_provider_scope t)); (s! "event_id", hidden); (s! "sender_id", hidden);
     (s! "chat_id", hidden); (s! "text", hidden); (s! "received_at", DTime (Provider.nt_received_at t));
     (s! "kind", debug_InboundEventKind (Provider.nt_kind t))] true.

#[export] Instance debug_NormalizedInboundImage : Debug Provider.NormalizedInboundImage := fun i =>
  DStruct (s! "NormalizedInboundImage")
    [(s! "provider_scope", DStr (Provider.ni_provider_scope i)); (s! "event_id", hidden); (s! "sender_id", hidden);
     (s! "chat_id", hidden); (s! "image_url", hidden); (s! "caption", hidden);
     (s! "received_at", DTime (Provider.ni_received_at i)); (s! "kind", debug_InboundEventKind (Provider.ni_kind i))] true.

#[export] Instance debug_MediaDownloadPolicy : Debug Media.MediaDownloadPolicy := fun p =>
  DStruct (s! "MediaDownloadPolicy")
    [(s! "host_suffixes", DList (map DStr (Media.host_suffixes p))); (s! "max_bytes", DInt (Media.max_bytes p));
     (s! "total_timeout", DDuration (Media.total_timeout p));
     (s! "max_redirects", DInt (Z.of_nat (Media.max_redirects p))); (s! "require_https", DBool (Media.require_https p));
     (s! "permit_private_resolved_addresses", DBool (Media.permit_private_resolved_addresses p));
     (s! "allowed_explicit_port", DOpt DInt (Media.allowed_explicit_port p))] true.

#[export] Instance debug_MediaDownloadResult : Debug Jobs.MediaDownloadResult := fun r =>
  DStruct (s! "MediaDownloadResult")
    [(s! "bytes_len", DInt (Z.of_nat (length (Jobs.bytes r))));
     (s! "content_type_present", DBool (bool_decide (is_Some (Jobs.content_type r))))] true.

#[export] Instance debug_ZaloProviderError : Debug Provider.ZaloProviderError := fun e =>
  DStruct (s! "ZaloProviderError")
    [(s! "class", debug_ErrorClass (Provider.pe_class e)); (s! "message", DStr (Provider.redacted_message e))] false.

(** ** [work/types.rs] *)

Record VersionedPayload := { vp_schema_version : Z; vp_body : Work.json }.
#[export] Instance debug_VersionedPayload : Debug VersionedPayload := fun p =>
  DStruct (s! "VersionedPayload") [(s! "schema_version", DInt (vp_schema_version p)); (s! "body", hidden)] true.

#[export] Instance debug_EnqueueRequest : Debug Work.EnqueueRequest := fun r =>
  DStruct (s! "EnqueueRequest")
    [(s! "id", DUuid (Work.req_id r)); (s! "job_type", DStr (Work.req_job_type r)); (s! "payload", hidden);
     (s! "dedupe_key", hidden); (s! "serialization_key", redacted_opt (Work.req_serialization_key r));
     (s! "priority", DInt (Work.req_priority r)); (s! "run_at", DTime (Work.req_run_at r));
     (s! "max_attempts", DInt (Work.req_max_attempts r))] true.

#[export] Instance debug_ClaimedJob : Debug Work.ClaimedJob := fun j =>
  DStruct (s! "ClaimedJob")
    [(s! "id", DUuid (Work.cl_id j)); (s! "job_type", DStr (Work.cl_job_type j)); (s! "payload", hidden);
     (s! "payload_version", DInt (Work.cl_payload_version j)); (s! "attempt_number", DInt (Work.cl_attempt_number j));
     (s! "lease_token", hidden); (s! "lease_owner", DStr (Work.cl_lease_owner j));
     (s! "lease_deadline", DTime (Work.cl_lease_deadline j)); (s! "dedupe_key", hidden);
     (s! "serialization_key", redacted_opt (Work.cl_serialization_key j))] true.

#[export] Instance debug_JobSummary : Debug Work.JobSummary := fun s =>
  let j := s.2 in
  DStruct (s! "JobSummary")
    [(s! "id", DUuid s.1); (s! "job_type", DStr (Work.job_type j)); (s! "payload_version", DInt (Work.payload_version j));
     (s! "state", debug_JobState (Work.state j)); (s! "priority", DInt (Work.priority j)); (s! "run_at", DTime (Work.run_at j));
     (s! "dedupe_key", hidden); (s! "serialization_key", redacted_opt (Work.serialization_key j));
     (s! "attempt_count", DInt (Work.attempt_count j)); (s! "max_attempts", DInt (Work.max_attempts j));
     (s! "last_error_class", DOpt DStr (Work.last_error_class j))] true.

(** ** The object stores and the Gemini configuration *)

Definition debug_InMemoryObjectStore (o : gmap rstr (list Z)) : dbg :=
  DStruct (s! "InMemoryObjectStore") [(s! "object_count", DInt (Z.of_nat (size o)))] true.
#[export] Instance debug_FilesystemObjectStore : Debug FsStore.FilesystemObjectStore := fun _ =>
  DStruct (s! "FilesystemObjectStore") [(s! "root", hidden)] true.
#[export] Instance debug_S3CompatibleObjectStore `{UrlLib} : Debug S3Store.S3CompatibleObjectStore := fun s =>
  DStruct (s! "S3CompatibleObjectStore")
    [(s! "bucket", DStr (S3Store.s3_bucket s)); (s! "region", DStr (S3Store.s3_region s));
     (s! "force_path_style", DBool (S3Store.s3_force_path_style s))] true.

(** The configuration of the extractor, with its timeout. *)
Record GeminiExtractorConfig := { gc_extractor : Extractors.GeminiHttpExtractor; gc_timeout_seconds : Z }.
#[export] Instance debug_GeminiExtractorConfig : Debug GeminiExtractorConfig := fun c =>
  let g := gc_extractor c in
  DStruct (s! "GeminiExtractorConfig")
    [(s! "api_base", hidden); (s! "model", DStr (Extractors.g_model g));
     (s! "profile_name", DStr (Extractors.g_profile_name g)); (s! "timeout", DDuration (gc_timeout_seconds c));
     (s! "max_input_bytes", DInt (Extractors.g_max_input_bytes g));
     (s! "max_output_tokens", DInt (Extractors.g_max_output_tokens g));
     (s! "thinking_effort", DStr (Extractors.g_thinking_effort g));
     (s! "schema_version", DStr (Extractors.g_schema_version g))] false.

End DebugText.

(** ** Logs do not show secrets *)

Module DebugProps.
Import Db DebugText.
#[local] Opaque lit.

Section Secrets.
Context {FD : FmtDebug} {UT : UuidText} {UL : UrlLib}.

(** The text of a value depends only on what [shown] gives of it. *)
Definition shows_only {A B} `{Debug A} (shown : A -> B) : Prop :=
  forall a b, shown a = shown b -> debug_text a = debug_text b.
Definition present {A} (o : option A) : bool := match o with Some _ => true | None => false end.

Lemma redacted_present {A} (a b : option A) : present a = present b -> redacted_opt a = redacted_opt b.
Proof. by destruct a, b. Qed.

Ltac same_text :=
  intros a b E; unfold debug_text; f_equal; unfold debug;
  repeat match type of E with (_, _) = (_, _) => apply pair_equal_spec in E as [E ?] end;
  repeat match goal with H : present _ = present _ |- _ => apply redacted_present in H end.

Lemma claimed_job_shows : shows_only (fun j : Work.ClaimedJob =>
  (Work.cl_id j, Work.cl_job_type j, Work.cl_payload_version j, Work.cl_attempt_number j, Work.cl_lease_owner j,
   Work.cl_lease_deadline j, present (Work.cl_serialization_key j))).
Proof. same_text. unfold debug_ClaimedJob. congruence. Qed.
Lemma enqueue_request_shows : shows_only (fun r : Work.EnqueueRequest =>
  (Work.req_id r, Work.req_job_type r, present (Work.req_serialization_key r), Work.req_priority r, Work.req_run_at r,
   Work.req_max_attempts r)).
Proof. same_text. unfold debug_EnqueueRequest. congruence. Qed.

Lemma media_result_shows : shows_only (fun r : Jobs.MediaDownloadResult => (length (Jobs.bytes r), present (Jobs.content_type r))).
Proof.
  intros a b E. apply pair_equal_spec in E as [E1 E2]. unfold debug_text, debug, debug_MediaDownloadResult. rewrite E1.
  by destruct (Jobs.content_type a), (Jobs.content_type b).
Qed.

(** Logs keep secrets: the [Debug] text of a value is a function of the fields that may
    be shown - of a job, not its payload, lease token and keys; of the adapter, not its
    token and webhook secret; of an event, not who wrote it nor what; of a receipt, not the
    amount, the merchant or the day; of the extractor and the object store, not their
    credentials - so two values that differ only in the others are logged alike. *)
Theorem debug_hides_secrets :
  (* jobs: not the payload, the lease token or the keys *)
  shows_only (fun j : Work.ClaimedJob =>
    (Work.cl_id j, Work.cl_job_type j, Work.cl_payload_version j, Work.cl_attempt_number j, Work.cl_lease_owner j,
     Work.cl_lease_deadline j, present (Work.cl_serialization_key j)))
  /\ shows_only (fun r : Work.EnqueueRequest =>
    (Work.req_id r, Work.req_job_type r, present (Work.req_serialization_key r), Work.req_priority r, Work.req_run_at r,
     Work.req_max_attempts r))
  (* the adapter: not the token or the webhook secret; events: not who wrote what *)
  /\ shows_only (fun c : Provider.ZaloHttpConfig =>
    (Provider.api_base c, Provider.cfg_provider_scope c, Provider.request_timeout_secs c))
  /\ shows_only (fun t : Provider.NormalizedInboundText =>
    (Provider.nt_provider_scope t, Provider.nt_received_at t, Provider.nt_kind t))
  /\ shows_only (fun i : Provider.NormalizedInboundImage =>
    (Provider.ni_provider_scope i, Provider.ni_received_at i, Provider.ni_kind i))
  /\ shows_only (fun r : Jobs.MediaDownloadResult => (length (Jobs.bytes r), present (Jobs.content_type r)))
  (* receipts: not the amount, the merchant, the day or whose they are *)
  /\ shows_only (fun v : ReceiptTypes.ExpenseDraftView =>
    (ReceiptTypes.currency v, ReceiptTypes.category_key v, ReceiptTypes.transaction_type v, ReceiptTypes.version v))
  /\ shows_only (fun x : ReceiptTypes.ExtractedAttempt =>
    (ReceiptTypes.x_currency (ReceiptTypes.x_result x), ReceiptTypes.x_category_key (ReceiptTypes.x_result x),
     ReceiptTypes.x_transaction_type (ReceiptTypes.x_result x), ReceiptTypes.x_unsupported (ReceiptTypes.x_result x),
     ReceiptTypes.x_meta x))
  /\ shows_only (fun r : ReceiptTypes.EditDraftRequest =>
    (ReceiptTypes.ed_expected_version r, present (ReceiptTypes.ed_amount_minor r), ReceiptTypes.ed_currency r,
     present (ReceiptTypes.ed_merchant r), ReceiptTypes.ed_category_key r, present (ReceiptTypes.ed_occurred_at r),
     ReceiptTypes.ed_transaction_type r))
  (* credentials of the extractor and of the object store *)
  /\ shows_only (fun c : GeminiExtractorConfig =>
    (Extractors.g_model (gc_extractor c), Extractors.g_profile_name (gc_extractor c), gc_timeout_seconds c,
     Extractors.g_max_input_bytes (gc_extractor c), Extractors.g_max_output_tokens (gc_extractor c),
     Extractors.g_thinking_effort (gc_extractor c), Extractors.g_schema_version (gc_extractor c)))
  /\ shows_only (fun s : S3Store.S3CompatibleObjectStore =>
    (S3Store.s3_bucket s, S3Store.s3_region s, S3Store.s3_force_path_style s)).
Proof.
  split; [exact claimed_job_shows|]. split; [exact enqueue_request_shows|].
  do 3 (split; [same_text; unfold debug_ZaloHttpConfig, debug_NormalizedInboundText, debug_NormalizedInboundImage; congruence|]).
  split; [exact media_result_shows|]. repeat split; same_text;
    unfold debug_ExpenseDraftView, debug_ExtractedAttempt, debug_EditDraftRequest, debug_GeminiExtractorConfig,
      debug_S3CompatibleObjectStore, debug, debug_ExtractionResult; congruence.
Qed.
End Secrets.
End DebugProps.
