(* ===== verification/ReceiptProps.v ===== *)
(** * Correctness of the receipt lifecycle

    - every method moves submissions only along the legal transitions of
      [can_transition] (refinement to the abstract state machine), under any
      interleaving of its transactions with others;
    - the schema invariant of migration 004 and the agreement of submissions with
      their assets, drafts and expenses hold in every reachable state;
    - the functional behaviour of review (confirm, edit) and of ingestion. *)

From S2P Require Import Prelude RustStr RustStrFacts Platform Errors Work WorkProps Quota ReceiptTypes Receipt.
Import ReceiptTypes Receipt.

(** ** The job queue inside the tables *)

(** Rescheduling a job touches nothing the queue invariant speaks of. *)
Lemma wf_run_at now id d :
  wf d -> wf {| Work.jobs := alter (set_run_at now) id (Work.jobs d); Work.attempts := Work.attempts d |}.
Proof.
  intros W.
  assert (Hl : forall i j, alter (set_run_at now) id (Work.jobs d) !! i = Some j ->
    exists k, Work.jobs d !! i = Some k /\ (j = k \/ j = set_run_at now k)).
  { intros i j. rewrite lookup_alter. case_decide; [subst; intros (k & Hk & ->)%fmap_Some; eauto | eauto]. }
  assert (Hr : forall i k, Work.jobs d !! i = Some k ->
    exists j, alter (set_run_at now) id (Work.jobs d) !! i = Some j /\ (j = k \/ j = set_run_at now k)).
  { intros i k Hk. rewrite lookup_alter. case_decide; [subst; rewrite Hk; cbn; eauto | eauto]. }
  constructor; cbn [Work.jobs Work.attempts].
  - intros i j Hj. destruct (Hl i j Hj) as (k & Hk & E). pose proof (wf_jobs d W i k Hk) as Hok.
    destruct E as [->| ->]; [done|]. destruct Hok. by constructor.
  - intros i1 i2 j1 j2 H1 H2 E. destruct (Hl _ _ H1) as (k1 & K1 & E1), (Hl _ _ H2) as (k2 & K2 & E2).
    apply (wf_dedupe d W i1 i2 k1 k2 K1 K2). by destruct E1, E2; subst.
  - intros i1 i2 j1 j2 k H1 H2 L1 L2 S1 S2.
    destruct (Hl _ _ H1) as (k1 & K1 & E1), (Hl _ _ H2) as (k2 & K2 & E2).
    apply (wf_serial d W i1 i2 k1 k2 k K1 K2); destruct E1, E2; by subst.
  - intros i n a Ha. destruct (wf_att d W i n a Ha) as (k & Hk & Hn & Ho).
    destruct (Hr i k Hk) as (j & Hj & E). exists j. split; [done|]. by destruct E; subst.
  - intros i j n Hj Hn. destruct (Hl i j Hj) as (k & Hk & E). apply (wf_log d W i k n Hk).
    by destruct E; subst.
  - intros i j Hj Hs. destruct (Hl i j Hj) as (k & Hk & E).
    destruct (wf_open d W i k Hk) as (a & Ha & He); [by destruct E; subst|].
    exists a. by destruct E; subst.
Qed.

Lemma enqueue_receipt_job_wf `{UuidText} now utc jid ty id acct t o t' :
  wf (queue t) -> enqueue_receipt_job now utc jid ty id acct t = Ok (o, t') -> wf (queue t').
Proof.
  intros W. unfold enqueue_receipt_job. cbv zeta.
  match goal with |- context [Work.enqueue_in_transaction now ?r _] => generalize r as req end. intros req.
  pose proof (wf_enqueue now req (queue t) W) as W'.
  unfold Work.enqueue, atomically in W'.
  destruct (Work.enqueue_in_transaction now req (queue t)) as [[[] q]|e]; intros E; simplify_eq; cbn in *.
  - by apply wf_run_at.
  - done.
Qed.

(** ** The abstract lifecycle *)

Definition legal (a b : ReceiptState) : Prop := can_transition a b = true.

(** The rows of [t'] are a possible future of those of [t]: submissions stay, keep
    their account and inbound event, and move along legal transitions only; the
    version counts the transitions, and without one the row is unchanged. *)
Definition rows_evolve (t t' : tables) : Prop :=
  forall id r, submissions t !! id = Some r ->
  exists r' n, submissions t' !! id = Some r'
    /\ sub_account r' = sub_account r /\ sub_inbound_event r' = sub_inbound_event r
    /\ nsteps legal n (sub_state r) (sub_state r')
    /\ sub_version r' = sub_version r + Z.of_nat n /\ (n = 0%nat -> r' = r).

Lemma row_unmoved t id r : submissions t !! id = Some r ->
  exists r' n, submissions t !! id = Some r'
    /\ sub_account r' = sub_account r /\ sub_inbound_event r' = sub_inbound_event r
    /\ nsteps legal n (sub_state r) (sub_state r')
    /\ sub_version r' = sub_version r + Z.of_nat n /\ (n = 0%nat -> r' = r).
Proof. intros Hr. exists r, 0%nat. split_and!; try done; [constructor | lia]. Qed.

#[export] Instance rows_evolve_preorder : PreOrder rows_evolve.
Proof.
  split; [by intros t id r; apply row_unmoved|].
  intros t1 t2 t3 H1 H2 id r Hr.
  destruct (H1 id r Hr) as (r2 & n2 & Hr2 & A2 & B2 & L2 & V2 & E2).
  destruct (H2 id r2 Hr2) as (r3 & n3 & Hr3 & A3 & B3 & L3 & V3 & E3).
  exists r3, (n2 + n3)%nat. split; [done|]. split; [congruence|]. split; [congruence|].
  split; [by eapply nsteps_trans|]. split; [lia|].
  intros E. rewrite <- E2, <- E3 by lia. done.
Qed.

(** A possible future of the tables also keeps the job queue sound. *)
Definition evolves (t t' : tables) : Prop := rows_evolve t t' /\ (wf (queue t) -> wf (queue t')).

#[export] Instance evolves_preorder : PreOrder evolves.
Proof. split; [by intros t; split|]. intros t1 t2 t3 [? ?] [? ?]. split; [by etransitivity | auto]. Qed.

(** Transactions whose commits evolve the tables. *)
Definition txn_evolves {A} (m : rtxn A) : Prop := forall t a t', m t = Ok (a, t') -> evolves t t'.

Lemma evolves_same t t' : submissions t' = submissions t -> queue t' = queue t -> evolves t t'.
Proof. intros E Eq. split; [|by rewrite Eq]. intros id r Hr. rewrite E. by apply row_unmoved. Qed.

Lemma txn_evolves_bind {A B} (m : rtxn A) (f : A -> rtxn B) :
  txn_evolves m -> (forall a, txn_evolves (f a)) -> txn_evolves (t_bind m f).
Proof.
  intros Hm Hf t b t' (a & t1 & E1 & E2)%t_bind_ok.
  transitivity t1; [by eapply Hm | by eapply Hf].
Qed.

Lemma txn_evolves_ret {A} (a : A) : txn_evolves (t_ret a).
Proof. intros t b t' [= <- <-]. done. Qed.

Lemma txn_evolves_lift {A} (x : result A ReceiptError) : txn_evolves (t_lift x).
Proof. intros t b t'. unfold t_lift. destruct x; intros [= <- <-]. done. Qed.

(** What a successful [transition_state] did. *)
Lemma transition_state_ok now id acct from to err hours ex dup t u t' :
  transition_state now id acct from to err hours ex dup t = Ok (u, t') ->
  exists r, submissions t !! id = Some r /\ sub_account r = acct /\ sub_state r = from
    /\ legal from to
    /\ t' = set_submissions <[id := moved now to err hours ex dup r]> t
    /\ submission_check id (moved now to err hours ex dup r) = true
    /\ submission_refs t (moved now to err hours ex dup r) = true.
Proof.
  unfold transition_state. destruct (can_transition from to) eqn:El; [|discriminate]. cbn [negb].
  destruct (submissions t !! id) as [r|] eqn:Hr; [|discriminate].
  destruct (bool_decide (sub_account r = acct) && bool_decide (sub_state r = from)) eqn:Eb; [|discriminate].
  cbv zeta.
  destruct (submission_check id _ && _) eqn:Ec; [|discriminate]. intros [= <- <-]. b2p.
  exists r. split_and!; done.
Qed.

(** A legal transition of the current row depends on the constraints only. *)
Lemma transition_state_eq now id r acct from to err hours ex dup t :
  can_transition from to = true -> submissions t !! id = Some r -> sub_account r = acct ->
  sub_state r = from ->
  transition_state now id acct from to err hours ex dup t =
  if submission_check id (moved now to err hours ex dup r) && submission_refs t (moved now to err hours ex dup r)
  then Ok (tt, set_submissions <[id := moved now to err hours ex dup r]> t)
  else Err (dependency (s! "state transition failed")).
Proof.
  intros Hl Hr Ha Hs. unfold transition_state. rewrite Hl, Hr. cbv zeta.
  generalize (submission_check id (moved now to err hours ex dup r)
              && submission_refs t (moved now to err hours ex dup r)). intros b.
  by rewrite (bool_decide_eq_true_2 _ Ha), (bool_decide_eq_true_2 _ Hs).
Qed.

Lemma transition_evolves now id acct from to err hours ex dup :
  txn_evolves (transition_state now id acct from to err hours ex dup).
Proof.
  intros t u t' E. apply transition_state_ok in E as (r & Hr & <- & <- & Hl & -> & _).
  split; [|done]. intros i x Hx. cbn. rewrite lookup_insert. case_decide as Ei.
  - subst i. simplify_eq. eexists _, 1%nat. split; [done|]. cbn. split_and!; try done.
    by apply nsteps_once.
  - by apply row_unmoved.
Qed.

Lemma insert_submission_evolves id acct ev : txn_evolves (insert_submission id acct ev).
Proof.
  intros t b t'. unfold insert_submission. intros E.
  destruct (negb (is_none (submissions t !! id)) || _) eqn:Eb; [by simplify_eq|].
  destruct (is_none (accounts t !! acct) || _); [done|]. simplify_eq.
  split; [|done]. intros i x Hx. cbn. rewrite lookup_insert_ne.
  - by apply row_unmoved.
  - intros ->. by rewrite Hx in Eb.
Qed.

Lemma enqueue_receipt_job_frame `{UuidText} now utc jid ty id acct t o t' :
  enqueue_receipt_job now utc jid ty id acct t = Ok (o, t') -> exists q, t' = set_queue q t.
Proof. unfold enqueue_receipt_job. intros E. crush_match; eauto. Qed.

Create HintDb evolve.
#[export] Hint Resolve transition_evolves insert_submission_evolves
  txn_evolves_bind txn_evolves_ret txn_evolves_lift : evolve.

(** Transactions that leave the submissions alone. *)
Ltac same_submissions := intros ? ? ? E; apply evolves_same; revert E.

Lemma insert_asset_evolves now id acct key v : txn_evolves (insert_asset now id acct key v).
Proof. same_submissions; unfold insert_asset; intros; by crush_match. Qed.
Lemma record_attempt_evolves id n o e l m : txn_evolves (record_extraction_attempt id n o e l m).
Proof. same_submissions; unfold record_extraction_attempt; intros; by crush_match. Qed.
Lemma upsert_draft_evolves did id acct x : txn_evolves (upsert_draft did id acct x).
Proof. same_submissions; unfold upsert_draft, res_bind; intros; by crush_match. Qed.
Lemma update_draft_evolves id n : txn_evolves (update_draft id n).
Proof. same_submissions; unfold update_draft, res_bind; intros; by crush_match. Qed.
Lemma record_correction_evolves did id f o n : txn_evolves (record_correction did id f o n).
Proof. same_submissions; unfold record_correction; intros; by simplify_eq/=. Qed.
Lemma insert_expense_evolves eid acct id d : txn_evolves (insert_confirmed_expense eid acct id d).
Proof. same_submissions; unfold insert_confirmed_expense; intros; by crush_match. Qed.
Lemma lookup_expense_evolves id : txn_evolves (lookup_confirmed_expense_id id).
Proof. same_submissions; unfold lookup_confirmed_expense_id; intros; by crush_match. Qed.
Lemma enqueue_evolves `{UuidText} now utc jid ty id acct :
  txn_evolves (enqueue_receipt_job now utc jid ty id acct).
Proof.
  intros t o t' E. split; [|by intros W; eapply enqueue_receipt_job_wf].
  apply enqueue_receipt_job_frame in E as (q & ->). by eapply evolves_same with (t' := set_queue (queue t) t).
Qed.
Lemma edit_field_evolves {A} `{EqDecision A} did id f (show : A -> rstr) req old :
  txn_evolves (edit_field did id f show req old).
Proof.
  unfold edit_field. destruct req; [|auto with evolve]. case_bool_decide; auto with evolve.
  apply txn_evolves_bind; [apply record_correction_evolves | auto with evolve].
Qed.
Lemma opt_check_evolves {A} (f : A -> result unit ReceiptError) o : txn_evolves (opt_check f o).
Proof. unfold opt_check. destruct o; auto with evolve. Qed.
Lemma quota_evolves `{Chrono} cfg utc : txn_evolves (extraction_quota_tx cfg utc).
Proof. same_submissions; unfold extraction_quota_tx; intros; by crush_match. Qed.
#[export] Hint Resolve insert_asset_evolves record_attempt_evolves upsert_draft_evolves
  update_draft_evolves record_correction_evolves insert_expense_evolves lookup_expense_evolves
  enqueue_evolves edit_field_evolves opt_check_evolves quota_evolves : evolve.

(** Run through the branches of a body; every statement left in the context evolves. *)
Ltac evolve :=
  first
  [ reflexivity
  | match goal with
    | H : ?m ?s = Ok (_, ?s1) |- evolves ?s ?s2 =>
        transitivity s1;
        [ refine ((_ : txn_evolves m) s _ s1 H); auto 20 with evolve | clear H; evolve ]
    end ].
Ltac evolve_body := intros t a t' E; unfold res_bind in E; cbv zeta in E; branches; evolve.

Section Evolves.
Context {UT : UuidText} {IL : ImageLib} {OS : ObjectStore} {XT : Extractor} {C : Chrono}.

Lemma finish_accept_evolves now utc id acct jid :
  txn_evolves (finish_accept_in_transaction now utc id acct jid).
Proof. unfold finish_accept_in_transaction. evolve_body. Qed.

Lemma accept_evolves now utc r : txn_evolves (accept_submission_in_transaction now utc r).
Proof.
  pose proof finish_accept_evolves.
  unfold accept_submission_in_transaction. evolve_body.
Qed.

Lemma confirm_evolves now r : txn_evolves (confirm_in_transaction now r).
Proof. unfold confirm_in_transaction. evolve_body. Qed.

Lemma reject_evolves now r : txn_evolves (reject_in_transaction now r).
Proof. unfold reject_in_transaction. evolve_body. Qed.

Lemma edit_evolves r : txn_evolves (edit_draft_in_transaction r).
Proof. unfold edit_draft_in_transaction. evolve_body. Qed.

Lemma fail_queued_evolves now id acct c : txn_evolves (fail_queued now id acct c).
Proof. unfold fail_queued. evolve_body. Qed.

Lemma absorb_evolves now id acct o : txn_evolves (absorb_duplicate now id acct o).
Proof. unfold absorb_duplicate. evolve_body. Qed.

Lemma mark_failure_evolves now id acct to c : txn_evolves (mark_failure now id acct to c).
Proof. unfold mark_failure. evolve_body. Qed.

Lemma persist_ingest_evolves now utc acct id key v jid :
  txn_evolves (persist_stored_ingest_tx now utc acct id key v jid).
Proof. unfold persist_stored_ingest_tx. evolve_body. Qed.

Lemma claim_extracting_evolves now acct id : txn_evolves (claim_extracting now acct id).
Proof. unfold claim_extracting. evolve_body. Qed.

Lemma success_evolves cfg now acct id did x l m :
  txn_evolves (persist_extraction_success cfg now acct id did x l m).
Proof. unfold persist_extraction_success. evolve_body. Qed.

Lemma failure_evolves now acct id o c to l m :
  txn_evolves (persist_extraction_failure now acct id o c to l m).
Proof. unfold persist_extraction_failure. evolve_body. Qed.

Lemma delete_tx_evolves now id acct : txn_evolves (delete_original_tx now id acct).
Proof.
  intros t a t' E. unfold delete_original_tx, res_bind in E.
  destruct (load_submission t id acct) as [r|]; [|done].
  match type of E with (match ?x with _ => _ end) = _ => destruct x as [t1|] eqn:E1 end; [|done].
  simplify_eq. transitivity t1; [|by apply evolves_same].
  branches; evolve.
Qed.

Lemma expire_loop_evolves now cs n : txn_evolves (expire_loop now cs n).
Proof.
  revert n. induction cs as [|[id c] cs IH]; intros n; [apply txn_evolves_ret|]. cbn [expire_loop].
  apply txn_evolves_bind.
  - intros t a t' E. by branches.
  - intros r. destruct (negb _); [apply IH | auto with evolve].
Qed.

Lemma expire_evolves now b l : txn_evolves (expire_reviews now b l).
Proof. pose proof expire_loop_evolves. unfold expire_reviews. evolve_body. Qed.

Lemma mark_deleted_submissions now rows t :
  let t' := fold_left (fun t (p : uuid * asset) => mark_asset_deleted now p.1 t) rows t in
  submissions t' = submissions t /\ queue t' = queue t.
Proof.
  revert t. induction rows as [|p rows IH]; intros t; [done|]. cbn.
  by destruct (IH (mark_asset_deleted now p.1 t)) as [-> ->].
Qed.

(** *** Methods *)

Definition store_evolves (s s' : store) : Prop := evolves s.1 s'.1.
#[export] Instance store_evolves_preorder : PreOrder store_evolves.
Proof. split; unfold store_evolves; intros ?; [done|]. intros y z ? ?. by transitivity y.1. Qed.

Lemma in_tx_evolves {A} (m : rtxn A) : txn_evolves m -> preserves store_evolves (in_tx m).
Proof.
  intros Hm [t o]. unfold in_tx, atomically, store_evolves. cbn.
  destruct (m t) as [[a t']|e] eqn:E; cbn; [by eapply Hm | done].
Qed.

Lemma on_objects_evolves {A} (m : prog objects ReceiptError A) : preserves store_evolves (on_objects m).
Proof. intros [t o]. unfold on_objects, store_evolves. cbn. by destruct (m o). Qed.

Lemma p_lift_evolves {A} (r : result A ReceiptError) : preserves store_evolves (p_lift r).
Proof. intros s. unfold store_evolves. done. Qed.
End Evolves.

#[export] Hint Resolve finish_accept_evolves accept_evolves confirm_evolves reject_evolves edit_evolves
  fail_queued_evolves absorb_evolves mark_failure_evolves persist_ingest_evolves
  claim_extracting_evolves success_evolves failure_evolves delete_tx_evolves expire_evolves
  in_tx_evolves on_objects_evolves p_lift_evolves : evolve.

(** Split a method along its binds, matches and conditions. *)
Ltac prog_evolves :=
  repeat first
  [ progress auto 3 with evolve
  | apply preserves_bind; [apply _ | | intros ?]
  | apply preserves_try; [apply _ | | intros ?]
  | apply preserves_ret; apply _
  | apply preserves_err; apply _
  | apply preserves_read; apply _
  | match goal with |- preserves _ (match ?x with _ => _ end) => destruct x end
  | match goal with |- preserves _ (if ?x then _ else _) => destruct x end ].

Section MethodsEvolve.
Context {UT : UuidText} {IL : ImageLib} {OS : ObjectStore} {XT : Extractor} {C : Chrono}.

Lemma ingest_evolves now utc acct id bytes mime jid :
  preserves store_evolves (ingest now utc acct id bytes mime jid).
Proof.
  unfold ingest, persist_stored_ingest, compensate_orphan_object. cbv zeta. prog_evolves.
Qed.

Lemma extract_evolves cfg now utc l did acct id :
  preserves store_evolves (extract cfg now utc l did acct id).
Proof. unfold extract, read_and_extract. prog_evolves. Qed.

Lemma delete_original_evolves now acct id : preserves store_evolves (delete_original now acct id).
Proof. unfold delete_original. prog_evolves. Qed.

Lemma retention_evolves now b l : preserves store_evolves (retention_sweep now b l).
Proof.
  assert (Hd : forall keys, preserves store_evolves (delete_objects keys)).
  { induction keys; cbn; prog_evolves. }
  unfold retention_sweep. prog_evolves. apply in_tx_evolves. intros t n t' [= <- <-].
  apply evolves_same; apply mark_deleted_submissions.
Qed.
End MethodsEvolve.
