(* ===== verification/ReceiptFrame.v ===== *)
(** * What the receipt lifecycle leaves alone

    No transaction of the lifecycle touches accounts, inbound events or categories, and
    what it does to the job queue keeps the queue sound and every job's key. *)

From S2P Require Import Prelude RustStr RustStrFacts Platform Errors Work WorkProps Quota ReceiptTypes Receipt.
From S2P Require Import ReceiptProps.
Import ReceiptTypes Receipt.

(** ** Steps of the queue *)

Definition queue_step (q q' : Work.db) : Prop := wf q -> wf q' /\ keeps_keys q q'.

#[export] Instance queue_step_preorder : PreOrder queue_step.
Proof.
  split; [by intros q W|]. intros q1 q2 q3 H1 H2 W. destruct (H1 W) as [W2 K2]. destruct (H2 W2) as [W3 K3].
  split; [done|]. by etransitivity.
Qed.

Lemma exec_queue_step now o q : queue_step q (Work.exec now o q).
Proof. intros W. split; [by apply wf_exec | by apply exec_keeps]. Qed.

Lemma enqueue_queue_step now r q o q' :
  Work.enqueue_in_transaction now r q = Ok (o, q') -> queue_step q q'.
Proof.
  intros E. pose proof (exec_queue_step now (Work.OEnqueue r) q) as H. cbn in H.
  unfold Work.enqueue, atomically in H. by rewrite E in H.
Qed.

Lemma set_run_at_step now id q :
  queue_step q {| Work.jobs := alter (set_run_at now) id (Work.jobs q); Work.attempts := Work.attempts q |}.
Proof.
  intros W. split; [by apply wf_run_at|]. intros i j Hj. cbn. rewrite lookup_alter. case_decide; [|eauto].
  subst. rewrite Hj. cbn. eauto.
Qed.

(** ** The frame *)

Record rframe (t t' : tables) : Prop := {
  rf_accounts : accounts t' = accounts t;
  rf_events : inbound_events t' = inbound_events t;
  rf_categories : categories t' = categories t;
  rf_queue : queue_step (queue t) (queue t');
}.

#[export] Instance rframe_preorder : PreOrder rframe.
Proof.
  split; [by intros t; split|]. intros t1 t2 t3 [A1 B1 C1 D1] [A2 B2 C2 D2].
  split; [congruence..|]. by etransitivity.
Qed.

Abbreviation txn_frames m := (t_maintains rframe m).

Ltac frame_body :=
  let t := fresh "t" in let a := fresh "a" in let t' := fresh "t'" in let E := fresh "E" in
  intros t a t' E; unfold res_bind in E; cbv zeta in E; branches; by split.

Lemma transition_frames now id acct from to err hours ex dup :
  txn_frames (transition_state now id acct from to err hours ex dup).
Proof. unfold transition_state. frame_body. Qed.
Lemma insert_submission_frames id acct ev : txn_frames (insert_submission id acct ev).
Proof. unfold insert_submission. frame_body. Qed.
Lemma insert_asset_frames now id acct key v : txn_frames (insert_asset now id acct key v).
Proof. unfold insert_asset. frame_body. Qed.
Lemma record_attempt_frames id n o e l m : txn_frames (record_extraction_attempt id n o e l m).
Proof. unfold record_extraction_attempt. frame_body. Qed.
Lemma upsert_draft_frames did id acct x : txn_frames (upsert_draft did id acct x).
Proof. unfold upsert_draft. frame_body. Qed.
Lemma update_draft_frames id n : txn_frames (update_draft id n).
Proof. unfold update_draft. frame_body. Qed.
Lemma record_correction_frames did id f o n : txn_frames (record_correction did id f o n).
Proof. unfold record_correction. frame_body. Qed.
Lemma insert_expense_frames eid acct id d : txn_frames (insert_confirmed_expense eid acct id d).
Proof. unfold insert_confirmed_expense. frame_body. Qed.
Lemma lookup_expense_frames id : txn_frames (lookup_confirmed_expense_id id).
Proof. unfold lookup_confirmed_expense_id. frame_body. Qed.
Lemma edit_field_frames {A} `{EqDecision A} did id f (show : A -> rstr) req old :
  txn_frames (edit_field did id f show req old).
Proof.
  unfold edit_field. destruct req; [case_bool_decide|]; try apply t_maintains_ret, _.
  apply t_maintains_bind; [apply _ | apply record_correction_frames | intros; apply t_maintains_ret, _].
Qed.
Lemma opt_check_frames {A} (f : A -> result unit ReceiptError) o : txn_frames (opt_check f o).
Proof. destruct o; cbn; [apply t_maintains_lift, _ | apply t_maintains_ret, _]. Qed.
Lemma quota_frames `{Chrono} cfg utc : txn_frames (extraction_quota_tx cfg utc).
Proof. unfold extraction_quota_tx. frame_body. Qed.

Lemma enqueue_job_frames `{UuidText} now utc jid ty id acct :
  txn_frames (enqueue_receipt_job now utc jid ty id acct).
Proof.
  intros t o t'. unfold enqueue_receipt_job. cbv zeta.
  match goal with |- context [Work.enqueue_in_transaction now ?r _] => generalize r as req end. intros req.
  destruct (Work.enqueue_in_transaction now req (queue t)) as [[[] q]|e] eqn:E; intros Ht; simplify_eq;
    split; try done; cbn; apply enqueue_queue_step in E; [|done].
  etransitivity; [exact E | apply set_run_at_step].
Qed.

Create HintDb frame.
#[export] Hint Resolve transition_frames insert_submission_frames insert_asset_frames record_attempt_frames
  upsert_draft_frames update_draft_frames record_correction_frames insert_expense_frames lookup_expense_frames
  edit_field_frames opt_check_frames quota_frames enqueue_job_frames : frame.
#[export] Hint Extern 1 (t_maintains rframe (t_ret _)) => apply t_maintains_ret, _ : frame.
#[export] Hint Extern 1 (t_maintains rframe (t_lift _)) => apply t_maintains_lift, _ : frame.
#[export] Hint Extern 2 (t_maintains rframe (t_bind _ _)) => apply t_maintains_bind; [apply _ | | intros ?] : frame.
#[export] Hint Extern 3 (t_maintains rframe (match ?x with _ => _ end)) => destruct x : frame.

(** Every statement left in the context frames. *)
Ltac frames :=
  first
  [ reflexivity
  | match goal with
    | H : ?m ?s = Ok (_, ?s1) |- rframe ?s ?s2 =>
        transitivity s1;
        [ refine ((_ : txn_frames m) s _ s1 H); solve [auto 30 with frame] | clear H; frames ]
    end ].
Ltac frames_body :=
  let t := fresh "t" in let a := fresh "a" in let t' := fresh "t'" in let E := fresh "E" in
  intros t a t' E; unfold res_bind in E; cbv zeta in E; branches; frames.

Section Bodies.
Context {UT : UuidText} {IL : ImageLib} {OS : ObjectStore} {XT : Extractor} {C : Chrono}.

Lemma finish_accept_frames now utc id acct jid : txn_frames (finish_accept_in_transaction now utc id acct jid).
Proof. unfold finish_accept_in_transaction. frames_body. Qed.
Lemma accept_frames now utc r : txn_frames (accept_submission_in_transaction now utc r).
Proof. pose proof finish_accept_frames. unfold accept_submission_in_transaction. frames_body. Qed.
Lemma confirm_frames now r : txn_frames (confirm_in_transaction now r).
Proof. unfold confirm_in_transaction. frames_body. Qed.
Lemma reject_frames now r : txn_frames (reject_in_transaction now r).
Proof. unfold reject_in_transaction. frames_body. Qed.
Lemma edit_frames r : txn_frames (edit_draft_in_transaction r).
Proof. unfold edit_draft_in_transaction. frames_body. Qed.
Lemma fail_queued_frames now id acct c : txn_frames (fail_queued now id acct c).
Proof. unfold fail_queued. frames_body. Qed.
Lemma absorb_frames now id acct o : txn_frames (absorb_duplicate now id acct o).
Proof. unfold absorb_duplicate. frames_body. Qed.
Lemma mark_failure_frames now id acct to c : txn_frames (mark_failure now id acct to c).
Proof. unfold mark_failure. frames_body. Qed.
Lemma persist_ingest_frames now utc acct id key v jid :
  txn_frames (persist_stored_ingest_tx now utc acct id key v jid).
Proof. unfold persist_stored_ingest_tx. frames_body. Qed.
Lemma claim_extracting_frames now acct id : txn_frames (claim_extracting now acct id).
Proof. unfold claim_extracting. frames_body. Qed.
Lemma success_frames cfg now acct id did x l m : txn_frames (persist_extraction_success cfg now acct id did x l m).
Proof. unfold persist_extraction_success. frames_body. Qed.
Lemma failure_frames now acct id o c to l m : txn_frames (persist_extraction_failure now acct id o c to l m).
Proof. unfold persist_extraction_failure. frames_body. Qed.
Lemma expire_loop_frames now cs n : txn_frames (expire_loop now cs n).
Proof.
  revert n. induction cs as [|[id c] cs IH]; intros n; cbn [expire_loop]; [apply t_maintains_ret, _|].
  apply t_maintains_bind; [apply _ | frame_body | intros cur]. destruct (negb _); [apply IH|].
  apply t_maintains_bind; [apply _ | apply transition_frames | intros; apply IH].
Qed.
Lemma expire_frames now b l : txn_frames (expire_reviews now b l).
Proof. intros t a t'. unfold expire_reviews. case_match; [discriminate|]. apply expire_loop_frames. Qed.

Definition store_frames (s s' : store) : Prop := rframe s.1 s'.1.
#[export] Instance store_frames_preorder : PreOrder store_frames.
Proof. split; unfold store_frames; intros ?; [done|]. intros y z ? ?. by transitivity y.1. Qed.

Lemma in_tx_frames {A} (m : rtxn A) : txn_frames m -> preserves store_frames (in_tx m).
Proof.
  intros Hm [t o]. unfold in_tx, atomically, store_frames. cbn.
  destruct (m t) as [[a t']|e] eqn:E; cbn; [by eapply Hm | done].
Qed.
Lemma on_objects_frames {A} (m : prog objects ReceiptError A) : preserves store_frames (on_objects m).
Proof. intros [t o]. unfold on_objects, store_frames. cbn. by destruct (m o). Qed.
Lemma p_lift_frames {A} (r : result A ReceiptError) : preserves store_frames (p_lift r).
Proof. intros s. unfold store_frames. done. Qed.
Lemma mark_deleted_frames now rows t :
  rframe t (fold_left (fun t (p : uuid * asset) => mark_asset_deleted now p.1 t) rows t).
Proof.
  revert t. induction rows as [|p rows IH]; intros t; [done|]. cbn. etransitivity; [|apply IH]. by split.
Qed.
End Bodies.

#[export] Hint Resolve fail_queued_frames absorb_frames mark_failure_frames persist_ingest_frames
  claim_extracting_frames success_frames failure_frames expire_frames
  in_tx_frames on_objects_frames p_lift_frames : frame.

(** Split a method along its binds, matches and conditions. *)
Ltac prog_frames :=
  repeat first
  [ progress auto 3 with frame
  | apply preserves_bind; [apply _ | | intros ?]
  | apply preserves_try; [apply _ | | intros ?]
  | apply preserves_ret; apply _
  | apply preserves_err; apply _
  | apply preserves_read; apply _
  | match goal with |- preserves _ (match ?x with _ => _ end) => destruct x end
  | match goal with |- preserves _ (if ?x then _ else _) => destruct x end ].

Section Methods.
Context {UT : UuidText} {IL : ImageLib} {OS : ObjectStore} {XT : Extractor} {C : Chrono}.

Lemma ingest_frames now utc acct id bytes mime jid :
  preserves store_frames (ingest now utc acct id bytes mime jid).
Proof. unfold ingest, persist_stored_ingest, compensate_orphan_object. cbv zeta. prog_frames. Qed.
Lemma extract_frames cfg now utc l did acct id : preserves store_frames (extract cfg now utc l did acct id).
Proof. unfold extract, read_and_extract. prog_frames. Qed.
Lemma retention_frames now b l : preserves store_frames (retention_sweep now b l).
Proof.
  assert (Hd : forall keys, preserves store_frames (delete_objects keys)).
  { induction keys; cbn; prog_frames. }
  unfold retention_sweep. prog_frames. apply in_tx_frames. intros t n t' [= <- <-]. apply mark_deleted_frames.
Qed.
End Methods.
