(* ===== verification/ReceiptInv.v ===== *)
(** * The invariant of the receipt tables

    Every transaction of the lifecycle, in any order and interleaved with changes to
    accounts, inbound events and the job queue, keeps the schema constraints of
    migration 004 and the agreement between a submission and its asset, draft and
    expense. *)

From S2P Require Import Prelude RustStr RustStrFacts Platform Errors Work WorkProps Quota ReceiptTypes Receipt ReceiptProps.
Import ReceiptTypes Receipt.

(** ** What a state says about the other tables *)

Definition needs_asset (s : ReceiptState) : bool :=
  match s with
  | Stored | Extracting | ReviewRequired | Confirmed | Rejected | Expired | FailedTransient => true
  | _ => false
  end.
Definition may_have_asset (s : ReceiptState) : bool :=
  match s with Pending | Queued => false | _ => true end.
Definition needs_draft (s : ReceiptState) : bool :=
  match s with ReviewRequired | Confirmed | Rejected | Expired => true | _ => false end.
Definition may_have_draft (s : ReceiptState) : bool :=
  match s with Pending | Queued | Stored => false | _ => true end.

(** The CHECKs of [receipt_assets]. *)
Definition asset_check (a : asset) : Prop :=
  0 < as_size_bytes a <= MAX_IMAGE_BYTES /\ 0 < as_width_px a /\ 0 < as_height_px a
  /\ as_pixel_count a = as_width_px a * as_height_px a /\ as_pixel_count a <= MAX_PIXEL_COUNT
  /\ as_mime_type a ∈ ALLOWED_MIME_TYPES
  /\ (as_deletion_state a = AssetDeleted <-> is_Some (as_original_deleted_at a)).

(** The expense made from the draft of submission [id]. *)
Definition expense_of_draft (id : uuid) (d : ExpenseDraftView) (x : expense) : Prop :=
  ex_account x = dr_account_id d /\ ex_amount_minor x = amount_minor d /\ ex_currency x = currency d
  /\ ex_occurred_at x = occurred_at d /\ ex_description x = merchant d
  /\ ex_category_key x = category_key d /\ ex_transaction_type x = transaction_type d
  /\ ex_source x = s! "receipt" /\ ex_state x = s! "confirmed" /\ ex_receipt_submission x = Some id.

Definition asset_agrees (a : option asset) (r : submission) : Prop :=
  match a with
  | Some a => asset_check a /\ as_account a = sub_account r /\ may_have_asset (sub_state r) = true
              /\ (sub_state r = Deleted -> as_deletion_state a = AssetDeleted)
  | None => needs_asset (sub_state r) = false
  end.

Definition draft_agrees (cats : gset rstr) (d : option ExpenseDraftView) (r : submission) : Prop :=
  match d with
  | Some d => draft_check d = true /\ category_key d ∈ cats /\ dr_account_id d = sub_account r
              /\ may_have_draft (sub_state r) = true
  | None => needs_draft (sub_state r) = false
  end.

Record row_ok (t : tables) (id : uuid) (r : submission) : Prop := {
  row_check : submission_check id r = true;
  row_refs : submission_refs t r = true;
  row_asset : asset_agrees (assets t !! id) r;
  row_draft : draft_agrees (categories t) (drafts t !! id) r;
  row_expense : forall e x, expenses t !! e = Some x -> ex_receipt_submission x = Some id ->
    sub_confirmed_expense r = Some e /\ exists d, drafts t !! id = Some d /\ expense_of_draft id d x;
  row_confirmed : forall e, sub_confirmed_expense r = Some e ->
    exists x, expenses t !! e = Some x /\ ex_receipt_submission x = Some id;
}.

Record twf (t : tables) : Prop := {
  twf_rows : forall id r, submissions t !! id = Some r -> row_ok t id r;
  twf_none : forall id, submissions t !! id = None ->
    assets t !! id = None /\ drafts t !! id = None
    /\ forall e x, expenses t !! e = Some x -> ex_receipt_submission x <> Some id;
  twf_event : forall i j r q ev, submissions t !! i = Some r -> submissions t !! j = Some q ->
    sub_inbound_event r = Some ev -> sub_inbound_event q = Some ev -> i = j;
  twf_content : forall i j a b, assets t !! i = Some a -> assets t !! j = Some b ->
    as_deletion_state a = Active -> as_deletion_state b = Active ->
    as_account a = as_account b -> as_content_sha256 a = as_content_sha256 b -> i = j;
  twf_draft_id : forall i j d e, drafts t !! i = Some d -> drafts t !! j = Some e ->
    draft_id d = draft_id e -> i = j;
}.

(** ** Framing: a change at submission [id] *)

(** [t'] differs from [t] only in what belongs to submission [id]. *)
Record only_at (id : uuid) (t t' : tables) : Prop := {
  oa_subs : forall i, i <> id -> submissions t' !! i = submissions t !! i;
  oa_acct : forall r, submissions t !! id = Some r ->
    exists r', submissions t' !! id = Some r' /\ sub_account r' = sub_account r
               /\ sub_inbound_event r' = sub_inbound_event r;
  oa_assets : forall i, i <> id -> assets t' !! i = assets t !! i;
  oa_drafts : forall i, i <> id -> drafts t' !! i = drafts t !! i;
  oa_cats : categories t' = categories t;
  oa_exp : forall e x, expenses t !! e = Some x -> expenses t' !! e = Some x;
  oa_new : forall e x, expenses t' !! e = Some x ->
    expenses t !! e = Some x \/ ex_receipt_submission x = Some id;
}.

Lemma refs_mono id t t' r : only_at id t t' -> submission_refs t r = true -> submission_refs t' r = true.
Proof.
  intros H. unfold submission_refs. intros [H1 H2]%andb_true_iff. apply andb_true_iff. split.
  - destruct (sub_confirmed_expense r) as [e|]; [|done].
    destruct (expenses t !! e) as [x|] eqn:E; [|done]. by rewrite (oa_exp _ _ _ H _ _ E).
  - destruct (sub_duplicate_of r) as [o|]; [|done].
    destruct (submissions t !! o) as [q|] eqn:E; [|done]. b2p. destruct (decide (o = id)) as [->|Hne].
    + destruct (oa_acct _ _ _ H _ E) as (q' & -> & Ha & _). by rewrite bool_decide_eq_true_2; [|congruence].
    + rewrite (oa_subs _ _ _ H _ Hne), E. by rewrite bool_decide_eq_true_2.
Qed.

Lemma row_ok_frame id t t' i r :
  only_at id t t' -> i <> id -> row_ok t i r -> row_ok t' i r.
Proof.
  intros H Hne [Hc Hr Ha Hd He Hx]. constructor.
  - done.
  - by eapply refs_mono.
  - by rewrite (oa_assets _ _ _ H _ Hne).
  - by rewrite (oa_cats _ _ _ H), (oa_drafts _ _ _ H _ Hne).
  - intros e x Ex Ei. destruct (oa_new _ _ _ H _ _ Ex) as [E|E]; [|congruence].
    rewrite (oa_drafts _ _ _ H _ Hne). by apply He.
  - intros e E. destruct (Hx e E) as (x & Ex & Ei). exists x. split; [|done]. by eapply oa_exp.
Qed.

(** The workhorse: a change at [id] keeps the invariant when the new row of [id] is
    fine and the unique columns stay unique. *)
Lemma twf_update id t t' r' :
  twf t -> only_at id t t' -> submissions t' !! id = Some r' -> row_ok t' id r' ->
  (forall j q ev, submissions t !! j = Some q -> j <> id ->
     sub_inbound_event r' = Some ev -> sub_inbound_event q <> Some ev) ->
  (forall j a b, assets t' !! id = Some a -> assets t !! j = Some b -> j <> id ->
     as_deletion_state a = Active -> as_deletion_state b = Active ->
     as_account a = as_account b -> as_content_sha256 a <> as_content_sha256 b) ->
  (forall j d e, drafts t' !! id = Some d -> drafts t !! j = Some e -> j <> id -> draft_id d <> draft_id e) ->
  twf t'.
Proof.
  intros W H Hr Hok Hev Hct Hdi. constructor.
  - intros i r Hi. destruct (decide (i = id)) as [->|Hne]; [by simplify_eq|].
    eapply row_ok_frame; [done..|]. apply (twf_rows t W). by rewrite <- (oa_subs _ _ _ H _ Hne).
  - intros i Hi. destruct (decide (i = id)) as [->|Hne]; [by simplify_eq|].
    rewrite (oa_subs _ _ _ H _ Hne) in Hi. destruct (twf_none t W i Hi) as (Ha & Hd & He).
    rewrite (oa_assets _ _ _ H _ Hne), (oa_drafts _ _ _ H _ Hne). split_and!; try done.
    intros e x Ex Ei. destruct (oa_new _ _ _ H _ _ Ex) as [E|E]; [by eapply He | congruence].
  - intros i j r q ev Hi Hj Ei Ej.
    destruct (decide (i = id)) as [->|Hni], (decide (j = id)) as [->|Hnj]; [done|..].
    + rewrite (oa_subs _ _ _ H _ Hnj) in Hj. simplify_eq. by destruct (Hev _ _ _ Hj Hnj Ei).
    + rewrite (oa_subs _ _ _ H _ Hni) in Hi. simplify_eq. by destruct (Hev _ _ _ Hi Hni Ej).
    + rewrite (oa_subs _ _ _ H _ Hni) in Hi. rewrite (oa_subs _ _ _ H _ Hnj) in Hj.
      by eapply (twf_event t W).
  - intros i j a b Hi Hj Ai Aj Eac Esh.
    destruct (decide (i = id)) as [->|Hni], (decide (j = id)) as [->|Hnj]; [done|..].
    + rewrite (oa_assets _ _ _ H _ Hnj) in Hj. by destruct (Hct _ _ _ Hi Hj Hnj Ai Aj Eac).
    + rewrite (oa_assets _ _ _ H _ Hni) in Hi.
      by destruct (Hct _ _ _ Hj Hi Hni Aj Ai (eq_sym Eac)).
    + rewrite (oa_assets _ _ _ H _ Hni) in Hi. rewrite (oa_assets _ _ _ H _ Hnj) in Hj.
      by eapply (twf_content t W).
  - intros i j d e Hi Hj E.
    destruct (decide (i = id)) as [->|Hni], (decide (j = id)) as [->|Hnj]; [done|..].
    + rewrite (oa_drafts _ _ _ H _ Hnj) in Hj. by destruct (Hdi _ _ _ Hi Hj Hnj).
    + rewrite (oa_drafts _ _ _ H _ Hni) in Hi. by destruct (Hdi _ _ _ Hj Hi Hni).
    + rewrite (oa_drafts _ _ _ H _ Hni) in Hi. rewrite (oa_drafts _ _ _ H _ Hnj) in Hj.
      by eapply (twf_draft_id t W).
Qed.

(** Two tables that agree on everything the invariant mentions. *)
Lemma twf_same t t' :
  twf t -> submissions t' = submissions t -> assets t' = assets t -> drafts t' = drafts t ->
  categories t' = categories t -> expenses t' = expenses t -> twf t'.
Proof.
  intros W Es Ea Ed Ec Ee.
  assert (forall r, submission_refs t' r = submission_refs t r) as Er.
  { intros r. unfold submission_refs. by rewrite Es, Ee. }
  constructor; rewrite ?Es, ?Ea, ?Ed, ?Ee; try apply W.
  intros id r Hr. destruct (twf_rows t W id r Hr).
  constructor; rewrite ?Er, ?Ea, ?Ed, ?Ec, ?Ee; done.
Qed.

(** Transactions that keep the invariant. *)
Definition keeps {A} (m : rtxn A) : Prop := forall t a t', twf t -> m t = Ok (a, t') -> twf t'.

(** ** Lifecycle transitions *)

Lemma only_at_subs id t r r' :
  submissions t !! id = Some r -> sub_account r' = sub_account r ->
  sub_inbound_event r' = sub_inbound_event r ->
  only_at id t (set_submissions <[id := r']> t).
Proof.
  intros Hr Ea Ee. constructor; cbn; try done; try (intros; by auto).
  - intros i Hne. by rewrite lookup_insert_ne.
  - intros q Hq. simplify_eq. exists r'. by rewrite lookup_insert_eq.
Qed.

(** A transition other than those that come with a new asset, draft or expense. *)
Lemma twf_transition now id acct from to err hours dup t u t' :
  twf t -> transition_state now id acct from to err hours None dup t = Ok (u, t') ->
  to <> Stored -> to <> Deleted -> (to = Queued -> from = Pending) ->
  (needs_asset to = true -> is_Some (assets t !! id)) ->
  (needs_draft to = true -> is_Some (drafts t !! id)) ->
  twf t'.
Proof.
  intros W E Hs Hdel Hq Hna Hnd. apply transition_state_ok in E as (r & Hr & <- & <- & Hl & -> & Hc & Href).
  pose proof (twf_rows t W id r Hr) as Hok.
  set (r' := moved now to err hours None dup r) in *.
  assert (H : only_at id t (set_submissions <[id := r']> t)) by by apply (only_at_subs id t r).
  apply (twf_update id t _ r' W H); [by cbn; rewrite lookup_insert_eq|..].
  - destruct Hok as [_ _ Ha Hd He Hx]. constructor; cbn [assets drafts expenses categories set_submissions].
    + done.
    + by eapply refs_mono.
    + unfold asset_agrees in *. destruct (assets t !! id) as [a|].
      * destruct Ha as (? & ? & Hm & ?). split_and!; try done. unfold legal in Hl. cbn.
        by destruct (sub_state r), to; try specialize (Hq eq_refl).
      * cbn. apply not_true_is_false. intros Hn. by destruct (Hna Hn).
    + unfold draft_agrees in *. destruct (drafts t !! id) as [d|].
      * destruct Hd as (? & ? & ? & Hm). split_and!; try done. unfold legal in Hl. cbn.
        by destruct (sub_state r), to; try specialize (Hq eq_refl).
      * cbn. apply not_true_is_false. intros Hn. by destruct (Hnd Hn).
    + done.
    + done.
  - intros j q ev Hj Hne Ev Eq. by destruct (Hne (twf_event t W j id q r ev Hj Hr Eq Ev)).
  - cbn. intros j a b Ha Hb Hne Aa Ab Eac Esh. by destruct (Hne (twf_content t W j id b a Hb Ha Ab Aa (eq_sym Eac) (eq_sym Esh))).
  - cbn. intros j d e Hd He Hne E. by destruct (Hne (twf_draft_id t W j id e d He Hd (eq_sym E))).
Qed.

Lemma row_has_asset t id r :
  twf t -> submissions t !! id = Some r -> needs_asset (sub_state r) = true -> is_Some (assets t !! id).
Proof.
  intros W Hr Hn. pose proof (row_asset _ _ _ (twf_rows t W id r Hr)) as Ha.
  unfold asset_agrees in Ha. destruct (assets t !! id); [done | congruence].
Qed.

Lemma row_has_draft t id r :
  twf t -> submissions t !! id = Some r -> needs_draft (sub_state r) = true -> is_Some (drafts t !! id).
Proof.
  intros W Hr Hn. pose proof (row_draft _ _ _ (twf_rows t W id r Hr)) as Hd.
  unfold draft_agrees in Hd. destruct (drafts t !! id); [done | congruence].
Qed.

(** The same, from states that imply the asset and the draft. *)
Lemma twf_transition_states now id acct from to err hours dup t u t' :
  twf t -> transition_state now id acct from to err hours None dup t = Ok (u, t') ->
  to <> Stored -> to <> Deleted -> (to = Queued -> from = Pending) ->
  (needs_asset to = true -> needs_asset from = true) ->
  (needs_draft to = true -> needs_draft from = true) -> twf t'.
Proof.
  intros W E Hs Hd Hq Hna Hnd.
  pose proof (transition_state_ok _ _ _ _ _ _ _ _ _ _ _ _ E) as (r & Hr & _ & <- & _).
  eapply twf_transition; eauto using row_has_asset, row_has_draft.
Qed.

Lemma load_submission_ok t id acct r :
  load_submission t id acct = Ok r -> submissions t !! id = Some r /\ sub_account r = acct.
Proof. unfold load_submission. intros. by branches; b2p. Qed.

Lemma load_draft_ok t id acct d :
  load_draft t id acct = Ok d -> drafts t !! id = Some d /\ dr_account_id d = acct.
Proof. unfold load_draft. intros. by branches; b2p. Qed.

(** ** Statements that touch other tables only *)

Lemma keeps_bind {A B} (m : rtxn A) (f : A -> rtxn B) :
  keeps m -> (forall a, keeps (f a)) -> keeps (t_bind m f).
Proof. intros Hm Hf t b t' W (a & t1 & E1 & E2)%t_bind_ok. eapply Hf, E2. by eapply Hm. Qed.
Lemma keeps_ret {A} (a : A) : keeps (t_ret a).
Proof. by intros t b t' W [= <- <-]. Qed.
Lemma keeps_lift {A} (x : result A ReceiptError) : keeps (t_lift x).
Proof. intros t b t' W. unfold t_lift. by destruct x; intros [= <- <-]. Qed.
Lemma keeps_attempt id n o e l m : keeps (record_extraction_attempt id n o e l m).
Proof.
  intros t a t' W. unfold record_extraction_attempt. intros E. branches; [done|]. by apply (twf_same t).
Qed.
Lemma keeps_correction did id f o n : keeps (record_correction did id f o n).
Proof. intros t a t' W. unfold record_correction. intros [= <- <-]. by apply (twf_same t). Qed.
Lemma keeps_enqueue `{UuidText} now utc jid ty id acct : keeps (enqueue_receipt_job now utc jid ty id acct).
Proof. intros t a t' W (q & ->)%enqueue_receipt_job_frame. by apply (twf_same t). Qed.
Lemma keeps_quota `{Chrono} cfg utc : keeps (extraction_quota_tx cfg utc).
Proof. intros t a t' W. unfold extraction_quota_tx. intros E. branches; by apply (twf_same t). Qed.
Lemma keeps_edit_field {A} `{EqDecision A} did id f (show : A -> rstr) req old :
  keeps (edit_field did id f show req old).
Proof.
  unfold edit_field. destruct req; [|apply keeps_ret]. case_bool_decide; [apply keeps_ret|].
  apply keeps_bind; [apply keeps_correction | intros; apply keeps_ret].
Qed.
Lemma keeps_opt_check {A} (f : A -> result unit ReceiptError) o : keeps (opt_check f o).
Proof. unfold opt_check. destruct o; [apply keeps_lift | apply keeps_ret]. Qed.

Create HintDb keeps.
#[export] Hint Resolve keeps_bind keeps_ret keeps_lift keeps_attempt keeps_correction keeps_enqueue
  keeps_quota keeps_edit_field keeps_opt_check : keeps.

(** ** Creating a submission *)

Lemma with_inbound_event_none t ev id r :
  is_none (with_inbound_event t ev) = true -> submissions t !! id = Some r -> sub_inbound_event r <> Some ev.
Proof.
  unfold with_inbound_event. intros H Hr E.
  destruct (List.find _ _) eqn:Ef; [done|].
  pose proof (List.find_none _ _ Ef (id, r)) as Hn. cbn in Hn.
  rewrite bool_decide_eq_true_2 in Hn by done.
  discriminate Hn. by apply list_elem_of_In, elem_of_map_to_list.
Qed.

Lemma keeps_insert_submission id acct ev : keeps (insert_submission id acct ev).
Proof.
  intros t b t' W. unfold insert_submission. intros E.
  destruct (negb (is_none (submissions t !! id)) || _) eqn:Eb; [by simplify_eq|].
  destruct (is_none (accounts t !! acct) || _); [done|]. simplify_eq. b2p.
  assert (Hn : submissions t !! id = None) by (by destruct (submissions t !! id)).
  destruct (twf_none t W id Hn) as (Ha & Hd & He).
  set (r' := {| sub_account := acct |}).
  apply (twf_update id t _ r' W).
  - constructor; cbn; try done; try (intros; by auto).
    + intros i Hne. by rewrite lookup_insert_ne.
    + intros r Hr. congruence.
  - cbn. by rewrite lookup_insert_eq.
  - constructor; cbn; rewrite ?Ha, ?Hd; try done. intros e x Ex Ei. by destruct (He e x Ex).
  - intros j q e Hj Hne [= ->]. cbn in *. eapply with_inbound_event_none; [|done].
    by destruct (with_inbound_event t e).
  - cbn. congruence.
  - cbn. congruence.
Qed.

(** ** Storing an image *)

Lemma find_active_none t acct sha id a :
  is_none (find_active_duplicate t acct sha) = true -> assets t !! id = Some a ->
  as_account a = acct -> as_deletion_state a = Active -> as_content_sha256 a <> sha.
Proof.
  unfold find_active_duplicate. intros H Ha Eac Ed Esh.
  destruct (List.find _ _) eqn:Ef; [done|].
  pose proof (List.find_none _ _ Ef (id, a)) as Hn. cbn in Hn.
  rewrite (bool_decide_eq_true_2 _ Eac), (bool_decide_eq_true_2 _ Ed), Esh, str_eqb_refl in Hn.
  discriminate Hn. by apply list_elem_of_In, elem_of_map_to_list.
Qed.

Definition image_ok (v : ValidatedImage) : Prop :=
  0 < size_bytes v <= MAX_IMAGE_BYTES /\ 0 < width_px v /\ 0 < height_px v
  /\ width_px v * height_px v <= MAX_PIXEL_COUNT /\ mime_type v ∈ ALLOWED_MIME_TYPES.

Lemma twf_store now id acct from key v t u t1 w t2 :
  twf t -> image_ok v ->
  transition_state now id acct from Stored None None None None t = Ok (u, t1) ->
  insert_asset now id acct key v t1 = Ok (w, t2) -> w = Inserted -> twf t2.
Proof.
  intros W (Hsz & Hw & Hh & Hpx & Hm) E Ea ->.
  apply transition_state_ok in E as (r & Hr & <- & <- & Hl & -> & Hc & Href).
  pose proof (twf_rows t W id r Hr) as Hok.
  unfold insert_asset in Ea. cbn [accounts assets set_submissions] in Ea.
  destruct (accounts t !! sub_account r) as [acc|]; [|done].
  destruct (negb (is_none (assets t !! id)) || _) eqn:Eb; [done|]. simplify_eq. apply orb_false_iff in Eb as [_ Eb].
  apply negb_false_iff in Eb.
  set (r' := moved now Stored None None None None r) in *.
  assert (Hoa : only_at id t (set_submissions <[id := r']> t)) by by apply (only_at_subs id t r).
  match goal with |- twf (set_assets <[id := ?x]> _) => set (a := x) end.
  assert (H' : only_at id t (set_assets <[id := a]> (set_submissions <[id := r']> t))).
  { destruct Hoa. constructor; cbn; try done. intros i Hne. by rewrite lookup_insert_ne. }
  apply (twf_update id t _ r' W H'); [by cbn; rewrite lookup_insert_eq|..].
  - destruct Hok as [_ _ _ Hd He Hx]. constructor; cbn [assets drafts expenses categories set_submissions set_assets].
    + done.
    + by eapply refs_mono.
    + rewrite lookup_insert_eq. cbn. split_and!; try done.
      unfold asset_check, a. cbn. split_and!; try done; try lia; by intros [? ?].
    + unfold draft_agrees in *. destruct (drafts t !! id) as [d|]; [|done].
      destruct Hd as (? & ? & ? & Hmd). unfold legal in Hl. by destruct (sub_state r).
    + done.
    + done.
  - intros j q ev Hj Hne Ev Eq. by destruct (Hne (twf_event t W j id q r ev Hj Hr Eq Ev)).
  - cbn. intros j a0 b Ha Hb Hne Aa Ab Eac. rewrite lookup_insert_eq in Ha. simplify_eq. cbn.
    intros Esh. symmetry in Esh. revert Esh. by eapply find_active_none.
  - cbn. intros j d e Hd He Hne E. by destruct (Hne (twf_draft_id t W j id e d He Hd (eq_sym E))).
Qed.

(** ** Drafts *)

Lemma check_unconfirmed id r :
  submission_check id r = true -> sub_state r <> Confirmed -> sub_state r <> Deleted ->
  sub_confirmed_expense r = None.
Proof.
  unfold submission_check. intros H H1 H2.
  rewrite (bool_decide_eq_false_2 _ H1), (bool_decide_eq_false_2 _ H2) in H.
  destruct (sub_confirmed_expense r); [|done]. cbn in H. by rewrite !andb_false_r in H.
Qed.

Lemma unconfirmed_no_expense t id r :
  twf t -> submissions t !! id = Some r -> sub_state r <> Confirmed -> sub_state r <> Deleted ->
  forall e x, expenses t !! e = Some x -> ex_receipt_submission x <> Some id.
Proof.
  intros W Hr H1 H2 e x Ex Ei. pose proof (twf_rows t W id r Hr) as Hok.
  destruct (row_expense _ _ _ Hok e x Ex Ei) as [E _].
  by rewrite (check_unconfirmed id r (row_check _ _ _ Hok) H1 H2) in E.
Qed.

Lemma twf_set_draft t id r d' :
  twf t -> submissions t !! id = Some r -> may_have_draft (sub_state r) = true ->
  sub_state r <> Confirmed -> sub_state r <> Deleted ->
  draft_check d' = true -> category_key d' ∈ categories t -> dr_account_id d' = sub_account r ->
  (forall j e, drafts t !! j = Some e -> j <> id -> draft_id d' <> draft_id e) ->
  twf (set_drafts <[id := d']> t).
Proof.
  intros W Hr Hm H1 H2 Hc Hcat Hacc Hdid.
  pose proof (unconfirmed_no_expense t id r W Hr H1 H2) as Hne.
  pose proof (twf_rows t W id r Hr) as Hok.
  assert (Hoa : only_at id t (set_drafts <[id := d']> t)).
  { constructor; cbn; try done; eauto. intros i Hi. by rewrite lookup_insert_ne. }
  apply (twf_update id t _ r W Hoa); [done|..].
  - destruct Hok as [Hchk Href Ha Hd He Hx]. constructor; cbn [assets drafts expenses categories set_drafts].
    + done.
    + by eapply refs_mono.
    + done.
    + rewrite lookup_insert_eq. cbn. split_and!; done.
    + intros e x Ex Ei. by destruct (Hne e x Ex).
    + done.
  - intros j q ev Hj Hn Ev Eq. by destruct (Hn (twf_event t W j id q r ev Hj Hr Eq Ev)).
  - cbn. intros j a b Ha Hb Hn Aa Ab Eac Esh.
    by destruct (Hn (twf_content t W j id b a Hb Ha Ab Aa (eq_sym Eac) (eq_sym Esh))).
  - cbn. intros j d e Hd He Hn. rewrite lookup_insert_eq in Hd. simplify_eq. eauto.
Qed.

Lemma draft_id_taken_false t did :
  draft_id_taken t did = false -> forall j e, drafts t !! j = Some e -> draft_id e <> did.
Proof.
  unfold draft_id_taken. rewrite <- not_true_iff_false, existsb_exists. intros H j e He E.
  apply H. exists (j, e). split; [by apply list_elem_of_In, elem_of_map_to_list|].
  by apply bool_decide_eq_true_2.
Qed.

Lemma ensure_category_ok t k u : ensure_category t k = Ok u -> k ∈ categories t.
Proof. unfold ensure_category. by case_bool_decide. Qed.

Lemma twf_upsert did id acct x t r u t' :
  twf t -> submissions t !! id = Some r -> sub_state r = Extracting -> sub_account r = acct ->
  upsert_draft did id acct x t = Ok (u, t') -> twf t' /\ exists d, t' = set_drafts <[id := d]> t.
Proof.
  intros W Hr Hs Ha E. unfold upsert_draft, res_bind in E.
  destruct (ensure_category t (x_category_key x)) as [c|] eqn:Ec; [|done].
  apply ensure_category_ok in Ec.
  destruct (drafts t !! id) as [d|] eqn:Hd.
  - match type of E with (if draft_check ?d' then _ else _) = _ =>
      destruct (draft_check d') eqn:Ek; [|done]; simplify_eq; split; [|eauto] end.
    pose proof (row_draft _ _ _ (twf_rows t W id r Hr)) as Hda. rewrite Hd in Hda.
    destruct Hda as (_ & _ & Hacc & _).
    apply (twf_set_draft t id r); try done; try congruence; [by rewrite Hs|].
    cbn. intros j e He Hn Ed. by destruct (Hn (twf_draft_id t W j id e d He Hd (eq_sym Ed))).
  - destruct (draft_id_taken t did) eqn:Et; [done|].
    match type of E with (if draft_check ?d' then _ else _) = _ =>
      destruct (draft_check d') eqn:Ek; [|done]; simplify_eq; split; [|eauto] end.
    apply (twf_set_draft t id r); try done; try congruence; [by rewrite Hs|].
    cbn. intros j e He _ Ed. by eapply draft_id_taken_false.
Qed.

Lemma twf_update_draft id n t r u t' :
  twf t -> submissions t !! id = Some r -> sub_state r = ReviewRequired ->
  update_draft id n t = Ok (u, t') -> twf t'.
Proof.
  intros W Hr Hs E. unfold update_draft, res_bind in E.
  destruct (ensure_category t (category_key n)) as [c|] eqn:Ec; [|done].
  apply ensure_category_ok in Ec.
  destruct (drafts t !! id) as [d|] eqn:Hd; [|done].
  destruct (bool_decide (draft_id d = draft_id n) && (version d =? version n)); [|done].
  cbv zeta in E. match type of E with context [draft_check ?x] => destruct (draft_check x) eqn:Ek end; [|done].
  simplify_eq.
  pose proof (row_draft _ _ _ (twf_rows t W id r Hr)) as Hda. rewrite Hd in Hda.
  destruct Hda as (_ & _ & Hacc & _).
  apply (twf_set_draft t id r); try done; try congruence; [by rewrite Hs|].
  cbn. intros j e He Hn Ed. by destruct (Hn (twf_draft_id t W j id e d He Hd (eq_sym Ed))).
Qed.

(** ** Confirming *)

Lemma find_expense_spec t id e :
  find_expense_of t id = Some e -> exists x, expenses t !! e = Some x /\ ex_receipt_submission x = Some id.
Proof.
  unfold find_expense_of. intros ([i x] & E & ->)%fmap_Some.
  apply List.find_some in E as [Hin Hb]. apply list_elem_of_In, elem_of_map_to_list in Hin.
  cbn in Hb. b2p. eauto.
Qed.

Lemma find_expense_unique t id e x :
  expenses t !! e = Some x -> ex_receipt_submission x = Some id ->
  (forall e' x', expenses t !! e' = Some x' -> ex_receipt_submission x' = Some id -> e' = e) ->
  find_expense_of t id = Some e.
Proof.
  intros Ex Ei Hu. unfold find_expense_of.
  destruct (List.find _ _) as [[i y]|] eqn:E.
  - apply List.find_some in E as [Hin Hb]. apply list_elem_of_In, elem_of_map_to_list in Hin.
    cbn in *. b2p. by rewrite (Hu i y).
  - pose proof (List.find_none _ _ E (e, x)) as Hn. cbn in Hn.
    rewrite bool_decide_eq_true_2 in Hn by done. discriminate Hn.
    by apply list_elem_of_In, elem_of_map_to_list.
Qed.

(** The expense that confirming draft [d] creates. *)
Definition confirmed_expense (acct id : uuid) (d : ExpenseDraftView) : expense :=
  {| ex_account := acct; ex_amount_minor := amount_minor d; ex_currency := currency d;
     ex_occurred_at := occurred_at d; ex_description := merchant d; ex_source := s! "receipt";
     ex_state := s! "confirmed"; ex_receipt_submission := Some id; ex_category_key := category_key d;
     ex_transaction_type := transaction_type d |}.

Lemma no_expense_find t id :
  (forall e x, expenses t !! e = Some x -> ex_receipt_submission x <> Some id) -> find_expense_of t id = None.
Proof.
  intros H. destruct (find_expense_of t id) as [e|] eqn:E; [|done].
  apply find_expense_spec in E as (x & Ex & Ei). by destruct (H e x).
Qed.

Lemma draft_check_expense d :
  draft_check d = true ->
  (char_count (currency d) =? 3) && forallb is_ascii_upper (currency d) = true
  /\ existsb (str_eqb (transaction_type d)) TRANSACTION_TYPES = true.
Proof. unfold draft_check. intros H. repeat (apply andb_true_iff in H as [H ?]). by split_and?. Qed.

(** The statements of a confirmation, from a submission under review. *)
Lemma confirm_statements eid acct id d t r :
  twf t -> submissions t !! id = Some r -> sub_state r = ReviewRequired ->
  drafts t !! id = Some d -> accounts t !! acct <> None ->
  expenses t !! eid = None ->
  insert_confirmed_expense eid acct id d t =
    Ok (tt, set_expenses <[eid := confirmed_expense acct id d]> t)
  /\ lookup_confirmed_expense_id id (set_expenses <[eid := confirmed_expense acct id d]> t)
     = Ok (eid, set_expenses <[eid := confirmed_expense acct id d]> t).
Proof.
  intros W Hr Hs Hd Hacc He.
  pose proof (unconfirmed_no_expense t id r W Hr) as Hn. rewrite Hs in Hn.
  specialize (Hn ltac:(done) ltac:(done)).
  pose proof (row_draft _ _ _ (twf_rows t W id r Hr)) as Hda. rewrite Hd in Hda.
  destruct Hda as (Hck & Hcat & _). destruct (draft_check_expense d Hck) as [Hc1 Hc2].
  split.
  - unfold insert_confirmed_expense. rewrite (no_expense_find t id Hn), He. cbn [is_none negb orb].
    destruct (accounts t !! acct); [|done]. rewrite (bool_decide_eq_true_2 _ Hcat), Hc1, Hc2. done.
  - unfold lookup_confirmed_expense_id.
    rewrite (find_expense_unique _ id eid (confirmed_expense acct id d)); try done.
    + cbn. by rewrite lookup_insert_eq.
    + cbn. intros e' x' Hx Hi. rewrite lookup_insert in Hx. case_decide; [done|]. by destruct (Hn e' x').
Qed.

Lemma twf_confirm now eid acct id d t r t2 u :
  twf t -> submissions t !! id = Some r -> sub_state r = ReviewRequired -> sub_account r = acct ->
  drafts t !! id = Some d -> expenses t !! eid = None ->
  transition_state now id acct ReviewRequired Confirmed None None (Some eid) None
    (set_expenses <[eid := confirmed_expense acct id d]> t) = Ok (u, t2) -> twf t2.
Proof.
  intros W Hr Hs Hacc Hd He E.
  apply transition_state_ok in E as (r0 & Hr0 & _ & _ & _ & -> & Hc & Href).
  cbn in Hr0. simplify_eq. set (r' := moved now Confirmed None None (Some eid) None r) in *.
  pose proof (twf_rows t W id r Hr) as Hok.
  pose proof (unconfirmed_no_expense t id r W Hr) as Hn. rewrite Hs in Hn.
  specialize (Hn ltac:(done) ltac:(done)).
  set (x := confirmed_expense (sub_account r) id d).
  assert (Hoa : only_at id t (set_submissions <[id := r']> (set_expenses <[eid := x]> t))).
  { constructor; cbn; try done.
    - intros i Hi. by rewrite lookup_insert_ne.
    - intros q Hq. simplify_eq. exists r'. by rewrite lookup_insert_eq.
    - intros e y Ey. by rewrite lookup_insert_ne by congruence.
    - intros e y. rewrite lookup_insert. case_decide; [intros; simplify_eq; auto | auto]. }
  apply (twf_update id t _ r' W Hoa); [by cbn; rewrite lookup_insert_eq|..].
  - destruct Hok as [Hchk _ Ha Hda _ _]. constructor; cbn [assets drafts expenses categories set_submissions set_expenses].
    + done.
    + unfold submission_refs in *. cbn [expenses submissions set_submissions set_expenses] in *.
      b2p. apply andb_true_iff. split; [done|]. destruct (sub_duplicate_of r') as [o|]; [|done].
      rewrite lookup_insert. case_decide as Eo; [|done]. subst o. rewrite Hr in H0. exact H0.
    + unfold asset_agrees in *. destruct (assets t !! id); [|by rewrite Hs in Ha].
      destruct Ha as (? & ? & ? & ?). by split_and!.
    + rewrite Hd in *. destruct Hda as (? & ? & ? & ?). by split_and!.
    + intros e y Ey Ei. rewrite lookup_insert in Ey. case_decide as Ee; [|by destruct (Hn e y)].
      simplify_eq. split; [done|]. exists d. split; [done|]. rewrite Hd in Hda.
      destruct Hda as (_ & _ & Hda & _). by split_and!.
    + intros e [= <-]. exists x. by rewrite lookup_insert_eq.
  - intros j q ev Hj Hne Ev Eq. by destruct (Hne (twf_event t W j id q r ev Hj Hr Eq Ev)).
  - cbn. intros j a b Ha Hb Hne Aa Ab Eac Esh.
    by destruct (Hne (twf_content t W j id b a Hb Ha Ab Aa (eq_sym Eac) (eq_sym Esh))).
  - cbn. intros j d0 e Hd0 He0 Hne E. by destruct (Hne (twf_draft_id t W j id e d0 He0 Hd0 (eq_sym E))).
Qed.

(** ** Deleting originals *)

Lemma twf_mark_deleted now id t : twf t -> twf (mark_asset_deleted now id t).
Proof.
  intros W. unfold mark_asset_deleted. destruct (assets t !! id) as [a|] eqn:Ha.
  2:{ apply (twf_same t); try done. cbn. apply map_eq. intros i. rewrite lookup_alter.
      case_decide; [subst; by rewrite Ha | done]. }
  match goal with |- twf (set_assets (alter ?f id) t) => set (g := f) end.
  destruct (submissions t !! id) as [r|] eqn:Hr; [|by destruct (twf_none t W id Hr) as [? _]; congruence].
  pose proof (twf_rows t W id r Hr) as Hok.
  assert (Hl : forall i, alter g id (assets t) !! i = if decide (id = i) then Some (g a) else assets t !! i).
  { intros i. rewrite lookup_alter. case_decide; [subst; by rewrite Ha | done]. }
  assert (Hoa : only_at id t (set_assets (alter g id) t)).
  { constructor; cbn; try done; eauto. intros i Hi. rewrite Hl. by rewrite decide_False. }
  apply (twf_update id t _ r W Hoa); [done|..].
  - destruct Hok as [Hchk Href Hag Hd He Hx]. constructor; cbn [assets drafts expenses categories set_assets]; try done.
    rewrite Hl, decide_True by done. rewrite Ha in Hag. destruct Hag as (Hck & Hac & Hm & Hdel).
    unfold g. case_bool_decide as Ea; [|done].
    cbn. split_and!; try done. destruct Hck as (? & ? & ? & ? & ? & ? & ?).
    unfold asset_check. cbn. split_and!; try done; try lia.
  - intros j q ev Hj Hn Ev Eq. by destruct (Hn (twf_event t W j id q r ev Hj Hr Eq Ev)).
  - cbn. intros j a' b Ha' Hb Hn Aa Ab Eac Esh. rewrite Hl, decide_True in Ha' by done. simplify_eq.
    revert Aa Eac Esh. unfold g. case_bool_decide; [done|]. intros Aa Eac Esh.
    by destruct (Hn (twf_content t W j id b a Hb Ha Ab Aa (eq_sym Eac) (eq_sym Esh))).
  - cbn. intros j d e Hd He Hn E. by destruct (Hn (twf_draft_id t W j id e d He Hd (eq_sym E))).
Qed.

(** The row of a submission moves to [Deleted] once its asset is deleted; the two
    updates are in the other order in the code, with the same result. *)
Lemma mark_deleted_commutes now id f t :
  mark_asset_deleted now id (set_submissions f t) = set_submissions f (mark_asset_deleted now id t).
Proof. done. Qed.

Lemma marked_deleted now id t a : assets (mark_asset_deleted now id t) !! id = Some a ->
  as_deletion_state a = AssetDeleted.
Proof.
  cbn. rewrite lookup_alter, decide_True by done. intros (b & _ & ->)%fmap_Some.
  case_bool_decide as E; [done|]. by destruct (as_deletion_state b).
Qed.

Lemma twf_delete now id acct from t u t' :
  twf t -> transition_state now id acct from Deleted None None None None t = Ok (u, t') ->
  twf (mark_asset_deleted now id t').
Proof.
  intros W E. apply transition_state_ok in E as (r & Hr & <- & <- & Hl & -> & Hc & Href).
  rewrite mark_deleted_commutes. pose proof (twf_mark_deleted now id t W) as W1.
  set (t1 := mark_asset_deleted now id t) in *.
  assert (Hr1 : submissions t1 !! id = Some r) by done.
  pose proof (twf_rows t1 W1 id r Hr1) as Hok.
  set (r' := moved now Deleted None None None None r) in *.
  assert (Hoa : only_at id t1 (set_submissions <[id := r']> t1)) by by apply (only_at_subs id t1 r).
  apply (twf_update id t1 _ r' W1 Hoa); [by cbn; rewrite lookup_insert_eq|..].
  - destruct Hok as [_ _ Ha Hd He Hx]. constructor; cbn [assets drafts expenses categories set_submissions]; try done.
    + eapply refs_mono; [exact Hoa|]. exact Href.
    + destruct (assets t1 !! id) as [a|] eqn:Ea; [|done]. cbn in Ha. destruct Ha as (? & ? & ? & ?).
      split_and!; try done. intros _. by eapply marked_deleted.
    + destruct (drafts t1 !! id); [|done]. by destruct Hd as (? & ? & ? & _).
  - intros j q ev Hj Hne Ev Eq. by destruct (Hne (twf_event t1 W1 j id q r ev Hj Hr1 Eq Ev)).
  - cbn [assets set_submissions]. intros j a b Ha Hb Hne Aa Ab Eac Esh.
    by destruct (Hne (twf_content t1 W1 j id b a Hb Ha Ab Aa (eq_sym Eac) (eq_sym Esh))).
  - intros j d e Hd He Hne E. by destruct (Hne (twf_draft_id t1 W1 j id e d He Hd (eq_sym E))).
Qed.

(** ** Every transaction keeps the invariant *)

Section Keeps.
Context {UT : UuidText} {IL : ImageLib} {C : Chrono}.

Lemma keeps_finish_accept now utc id acct jid : keeps (finish_accept_in_transaction now utc id acct jid).
Proof.
  intros t a t' W E. unfold finish_accept_in_transaction, res_bind in E. cbv zeta in E. branches; try done;
    (eapply keeps_enqueue; [|eassumption]); first [exact W | by eapply twf_transition_states].
Qed.

Lemma keeps_accept now utc r : keeps (accept_submission_in_transaction now utc r).
Proof.
  intros t a t' W E. unfold accept_submission_in_transaction, res_bind in E. branches;
    eauto using keeps_finish_accept, keeps_insert_submission.
  all: try (eapply keeps_finish_accept; [|eassumption]); eapply keeps_insert_submission; eassumption.
Qed.

(** A claim's account exists as long as its submission does: foreign key of
    [receipt_submissions], kept by the account component. *)
Lemma keeps_confirm now r : keeps (confirm_in_transaction now r).
Proof.
  intros t a t' W E. unfold confirm_in_transaction, res_bind in E.
  destruct (load_submission _ _ _) as [s|] eqn:Es; [|done]. apply load_submission_ok in Es as [Hr Hacc].
  destruct (sub_state s) eqn:Hs; try done.
  2:{ destruct (sub_confirmed_expense s); by simplify_eq. }
  destruct (load_draft _ _ _) as [d|] eqn:Ed; [|done]. apply load_draft_ok in Ed as [Hd _].
  destruct (negb _); [done|].
  apply t_bind_ok in E as (u & t1 & E1 & E). apply t_bind_ok in E as (e & t2 & E2 & E).
  apply t_bind_ok in E as (u' & t3 & E3 & E). unfold t_ret in E. simplify_eq.
  pose proof (unconfirmed_no_expense t _ s W Hr) as Hn. rewrite Hs in Hn.
  specialize (Hn ltac:(done) ltac:(done)).
  pose proof E1 as E1'. unfold insert_confirmed_expense in E1'. rewrite no_expense_find in E1' by done.
  destruct (negb (is_none (expenses t !! cf_expense_id r)) || is_none (accounts t !! cf_account_id r)
            || _ || _ || _) eqn:Eb; [done|]. clear E1'.
  rewrite !orb_false_iff in Eb. destruct Eb as ((((He & Ha) & _) & _) & _).
  apply negb_false_iff in He.
  assert (He' : expenses t !! cf_expense_id r = None) by by destruct (expenses t !! cf_expense_id r).
  destruct (confirm_statements (cf_expense_id r) (cf_account_id r) (cf_submission_id r) d t s) as [X1 X2]; try done.
  { by destruct (accounts t !! cf_account_id r). }
  rewrite X1 in E1. simplify_eq. rewrite X2 in E2. simplify_eq. by eapply twf_confirm.
Qed.

Lemma keeps_reject now r : keeps (reject_in_transaction now r).
Proof.
  intros t a t' W E. unfold reject_in_transaction, res_bind in E. branches; [|done].
  by eapply twf_transition_states.
Qed.

Lemma keeps_fail_queued now id acct c : keeps (fail_queued now id acct c).
Proof.
  intros t a t' W E. unfold fail_queued, res_bind in E. branches; [|done]. by eapply twf_transition_states.
Qed.

Lemma keeps_absorb now id acct o : keeps (absorb_duplicate now id acct o).
Proof.
  intros t a t' W E. unfold absorb_duplicate, res_bind in E. branches; [done|]. by eapply twf_transition_states.
Qed.

Lemma keeps_mark_failure now id acct c : keeps (mark_failure now id acct FailedPermanent c).
Proof.
  intros t a t' W E. unfold mark_failure, res_bind in E. branches; [|done]. by eapply twf_transition_states.
Qed.

Lemma keeps_expire_loop now cs n : keeps (expire_loop now cs n).
Proof.
  revert n. induction cs as [|[id c] cs IH]; intros n; [apply keeps_ret|]. cbn [expire_loop].
  apply keeps_bind.
  - intros t a t' W E. by branches.
  - intros r. destruct (negb _); [apply IH|]. apply keeps_bind; [|intros; apply IH].
    intros t u t' W E. by eapply twf_transition_states.
Qed.

Lemma keeps_expire now b l : keeps (expire_reviews now b l).
Proof.
  intros t a t' W E. unfold expire_reviews in E. destruct (b <=? 0); [done|]. by eapply keeps_expire_loop.
Qed.

Lemma keeps_delete now id acct : keeps (delete_original_tx now id acct).
Proof.
  intros t a t' W E. unfold delete_original_tx, res_bind in E.
  destruct (load_submission t id acct) as [r|]; [|done].
  case_bool_decide; simplify_eq; [by apply twf_mark_deleted|].
  destruct (negb _); [done|]. destruct (transition_state _ _ _ _ _ _ _ _ _ _) as [[u t1]|] eqn:Et; [|done].
  simplify_eq. by eapply twf_delete.
Qed.

Lemma keeps_persist_ingest now utc acct id key v jid :
  image_ok v -> keeps (persist_stored_ingest_tx now utc acct id key v jid).
Proof.
  intros Hv t a t' W E. unfold persist_stored_ingest_tx, res_bind in E. cbv zeta in E. branches; try done;
    (eapply keeps_enqueue; [|eassumption]); by eapply twf_store.
Qed.

Lemma keeps_claim_extracting now acct id : keeps (claim_extracting now acct id).
Proof.
  intros t a t' W E. unfold claim_extracting, res_bind in E. branches; try done; by eapply twf_transition_states.
Qed.

Lemma keeps_success cfg now acct id did x l m : keeps (persist_extraction_success cfg now acct id did x l m).
Proof.
  intros t a t' W E. unfold persist_extraction_success, res_bind in E.
  destruct (load_submission _ _ _) as [r|] eqn:Er; [|done]. apply load_submission_ok in Er as [Hr Hacc].
  destruct (sub_state r) eqn:Hs; simplify_eq; try done.
  apply t_bind_ok in E as (u & t1 & E1 & E). apply t_bind_ok in E as (u2 & t2 & E2 & E).
  apply t_bind_ok in E as (u3 & t3 & E3 & E). unfold t_ret in E. simplify_eq.
  assert (W1 : twf t1) by by eapply keeps_attempt.
  assert (Hr1 : submissions t1 !! id = Some r).
  { unfold record_extraction_attempt in E1. by branches. }
  destruct (twf_upsert did id (sub_account r) x t1 r u2 t2) as (W2 & d & ->); try done.
  eapply twf_transition; try done.
  - intros _. cbn. eapply row_has_asset; [exact W1 | exact Hr1 | by rewrite Hs].
  - intros _. cbn. by rewrite lookup_insert_eq.
Qed.

Lemma keeps_failure now acct id o c to l m :
  to = FailedPermanent \/ to = FailedTransient -> keeps (persist_extraction_failure now acct id o c to l m).
Proof.
  intros Hto t a t' W E. unfold persist_extraction_failure, res_bind in E.
  destruct (load_submission _ _ _) as [r|] eqn:Er; [|done].
  destruct (negb _); [by simplify_eq|].
  apply t_bind_ok in E as (u & t1 & E1 & E).
  assert (W1 : twf t1) by by eapply keeps_attempt.
  eapply twf_transition_states; try done; by destruct Hto as [->| ->].
Qed.

(** Statements before the last of an edit: they keep the invariant and the rows. *)
Definition quiet {A} (m : rtxn A) : Prop :=
  forall t a t', twf t -> m t = Ok (a, t') -> twf t' /\ submissions t' = submissions t.
Definition under_review {A} (id : uuid) (m : rtxn A) : Prop :=
  forall t a t' r, twf t -> submissions t !! id = Some r -> sub_state r = ReviewRequired ->
  m t = Ok (a, t') -> twf t'.

Lemma under_review_bind {A B} id (m : rtxn A) (f : A -> rtxn B) :
  quiet m -> (forall a, under_review id (f a)) -> under_review id (t_bind m f).
Proof.
  intros Hm Hf t b t' r W Hr Hs (a & t1 & E1 & E2)%t_bind_ok.
  destruct (Hm t a t1 W E1) as [W1 Es]. eapply Hf; [exact W1 | by rewrite Es | done | exact E2].
Qed.

Lemma quiet_lift {A} (x : result A ReceiptError) : quiet (t_lift x).
Proof. intros t b t' W. unfold t_lift. by destruct x; intros [= <- <-]. Qed.
Lemma quiet_opt_check {A} (f : A -> result unit ReceiptError) o : quiet (opt_check f o).
Proof. unfold opt_check. destruct o; [apply quiet_lift | by intros t a t' W [= <- <-]]. Qed.
Lemma quiet_merchant o :
  quiet (match o with
         | Some m => t_bind (t_lift (validate_merchant m)) (fun m' => t_ret (Some m'))
         | None => t_ret None
         end).
Proof.
  destruct o as [m|]; [|by intros t a t' W [= <- <-]].
  intros t a t' W (b & t1 & E1 & E2)%t_bind_ok. unfold t_ret in E2. simplify_eq. by eapply quiet_lift.
Qed.
Lemma quiet_edit_field {A} `{EqDecision A} did id f (show : A -> rstr) req old :
  quiet (edit_field did id f show req old).
Proof.
  intros t a t' W E. split; [by eapply keeps_edit_field|].
  unfold edit_field, t_bind, record_correction, t_ret in E. by branches.
Qed.

Lemma keeps_edit r : keeps (edit_draft_in_transaction r).
Proof.
  intros t a t' W E. unfold edit_draft_in_transaction, res_bind in E. cbv zeta in E.
  destruct (load_submission _ _ _) as [s|] eqn:Es; [|done]. apply load_submission_ok in Es as [Hr _].
  destruct (bool_decide (sub_state s = ReviewRequired)) eqn:Hs; [|done]. cbn [negb] in E. b2p.
  destruct (load_draft _ _ _) as [d|] eqn:Ed; [|done]. destruct (negb _); [done|].
  revert E. match goal with |- ?m t = _ -> _ => enough (H : under_review (ed_submission_id r) m) end.
  { intros E. by eapply H. }
  repeat first
    [ apply under_review_bind;
      [first [apply quiet_opt_check | apply quiet_merchant | apply quiet_edit_field] | intros ?] ].
  intros t1 b t2 q W1 Hq Hqs (u & t3 & E1 & E2)%t_bind_ok. unfold t_ret in E2. simplify_eq.
  by eapply twf_update_draft.
Qed.

End Keeps.
