(* ===== verification/ReceiptSpec.v ===== *)
(** * Properties of the receipt lifecycle

    Histories of committed transactions, in any interleaving; the methods of
    [ReceiptLifecycle] commit such histories; what holds of all of them. *)

From S2P Require Import Prelude RustStr RustStrFacts Platform Errors Work WorkProps Quota ReceiptTypes Receipt ReceiptProps ReceiptInv.
Import ReceiptTypes Receipt.

(** ** Histories *)

Section Histories.
Context {UT : UuidText} {IL : ImageLib} {OS : ObjectStore} {XT : Extractor} {C : Chrono}.

(** The transactions of the lifecycle, and what other components do to the tables it
    shares with them: accounts, inbound events and the job queue. *)
Inductive rop :=
| RAccept (now utc : Z) (r : AcceptSubmissionRequest)
| RConfirm (now : Z) (r : ConfirmRequest)
| RReject (now : Z) (r : RejectRequest)
| REdit (r : EditDraftRequest)
| RFailQueued (now : Z) (id acct : uuid) (c : Errors.ErrorClass)
| RAbsorb (now : Z) (id acct original : uuid)
| RMarkFailure (now : Z) (id acct : uuid) (c : Errors.ErrorClass)
| RPersist (now utc : Z) (acct id : uuid) (bytes : list Z) (mime : rstr) (jid : uuid)
| RClaimExtracting (now : Z) (acct id : uuid)
| RSuccess (cfg : ReceiptConfig) (now : Z) (acct id did : uuid) (x : ExtractionResult) (l : Z) (m : ExtractionMeta)
| RFailure (now : Z) (acct id : uuid) (c : Errors.ErrorClass) (permanent : bool) (l : Z) (m : ExtractionMeta)
| RQuota (cfg : ReceiptConfig) (utc : Z)
| RExpire (now limit : Z) (locked : uuid -> bool)
| RDelete (now : Z) (id acct : uuid)
| RSweep (now : Z) (rows : list (uuid * asset))
| RAccount (id : uuid) (a : account)
| REvent (ev : uuid)
| RQueue (now : Z) (o : Work.op).

Definition commit {A} (m : rtxn A) (t : tables) : tables := (atomically m t).1.

Definition rexec (o : rop) (t : tables) : tables :=
  match o with
  | RAccept now utc r => commit (accept_submission_in_transaction now utc r) t
  | RConfirm now r => commit (confirm_in_transaction now r) t
  | RReject now r => commit (reject_in_transaction now r) t
  | REdit r => commit (edit_draft_in_transaction r) t
  | RFailQueued now id acct c => commit (fail_queued now id acct c) t
  | RAbsorb now id acct o => commit (absorb_duplicate now id acct o) t
  | RMarkFailure now id acct c => commit (mark_failure now id acct FailedPermanent c) t
  | RPersist now utc acct id bytes mime jid =>
      match validate_image bytes mime with
      | Ok v => commit (persist_stored_ingest_tx now utc acct id
                          (object_key acct id (content_sha256 v)) v jid) t
      | Err _ => t
      end
  | RClaimExtracting now acct id => commit (claim_extracting now acct id) t
  | RSuccess cfg now acct id did x l m => commit (persist_extraction_success cfg now acct id did x l m) t
  | RFailure now acct id c p l m =>
      commit (persist_extraction_failure now acct id (s! "failed") c
                (if p then FailedPermanent else failure_state_for c) l m) t
  | RQuota cfg utc => commit (extraction_quota_tx cfg utc) t
  | RExpire now limit locked => commit (expire_reviews now limit locked) t
  | RDelete now id acct => commit (delete_original_tx now id acct) t
  | RSweep now rows => fold_left (fun t p => mark_asset_deleted now p.1 t) rows t
  | RAccount id a =>
      {| accounts := <[id := a]> (accounts t); inbound_events := inbound_events t;
         categories := categories t; submissions := submissions t; assets := assets t;
         drafts := drafts t; corrections := corrections t;
         extraction_attempts := extraction_attempts t; expenses := expenses t;
         queue := queue t; usage := usage t |}
  | REvent ev =>
      {| accounts := accounts t; inbound_events := {[ev]} ∪ inbound_events t;
         categories := categories t; submissions := submissions t; assets := assets t;
         drafts := drafts t; corrections := corrections t;
         extraction_attempts := extraction_attempts t; expenses := expenses t;
         queue := queue t; usage := usage t |}
  | RQueue now o => set_queue (Work.exec now o (queue t)) t
  end.

Definition rexec_all (ops : list rop) (t : tables) : tables := fold_left (fun t o => rexec o t) ops t.

(** The schema after migration 004: no rows but the categories. *)
Definition CATEGORIES : list rstr :=
  [s! "an-uong"; s! "thuc-pham"; s! "di-lai"; s! "hoa-don"; s! "mua-sam"; s! "suc-khoe"; s! "giai-tri";
   s! "giao-duc"; s! "nha-o"; s! "thu-nhap"; s! "hoan-tien"; s! "chuyen-khoan"; s! "khac"].
Definition fresh_tables : tables :=
  {| accounts := ∅; inbound_events := ∅; categories := list_to_set CATEGORIES; submissions := ∅;
     assets := ∅; drafts := ∅; corrections := []; extraction_attempts := ∅; expenses := ∅;
     queue := Work.empty_db; usage := ∅ |}.

(** A single commit evolves the tables and keeps both invariants. *)
Lemma commit_evolves {A} (m : rtxn A) t : txn_evolves m -> evolves t (commit m t).
Proof.
  intros H. unfold commit, atomically. destruct (m t) as [[a t']|e] eqn:E; [by eapply H | done].
Qed.

Lemma rexec_evolves o t : evolves t (rexec o t).
Proof.
  destruct o; cbn [rexec]; try (by apply evolves_same); try (apply commit_evolves; auto with evolve; fail).
  - destruct (validate_image bytes mime); [|done]. apply commit_evolves. auto with evolve.
  - apply evolves_same; apply mark_deleted_submissions.
  - split; [exact (reflexivity (R := rows_evolve) t) | by apply wf_exec].
Qed.

Lemma rexec_all_evolves ops t : evolves t (rexec_all ops t).
Proof.
  revert t. induction ops as [|o ops IH]; intros t; [done|]. cbn.
  transitivity (rexec o t); [apply rexec_evolves | apply IH].
Qed.

Lemma commit_keeps {A} (m : rtxn A) t : keeps m -> twf t -> twf (commit m t).
Proof.
  intros H W. unfold commit, atomically. destruct (m t) as [[a t']|e] eqn:E; [by eapply H | done].
Qed.

Lemma image_ok_of bytes mime v : validate_image bytes mime = Ok v -> image_ok v.
Proof. intros E. apply validate_image_ok in E. unfold image_ok. tauto. Qed.

Lemma failure_state_failed (c : Errors.ErrorClass) (p : bool) :
  (if p then FailedPermanent else failure_state_for c) = FailedPermanent
  \/ (if p then FailedPermanent else failure_state_for c) = FailedTransient.
Proof. destruct p; [by left|]. destruct c; cbn; auto. Qed.

Lemma rexec_keeps o t : twf t -> twf (rexec o t).
Proof.
  intros W. destruct o; cbn [rexec];
    try (by apply (twf_same t));
    try (apply commit_keeps; [|done]);
    auto using keeps_accept, keeps_confirm, keeps_reject, keeps_edit, keeps_fail_queued, keeps_absorb,
      keeps_mark_failure, keeps_claim_extracting, keeps_success, keeps_quota, keeps_expire, keeps_delete,
      keeps_failure, failure_state_failed.
  - destruct (validate_image bytes mime) as [v|] eqn:E; [|done].
    apply commit_keeps; [|done]. by eapply keeps_persist_ingest, image_ok_of.
  - revert t W. induction rows as [|p rows IH]; intros t W; [done|]. cbn. by apply IH, twf_mark_deleted.
Qed.

Lemma twf_fresh : twf fresh_tables.
Proof. constructor; cbn; intros *; by rewrite ?lookup_empty. Qed.

Lemma rexec_all_keeps ops t : twf t -> twf (rexec_all ops t).
Proof. revert t. induction ops as [|o ops IH]; intros t W; [done|]. cbn. by apply IH, rexec_keeps. Qed.

End Histories.

(** ** Methods commit histories *)

Section MethodHistories.
Context {UT : UuidText} {IL : ImageLib} {OS : ObjectStore} {XT : Extractor} {C : Chrono}.

(** The tables of [s'] come from those of [s] by a history of transactions. *)
Definition history (s s' : store) : Prop := exists ops, s'.1 = rexec_all ops s.1.

#[export] Instance history_preorder : PreOrder history.
Proof.
  split; [by intros s; exists []|]. intros s1 s2 s3 [o1 E1] [o2 E2]. exists (o1 ++ o2).
  unfold rexec_all in *. by rewrite fold_left_app, <- E1.
Qed.

Lemma in_tx_history {A} (m : rtxn A) o :
  (forall t, rexec o t = commit m t) -> preserves history (in_tx m).
Proof.
  intros H [t b]. exists [o]. cbn. rewrite H. unfold in_tx, commit. cbn. by destruct (atomically m t).
Qed.

Lemma on_objects_history {A} (m : prog objects ReceiptError A) : preserves history (on_objects m).
Proof. intros [t o]. exists []. unfold on_objects. cbn. by destruct (m o). Qed.

Lemma p_lift_history {A} (r : result A ReceiptError) : preserves history (p_lift r).
Proof. intros s. by exists []. Qed.

(** Split a method along its binds, matches and conditions. *)
Ltac prog_history :=
  repeat first
  [ apply on_objects_history
  | apply p_lift_history
  | apply preserves_bind; [apply _ | | intros ?]
  | apply preserves_try; [apply _ | | intros ?]
  | apply preserves_ret; apply _
  | apply preserves_err; apply _
  | apply preserves_read; apply _
  | match goal with |- preserves _ (match ?x with _ => _ end) => destruct x eqn:? end
  | match goal with |- preserves _ (if ?x then _ else _) => destruct x eqn:? end ].

Lemma ingest_history now utc acct id bytes mime jid :
  preserves history (ingest now utc acct id bytes mime jid).
Proof.
  unfold ingest, persist_stored_ingest, compensate_orphan_object. cbv zeta. prog_history;
    first [ by eapply (in_tx_history _ (RAbsorb now id acct _))
          | by eapply (in_tx_history _ (RMarkFailure now id acct _))
          | apply (in_tx_history _ (RPersist now utc acct id bytes mime jid)); intros ?; cbn [rexec];
            match goal with H : validate_image bytes mime = Ok _ |- _ => by rewrite H end ].
Qed.

Lemma extract_history cfg now utc l did acct id : preserves history (extract cfg now utc l did acct id).
Proof.
  unfold extract, read_and_extract. prog_history;
    first [ by eapply (in_tx_history _ (RClaimExtracting now acct id))
          | by eapply (in_tx_history _ (RQuota cfg utc))
          | by eapply (in_tx_history _ (RSuccess cfg now acct id did _ l _))
          | by eapply (in_tx_history _ (RFailure now acct id _ true _ _))
          | by eapply (in_tx_history _ (RFailure now acct id _ false _ _)) ].
Qed.

Lemma delete_original_history now acct id : preserves history (delete_original now acct id).
Proof. unfold delete_original. prog_history. by eapply (in_tx_history _ (RDelete now id acct)). Qed.

Lemma delete_objects_history keys : preserves history (delete_objects keys).
Proof. induction keys; cbn; prog_history. done. Qed.

Lemma retention_history now b l : preserves history (retention_sweep now b l).
Proof.
  unfold retention_sweep. prog_history; [apply delete_objects_history|].
  match goal with |- context [fold_left _ ?rows _] => by eapply (in_tx_history _ (RSweep now rows)) end.
Qed.
End MethodHistories.
