(* ===== verification/ReceiptClaims.v ===== *)
(** * What the receipt lifecycle guarantees *)

From S2P Require Import Prelude RustStr RustStrFacts Platform Errors Work WorkProps Quota ReceiptTypes Receipt ReceiptProps ReceiptInv ReceiptSpec.
Import ReceiptTypes Receipt.

(** ** Lemmas *)

Lemma legal_terminal n a b : nsteps legal n a b -> is_terminal a = true -> n = 0%nat \/ b = Deleted.
Proof.
  intros [x|m x c y Hl Hs] Ht; [by left|]. right.
  pose proof (terminal_step x c Ht Hl) as ->.
  inversion Hs as [|? ? d ? Hl']; subst; [done|]. by destruct d.
Qed.

(** The schema CHECKs never stand in the way of a legal transition. *)
Lemma moved_check now to id r err hours :
  submission_check id r = true -> sub_version r < i32_max ->
  can_transition (sub_state r) to = true -> to <> Confirmed ->
  (to = ReviewRequired -> hours <> None) ->
  submission_check id (moved now to err hours None None r) = true.
Proof.
  unfold submission_check. intros H Hv Hl Hc Hh.
  repeat (apply andb_true_iff in H as [H ?]). b2p. rewrite in_i32_spec in *. cbn.
  rewrite (proj2 (Z.ltb_lt _ _)), (proj2 (in_i32_spec _)) by (unfold i32_max, i32_min in *; lia). cbn [andb].
  rewrite bool_decide_eq_false_2 by done. cbn [negb andb].
  destruct (sub_state r), to, hours, (sub_duplicate_of r), (sub_confirmed_expense r),
    (sub_failure_error_class r), (sub_review_expires_at r); cbn in *; try done; first [by destruct Hh | by destruct err].
Qed.

Lemma moved_refs t now to id r err hours :
  twf t -> submissions t !! id = Some r ->
  submission_refs t (moved now to err hours None None r) = true.
Proof. intros W Hr. exact (row_refs _ _ _ (twf_rows t W id r Hr)). Qed.

(** A legal transition of a stored row succeeds. *)
Lemma transition_succeeds now id r to err hours t :
  twf t -> submissions t !! id = Some r -> sub_version r < i32_max ->
  can_transition (sub_state r) to = true -> to <> Confirmed -> (to = ReviewRequired -> hours <> None) ->
  transition_state now id (sub_account r) (sub_state r) to err hours None None t
  = Ok (tt, set_submissions <[id := moved now to err hours None None r]> t).
Proof.
  intros W Hr Hv Hl Hc Hh. rewrite (transition_state_eq _ _ r) by done.
  rewrite moved_check, (moved_refs t now to id r err hours W Hr); try done.
  exact (row_check _ _ _ (twf_rows t W id r Hr)).
Qed.

Lemma review_row_clean id r :
  submission_check id r = true -> sub_state r = ReviewRequired ->
  sub_duplicate_of r = None /\ sub_confirmed_expense r = None /\ 0 < sub_version r.
Proof.
  unfold submission_check. intros H Hs. rewrite Hs in H.
  repeat (apply andb_true_iff in H as [H ?]). b2p.
  destruct (sub_duplicate_of r), (sub_confirmed_expense r); done.
Qed.

Lemma load_own t id r : submissions t !! id = Some r -> load_submission t id (sub_account r) = Ok r.
Proof. intros Hr. unfold load_submission. rewrite Hr. by rewrite bool_decide_eq_true_2. Qed.

Lemma load_own_draft t id r d :
  twf t -> submissions t !! id = Some r -> drafts t !! id = Some d ->
  load_draft t id (sub_account r) = Ok d.
Proof.
  intros W Hr Hd. pose proof (row_draft _ _ _ (twf_rows t W id r Hr)) as H. rewrite Hd in H.
  destruct H as (_ & _ & Ha & _). unfold load_draft. rewrite Hd. by rewrite bool_decide_eq_true_2.
Qed.

(** Confirming: the expense row, the link to it and the new state in one step. *)
Lemma confirm_succeeds now eid r d t row :
  twf t -> submissions t !! cf_submission_id r = Some row -> sub_account row = cf_account_id r ->
  sub_state row = ReviewRequired -> sub_version row < i32_max ->
  drafts t !! cf_submission_id r = Some d -> version d = cf_expected_draft_version r ->
  accounts t !! cf_account_id r <> None -> cf_expense_id r = eid -> expenses t !! eid = None ->
  confirm_in_transaction now r t =
    Ok (CConfirmed eid,
        set_submissions <[cf_submission_id r := moved now Confirmed None None (Some eid) None row]>
          (set_expenses <[eid := confirmed_expense (cf_account_id r) (cf_submission_id r) d]> t)).
Proof.
  intros W Hr Hacc Hs Hv Hd Hver Hex <- He. unfold confirm_in_transaction.
  pose proof (load_own_draft _ _ _ _ W Hr Hd) as Hld.
  rewrite <- Hacc in *. rewrite (load_own _ _ _ Hr). cbn [res_bind]. rewrite Hs, Hld. cbn [res_bind].
  rewrite (proj2 (Z.eqb_eq _ _) Hver). cbn [negb].
  destruct (confirm_statements (cf_expense_id r) (sub_account row) (cf_submission_id r) d t row W Hr Hs Hd Hex He)
    as [E1 E2].
  unfold t_bind, t_ret. rewrite E1, E2. set (x := confirmed_expense _ _ d).
  destruct (review_row_clean _ _ (row_check _ _ _ (twf_rows t W _ _ Hr)) Hs) as (Hdup & Hcf & Hvp).
  rewrite (transition_state_eq _ _ row) by done.
  assert (submission_check (cf_submission_id r) (moved now Confirmed None None (Some (cf_expense_id r)) None row) = true) as ->.
  { unfold submission_check. cbn. rewrite Hdup. cbn.
    rewrite (proj2 (Z.ltb_lt _ _)), (proj2 (in_i32_spec _)) by (unfold i32_min; lia). done. }
  assert (submission_refs (set_expenses <[cf_expense_id r := x]> t)
            (moved now Confirmed None None (Some (cf_expense_id r)) None row) = true) as ->.
  { unfold submission_refs. cbn. by rewrite lookup_insert_eq, Hdup. }
  done.
Qed.

(** ** Editing a draft *)

Section EditFacts.
Context {C : Chrono}.

(** One line of the correction log, when the field changes. *)
Definition change {A} `{EqDecision A} (did id : uuid) (field : rstr) (show : A -> rstr) (old new : A)
    : list correction :=
  if bool_decide (new = old) then []
  else [{| co_draft_id := did; co_submission_id := id; co_field_name := field;
           co_old_value := Some (show old); co_new_value := Some (show new) |}].

(** The draft an edit asks for: the requested fields, the others as they were. *)
Definition edited (r : EditDraftRequest) (d : ExpenseDraftView) : ExpenseDraftView :=
  {| draft_id := draft_id d; dr_account_id := dr_account_id d;
     amount_minor := default (amount_minor d) (ed_amount_minor r);
     currency := default (currency d) (ed_currency r);
     merchant := default (merchant d) (trim <$> ed_merchant r);
     category_key := default (category_key d) (ed_category_key r);
     transaction_type := default (transaction_type d) (ed_transaction_type r);
     occurred_at := default (occurred_at d) (ed_occurred_at r);
     confidence := confidence d; version := version d + 1 |}.

Definition edit_log (r : EditDraftRequest) (d : ExpenseDraftView) : list correction :=
  let n := edited r d in
  let id := ed_submission_id r in
  change (draft_id d) id (s! "amount_minor") dec_signed (amount_minor d) (amount_minor n)
  ++ change (draft_id d) id (s! "currency") (fun x => x) (currency d) (currency n)
  ++ change (draft_id d) id (s! "merchant") (fun x => x) (merchant d) (merchant n)
  ++ change (draft_id d) id (s! "category_key") (fun x => x) (category_key d) (category_key n)
  ++ change (draft_id d) id (s! "occurred_at") to_rfc3339 (occurred_at d) (occurred_at n)
  ++ change (draft_id d) id (s! "transaction_type") (fun x => x) (transaction_type d) (transaction_type n).

(** The checks an edit request has to pass. *)
Definition edit_valid (t : tables) (r : EditDraftRequest) : Prop :=
  (forall a, ed_amount_minor r = Some a -> 0 < a /\ in_i64 a = true)
  /\ (forall c, ed_currency r = Some c -> validate_currency c = Ok tt)
  /\ (forall m, ed_merchant r = Some m -> validate_merchant m = Ok (trim m))
  /\ (forall k, ed_category_key r = Some k -> k ∈ categories t)
  /\ (forall y, ed_transaction_type r = Some y -> validate_transaction_type y = Ok tt).

Lemma edit_field_eq {A} `{EqDecision A} did id f (show : A -> rstr) req old t :
  edit_field did id f show req old t =
  Ok (default old req, set_corrections (fun l => l ++ change did id f show old (default old req)) t).
Proof.
  assert (Hid : set_corrections (fun l => l ++ []) t = t).
  { destruct t. unfold set_corrections. cbn. by rewrite app_nil_r. }
  unfold edit_field, change. destruct req as [v|]; cbn.
  - case_bool_decide; subst; unfold t_ret, t_bind, record_correction; [by rewrite Hid | done].
  - rewrite bool_decide_eq_true_2 by done. by rewrite Hid.
Qed.

Lemma currency_valid c : validate_currency c = Ok tt ->
  (char_count c =? 3) && forallb is_ascii_upper c = true.
Proof.
  unfold validate_currency. destruct (forallb is_ascii_upper c) eqn:E; [|by rewrite andb_false_r].
  rewrite !andb_true_r. destruct (blen c =? 3) eqn:Eb; [|done]. intros _.
  assert (blen c = char_count c) as Hl.
  { clear Eb. unfold char_count. induction c as [|x c IH]; [done|]. cbn [forallb] in E. b2p.
    cbn [blen foldr length]. fold (blen c). rewrite (IH H0).
    assert (char_len x = 1) as ->; [|lia]. unfold is_ascii_upper in H. b2p. unfold char_len.
    by rewrite (proj2 (Z.ltb_lt _ _)) by lia. }
  by rewrite <- Hl.
Qed.

Lemma drop_while_head f s c r : drop_while f s = c :: r -> f c = false.
Proof. induction s as [|x s IH]; cbn; [done|]. destruct (f x) eqn:E; [auto|]. intros [= <- <-]. done. Qed.

Lemma drop_while_stable f g s :
  (forall c, f c = false -> g c = false) -> drop_while g (drop_while f s) = drop_while f s.
Proof.
  intros H. destruct (drop_while f s) as [|c r] eqn:E; [done|].
  cbn. by rewrite (H c) by by eapply drop_while_head.
Qed.

(** Trimming spaces off a trimmed string changes nothing. *)
Lemma btrim_trim s : btrim_spaces (trim s) = trim s.
Proof.
  assert (Hg : forall c, is_whitespace c = false -> (32 =? c) = false).
  { intros c. destruct (Z.eqb_spec 32 c) as [<-|]; done. }
  unfold btrim_spaces, trim, trim_matches, trim_start_matches, trim_end_matches.
  set (u := drop_while is_whitespace s).
  assert (Hu : drop_while (Z.eqb 32) (rev (drop_while is_whitespace (rev u))) = rev (drop_while is_whitespace (rev u))).
  { destruct u as [|c r] eqn:Eu; [done|]. pose proof (drop_while_head _ _ _ _ Eu) as Hc.
    destruct (drop_while_suffix is_whitespace (rev (c :: r))) as [a Ha].
    set (w := drop_while is_whitespace (rev (c :: r))) in *.
    assert (c :: r = rev w ++ rev a) as E by by rewrite <- rev_app_distr, <- Ha, rev_involutive.
    destruct (rev w) as [|x y] eqn:Ew; [done|]. cbn in E. injection E as -> _.
    cbn [drop_while]. by rewrite (Hg x Hc). }
  rewrite Hu, rev_involutive, drop_while_stable by done. done.
Qed.

Lemma merchant_valid m : validate_merchant m = Ok (trim m) ->
  1 <= char_count (btrim_spaces (trim m)) <= 200.
Proof.
  unfold validate_merchant, MAX_MERCHANT_CHARS. rewrite btrim_trim.
  destruct ((char_count (trim m) =? 0) || _) eqn:E; [done|]. intros _. b2p. unfold char_count in *. lia.
Qed.
End EditFacts.

Section EditSucceeds.
Context {C : Chrono}.

Lemma opt_check_ok {A} (f : A -> result unit ReceiptError) o t :
  (forall v, o = Some v -> f v = Ok tt) -> opt_check f o t = Ok (tt, t).
Proof. intros H. unfold opt_check, t_lift, t_ret. destruct o as [v|]; [|done]. by rewrite H. Qed.

Lemma merchant_step_ok o t :
  (forall m, o = Some m -> validate_merchant m = Ok (trim m)) ->
  match o with
  | Some m => t_bind (t_lift (validate_merchant m)) (fun m' => t_ret (Some m'))
  | None => t_ret None
  end t = Ok (trim <$> o, t : tables).
Proof. intros H. unfold t_bind, t_lift, t_ret. destruct o as [m|]; [|done]. by rewrite H. Qed.

Lemma draft_check_iff d :
  draft_check d = true <->
  0 < amount_minor d /\ in_i64 (amount_minor d) = true
  /\ (char_count (currency d) =? 3) && forallb is_ascii_upper (currency d) = true
  /\ 1 <= char_count (btrim_spaces (merchant d)) <= 200
  /\ existsb (str_eqb (transaction_type d)) TRANSACTION_TYPES = true
  /\ match confidence d with Some c => confidence_ok c | None => true end = true
  /\ 0 < version d /\ in_i32 (version d) = true.
Proof.
  unfold draft_check. generalize (existsb (str_eqb (transaction_type d)) TRANSACTION_TYPES). intros b.
  generalize (match confidence d with Some c => confidence_ok c | None => true end). intros b2.
  generalize (forallb is_ascii_upper (currency d)). intros b3.
  rewrite !andb_true_iff, !Z.ltb_lt, !Z.leb_le. tauto.
Qed.

Lemma edited_check t r d :
  edit_valid t r -> draft_check d = true -> version d < i32_max -> draft_check (edited r d) = true.
Proof.
  intros (Ha & Hc & Hm & _ & Hy) H Hv. apply draft_check_iff in H as (H1 & H2 & H3 & H4 & H5 & H6 & H7 & H8).
  apply draft_check_iff. unfold edited. cbn [amount_minor currency merchant transaction_type confidence version].
  rewrite in_i32_spec in *. split_and!; try done; try lia.
  - destruct (ed_amount_minor r) as [a|]; [|done]. by destruct (Ha a eq_refl).
  - destruct (ed_amount_minor r) as [a|]; [|done]. by destruct (Ha a eq_refl).
  - destruct (ed_currency r) as [c|]; [|done]. by apply currency_valid, Hc.
  - destruct (ed_merchant r) as [m|]; cbn [fmap option_fmap option_map default]; [|lia].
    by apply merchant_valid, Hm.
  - destruct (ed_merchant r) as [m|]; cbn [fmap option_fmap option_map default]; [|lia].
    by apply merchant_valid, Hm.
  - destruct (ed_transaction_type r) as [y|]; [|done]. specialize (Hy y eq_refl).
    unfold validate_transaction_type in Hy. cbn [default]. by destruct (existsb _ _).
Qed.

Lemma update_draft_ok id n d t :
  drafts t !! id = Some d -> draft_id n = draft_id d -> dr_account_id n = dr_account_id d ->
  confidence n = confidence d -> category_key n ∈ categories t -> draft_check n = true ->
  version n = version d + 1 ->
  update_draft id {| draft_id := draft_id n; dr_account_id := dr_account_id n; amount_minor := amount_minor n;
      currency := currency n; merchant := merchant n; category_key := category_key n;
      transaction_type := transaction_type n; occurred_at := occurred_at n;
      confidence := confidence n; version := version d |} t
  = Ok (tt, set_drafts <[id := n]> t).
Proof.
  intros Hd E1 E2 E3 Hc Hk Hv. unfold update_draft, ensure_category. cbn [category_key].
  rewrite (bool_decide_eq_true_2 _ Hc). cbn [res_bind]. rewrite Hd.
  cbn [draft_id version amount_minor currency merchant category_key transaction_type occurred_at].
  rewrite E1, bool_decide_eq_true_2, Z.eqb_refl by done. cbn [andb]. cbv zeta.
  rewrite <- E1, <- E2, <- E3, <- Hv.
  replace {| draft_id := draft_id n; version := version n |} with n by by destruct n.
  by rewrite Hk.
Qed.

Lemma edit_succeeds r t row d :
  twf t -> submissions t !! ed_submission_id r = Some row -> sub_account row = ed_account_id r ->
  sub_state row = ReviewRequired -> drafts t !! ed_submission_id r = Some d ->
  version d = ed_expected_version r -> version d < i32_max -> edit_valid t r ->
  edit_draft_in_transaction r t =
  Ok (edited r d, set_drafts <[ed_submission_id r := edited r d]>
                    (set_corrections (fun l => l ++ edit_log r d) t)).
Proof.
  intros W Hr Hacc Hs Hd Hver Hmax Hval.
  pose proof (load_own_draft _ _ _ _ W Hr Hd) as Hld.
  pose proof (row_draft _ _ _ (twf_rows t W _ _ Hr)) as Hda. rewrite Hd in Hda.
  destruct Hda as (Hck & Hcat & _).
  pose proof (edited_check t r d Hval Hck Hmax) as Hck'.
  destruct Hval as (Ha & Hc & Hm & Hk & Hy).
  unfold edit_draft_in_transaction. cbv zeta. rewrite <- Hacc, (load_own _ _ _ Hr). cbn [res_bind].
  rewrite Hs, bool_decide_eq_true_2, Hld by done. cbn [negb res_bind].
  rewrite <- Hver, Z.eqb_refl. cbn [negb].
  assert (Ha' : forall a, ed_amount_minor r = Some a -> validate_amount_minor a = Ok tt).
  { intros a E. unfold validate_amount_minor. destruct (Ha a E). by rewrite (proj2 (Z.leb_gt _ _)) by lia. }
  assert (Hk' : forall k, ed_category_key r = Some k -> ensure_category t k = Ok tt).
  { intros k E. unfold ensure_category. by rewrite bool_decide_eq_true_2 by auto. }
  rewrite (t_bind_step _ _ _ _ _ (opt_check_ok _ _ t Ha')), (t_bind_step _ _ _ _ _ (opt_check_ok _ _ t Hc)),
    (t_bind_step _ _ _ _ _ (merchant_step_ok _ t Hm)), (t_bind_step _ _ _ _ _ (opt_check_ok _ _ t Hk')).
  do 5 rewrite (t_bind_step _ _ _ _ _ (edit_field_eq _ _ _ _ _ _ _)).
  rewrite (t_bind_step _ _ _ _ _ (opt_check_ok _ _ _ Hy)), (t_bind_step _ _ _ _ _ (edit_field_eq _ _ _ _ _ _ _)).
  assert (Hcat' : category_key (edited r d) ∈ categories t).
  { unfold edited. cbn [category_key]. destruct (ed_category_key r) as [k|]; [by apply Hk | done]. }
  match goal with |- t_bind (update_draft _ _) _ ?x = _ => set (t1 := x) end.
  pose proof (update_draft_ok (ed_submission_id r) (edited r d) d t1 Hd eq_refl eq_refl eq_refl Hcat' Hck' eq_refl) as Hu.
  assert (Ht : t1 = set_corrections (fun l => l ++ edit_log r d) t).
  { clear. unfold t1, edit_log, edited, set_corrections.
    cbn [amount_minor currency merchant category_key transaction_type occurred_at corrections accounts
         inbound_events categories submissions assets drafts extraction_attempts expenses queue usage].
    by rewrite <- !app_assoc. }
  clearbody t1. etransitivity; [apply t_bind_step; exact Hu|]. by rewrite Ht.
Qed.

End EditSucceeds.
