(* ===== verification/ReceiptIngest.v ===== *)
(** * Ingestion: storing a new image, absorbing a known one *)

From S2P Require Import Prelude RustStr RustStrFacts Platform Errors Work WorkProps Quota ReceiptTypes Receipt ReceiptProps ReceiptInv ReceiptSpec ReceiptClaims.
Import ReceiptTypes Receipt.

Lemma queued_row_clean id r :
  submission_check id r = true -> sub_state r = Queued ->
  sub_duplicate_of r = None /\ sub_confirmed_expense r = None /\ 0 < sub_version r.
Proof.
  unfold submission_check. intros H Hs. rewrite Hs in H.
  repeat (apply andb_true_iff in H as [H ?]). b2p.
  destruct (sub_duplicate_of r), (sub_confirmed_expense r); done.
Qed.

Lemma queued_no_asset t id r :
  twf t -> submissions t !! id = Some r -> sub_state r = Queued -> assets t !! id = None.
Proof.
  intros W Hr Hs. pose proof (row_asset _ _ _ (twf_rows t W id r Hr)) as Ha.
  destruct (assets t !! id) as [a|]; [|done]. cbn in Ha. rewrite Hs in Ha. by destruct Ha as (_ & _ & ? & _).
Qed.

(** Active content is unique within an account, so the lookup finds its owner. *)
Lemma find_active_owner t acct sha o a :
  twf t -> assets t !! o = Some a -> as_account a = acct -> as_content_sha256 a = sha ->
  as_deletion_state a = Active -> find_active_duplicate t acct sha = Some o.
Proof.
  intros W Ha Eac Esh Ed. unfold find_active_duplicate.
  destruct (List.find _ _) as [[i b]|] eqn:Ef.
  - apply List.find_some in Ef as [Hin Hb]. apply list_elem_of_In, elem_of_map_to_list in Hin.
    cbn in Hb. b2p. cbn. f_equal. apply str_eqb_eq in H1.
    apply (twf_content t W i o b a); try done; congruence.
  - pose proof (List.find_none _ _ Ef (o, a)) as Hn. cbn in Hn.
    rewrite (bool_decide_eq_true_2 _ Eac), (bool_decide_eq_true_2 _ Ed), Esh, str_eqb_refl in Hn.
    discriminate Hn. by apply list_elem_of_In, elem_of_map_to_list.
Qed.

Lemma absorb_succeeds now id o t r orig :
  twf t -> submissions t !! id = Some r -> sub_state r = Queued -> sub_version r < i32_max ->
  submissions t !! o = Some orig -> sub_account orig = sub_account r -> o <> id ->
  absorb_duplicate now id (sub_account r) o t =
  Ok (tt, set_submissions <[id := moved now FailedPermanent (Some (Errors.as_str Errors.Duplicate))
                                    None None (Some o) r]> t).
Proof.
  intros W Hr Hs Hv Ho Hacc Hne. unfold absorb_duplicate. rewrite (load_own _ _ _ Hr). cbn [res_bind].
  rewrite (bool_decide_eq_false_2 (sub_state r = FailedPermanent)), andb_false_r by congruence.
  rewrite (transition_state_eq _ _ r) by (done || by rewrite Hs).
  destruct (queued_row_clean id r (row_check _ _ _ (twf_rows t W id r Hr)) Hs) as (Hd & Hc & Hp).
  set (r' := moved now FailedPermanent _ None None (Some o) r).
  assert (submission_check id r' = true) as ->.
  { unfold submission_check, r'. cbn [moved sub_state sub_version sub_duplicate_of sub_confirmed_expense
      sub_failure_error_class sub_review_expires_at]. rewrite Hc.
    rewrite (proj2 (Z.ltb_lt _ _)), (proj2 (in_i32_spec _)) by (unfold i32_min; lia).
    rewrite (bool_decide_eq_false_2 (Some o = Some id)) by congruence. done. }
  assert (submission_refs t r' = true) as ->.
  { unfold submission_refs, r'. cbn [moved sub_duplicate_of sub_confirmed_expense sub_account].
    rewrite Hc, Ho. by rewrite (bool_decide_eq_true_2 _ Hacc). }
  done.
Qed.

Section Ingest.
Context {UT : UuidText} {IL : ImageLib} {OS : ObjectStore}.

(** Up to the duplicate check, ingestion of a queued submission only reads. *)
Lemma ingest_queued now utc acct id bytes mime jid s r v :
  account_is_active s.1 acct = true -> submissions s.1 !! id = Some r -> sub_account r = acct ->
  sub_state r = Queued -> validate_image bytes mime = Ok v ->
  ingest now utc acct id bytes mime jid s =
  match find_active_duplicate s.1 acct (content_sha256 v) with
  | Some o =>
      if bool_decide (o = id) then
        p_bind (on_objects (os_put (object_key acct id (content_sha256 v)) bytes)) (fun _ =>
          p_try (persist_stored_ingest now utc acct id (object_key acct id (content_sha256 v)) v jid)
            (fun persist =>
               match persist with
               | Ok (IStored _ _) | Ok (IAlreadyStored _) => p_lift persist
               | _ => p_bind (compensate_orphan_object acct id (object_key acct id (content_sha256 v)))
                        (fun _ => p_lift persist)
               end)) s
      else p_bind (in_tx (absorb_duplicate now id acct o)) (fun _ => p_ret (IDuplicateAbsorbed id o)) s
  | None =>
      p_bind (on_objects (os_put (object_key acct id (content_sha256 v)) bytes)) (fun _ =>
        p_try (persist_stored_ingest now utc acct id (object_key acct id (content_sha256 v)) v jid)
          (fun persist =>
             match persist with
             | Ok (IStored _ _) | Ok (IAlreadyStored _) => p_lift persist
             | _ => p_bind (compensate_orphan_object acct id (object_key acct id (content_sha256 v)))
                      (fun _ => p_lift persist)
             end)) s
  end.
Proof.
  intros Hact Hr Hacc Hs Hv. unfold ingest.
  rewrite (p_bind_read _ _ _ true) by (by rewrite Hact). cbn [negb].
  rewrite (p_bind_read _ _ _ r) by (rewrite <- Hacc; by apply load_own).
  erewrite p_bind_read by done. cbv zeta. rewrite Hs, Hv.
  erewrite p_bind_read by done.
  destruct (find_active_duplicate _ _ _) as [o|]; [|done]. by case_bool_decide.
Qed.

Lemma job_key_valid (p : rstr) c u : p = c :: u -> is_whitespace c = false -> (length p <= 100)%nat ->
  forall id, (length (uuid_str id) <= 36)%nat -> Work.bad_length (p ++ uuid_str id) 512 = false.
Proof.
  intros -> Hc Hl id Hu. unfold Work.bad_length. apply orb_false_iff. split.
  - destruct (trim _) as [|x y] eqn:E; [|done]. exfalso.
    unfold trim, trim_matches, trim_start_matches, trim_end_matches in E.
    cbn [app drop_while] in E. rewrite Hc in E.
    apply (f_equal (@rev Z)) in E. rewrite rev_involutive in E. cbn [rev] in E.
    assert (forall l, drop_while is_whitespace (l ++ [c]) <> []) as Hdw.
    { intros l. induction l as [|z l IH]; cbn [app drop_while]; [by rewrite Hc|]. by destruct (is_whitespace z). }
    by apply Hdw in E.
  - apply Z.ltb_ge. unfold char_count. rewrite length_app in *. lia.
Qed.

(** Enqueueing a receipt job succeeds when the job id is new; the queue then has a
    job under the dedupe key. *)
Lemma enqueue_receipt_ok {UL : UuidTextLaws} now utc jid id acct t :
  Work.jobs (queue t) !! jid = None ->
  exists o q, enqueue_receipt_job now utc jid JOB_TYPE_EXTRACT id acct t = Ok (o, set_queue q t)
    /\ exists i j, Work.jobs q !! i = Some j /\ Work.dedupe_key j = extract_dedupe_key id.
Proof.
  intros Hj. unfold enqueue_receipt_job.
  replace (str_eqb JOB_TYPE_EXTRACT JOB_TYPE_INGEST) with false by done. cbv zeta.
  match goal with |- context [Work.enqueue_in_transaction now ?r _] => set (req := r) end.
  assert (Hval : exists v, Work.validate_enqueue_request req = Ok v).
  { exists 1. unfold Work.validate_enqueue_request.
    replace (Work.payload_version_of (Work.req_payload req)) with (Ok 1 : result Z Work.WorkError) by done.
    cbn [res_bind Work.req_max_attempts Work.req_job_type Work.req_dedupe_key Work.req_serialization_key req].
    replace (Work.bad_length JOB_TYPE_EXTRACT 128) with false by done.
    unfold extract_dedupe_key, receipt_serialization_key.
    pose proof (uuid_str_length id) as H1. pose proof (uuid_str_length acct) as H2.
    rewrite (job_key_valid (s! "receipt.extract:") _ _ eq_refl) by first [done | vm_compute; lia | lia].
    rewrite (job_key_valid (s! "receipt:") _ _ eq_refl) by first [done | vm_compute; lia | lia]. done. }
  destruct Hval as [v Hval].
  destruct (Work.enqueue_in_transaction now req (queue t)) as [[o q]|e] eqn:E.
  2:{ unfold Work.enqueue_in_transaction in E. rewrite Hval in E. cbn [res_bind] in E.
      destruct (Work.has_dedupe_key _ _); [done|]. cbn [Work.req_id req] in E. by rewrite Hj in E. }
  destruct (enqueue_records now req (queue t) o q E) as ((i & j & Hi & Hd) & _).
  destruct o; eexists _, _; (split; [done|]); cbn [Work.jobs].
  - destruct (decide (i = jid)) as [->|Hne].
    + exists jid, (set_run_at now j). rewrite lookup_alter, decide_True, Hi by done. done.
    + exists i, j. by rewrite lookup_alter, decide_False by congruence.
  - by exists i, j.
Qed.

Lemma find_active_transition t id r acct sha :
  find_active_duplicate (set_submissions <[id := r]> t) acct sha = find_active_duplicate t acct sha.
Proof. done. Qed.

(** The row [insert_asset] writes. *)
Definition stored_asset (now : Z) (acct : uuid) (key : rstr) (v : ValidatedImage) (days : Z) : asset :=
  {| as_account := acct; as_object_key := key; as_content_sha256 := content_sha256 v;
     as_mime_type := mime_type v; as_size_bytes := size_bytes v; as_width_px := width_px v;
     as_height_px := height_px v; as_pixel_count := width_px v * height_px v;
     as_retention_deadline := now + days * day; as_deletion_state := Active;
     as_original_deleted_at := None |}.

Lemma persist_succeeds {UL : UuidTextLaws} now utc id r acc key v jid t :
  twf t -> submissions t !! id = Some r -> sub_state r = Queued -> sub_version r < i32_max ->
  accounts t !! sub_account r = Some acc -> find_active_duplicate t (sub_account r) (content_sha256 v) = None ->
  Work.jobs (queue t) !! jid = None ->
  exists q, persist_stored_ingest_tx now utc (sub_account r) id key v jid t =
    Ok (PDone (IStored id (content_sha256 v)),
        set_queue q (set_assets <[id := stored_asset now (sub_account r) key v (retention_preference_days acc)]>
                       (set_submissions <[id := moved now Stored None None None None r]> t)))
    /\ exists i j, Work.jobs q !! i = Some j /\ Work.dedupe_key j = extract_dedupe_key id.
Proof.
  intros W Hr Hs Hv Hacc Hdup Hj. unfold persist_stored_ingest_tx. rewrite (load_own _ _ _ Hr). cbn [res_bind].
  rewrite Hs. cbv zeta. pose proof (transition_succeeds now id r Stored None None t W Hr Hv) as Ht.
  rewrite Hs in Ht. rewrite Ht by done.
  unfold insert_asset. cbn [accounts set_submissions]. rewrite Hacc.
  rewrite find_active_transition, Hdup. cbn [assets set_submissions].
  rewrite (queued_no_asset t id r W Hr Hs). cbn [is_none negb orb].
  fold (stored_asset now (sub_account r) key v (retention_preference_days acc)).
  match goal with |- context [enqueue_receipt_job _ _ _ _ _ _ ?x] => set (t2 := x) end.
  destruct (enqueue_receipt_ok now utc jid id (sub_account r) t2 Hj) as (o & q & E & Hq).
  rewrite E. exists q. split; [done | exact Hq].
Qed.

End Ingest.
