(* ===== verification/ReceiptTheorems.v ===== *)
(** * What the receipt lifecycle guarantees: the properties *)

From S2P Require Import Prelude RustStr RustStrFacts Platform Errors Work WorkProps Quota ReceiptTypes Receipt ReceiptProps ReceiptInv ReceiptSpec ReceiptClaims ReceiptIngest.
Import ReceiptTypes Receipt.

Section Properties.
Context {UT : UuidText} {UL : UuidTextLaws} {IL : ImageLib} {OS : ObjectStore} {OL : ObjectStoreLaws}
  {XT : Extractor} {C : Chrono}.

(** C6. Refinement to the lifecycle automaton: whatever history of transactions is
    committed, a submission keeps its account and inbound event and its state moves
    along a path of legal transitions, whose length is the increase of the row
    version; with no increase the row is unchanged. *)
Theorem receipts_follow_lifecycle ops t id r :
  submissions t !! id = Some r ->
  exists r' n, submissions (rexec_all ops t) !! id = Some r'
    /\ sub_account r' = sub_account r /\ sub_inbound_event r' = sub_inbound_event r
    /\ nsteps legal n (sub_state r) (sub_state r')
    /\ sub_version r' = sub_version r + Z.of_nat n /\ (n = 0%nat -> r' = r).
Proof. apply rexec_all_evolves. Qed.

(** Terminal states are final: a confirmed, rejected, expired or permanently
    failed submission is never changed again, except that its original may be
    deleted. *)
Theorem terminal_receipts_final ops t id r :
  submissions t !! id = Some r -> is_terminal (sub_state r) = true ->
  exists r', submissions (rexec_all ops t) !! id = Some r' /\ (r' = r \/ sub_state r' = Deleted).
Proof.
  intros Hr Ht. destruct (rexec_all_evolves ops t) as [H _].
  destruct (H id r Hr) as (r' & n & Hr' & _ & _ & Hn & _ & E). exists r'. split; [done|].
  destruct (legal_terminal n _ _ Hn Ht); auto.
Qed.


(** The methods [ingest], [extract], [delete_original] and [retention_sweep] run
    several transactions and object store calls; whatever they return, errors
    included, the tables they leave are those of a history of transactions, so the
    invariant and the refinement hold at each of their commits. *)
Theorem methods_commit_histories cfg now utc l did acct id bytes mime jid batch locked (s : store) :
  history s (ingest now utc acct id bytes mime jid s).1
  /\ history s (extract cfg now utc l did acct id s).1
  /\ history s (delete_original now acct id s).1
  /\ history s (retention_sweep now batch locked s).1.
Proof.
  split_and!; [apply ingest_history | apply extract_history | apply delete_original_history | apply retention_history].
Qed.

(** C10. Confirming a draft under review creates exactly one expense, with the
    draft's fields, links it and moves the submission to confirmed; every later
    confirmation of the submission, whatever its version and expense id, answers
    with that same expense and changes nothing. *)
Theorem confirm_exactly_once ops now r row d :
  let t := rexec_all ops fresh_tables in
  submissions t !! cf_submission_id r = Some row -> sub_account row = cf_account_id r ->
  sub_state row = ReviewRequired -> sub_version row < i32_max ->
  drafts t !! cf_submission_id r = Some d -> version d = cf_expected_draft_version r ->
  accounts t !! cf_account_id r <> None -> expenses t !! cf_expense_id r = None ->
  exists t', confirm_in_transaction now r t = Ok (CConfirmed (cf_expense_id r), t')
    /\ expenses t' = <[cf_expense_id r := confirmed_expense (cf_account_id r) (cf_submission_id r) d]> (expenses t)
    /\ (forall e x, expenses t' !! e = Some x -> ex_receipt_submission x = Some (cf_submission_id r) ->
          e = cf_expense_id r)
    /\ (forall now' v e, confirm_in_transaction now'
          {| cf_account_id := cf_account_id r; cf_submission_id := cf_submission_id r;
             cf_expected_draft_version := v; cf_expense_id := e |} t'
          = Ok (CAlreadyConfirmed (cf_expense_id r), t')).
Proof.
  intros t Hr Hacc Hs Hv Hd Hver Hex He.
  assert (W : twf t) by apply rexec_all_keeps, twf_fresh. clearbody t.
  eexists. split; [by eapply confirm_succeeds|]. split; [done|]. split.
  - cbn. intros e x. rewrite lookup_insert. case_decide; [done|]. intros Hx Hi.
    by destruct (unconfirmed_no_expense t _ row W Hr ltac:(congruence) ltac:(congruence) e x Hx).
  - intros now' v e. unfold confirm_in_transaction. cbn [cf_submission_id cf_account_id].
    unfold load_submission. cbn [submissions set_submissions]. rewrite lookup_insert_eq.
    cbn [moved sub_account sub_state sub_confirmed_expense]. rewrite (bool_decide_eq_true_2 _ Hacc). done.
Qed.

(** A valid edit of a draft under review yields the draft with exactly the
    requested fields changed (the merchant trimmed) and its version increased by one,
    and appends one correction per field that really changed, with its old and new
    text; nothing else in the tables changes. *)
Theorem edit_draft_exact ops r row d :
  let t := rexec_all ops fresh_tables in
  submissions t !! ed_submission_id r = Some row -> sub_account row = ed_account_id r ->
  sub_state row = ReviewRequired -> drafts t !! ed_submission_id r = Some d ->
  version d = ed_expected_version r -> version d < i32_max -> edit_valid t r ->
  edit_draft_in_transaction r t =
  Ok (edited r d, set_drafts <[ed_submission_id r := edited r d]>
                    (set_corrections (fun l => l ++ edit_log r d) t)).
Proof.
  intros t Hr Hacc Hs Hd Hver Hmax Hval. eapply edit_succeeds; try done.
  apply rexec_all_keeps, twf_fresh.
Qed.


(** Ingesting a valid new image of a queued submission stores it: the result is
    [Stored], the submission moves to stored, its active asset records the image, the
    object store returns the very bytes under the asset's key, and an extraction job
    is in the queue. *)
Theorem ingest_stores ops now utc id bytes mime jid (o o' : objects) row acc v :
  let t := rexec_all ops fresh_tables in
  let key := object_key (sub_account row) id (content_sha256 v) in
  submissions t !! id = Some row -> sub_state row = Queued -> sub_version row < i32_max ->
  accounts t !! sub_account row = Some acc -> acc_lifecycle_state acc = s! "active" ->
  validate_image bytes mime = Ok v ->
  find_active_duplicate t (sub_account row) (content_sha256 v) = None ->
  Work.jobs (queue t) !! jid = None -> os_put key bytes o = (o', Ok tt) ->
  exists t' a r', ingest now utc (sub_account row) id bytes mime jid (t, o)
      = ((t', o'), Ok (IStored id (content_sha256 v)))
    /\ submissions t' !! id = Some r' /\ sub_state r' = Stored
    /\ assets t' !! id = Some a /\ as_deletion_state a = Active
    /\ as_content_sha256 a = sha256_hex bytes /\ os_get (as_object_key a) o' = Ok (Some bytes)
    /\ exists i j, Work.jobs (queue t') !! i = Some j /\ Work.dedupe_key j = extract_dedupe_key id.
Proof.
  intros t key Hr Hs Hv Hacc Hact Hval Hdup Hj Hput.
  assert (W : twf t) by apply rexec_all_keeps, twf_fresh. clearbody t.
  destruct (persist_succeeds now utc id row acc key v jid t W Hr Hs Hv Hacc Hdup Hj) as (q & E & Hq).
  eexists _, _, _. split.
  { rewrite (ingest_queued now utc (sub_account row) id bytes mime jid (t, o) row v); try done.
    2:{ cbn. unfold account_is_active. rewrite Hacc. by apply str_eqb_eq. }
    cbn [fst]. rewrite Hdup. erewrite p_bind_ok by (unfold on_objects; cbn [fst snd]; fold key; by rewrite Hput).
    unfold p_try, persist_stored_ingest.
    erewrite p_bind_ok by (unfold in_tx, atomically; cbn [fst snd]; fold key; by rewrite E). done. }
  cbn [submissions assets queue set_queue set_assets set_submissions]. rewrite !lookup_insert_eq.
  split; [done|]. split; [done|]. split; [done|]. split; [done|]. split.
  - cbn. by apply validate_image_ok in Hval as (_ & _ & _ & _ & _ & _ & _ & -> & _).
  - split; [|exact Hq]. cbn. by eapply put_get.
Qed.

(** Content deduplication: when the account already has an active image with the
    same digest, ingesting a queued submission stores nothing; the submission fails
    permanently as a duplicate of the image's owner, and assets and objects are
    untouched. *)
Theorem ingest_absorbs_duplicate ops now utc id bytes mime jid (o : objects) row acc v orig a :
  let t := rexec_all ops fresh_tables in
  submissions t !! id = Some row -> sub_state row = Queued -> sub_version row < i32_max ->
  accounts t !! sub_account row = Some acc -> acc_lifecycle_state acc = s! "active" ->
  validate_image bytes mime = Ok v ->
  assets t !! orig = Some a -> as_account a = sub_account row ->
  as_content_sha256 a = content_sha256 v -> as_deletion_state a = Active ->
  exists t' r', ingest now utc (sub_account row) id bytes mime jid (t, o)
      = ((t', o), Ok (IDuplicateAbsorbed id orig))
    /\ assets t' = assets t /\ submissions t' !! id = Some r' /\ sub_state r' = FailedPermanent
    /\ sub_duplicate_of r' = Some orig /\ sub_failure_error_class r' = Some (s! "duplicate").
Proof.
  intros t Hr Hs Hv Hacc Hact Hval Ha Eac Esh Ed.
  assert (W : twf t) by apply rexec_all_keeps, twf_fresh. clearbody t.
  assert (Hne : orig <> id).
  { intros ->. by rewrite (queued_no_asset t id row W Hr Hs) in Ha. }
  assert (exists ro, submissions t !! orig = Some ro /\ sub_account ro = sub_account row) as (ro & Hro & Eo).
  { destruct (submissions t !! orig) as [ro|] eqn:Hro.
    - exists ro. split; [done|]. pose proof (row_asset _ _ _ (twf_rows t W orig ro Hro)) as Hag.
      rewrite Ha in Hag. destruct Hag as (_ & Hag & _). congruence.
    - destruct (twf_none t W orig Hro) as [? _]. congruence. }
  eexists _, _. split.
  { rewrite (ingest_queued now utc (sub_account row) id bytes mime jid (t, o) row v); try done.
    2:{ cbn. unfold account_is_active. rewrite Hacc. by apply str_eqb_eq. }
    cbn [fst]. rewrite (find_active_owner t (sub_account row) (content_sha256 v) orig a) by done.
    rewrite bool_decide_eq_false_2 by done.
    erewrite p_bind_ok by (unfold in_tx, atomically; cbn [fst snd];
      by rewrite (absorb_succeeds now id orig t row ro)). done. }
  split; [done|]. cbn [submissions set_submissions]. rewrite lookup_insert_eq. done.
Qed.

End Properties.

(** The failure states of extraction agree with the retry policy of the queue on
    every error class but one: [provider_error] is retried by the queue although the
    submission has failed permanently, so the retry finds it terminal. *)
Theorem failure_state_vs_retry (c : Errors.ErrorClass) :
  c <> Errors.ProviderError ->
  (failure_state_for c = FailedTransient <-> Work.is_retryable c = true)
  /\ Work.is_retryable Errors.ProviderError = true
  /\ failure_state_for Errors.ProviderError = FailedPermanent
  /\ (forall now acct id t r, submissions t !! id = Some r -> sub_account r = acct ->
        sub_state r = FailedPermanent ->
        claim_extracting now acct id t = Ok (Done (XAlreadyTerminal FailedPermanent), t)).
Proof.
  intros Hc. split; [by destruct c|]. split; [done|]. split; [done|].
  intros now acct id t r Hr <- Hs. unfold claim_extracting. rewrite (load_own _ _ _ Hr). cbn [res_bind]. by rewrite Hs.
Qed.

Example failure_state_vs_retry_witness :
  failure_state_for Errors.RateLimited = FailedTransient <-> Work.is_retryable Errors.RateLimited = true.
Proof. exact (proj1 (failure_state_vs_retry Errors.RateLimited ltac:(done))). Defined.

(** An accepted image is non-empty and at most 10 MiB, its type is the sniffed
    one and one of the three allowed, its dimensions are positive 32-bit numbers with
    at most 25 million pixels, and its digest is that of the bytes. *)
Theorem validated_image_bounds (IL : ImageLib) bytes mime v :
  validate_image bytes mime = Ok v ->
  0 < size_bytes v <= MAX_IMAGE_BYTES /\ 0 < width_px v <= i32_max /\ 0 < height_px v <= i32_max
  /\ width_px v * height_px v <= MAX_PIXEL_COUNT /\ mime_type v ∈ ALLOWED_MIME_TYPES
  /\ sniffed_image_mime bytes = Some (mime_type v) /\ content_sha256 v = sha256_hex bytes.
Proof. intros H. apply validate_image_ok in H. tauto. Qed.
(** ** A concrete platform for the witnesses *)

Definition demo_images : ImageLib :=
  {| blob_size := fun _ => Some (640, 480); sha256_hex := fun b => dec (Z.of_nat (length b)) |}.
Definition demo_meta : ExtractionMeta :=
  {| provider := s! "fake"; model := s! "fake-corpus"; profile_name := s! "receipt-fast";
     prompt_version := s! "v1"; input_tokens := Some 0; output_tokens := Some 0 |}.
Definition demo_result : ExtractionResult :=
  {| x_merchant := s! "Co.opmart"; x_amount_minor := 325000; x_currency := s! "VND";
     x_category_key := s! "thuc-pham"; x_transaction_type := s! "expense"; x_occurred_at := 5;
     x_confidence := 1064514355; x_unsupported := false |}.
Definition demo_extractor : Extractor :=
  {| extract_bytes := fun _ => Ok {| x_result := demo_result; x_meta := demo_meta |};
     extractor_meta := demo_meta |}.
Definition demo_config : ReceiptConfig :=
  {| original_receipt_days := 7; review_expiry_hours := 72; extraction_enabled := true;
     monthly_extraction_pages := 80 |}.
Definition demo_jpeg : list Z := [255; 216; 255; 0].

#[local] Existing Instance hyphenated_uuid.
#[local] Existing Instance demo_images.
#[local] Existing Instance InMemoryObjectStore.
#[local] Existing Instance demo_extractor.
#[local] Existing Instance fixed_offset_chrono.

(** Account 1 sends receipts 10 and 11; the first is stored and extracted. *)
Definition demo_accept (sub job : uuid) : rop :=
  RAccept 100 100 {| ac_submission_id := sub; ac_account_id := 1; ac_inbound_event_id := None;
                     ac_ingest_job_id := job |}.
Definition demo_ops_queued : list rop :=
  [RAccount 1 {| acc_lifecycle_state := s! "active"; retention_preference_days := 7 |};
   demo_accept 10 20; demo_accept 11 21].
Definition demo_ops_review : list rop :=
  demo_ops_queued
  ++ [RPersist 200 200 1 10 demo_jpeg (s! "image/jpeg") 22; RClaimExtracting 250 1 10;
      RQuota demo_config 260; RSuccess demo_config 300 1 10 30 demo_result 5 demo_meta].
Definition demo_ops_confirmed : list rop :=
  demo_ops_review ++ [RConfirm 400 {| cf_account_id := 1; cf_submission_id := 10;
                                      cf_expected_draft_version := 1; cf_expense_id := 40 |}].
Abbreviation demo_queued_tables := (rexec_all demo_ops_queued fresh_tables).
Abbreviation demo_review := (rexec_all demo_ops_review fresh_tables).
Abbreviation demo_confirmed := (rexec_all demo_ops_confirmed fresh_tables).

Definition no_objects : gmap rstr (list Z) := ∅.

(** The row found at a key of a computed table. *)
Ltac row_of e r E := destruct e as [r|] eqn:E; [|by vm_compute in E].
Ltac eval_row E := vm_compute in E; injection E as <-.

Example receipts_follow_lifecycle_witness :
  exists r r' n, submissions demo_queued_tables !! 10%N = Some r
    /\ submissions (rexec_all demo_ops_review demo_queued_tables) !! 10%N = Some r'
    /\ nsteps legal n (sub_state r) (sub_state r').
Proof.
  row_of (submissions demo_queued_tables !! 10%N) r E.
  destruct (receipts_follow_lifecycle demo_ops_review demo_queued_tables 10 r E)
    as (r' & n & E' & _ & _ & Hn & _). exists r, r', n. exact (conj eq_refl (conj E' Hn)).
Defined.

Example terminal_receipts_final_witness :
  exists r r', submissions demo_confirmed !! 10%N = Some r
    /\ submissions (rexec_all demo_ops_confirmed demo_confirmed) !! 10%N = Some r'
    /\ (r' = r \/ sub_state r' = Deleted).
Proof.
  row_of (submissions demo_confirmed !! 10%N) r E.
  destruct (terminal_receipts_final demo_ops_confirmed demo_confirmed 10 r E) as (r' & E' & H).
  - by eval_row E.
  - exists r, r'. exact (conj eq_refl (conj E' H)).
Defined.

Example confirm_exactly_once_witness :
  exists t', confirm_in_transaction 400
      {| cf_account_id := 1; cf_submission_id := 10; cf_expected_draft_version := 1; cf_expense_id := 40 |}
      demo_review = Ok (CConfirmed 40, t').
Proof.
  row_of (submissions demo_review !! 10%N) row E1. row_of (drafts demo_review !! 10%N) d E2.
  destruct (confirm_exactly_once demo_ops_review 400
    {| cf_account_id := 1; cf_submission_id := 10; cf_expected_draft_version := 1; cf_expense_id := 40 |} row d)
    as (t' & H & _);
    [exact E1 | by eval_row E1 | by eval_row E1 | by eval_row E1 | exact E2 | by eval_row E2
    | vm_compute; discriminate | vm_compute; reflexivity | exists t'; exact H].
Defined.

Definition demo_edit : EditDraftRequest :=
  {| ed_account_id := 1; ed_submission_id := 10; ed_expected_version := 1;
     ed_amount_minor := Some 42000; ed_currency := None; ed_merchant := Some (s! " Pho ");
     ed_category_key := None; ed_occurred_at := None; ed_transaction_type := Some (s! "expense") |}.

Example edit_draft_exact_witness :
  exists d' t', edit_draft_in_transaction demo_edit demo_review = Ok (d', t') /\ length (corrections t') = 2%nat.
Proof.
  row_of (submissions demo_review !! 10%N) row E1. row_of (drafts demo_review !! 10%N) d E2.
  eexists _, _. split.
  - apply (edit_draft_exact demo_ops_review demo_edit row d E1);
      [by eval_row E1 | by eval_row E1 | exact E2 | by eval_row E2 | by eval_row E2 |].
    refine (conj _ (conj _ (conj _ (conj _ _)))); intros x Hx; cbn in Hx; try discriminate Hx;
      injection Hx as <-; first [split; [lia | reflexivity] | vm_compute; reflexivity].
  - eval_row E2. vm_compute. reflexivity.
Defined.


Example ingest_stores_witness :
  exists s', ingest 200 200 1 10 demo_jpeg (s! "image/jpeg") 22 (demo_queued_tables, no_objects)
             = (s', Ok (IStored 10 (s! "4"))).
Proof.
  row_of (submissions demo_queued_tables !! 10%N) row E1.
  row_of (accounts demo_queued_tables !! 1%N) acc E2.
  destruct (validate_image demo_jpeg (s! "image/jpeg")) as [v|] eqn:Ev; [|by vm_compute in Ev].
  assert (Ha : sub_account row = 1%N) by by eval_row E1.
  destruct (ingest_stores (UT := hyphenated_uuid) (UL := hyphenated_uuid_laws) (IL := demo_images)
    (OS := InMemoryObjectStore) (OL := InMemoryObjectStore_laws) demo_ops_queued 200 200 10 demo_jpeg (s! "image/jpeg") 22 no_objects
    (<[object_key 1 10 (content_sha256 v) := demo_jpeg]> no_objects) row acc v) as (t' & a & r' & H & _).
  - exact E1.
  - by eval_row E1.
  - by eval_row E1.
  - rewrite Ha. exact E2.
  - by eval_row E2.
  - exact Ev.
  - rewrite Ha. eval_row Ev. vm_compute. reflexivity.
  - vm_compute. reflexivity.
  - rewrite Ha. eval_row Ev. cbn [os_put InMemoryObjectStore].
    match goal with |- context [validate_object_key ?k] =>
      assert (Hk : validate_object_key k = Ok tt) by (vm_compute; reflexivity); rewrite Hk end.
    reflexivity.
  - rewrite Ha in H. exists (t', <[object_key 1 10 (content_sha256 v) := demo_jpeg]> no_objects).
    vm_compute in Ev. injection Ev as <-. exact H.
Defined.

Example ingest_absorbs_duplicate_witness :
  exists s', ingest 500 500 1 11 demo_jpeg (s! "image/jpeg") 23 (demo_review, no_objects)
             = (s', Ok (IDuplicateAbsorbed 11 10)).
Proof.
  row_of (submissions demo_review !! 11%N) row E1. row_of (accounts demo_review !! 1%N) acc E2.
  row_of (assets demo_review !! 10%N) a E3.
  destruct (validate_image demo_jpeg (s! "image/jpeg")) as [v|] eqn:Ev; [|by vm_compute in Ev].
  assert (Ha : sub_account row = 1%N) by by eval_row E1.
  destruct (ingest_absorbs_duplicate (UT := hyphenated_uuid) (IL := demo_images)
    (OS := InMemoryObjectStore) demo_ops_review 500 500 11 demo_jpeg (s! "image/jpeg") 23 no_objects row acc v 10 a)
    as (t' & r' & H & _).
  - exact E1.
  - by eval_row E1.
  - by eval_row E1.
  - rewrite Ha. exact E2.
  - by eval_row E2.
  - exact Ev.
  - exact E3.
  - rewrite Ha. by eval_row E3.
  - eval_row Ev. by eval_row E3.
  - by eval_row E3.
  - rewrite Ha in H. exists (t', no_objects). exact H.
Defined.

Example validated_image_bounds_witness :
  exists v, validate_image demo_jpeg (s! "image/jpg; q=1") = Ok v /\ mime_type v ∈ ALLOWED_MIME_TYPES.
Proof.
  destruct (validate_image demo_jpeg (s! "image/jpg; q=1")) as [v|e] eqn:E; [|by vm_compute in E].
  exists v. split; [done|]. by apply (validated_image_bounds demo_images demo_jpeg (s! "image/jpg; q=1") v E).
Defined.
