(* ===== verification/IngressFrame.v ===== *)
(** * What one event maintains, from what its statements maintain

    [Statements a R] is the interface between the statements an event for account [a] may
    run and the claims about whole events: a relation every statement maintains is
    maintained by each effect, by the list of effects and by the transaction of the
    event.  The relations are the subject of the files that follow. *)

From S2P Require Import Prelude RustStr RustStrFacts Platform Errors Work Quota Schedule ConvTypes.
From S2P Require Import ReceiptTypes Receipt Database Insight Account IngressTypes IngressStore IngressApply.
Import Db Ingress IngressStore IngressApply.

Section Interface.
Context `{CH : Chrono} `{PG : Postgres} `{UT : UuidText}.

Class Statements (a : uuid) (R : db -> db -> Prop) : Prop := {
  st_preorder :: PreOrder R;
  st_grant version : t_maintains R (grant_consent a version);
  st_columns f : t_maintains R (update_columns a f);
  st_insert_expense now eid amount cur desc occ v :
    t_maintains R (insert_manual_expense now a eid amount cur desc occ v);
  st_settle eid v st : t_maintains R (settle_expense a eid v st);
  st_edit eid v amount m c occ ty : t_maintains R (edit_manual_expense_in_transaction a eid v amount m c occ ty);
  st_recategorize k : t_maintains R (recategorize_latest_in_transaction a k);
  st_update_pending v act p e : t_maintains R (update_pending a v act p e);
  st_upsert_pending act p e v : t_maintains R (upsert_pending_action a act p e v);
  st_reset_pending : t_maintains R (reset_pending a);
  st_upsert_schedule id f m r n : t_maintains R (upsert_schedule id a f m r n);
  st_recompute now : maintains R (recompute_account_schedule_runs a now);
  st_disable f d : R d (disable_schedules a f d);
  st_deleting : t_maintains R (start_deleting a);
  st_request_deletion id n : t_maintains R (request_deletion id a n);
  st_enqueue {E} (f : Work.WorkError -> E) now r : t_maintains R (on_queue f (Work.enqueue_in_transaction now r));
  st_cancel {E} (f : Work.WorkError -> E) now key :
    t_maintains R (on_queue f (Work.cancel_queued_by_serialization_key_in_transaction now key));
  st_receipts_counter {E} (f : Quota.QuotaError -> E) now tz lim :
    t_maintains R (on_usage f (Quota.increment_in_transaction (receipts_counter a now tz) lim));
  st_snapshot id k e agg : sk_account k = a -> t_maintains R (Insight.upsert_snapshot id k e agg);
  st_accept {E} (f : ReceiptTypes.ReceiptError -> E) now utc r : ReceiptTypes.ac_account_id r = a ->
    t_maintains R (on_receipts now f (Receipt.accept_submission_in_transaction now utc r));
  st_confirm {E} (f : ReceiptTypes.ReceiptError -> E) now r : ReceiptTypes.cf_account_id r = a ->
    t_maintains R (on_receipts now f (Receipt.confirm_in_transaction now r));
  st_reject {E} (f : ReceiptTypes.ReceiptError -> E) now r : ReceiptTypes.rj_account_id r = a ->
    t_maintains R (on_receipts now f (Receipt.reject_in_transaction now r));
  st_edit_draft {E} (f : ReceiptTypes.ReceiptError -> E) now r : ReceiptTypes.ed_account_id r = a ->
    t_maintains R (on_receipts now f (Receipt.edit_draft_in_transaction r));
}.

(** The statements around the effects. *)
Class EventStatements (R : db -> db -> Prop) : Prop := {
  ev_preorder :: PreOrder R;
  ev_insert id r o st : t_maintains R (insert_observed_event id r o st);
  ev_finalize now id a d : R d (finalize_event now id a d);
  ev_reply_unknown now utc ids policy at_ ev sc tg body key :
    t_maintains R (enqueue_outbound_in_transaction now utc ids policy at_ None ev sc tg body key);
}.
Class AccountStatements (a : uuid) (R : db -> db -> Prop) : Prop := {
  ac_reply now utc ids policy at_ ev sc tg body key :
    t_maintains R (enqueue_outbound_in_transaction now utc ids policy at_ (Some a) ev sc tg body key);
  ac_resolve id r d d' : resolve_or_create_account id r d = Ok (a, d') -> R d d';
}.
End Interface.

Lemma t_maintains_upd {S E A} (R : S -> S -> Prop) (x : A) (f : S -> S) :
  (forall s, R s (f s)) -> t_maintains R (fun s => Ok (E := E) (x, f s)).
Proof. intros H s y s' [= <- <-]. apply H. Qed.
Lemma t_maintains_query {S E A} (R : S -> S -> Prop) `{!PreOrder R} (f : S -> result A E) :
  t_maintains R (fun s => let? x := f s in Ok (x, s)).
Proof. intros s x s' H. unfold res_bind in H. destruct (f s); simplify_eq. reflexivity. Qed.
Lemma t_maintains_view {S E A} (R : S -> S -> Prop) `{!PreOrder R} (f : S -> A) :
  t_maintains R (fun s => Ok (E := E) (f s, s)).
Proof. intros s x s' [= <- <-]. reflexivity. Qed.
#[export] Hint Extern 5 (t_maintains _ (fun _ => _)) =>
  first [apply t_maintains_query, _ | apply t_maintains_view, _] : transactions.

Section Effects.
Context `{CH : Chrono} `{PG : Postgres} `{UT : UuidText} `{IL : ImageLib} `{SJ : SerdeJson} `{UC : UnicodeCase}.
Context (a : uuid) (R : db -> db -> Prop) `{ST : !Statements a R}.

(** Statements, by the interface. *)
#[local] Hint Extern 4 (t_maintains R _) =>
  first [ apply (st_grant (a := a)) | apply (st_columns (a := a)) | apply (st_insert_expense (a := a))
        | apply (st_settle (a := a)) | apply (st_edit (a := a)) | apply (st_recategorize (a := a))
        | apply (st_update_pending (a := a)) | apply (st_upsert_pending (a := a)) | apply (st_reset_pending (a := a))
        | apply (st_upsert_schedule (a := a)) | apply (st_deleting (a := a)) | apply (st_request_deletion (a := a))
        | apply (st_enqueue (a := a)) | apply (st_cancel (a := a)) | apply (st_receipts_counter (a := a))
        | apply (st_snapshot (a := a)) | apply (st_accept (a := a)) | apply (st_confirm (a := a))
        | apply (st_reject (a := a)) | apply (st_edit_draft (a := a)) ] : transactions.
#[local] Hint Extern 4 (maintains R (recompute_account_schedule_runs _ _)) => apply st_recompute : transactions.

Lemma receipt_tx_maintains {A} env wired (m : txn Receipt.tables ReceiptTypes.ReceiptError A) :
  t_maintains R (on_receipts (db_now env) map_receipt_error m) -> t_maintains R (receipt_tx env wired m).
Proof. intros Hm. unfold receipt_tx. steps. Qed.

Lemma map_tx_err_maintains {E A} (m : txn db E A) : t_maintains R m -> t_maintains R (map_tx_err m).
Proof. intros Hm d x d' Hd. unfold map_tx_err in Hd. destruct (m d) as [[]|] eqn:Em; simplify_eq. by eapply Hm. Qed.
#[local] Hint Resolve receipt_tx_maintains map_tx_err_maintains : transactions.

Lemma accept_receipt_maintains env wired policy ev now sid jid eev :
  t_maintains R (accept_receipt env wired policy a ev now sid jid eev).
Proof. unfold accept_receipt. steps. Qed.

Lemma enqueue_delete_maintains now jid rid at_ : t_maintains R (Account.enqueue_delete_in_transaction now jid a rid at_).
Proof. unfold Account.enqueue_delete_in_transaction. cbv zeta. steps. Qed.
#[local] Hint Resolve enqueue_delete_maintains : transactions.

Lemma confirm_deletion_maintains env i now : t_maintains R (confirm_account_deletion env i a now).
Proof. unfold confirm_account_deletion. steps. Qed.

Lemma enqueue_export_maintains now jid xid sc ch at_ :
  t_maintains R (Account.enqueue_export_in_transaction now jid a xid sc ch at_).
Proof. unfold Account.enqueue_export_in_transaction. cbv zeta. steps. Qed.

Lemma record_snapshot_maintains now id jid kind at_ tz cur policy :
  maintains R (Insight.record_snapshot_in_transaction now id jid a kind at_ tz cur policy).
Proof.
  unfold Insight.record_snapshot_in_transaction, Insight.enqueue_narrate_in_transaction. cbv zeta. steps.
Qed.
#[local] Hint Resolve accept_receipt_maintains confirm_deletion_maintains enqueue_export_maintains
  record_snapshot_maintains : transactions.

Lemma record_insight_maintains env i policy now k : maintains R (record_insight env i policy a now k).
Proof. unfold record_insight, call_invalid. cbv zeta. steps. Qed.
#[local] Hint Resolve record_insight_maintains : transactions.

Lemma apply_effect_maintains env i st ev r e : maintains R (apply_effect env i st a ev r e).
Proof.
  pose proof (fun E A (x : A) f => t_maintains_upd (E := E) R x _ (st_disable f)).
  unfold apply_effect, account_timezone, call_invalid, quiet. cbv zeta. destruct e; steps.
Qed.

Lemma apply_effects_maintains env i st ev r l o : maintains R (apply_effects env i st a ev r l o).
Proof.
  revert i o. induction l as [|e l IH]; intros i o; cbn [apply_effects]; [apply maintains_ret, _|].
  apply maintains_bind; [apply _ | apply apply_effect_maintains | intros ?; apply IH].
Qed.
End Effects.

(** ** The event *)

(** The account an event of an allowed sender acts on. *)
Definition sender_account (env : Env) (r : IngressRequest) (d : db) : uuid :=
  default (fresh env 1) (provider_identities d !! (provider_scope r, provider_sender_id r)).

Lemma resolve_is_sender env r d a d' :
  resolve_or_create_account (fresh env 1) r d = Ok (a, d') -> a = sender_account env r d.
Proof.
  unfold resolve_or_create_account, sender_account.
  destruct (provider_identities d !! _) as [b|]; [by intros [= -> _]|]. destruct (negb _); [discriminate|].
  by intros [= <- _].
Qed.

Section Event.
Context `{CH : Chrono} `{PG : Postgres} `{UT : UuidText} `{IL : ImageLib} `{SJ : SerdeJson} `{UC : UnicodeCase}.
Context (R : db -> db -> Prop) `{EV : !EventStatements R}.

Lemma after_resolve_maintains env st r dec ev account :
  match account with Some a => Statements a R /\ AccountStatements a R | None => True end ->
  maintains R
  (let^ context :=
    match account with
    | Some a => effect_tx (load_decision_context env a ev r (Insight.per_user_daily_receipts (st_policy st)))
    | None => x_ret (stranger_context env ev r (Insight.per_user_daily_receipts (st_policy st)))
    end in
  let^ out := effect_tx (x_call (dec context)) in
  let^ reply_override :=
    match account with
    | Some a => effect_tx (apply_effects env 0 st a ev r (effects out) None)
    | None =>
        if existsb (fun e => match e with ReadOnly => false | _ => true end) (effects out)
        then x_err (s! "domain effects require an allowed sender account")
        else x_ret None
    end in
  let^ _ :=
    match (match reply_override with Some b => Some b | None => reply out end) with
    | Some body => effect_tx (x_exec (enqueue_reply env ev account r body (st_policy st)))
    | None => x_ret tt
    end in
  let^ _ := x_exec (fun d => Ok (tt, finalize_event (db_now env) ev account d)) in
  x_ret (Accepted ev)).
Proof.
  intros Hst. pose proof (fun E A (x : A) now id a => t_maintains_upd (E := E) R x _ (ev_finalize now id a)).
  pose proof (ev_insert (R := R)). pose proof (ev_reply_unknown (R := R)).
  unfold effect_tx, load_decision_context, account_timezone, period_of, call_invalid, enqueue_reply. cbv zeta.
  destruct account as [a|]; [destruct Hst as [S1 S2]|]; [|steps].
  pose proof (apply_effects_maintains a R). pose proof (ac_reply (a := a) (R := R)). steps.
Qed.

Lemma process_accepted_maintains env st r dec ev d x d' :
  (sender_allowed r = true -> Statements (sender_account env r d) R /\ AccountStatements (sender_account env r d) R) ->
  process_accepted env st r dec ev d = Ret (Ok (x, d')) -> R d d'.
Proof.
  intros Hst H. unfold process_accepted in H. apply x_bind_ok in H as (account & d1 & H1 & H).
  assert (Hacc : R d d1 /\ match account with Some a => Statements a R /\ AccountStatements a R | None => True end).
  { destruct (sender_allowed r).
    - apply x_bind_ok in H1 as (a & d2 & H1 & [= <- <-]). apply x_map_err_ok in H1. injection H1 as H1.
      destruct (Hst eq_refl) as [S1 S2]. rewrite <- (resolve_is_sender _ _ _ _ _ H1) in S1, S2.
      split; [exact (ac_resolve _ _ _ _ H1) | done].
    - injection H1 as <- <-. split; [reflexivity | exact I]. }
  destruct Hacc as [Hd Hacc]. etransitivity; [exact Hd|]. exact (after_resolve_maintains env st r dec ev account Hacc _ _ _ H).
Qed.

Lemma process_maintains env st r o dec d :
  (sender_allowed r = true -> Statements (sender_account env r d) R /\ AccountStatements (sender_account env r d) R) ->
  R d (process env st r o dec d).1.
Proof.
  intros Hst. unfold process, x_atomically.
  destruct (process_tx env st r o dec d) as [[[out d']|e]| |] eqn:E; try reflexivity. cbn [fst].
  unfold process_tx in E. apply x_bind_ok in E as (mode & d0 & [_ ->]%x_read_ok & E). destruct (negb _).
  - apply x_bind_ok in E as (oc & d1 & [= E1] & [= <- <-]). by eapply ev_insert.
  - apply x_bind_ok in E as (oc & d1 & [= E1] & E). etransitivity; [by eapply ev_insert|].
    destruct oc as [ev|ev|ev]; [|injection E as <- <-; reflexivity|discriminate].
    eapply process_accepted_maintains; [|exact E]. unfold sender_account.
    assert (Hp : provider_identities d1 = provider_identities d).
    { unfold insert_observed_event in E1. cbv zeta in E1.
      destruct (inbound_events d !! event_key r); [destruct (str_eqb _ _ && _)|destruct (bool_decide _)];
        simplify_eq; reflexivity. }
    rewrite Hp. exact Hst.
Qed.
End Event.
