(* ===== verification/Isolation.v ===== *)
(** * Tenant isolation: an event leaves the rows of other accounts alone

    [rows_of_others a d] are the rows of the database that belong to accounts other than
    [a].  Every statement an event of [a] can run keeps them, so the whole event does. *)

From S2P Require Import Prelude RustStr RustStrFacts Platform Errors Work Quota Schedule ConvTypes.
From S2P Require Import ReceiptTypes Receipt Database Insight Account IngressTypes IngressStore IngressApply IngressFrame.
Import Db Ingress IngressStore IngressApply.
Import (hints) Errors Work Quota ReceiptTypes Receipt.

(** ** The rows of other accounts *)

Record other_rows := {
  or_accounts : gmap uuid Receipt.account;
  or_columns : gmap uuid account_columns;
  or_identities : gmap (rstr * rstr) uuid;
  or_conversations : gmap uuid conversation_state;
  or_expenses : gmap uuid Receipt.expense;
  or_expense_columns : gmap uuid expense_columns;
  or_submissions : gmap uuid Receipt.submission;
  or_assets : gmap uuid Receipt.asset;
  or_drafts : gmap uuid ReceiptTypes.ExpenseDraftView;
  or_attempts : gmap (uuid * Z) Receipt.xattempt;
  or_counters : Quota.usage;
  or_messages : gmap uuid outbound_message;
  or_schedules : gmap (uuid * rstr) summary_schedule;
  or_deletions : gmap uuid deletion_request;
  or_exports : gmap uuid export_artifact;
  or_snapshots : gmap snapshot_key insight_snapshot;
}.

Section View.
Context `{UT : UuidText}.

Definition others_expenses (a : uuid) (m : gmap uuid Receipt.expense) : gmap uuid Receipt.expense :=
  filter (fun p => Receipt.ex_account p.2 <> a) m.
Definition others_columns (shown : gmap uuid Receipt.expense) (cols : gmap uuid expense_columns)
    : gmap uuid expense_columns := filter (fun p => is_Some (shown !! p.1)) cols.
Definition others_submissions (a : uuid) (m : gmap uuid Receipt.submission) : gmap uuid Receipt.submission :=
  filter (fun p => Receipt.sub_account p.2 <> a) m.
Definition others_attempts (shown : gmap uuid Receipt.submission) (m : gmap (uuid * Z) Receipt.xattempt)
    : gmap (uuid * Z) Receipt.xattempt := filter (fun p => is_Some (shown !! p.1.1)) m.
Definition others_assets (a : uuid) (m : gmap uuid Receipt.asset) : gmap uuid Receipt.asset :=
  filter (fun p => Receipt.as_account p.2 <> a) m.
Definition others_exports (a : uuid) (m : gmap uuid export_artifact) : gmap uuid export_artifact :=
  filter (fun p => xp_account p.2 <> a) m.
Definition others_drafts (a : uuid) (m : gmap uuid ReceiptTypes.ExpenseDraftView)
    : gmap uuid ReceiptTypes.ExpenseDraftView := filter (fun p => ReceiptTypes.dr_account_id p.2 <> a) m.
Definition others_messages (a : uuid) (m : gmap uuid outbound_message) : gmap uuid outbound_message :=
  filter (fun p => ob_account p.2 <> Some a /\ ob_account p.2 <> None) m.
Definition others_counters (a : uuid) (m : Quota.usage) : Quota.usage :=
  filter (fun p => Account.account_counter a p.1 = false) m.
Definition others_schedules (a : uuid) (m : gmap (uuid * rstr) summary_schedule)
    : gmap (uuid * rstr) summary_schedule := filter (fun p => p.1.1 <> a) m.
Definition others_snapshots (a : uuid) (m : gmap snapshot_key insight_snapshot)
    : gmap snapshot_key insight_snapshot := filter (fun p => sk_account p.1 <> a) m.

Definition rows_of_others (a : uuid) (d : db) : other_rows := {|
  or_accounts := delete a (accounts d);
  or_columns := delete a (account_cols d);
  or_identities := filter (fun p => p.2 <> a) (provider_identities d);
  or_conversations := delete a (conversation_states d);
  or_expenses := others_expenses a (expenses d);
  or_expense_columns := others_columns (others_expenses a (expenses d)) (expense_cols d);
  or_submissions := others_submissions a (Receipt.submissions (rt d));
  or_assets := others_assets a (Receipt.assets (rt d));
  or_drafts := others_drafts a (Receipt.drafts (rt d));
  or_attempts := others_attempts (others_submissions a (Receipt.submissions (rt d))) (Receipt.extraction_attempts (rt d));
  or_counters := others_counters a (Receipt.usage (rt d));
  or_messages := others_messages a (outbound_messages d);
  or_schedules := others_schedules a (summary_schedules d);
  or_deletions := delete a (deletion_requests d);
  or_exports := others_exports a (export_artifacts d);
  or_snapshots := others_snapshots a (insight_snapshots d);
|}.

(** The primary key of [summary_schedules]. *)
Definition schedule_ids_unique (d : db) : Prop := forall k1 k2 s1 s2,
  summary_schedules d !! k1 = Some s1 -> summary_schedules d !! k2 = Some s2 -> sch_id s1 = sch_id s2 -> k1 = k2.

Definition isolated (a : uuid) (d d' : db) : Prop :=
  schedule_ids_unique d -> schedule_ids_unique d' /\ rows_of_others a d' = rows_of_others a d.

#[export] Instance isolated_preorder a : PreOrder (isolated a).
Proof.
  split; [by intros d H|]. intros d1 d2 d3 H1 H2 U. destruct (H1 U) as [U2 E2]. destruct (H2 U2) as [U3 E3].
  split; [done | congruence].
Qed.

Lemma isolated_rows a d d' :
  summary_schedules d' = summary_schedules d -> rows_of_others a d' = rows_of_others a d -> isolated a d d'.
Proof. intros Hs Hr U. split; [|done]. unfold schedule_ids_unique. by rewrite Hs. Qed.

(** ** Maps *)

(** Changing a row that is hidden before and after. *)
Lemma filter_hidden {K A} `{Countable K} (P : K * A -> Prop) `{!forall x, Decision (P x)} (m : gmap K A) k x :
  ~ P (k, x) -> (forall y, m !! k = Some y -> ~ P (k, y)) -> filter P (<[k := x]> m) = filter P m.
Proof. apply map_filter_insert_not'. Qed.

Lemma filter_alter_hidden {K A} `{Countable K} (P : K * A -> Prop) `{!forall x, Decision (P x)} f (m : gmap K A) k :
  (forall y, m !! k = Some y -> ~ P (k, y) /\ ~ P (k, f y)) -> filter P (alter f k m) = filter P m.
Proof.
  intros Hy. apply map_eq. intros j. rewrite !map_lookup_filter, lookup_alter. case_decide; [subst|done].
  destruct (m !! j) as [y|] eqn:E; [|done]. cbn. destruct (Hy y eq_refl). by rewrite !option_guard_False by done.
Qed.
Lemma delete_hidden {K A} `{Countable K} (m : gmap K A) k x : delete k (<[k := x]> m) = delete k m.
Proof. apply map_eq. intros j. rewrite !lookup_delete, lookup_insert. by repeat case_decide. Qed.
Lemma delete_alter_hidden {K A} `{Countable K} f (m : gmap K A) k : delete k (alter f k m) = delete k m.
Proof. apply map_eq. intros j. rewrite !lookup_delete, lookup_alter. by repeat case_decide. Qed.

Lemma hidden_expense a m k : (others_expenses a m !! k = None) <-> forall e, m !! k = Some e -> Receipt.ex_account e = a.
Proof.
  unfold others_expenses. rewrite map_lookup_filter_None. split.
  - intros [-> | H] e He; [done|]. specialize (H e He). by apply dec_stable.
  - intros H. destruct (m !! k) as [e|] eqn:E; [right|by left]. intros e' [= <-] Hn. by apply Hn, H.
Qed.
Lemma hidden_column shown cols k c : shown !! k = None -> others_columns shown (<[k := c]> cols) = others_columns shown cols.
Proof. intros Hk. apply filter_hidden; cbn; [|intros _ _]; rewrite Hk; by intros [? ?]. Qed.

Lemma hidden_filled a now old new cols :
  others_expenses a new = others_expenses a old ->
  others_columns (others_expenses a new) (fill_new_expenses now old new cols)
  = others_columns (others_expenses a old) cols.
Proof.
  intros ->. unfold others_columns, fill_new_expenses. apply map_eq. intros k.
  rewrite !map_lookup_filter, lookup_union, lookup_fmap. destruct (decide (is_Some (others_expenses a old !! k))) as [Hs|Hn].
  - assert (Ho : (new ∖ old) !! k = None).
    { apply lookup_difference_None. right. destruct Hs as [e He]. apply map_lookup_filter_Some in He as [He _]. eauto. }
    rewrite Ho. cbn. by rewrite (left_id None _).
  - destruct (_ ∪ _), (cols !! k); cbn; by rewrite ?option_guard_False.
Qed.

(** ** Statements *)

(** Component by component. *)
Ltac rows := unfold rows_of_others; f_equal; try reflexivity.
Ltac isolate := apply isolated_rows; [reflexivity | rows].

Context `{CH : Chrono}.
Variable a : uuid.
Abbreviation keeps m := (t_maintains (isolated a) m).

Lemma columns_isolated f d : isolated a d (Account.upd_columns a f d).
Proof. unfold Account.upd_columns. destruct (account_row d a) as [[r c]|]; [|done]. isolate. apply delete_hidden. Qed.
Lemma accounts_isolated f d : isolated a d (Account.upd_accounts (alter f a) d).
Proof. isolate. apply delete_alter_hidden. Qed.

Lemma grant_isolated v : keeps (grant_consent a v).
Proof.
  intros d u d' E. unfold grant_consent in E. destruct (accounts d !! a); [|discriminate].
  destruct (str_eqb _ _); [|discriminate]. injection E as <- <-.
  etransitivity; [apply accounts_isolated | apply columns_isolated].
Qed.
Lemma update_columns_isolated f : keeps (update_columns a f).
Proof. intros d u d' E. unfold update_columns in E. case_match; [discriminate|]. injection E as <- <-. apply columns_isolated. Qed.
Lemma deleting_isolated : keeps (start_deleting a).
Proof.
  intros d u d' E. unfold start_deleting in E. destruct (accounts d !! a); [|discriminate].
  destruct (str_eqb _ (s! "active") || _); [|discriminate]. injection E as <- <-. apply accounts_isolated.
Qed.

(** An expense of the account, inserted or changed, with its columns. *)
Lemma expense_isolated eid e c d :
  (forall e0, expenses d !! eid = Some e0 -> Receipt.ex_account e0 = a) -> Receipt.ex_account e = a ->
  isolated a d (upd_expense_cols <[eid := c]> (upd_rt (Receipt.set_expenses <[eid := e]>) d)).
Proof.
  intros Hold He. assert (Hx : others_expenses a (<[eid := e]> (expenses d)) = others_expenses a (expenses d)).
  { apply filter_hidden; cbn; [tauto|]. intros e0 H0. pose proof (Hold e0 H0). tauto. }
  isolate; [exact Hx|]. transitivity (others_columns (others_expenses a (expenses d)) (<[eid := c]> (expense_cols d))).
  - unfold expenses at 1. cbn. unfold expenses in Hx. by rewrite Hx.
  - by apply hidden_column, hidden_expense.
Qed.

Lemma insert_expense_isolated now eid am cur desc occ v : keeps (insert_manual_expense now a eid am cur desc occ v).
Proof.
  intros d u d' E. unfold insert_manual_expense in E. destruct (negb _ || _ || _ || _ || _ || _) eqn:Hg; [discriminate|].
  injection E as <- <-. apply expense_isolated; [|reflexivity]. intros e0 He. rewrite He in Hg. discriminate.
Qed.

Lemma awaiting_own d eid v e : awaiting_expense d a eid v = Some e -> expenses d !! eid = Some e /\ Receipt.ex_account e = a.
Proof.
  unfold awaiting_expense. destruct (expenses d !! eid) as [e0|]; [|discriminate].
  destruct (bool_decide (Receipt.ex_account e0 = a)) eqn:Ha; cbn [andb]; [|discriminate].
  apply bool_decide_eq_true in Ha. by case_match; intros [= <-].
Qed.
Lemma put_expense_isolated d eid e e' :
  expenses d !! eid = Some e -> Receipt.ex_account e = a -> Receipt.ex_account e' = a -> isolated a d (put_expense eid e' d).
Proof. intros He Ha Ha'. apply expense_isolated; [|done]. intros e0 H0. rewrite He in H0. by injection H0 as <-. Qed.

Lemma settle_isolated eid v st : keeps (settle_expense a eid v st).
Proof.
  intros d u d' E. unfold settle_expense in E. destruct (awaiting_expense d a eid v) as [e|] eqn:He; [|discriminate].
  destruct (in_i32 _); [|discriminate]. injection E as <- <-. destruct (awaiting_own _ _ _ _ He) as [H1 H2].
  by eapply put_expense_isolated.
Qed.
Lemma edit_isolated eid v am m c o t : keeps (edit_manual_expense_in_transaction a eid v am m c o t).
Proof.
  intros d u d' E. unfold edit_manual_expense_in_transaction in E.
  destruct (awaiting_expense d a eid v) as [e|] eqn:He; [|discriminate]. cbv zeta in E.
  repeat (case_match; [discriminate|]). injection E as <- <-. destruct (awaiting_own _ _ _ _ He) as [Hx Ha].
  eapply put_expense_isolated; [exact Hx | exact Ha | exact Ha].
Qed.

Lemma drafts_isolated f d :
  others_drafts a (f (Receipt.drafts (rt d))) = others_drafts a (Receipt.drafts (rt d)) ->
  isolated a d (upd_rt (Receipt.set_drafts f) d).
Proof. intros H. isolate. exact H. Qed.

Lemma set_category_hidden k sid m : others_drafts a (alter (set_draft_category a k) sid m) = others_drafts a m.
Proof.
  unfold others_drafts. apply map_eq. intros j. rewrite !map_lookup_filter, lookup_alter. case_decide; [subst|done].
  destruct (m !! j) as [n|]; [|done]. cbn. unfold set_draft_category. case_bool_decide; [|done].
  by rewrite !option_guard_False by (cbn; tauto).
Qed.

Lemma recategorize_isolated k : keeps (recategorize_latest_in_transaction a k).
Proof.
  intros d u d' E. unfold recategorize_latest_in_transaction in E. destruct (negb _); [discriminate|].
  destruct (merge_sort (newer d) (confirmed_of d a)) as [|[eid e] l] eqn:Hs; [discriminate|]. cbv zeta in E.
  assert (Hin : In (eid, e) (confirmed_of d a)).
  { apply list_elem_of_In. rewrite <- (merge_sort_Permutation (newer d)), Hs. by left. }
  unfold confirmed_of, expenses_of in Hin. apply filter_In in Hin as [Hin _]. apply filter_In in Hin as [Hin Ha].
  apply list_elem_of_In, elem_of_map_to_list in Hin. apply bool_decide_eq_true in Ha. cbn in Ha.
  assert (Hx : isolated a d (upd_rt (Receipt.set_expenses <[eid := set_expense_category k e]>) d)).
  { assert (Hf : others_expenses a (<[eid := set_expense_category k e]> (expenses d)) = others_expenses a (expenses d)).
    { apply filter_hidden; cbn; [tauto|]. intros e0 H0. rewrite Hin in H0. injection H0 as <-. tauto. }
    isolate; [exact Hf|]. unfold expenses in Hf |- *. cbn. by rewrite Hf. }
  injection E as <- <-. etransitivity; [exact Hx|]. destruct (Receipt.ex_receipt_submission e) as [sid|]; [|done].
  apply drafts_isolated, set_category_hidden.
Qed.

Lemma put_pending_isolated act p e v : keeps (put_pending a act p e v).
Proof. intros d u d' E. unfold put_pending in E. case_match; [|discriminate]. injection E as <- <-. isolate. apply delete_hidden. Qed.
Lemma update_pending_isolated v act p e : keeps (update_pending a v act p e).
Proof.
  intros d u d'. unfold update_pending. destruct (_ !! a); [|discriminate]. case_match; [|discriminate].
  apply put_pending_isolated.
Qed.
Lemma upsert_pending_isolated act p e v : keeps (upsert_pending_action a act p e v).
Proof.
  intros d u d'. unfold upsert_pending_action. repeat (case_match; try discriminate);
    try apply update_pending_isolated; apply put_pending_isolated.
Qed.
Lemma reset_pending_isolated : keeps (reset_pending a).
Proof.
  intros d u d'. unfold reset_pending. case_match; [apply put_pending_isolated|]. intros [= <- <-]. done.
Qed.

Lemma request_deletion_isolated id n : keeps (request_deletion id a n).
Proof.
  intros d u d' E. unfold request_deletion in E. cbv zeta in E. repeat case_match; simplify_eq; try done;
    isolate; apply delete_hidden.
Qed.
Lemma snapshot_isolated id k e agg : sk_account k = a -> keeps (Insight.upsert_snapshot id k e agg).
Proof.
  intros Hk d u d' E. unfold Insight.upsert_snapshot in E. cbv zeta in E. repeat case_match; simplify_eq;
    isolate; apply filter_hidden; cbn; intros; tauto.
Qed.

(** ** Schedules *)

Lemma schedules_isolated f d :
  (schedule_ids_unique d -> schedule_ids_unique (upd_summary_schedules f d)
     /\ others_schedules a (f (summary_schedules d)) = others_schedules a (summary_schedules d)) ->
  isolated a d (upd_summary_schedules f d).
Proof. intros H U. destruct (H U) as [U2 E2]. split; [exact U2|]. rows. exact E2. Qed.

Lemma upsert_schedule_isolated id f m r n : keeps (upsert_schedule id a f m r n).
Proof.
  intros d u d' E. unfold upsert_schedule in E. cbv zeta in E. destruct (negb _); [discriminate|].
  assert (Hput : forall s, (forall k s2, summary_schedules d !! k = Some s2 -> sch_id s2 = sch_id s -> k = (a, f)) ->
    isolated a d (upd_summary_schedules <[(a, f) := s]> d)).
  { intros s Hfree. apply schedules_isolated. intros U. split.
    - intros k1 k2 s1 s2 H1 H2 Heq. cbn in H1, H2. rewrite lookup_insert in H1, H2.
      repeat case_decide; simplify_eq; eauto using eq_sym.
    - apply filter_hidden; cbn; tauto. }
  destruct (summary_schedules d !! (a, f)) as [old|] eqn:Hold.
  - injection E as <- <-. intros U. apply Hput; [|exact U]. intros k s2 H2 Heq. by eapply U.
  - destruct (schedule_id_taken d id || _) eqn:Ht; [discriminate|]. injection E as <- <-. apply Hput.
    intros k s2 H2 Heq. cbn in Heq. exfalso. apply orb_false_iff in Ht as [Ht _].
    unfold schedule_id_taken in Ht. apply not_true_iff_false in Ht. apply Ht. apply existsb_exists.
    exists (k, s2). split; [by apply list_elem_of_In, elem_of_map_to_list|]. by apply bool_decide_eq_true.
Qed.

(** A change of rows that keeps ids, only of rows of the account. *)
Lemma map_schedules_isolated (g : (uuid * rstr) -> summary_schedule -> summary_schedule) f d :
  (forall k, f (summary_schedules d) !! k = g k <$> summary_schedules d !! k) ->
  (forall k s, sch_id (g k s) = sch_id s) ->
  (schedule_ids_unique d -> forall k s, summary_schedules d !! k = Some s -> k.1 <> a -> g k s = s) ->
  isolated a d (upd_summary_schedules f d).
Proof.
  intros Hf Hid Hg. apply schedules_isolated. intros U. split.
  - intros k1 k2 s1 s2 H1 H2 Heq. cbn in H1, H2. rewrite Hf in H1, H2.
    destruct (summary_schedules d !! k1) eqn:E1; [|done]. destruct (summary_schedules d !! k2) eqn:E2; [|done].
    cbn in H1, H2. simplify_eq. rewrite !Hid in Heq. by eapply U.
  - apply map_eq. intros k. unfold others_schedules. rewrite !map_lookup_filter, Hf.
    destruct (summary_schedules d !! k) as [s|] eqn:Es; [|done]. cbn.
    destruct (decide (k.1 = a)) as [Hk|Hk].
    + by rewrite !option_guard_False by (cbn; tauto).
    + by rewrite (Hg U k s Es Hk).
Qed.

Lemma disable_isolated f d : isolated a d (disable_schedules a f d).
Proof.
  unfold disable_schedules. destruct f as [f|].
  - apply (map_schedules_isolated (fun k s => if decide (k = (a, f)) then disable_schedule s else s)).
    + intros k. rewrite lookup_alter. destruct (decide ((a, f) = k)) as [<-|Hk].
      * destruct (summary_schedules d !! (a, f)); cbn; [by rewrite decide_True | done].
      * destruct (summary_schedules d !! k); cbn; [by rewrite decide_False by congruence | done].
    + intros k s. by case_decide.
    + intros _ k s _ Hk. case_decide; subst; done.
  - apply (map_schedules_isolated (fun k s => if bool_decide (k.1 = a) then disable_schedule s else s)).
    + intros k. rewrite map_lookup_imap. by destruct (_ !! k).
    + intros k s. by case_match.
    + intros _ k s _ Hk. by rewrite bool_decide_eq_false_2.
Qed.

Definition owned_schedule (id : uuid) (d : db) : Prop := exists f s, summary_schedules d !! (a, f) = Some s /\ sch_id s = id.

Lemma set_next_run_isolated id n d : owned_schedule id d -> isolated a d (set_next_run id n d).
Proof.
  intros (f & s & Hs & Hid). eapply map_schedules_isolated; [intros k; rewrite lookup_fmap; reflexivity | |].
  - intros k x. cbn. by case_bool_decide.
  - intros U k x Hx Hk. cbn. case_bool_decide as Hb; [|done]. destruct Hk.
    by rewrite (U k (a, f) x s Hx Hs) by congruence.
Qed.
Lemma set_next_run_owned id id' n d : owned_schedule id' d -> owned_schedule id' (set_next_run id n d).
Proof.
  intros (f & s & Hs & Hid). eexists f, _. split; [cbn; rewrite lookup_fmap, Hs; reflexivity|]. cbn. by case_bool_decide.
Qed.

Lemma recompute_loop_isolated now tz rows d x d' :
  Forall (fun r => owned_schedule r.1.1 d) rows ->
  recompute_loop now tz rows d = Ret (Ok (x, d')) -> isolated a d d'.
Proof.
  revert d. induction rows as [|[[id f] m] rows IH]; intros d Hown; cbn [recompute_loop]; [intros [= _ <-]; done|].
  inversion Hown as [|? ? H1 H2]; subst. intros H.
  apply x_bind_ok in H as (fr & d1 & [_ ->]%x_read_ok & H). unfold call_invalid in H.
  apply x_bind_ok in H as (next & d1 & [_ ->]%x_call_ok & H).
  apply x_bind_ok in H as (u & d1 & [= <- <-] & H).
  etransitivity; [by apply set_next_run_isolated|]. eapply IH; [|exact H].
  eapply Forall_impl; [exact H2|]. intros r. apply set_next_run_owned.
Qed.

Lemma recompute_isolated `{PG : Postgres} now : maintains (isolated a) (recompute_account_schedule_runs a now).
Proof.
  intros d x d' H. unfold recompute_account_schedule_runs, account_timezone in H.
  apply x_bind_ok in H as (tz & d1 & H0 & H). apply x_bind_ok in H0 as (row & d2 & [_ ->]%x_read_ok & [= _ ->]).
  apply x_bind_ok in H as (rows & d3 & [[= <-] ->]%x_read_ok & H). eapply recompute_loop_isolated; [|exact H].
  unfold enabled_schedules. apply List.Forall_forall. intros r Hr. apply in_map_iff in Hr as ([[b f] s] & <- & Hin).
  apply filter_In in Hin as [Hin Hb]. apply list_elem_of_In, elem_of_map_to_list in Hin. cbn in *.
  apply andb_true_iff in Hb as [Hb _]. apply bool_decide_eq_true in Hb. subst b. by exists f, s.
Qed.

(** ** The queue, the counters and the receipts *)

Lemma on_queue_isolated {E A} (f : Work.WorkError -> E) (m : txn Work.db Work.WorkError A) : keeps (on_queue f m).
Proof. intros d u d' H. unfold on_queue in H. destruct (m _) as [[x q]|e]; simplify_eq. isolate. Qed.

Lemma counter_isolated {E} (f : Quota.QuotaError -> E) k lim :
  Account.account_counter a k = true -> keeps (on_usage f (Quota.increment_in_transaction k lim)).
Proof.
  intros Hk d u d' H. unfold on_usage, Quota.increment_in_transaction in H. cbv zeta in H.
  destruct ((lim <? 0) || _); simplify_eq. isolate. apply filter_hidden; cbn; [|intros _ _]; by rewrite Hk.
Qed.
Lemma own_counter sc per metric :
  sc = Quota.SCOPE_ACCOUNT ->
  Account.account_counter a {| Quota.scope := sc; Quota.scope_id := uuid_str a; Quota.period := per;
                               Quota.metric := metric |} = true.
Proof. intros ->. unfold Account.account_counter. cbn [Quota.scope Quota.scope_id]. by rewrite !(proj2 (str_eqb_eq _ _) eq_refl). Qed.

Record receipt_isolated (t t' : Receipt.tables) : Prop := {
  ri_accounts : Receipt.accounts t' = Receipt.accounts t;
  ri_expenses : others_expenses a (Receipt.expenses t') = others_expenses a (Receipt.expenses t);
  ri_submissions : others_submissions a (Receipt.submissions t') = others_submissions a (Receipt.submissions t);
  ri_assets : Receipt.assets t' = Receipt.assets t;
  ri_drafts : others_drafts a (Receipt.drafts t') = others_drafts a (Receipt.drafts t);
  ri_attempts : Receipt.extraction_attempts t' = Receipt.extraction_attempts t;
  ri_usage : Receipt.usage t' = Receipt.usage t;
}.
#[export] Instance receipt_isolated_preorder : PreOrder receipt_isolated.
Proof. split; [by intros t|]. intros t1 t2 t3 [] []. split; congruence. Qed.

Lemma on_receipts_isolated {E A} now (f : ReceiptTypes.ReceiptError -> E)
    (m : txn Receipt.tables ReceiptTypes.ReceiptError A) :
  t_maintains receipt_isolated m -> keeps (on_receipts now f m).
Proof.
  intros Hm d u d' H. unfold on_receipts in H. destruct (m (rt d)) as [[x t]|e] eqn:Et; simplify_eq.
  destruct (Hm _ _ _ Et) as [H1 H2 H3 H4 H5 H6 H7]. apply isolated_rows; [done|].
  unfold rows_of_others, accounts, expenses. f_equal; try done; cbn; try congruence. by apply hidden_filled.
Qed.

Abbreviation rkeeps m := (t_maintains receipt_isolated m).

Lemma transition_isolated now id from to err hours ex dup :
  rkeeps (Receipt.transition_state now id a from to err hours ex dup).
Proof.
  intros t u t' H. unfold Receipt.transition_state in H. destruct (negb _); [discriminate|].
  destruct (Receipt.submissions t !! id) as [r|] eqn:Hr; [|discriminate].
  destruct (bool_decide (Receipt.sub_account r = a)) eqn:Ha; cbn [andb] in H; [|discriminate].
  apply bool_decide_eq_true in Ha. cbv zeta in H. repeat (case_match; [|discriminate]). injection H as <- <-.
  split; try reflexivity. apply filter_hidden; cbn; [tauto|]. intros y Hy. rewrite Hr in Hy. injection Hy as <-. tauto.
Qed.
Lemma insert_submission_isolated id ev : rkeeps (Receipt.insert_submission id a ev).
Proof.
  intros t u t' H. unfold Receipt.insert_submission in H. destruct (negb _ || _) eqn:Hg; [by injection H as <- <-|].
  destruct (Receipt.is_none _ || _); [discriminate|]. simplify_eq. split; try reflexivity.
  apply filter_hidden; cbn; [tauto|]. intros y Hy. rewrite Hy in Hg. discriminate.
Qed.
Lemma confirmed_expense_isolated eid id n : rkeeps (Receipt.insert_confirmed_expense eid a id n).
Proof.
  intros t u t' H. unfold Receipt.insert_confirmed_expense in H. case_match; [by simplify_eq|].
  destruct (negb _ || _ || _ || _ || _) eqn:Hg; [discriminate|]. injection H as <- <-. split; try reflexivity.
  apply filter_hidden; cbn; [tauto|]. intros y Hy. rewrite Hy in Hg. discriminate.
Qed.
Lemma enqueue_job_isolated now utc jid ty id acct : rkeeps (Receipt.enqueue_receipt_job now utc jid ty id acct).
Proof.
  intros t o t' H. unfold Receipt.enqueue_receipt_job in H. cbv zeta in H.
  destruct (Work.enqueue_in_transaction _ _ _) as [[[] q]|e]; simplify_eq; by split.
Qed.

Lemma finish_accept_isolated now utc id jid : rkeeps (Receipt.finish_accept_in_transaction now utc id a jid).
Proof.
  intros t o t' H. unfold Receipt.finish_accept_in_transaction, res_bind in H. cbv zeta in H.
  destruct (Receipt.load_submission t id a) as [cur|]; [|discriminate].
  assert (He : forall t1 o1, match Receipt.enqueue_receipt_job now utc jid ReceiptTypes.JOB_TYPE_INGEST id a t1 with
      | Ok (Work.Enqueued, t2) => Ok (ReceiptTypes.Accepted ReceiptTypes.Queued, t2)
      | Ok (Work.DuplicateJob, t2) => Ok (ReceiptTypes.DuplicateJob, t2) | Err e => Err e end = Ok (o1, t')
      -> receipt_isolated t1 t').
  { intros t1 o1 E. destruct (Receipt.enqueue_receipt_job _ _ _ _ _ _ t1) as [[oc t2]|e] eqn:Eq; [|discriminate].
    apply enqueue_job_isolated in Eq. by destruct oc; simplify_eq. }
  destruct (Receipt.sub_state cur); try (by injection H as <- <-); [|by eapply He].
  destruct (Receipt.transition_state _ _ _ _ _ _ _ _ _ t) as [[[] t1]|e] eqn:Et; [|discriminate].
  etransitivity; [by eapply transition_isolated | by eapply He].
Qed.

Lemma accept_isolated now utc r :
  ReceiptTypes.ac_account_id r = a -> rkeeps (Receipt.accept_submission_in_transaction now utc r).
Proof.
  intros Ha t o t' H. unfold Receipt.accept_submission_in_transaction, res_bind in H. rewrite Ha in H.
  destruct (negb _); [discriminate|].
  destruct (Receipt.insert_submission _ _ _ t) as [[ins t1]|] eqn:Ei; [|discriminate].
  etransitivity; [by eapply insert_submission_isolated|]. destruct ins; [by eapply finish_accept_isolated|].
  destruct (ok_or _ _) as [[eid row]|]; [|discriminate]. destruct (negb (bool_decide _)) eqn:Hb; [discriminate|].
  apply negb_false_iff, bool_decide_eq_true in Hb. rewrite Hb in H.
  case_bool_decide; [by eapply finish_accept_isolated | by injection H as <- <-].
Qed.

Lemma confirm_isolated now r : ReceiptTypes.cf_account_id r = a -> rkeeps (Receipt.confirm_in_transaction now r).
Proof.
  intros Ha t o t' H. unfold Receipt.confirm_in_transaction, res_bind in H. rewrite Ha in H.
  destruct (Receipt.load_submission _ _ _) as [s|]; [|discriminate].
  destruct (Receipt.sub_state s); try discriminate; [|by case_match; simplify_eq].
  destruct (Receipt.load_draft _ _ _) as [n|]; [|discriminate]. destruct (negb _); [discriminate|].
  apply t_bind_ok in H as ([] & t1 & H1 & H). apply t_bind_ok in H as (e & t2 & H2 & H).
  apply t_bind_ok in H as ([] & t3 & H3 & [= <- <-]).
  unfold Receipt.lookup_confirmed_expense_id in H2. case_match; simplify_eq.
  etransitivity; [by eapply confirmed_expense_isolated | by eapply transition_isolated].
Qed.
Lemma reject_isolated now r : ReceiptTypes.rj_account_id r = a -> rkeeps (Receipt.reject_in_transaction now r).
Proof.
  intros Ha t o t' H. unfold Receipt.reject_in_transaction, res_bind in H. rewrite Ha in H.
  destruct (Receipt.load_submission _ _ _) as [s|]; [|discriminate].
  destruct (Receipt.sub_state s); try discriminate; [|by injection H as <- <-].
  destruct (Receipt.load_draft _ _ _) as [n|]; [|discriminate]. destruct (negb _); [discriminate|].
  by eapply transition_isolated.
Qed.

(** What precedes the UPDATE of a draft edit records corrections only. *)
Definition corrects (t t' : Receipt.tables) : Prop := Receipt.drafts t' = Receipt.drafts t /\ receipt_isolated t t'.
#[export] Instance corrects_preorder : PreOrder corrects.
Proof. split; [by intros t|]. intros t1 t2 t3 [D1 R1] [D2 R2]. split; [congruence | by etransitivity]. Qed.

Lemma edit_field_corrects {A} `{EqDecision A} did id f (show : A -> rstr) req old :
  t_maintains corrects (Receipt.edit_field did id f show req old).
Proof.
  assert (Hc : forall x y, t_maintains corrects (Receipt.record_correction did id f x y)).
  { intros x y t u t' [= <- <-]. split; [done|]. by split. }
  unfold Receipt.edit_field. destruct req; [case_bool_decide|]; steps.
Qed.
Lemma opt_check_corrects {A} (f : A -> result unit ReceiptTypes.ReceiptError) o : t_maintains corrects (Receipt.opt_check f o).
Proof. unfold Receipt.opt_check. steps. Qed.

Lemma update_draft_isolated t id n u t' n0 :
  Receipt.drafts t !! id = Some n0 -> ReceiptTypes.dr_account_id n0 = a ->
  Receipt.update_draft id n t = Ok (u, t') -> receipt_isolated t t'.
Proof.
  intros Hn Ha H. unfold Receipt.update_draft, res_bind in H. rewrite Hn in H. cbv zeta in H.
  repeat (case_match; try discriminate). injection H as <- <-. split; try reflexivity.
  apply filter_hidden; cbn; [tauto|]. intros y Hy. rewrite Hn in Hy. injection Hy as <-. tauto.
Qed.

Lemma edit_draft_isolated r : ReceiptTypes.ed_account_id r = a -> rkeeps (Receipt.edit_draft_in_transaction r).
Proof.
  intros Ha t o t' H. unfold Receipt.edit_draft_in_transaction, res_bind in H. cbv zeta in H. rewrite Ha in H.
  destruct (Receipt.load_submission _ _ _) as [sub|]; [|discriminate]. destruct (negb _); [discriminate|].
  destruct (Receipt.load_draft t _ _) as [n|] eqn:Hn; [|discriminate]. destruct (negb _); [discriminate|].
  unfold Receipt.load_draft in Hn. destruct (Receipt.drafts t !! _) as [n0|] eqn:Hd; [|discriminate].
  case_bool_decide as Hn0; [|discriminate]. injection Hn as <-.
  enough (Hall : exists m t1 x, corrects t t1 /\ Receipt.update_draft (ReceiptTypes.ed_submission_id r) m t1 = Ok (x, t')).
  { destruct Hall as (m & t1 & x & [Hd1 Hr1] & Hu). etransitivity; [exact Hr1|].
    eapply update_draft_isolated; [by rewrite Hd1 | exact Hn0 | exact Hu]. }
  pose proof (@opt_check_corrects) as Ho. pose proof (@edit_field_corrects) as Hf.
  assert (Hp : corrects t t) by done.
  repeat match type of H with t_bind _ _ _ = _ =>
    let x := fresh "x" in let s1 := fresh "s" in let H1 := fresh "Hs" in
    apply t_bind_ok in H as (x & s1 & H1 & H);
    first
    [ match type of H1 with Receipt.update_draft _ _ _ = _ => injection H as <- <-; eauto end
    | let Hc := fresh "Hc" in
      assert (Hc : corrects t s1) by
        (etransitivity; [exact Hp|]; revert H1; match goal with |- ?m ?s = Ok (?y, ?s') -> _ =>
           enough (t_maintains corrects m) as Hm by (exact (Hm s y s')); steps end);
      clear Hp H1; rename Hc into Hp ] end.
Qed.

(** ** Messages and events *)

Lemma message_isolated now id acct ev sc tg body key st :
  acct = Some a \/ acct = None -> keeps (insert_outbound now id acct ev sc tg body key st).
Proof.
  intros Ha d u d' H. unfold insert_outbound in H. destruct (negb _); [discriminate|].
  destruct (outbound_with_key d key) as [[old m]|]; [by simplify_eq|].
  destruct (negb _ || _ || _) eqn:Hg; [discriminate|]. injection H as <- <-. isolate.
  apply filter_hidden; cbn; [destruct Ha as [-> | ->]; tauto|]. intros y Hy. rewrite Hy in Hg. discriminate.
Qed.

Lemma reply_isolated now utc ids policy at_ acct ev sc tg body key :
  acct = Some a \/ acct = None ->
  keeps (enqueue_outbound_in_transaction now utc ids policy at_ acct ev sc tg body key).
Proof.
  intros Ha. pose proof (@on_queue_isolated). pose proof (message_isolated).
  assert (Hc : forall k lim, messages_counter a at_ = k ->
            keeps (on_usage invalid (Quota.increment_in_transaction k lim))).
  { intros k lim <-. apply counter_isolated, own_counter. reflexivity. }
  unfold enqueue_outbound_in_transaction, outbound_delivery_allowed. cbv zeta.
  destruct Ha as [-> | ->]; steps.
Qed.

Lemma event_row_isolated r row d : isolated a d (set_event r row d).
Proof. isolate. Qed.
Lemma insert_event_isolated id r o st : keeps (insert_observed_event id r o st).
Proof.
  intros d out d' H. unfold insert_observed_event in H. cbv zeta in H.
  repeat case_match; simplify_eq; first [done | apply event_row_isolated].
Qed.

Lemma resolve_isolated id r d d' : resolve_or_create_account id r d = Ok (a, d') -> isolated a d d'.
Proof.
  intros H. unfold resolve_or_create_account in H. case_match eqn:Hp; [by simplify_eq|].
  destruct (negb _); [discriminate|]. injection H as -> <-. isolate; [apply delete_hidden..|].
  apply filter_hidden; cbn; [tauto|]. intros y Hy. rewrite Hp in Hy. discriminate.
Qed.

Context `{PG : Postgres}.

#[export] Instance isolated_statements : Statements a (isolated a).
Proof.
  split; intros *; try (intros; apply on_receipts_isolated).
  - apply _.
  - apply grant_isolated.
  - apply update_columns_isolated.
  - apply insert_expense_isolated.
  - apply settle_isolated.
  - apply edit_isolated.
  - apply recategorize_isolated.
  - apply update_pending_isolated.
  - apply upsert_pending_isolated.
  - apply reset_pending_isolated.
  - apply upsert_schedule_isolated.
  - apply recompute_isolated.
  - apply disable_isolated.
  - apply deleting_isolated.
  - apply request_deletion_isolated.
  - apply on_queue_isolated.
  - apply on_queue_isolated.
  - apply counter_isolated, own_counter. reflexivity.
  - apply snapshot_isolated.
  - by apply accept_isolated.
  - by apply confirm_isolated.
  - by apply reject_isolated.
  - by apply edit_draft_isolated.
Qed.
#[export] Instance isolated_event : EventStatements (isolated a).
Proof.
  split; [apply _ | apply insert_event_isolated | intros now id acct d; isolate | intros *; apply reply_isolated; by right].
Qed.
#[export] Instance isolated_account : AccountStatements a (isolated a).
Proof. split; [intros *; apply reply_isolated; by left | apply resolve_isolated]. Qed.
End View.

