(* ===== verification/DeletionProps.v ===== *)
(** * Account deletion: everything of the account, nothing of the others *)

From S2P Require Import Prelude RustStr RustStrFacts Platform Errors Work Quota ConvTypes.
From S2P Require Import ReceiptTypes Receipt Database Insight Account IngressTypes IngressStore Isolation.
Import Db.
Import (hints) Errors Work Quota ReceiptTypes Receipt Account.

(** The foreign keys (submission_id, account_id) of drafts and originals, and the account
    of a confirmed expense. *)
Record owners_agree (t : Receipt.tables) : Prop := {
  oa_draft : forall id n, Receipt.drafts t !! id = Some n ->
    exists r, Receipt.submissions t !! id = Some r /\ Receipt.sub_account r = ReceiptTypes.dr_account_id n;
  oa_asset : forall id x, Receipt.assets t !! id = Some x ->
    exists r, Receipt.submissions t !! id = Some r /\ Receipt.sub_account r = Receipt.as_account x;
  oa_expense : forall id r e x, Receipt.submissions t !! id = Some r -> Receipt.sub_confirmed_expense r = Some e ->
    Receipt.expenses t !! e = Some x -> Receipt.ex_account x = Receipt.sub_account r;
}.

Section Deletion.
Context `{UT : UuidText}.

(** Nothing refers to the account any more. *)
Record no_rows_of (a : uuid) (d : db) : Prop := {
  nr_expenses : forall k x, expenses d !! k = Some x -> Receipt.ex_account x <> a;
  nr_submissions : forall k x, Receipt.submissions (rt d) !! k = Some x -> Receipt.sub_account x <> a;
  nr_assets : forall k x, Receipt.assets (rt d) !! k = Some x -> Receipt.as_account x <> a;
  nr_drafts : forall k x, Receipt.drafts (rt d) !! k = Some x -> ReceiptTypes.dr_account_id x <> a;
  nr_conversation : conversation_states d !! a = None;
  nr_schedules : forall f, summary_schedules d !! (a, f) = None;
  nr_snapshots : forall k x, insight_snapshots d !! k = Some x -> sk_account k <> a;
  nr_exports : forall k x, export_artifacts d !! k = Some x -> xp_account x <> a;
  nr_messages : forall k x, outbound_messages d !! k = Some x -> ob_account x <> Some a;
  nr_counters : forall k, Account.account_counter a k = true -> Receipt.usage (rt d) !! k = None;
  nr_events : forall k x, inbound_events d !! k = Some x -> ev_account x <> Some a;
}.

(** ** Maps *)

Lemma filter_lookup_ne {K A} `{Countable K} (P : K * A -> Prop) `{!forall x, Decision (P x)} (m : gmap K A) k x :
  filter P m !! k = Some x -> P (k, x).
Proof. by intros [_ H']%map_lookup_filter_Some. Qed.

(** Filtering twice, the outer condition implied by the inner. *)
Lemma filter_filter_hidden {K A} `{Countable K} (P Q : K * A -> Prop) `{!forall x, Decision (P x)}
    `{!forall x, Decision (Q x)} (m : gmap K A) :
  (forall k x, m !! k = Some x -> P (k, x) -> Q (k, x)) -> filter P (filter Q m) = filter P m.
Proof.
  intros HPQ. apply map_eq. intros k. apply option_eq. intros x.
  rewrite !map_lookup_filter_Some. naive_solver.
Qed.

Context (a : uuid).

Lemma others_released t :
  others_submissions a (Receipt.submissions (Account.release_submissions a t)) = others_submissions a (Receipt.submissions t).
Proof.
  apply map_eq. intros k. apply option_eq. intros x. unfold others_submissions. rewrite !map_lookup_filter_Some. cbn.
  rewrite lookup_fmap. destruct (Receipt.submissions t !! k) as [r|]; cbn; [|naive_solver].
  case_bool_decide; naive_solver.
Qed.

(** The tables once the expenses are gone. *)
Record without_expenses (t t' : Receipt.tables) : Prop := {
  we_submissions : Receipt.submissions t' = Receipt.submissions (Account.release_submissions a t);
  we_expenses : Receipt.expenses t' = filter (fun p => ~ Account.owned_expense a p) (Receipt.expenses t);
  we_accounts : Receipt.accounts t' = Receipt.accounts t;
  we_assets : Receipt.assets t' = Receipt.assets t;
  we_drafts : Receipt.drafts t' = Receipt.drafts t;
  we_attempts : Receipt.extraction_attempts t' = Receipt.extraction_attempts t;
  we_usage : Receipt.usage t' = Receipt.usage t;
}.

(** The CHECK of a confirmed submission holds when expenses belong to its account. *)
Lemma delete_expenses_ok t :
  owners_agree t -> exists t', Account.delete_expenses a (Account.release_submissions a t) = Ok t' /\ without_expenses t t'.
Proof.
  intros O. assert (Hp : forall k r, Receipt.submissions (Account.release_submissions a t) !! k = Some r ->
    Account.points_to (filter (Account.owned_expense a) (Receipt.expenses t)) r = false).
  { intros k r. cbn. rewrite lookup_fmap. destruct (Receipt.submissions t !! k) as [q|] eqn:Hq; [|done]. cbn.
    intros [= <-]. case_bool_decide as Ha; [done|]. unfold Account.points_to.
    destruct (Receipt.sub_confirmed_expense q) as [e|] eqn:He; [|done].
    destruct (filter _ _ !! e) as [x|] eqn:Hx; [|done]. apply map_lookup_filter_Some in Hx as [Hx Hown].
    destruct Ha. rewrite <- (oa_expense t O k q e x Hq He Hx). exact Hown. }
  unfold Account.delete_expenses. cbv zeta.
  rewrite (proj2 (forallb_forall _ _)).
  2: { intros [k r] Hin. apply list_elem_of_In, elem_of_map_to_list in Hin. cbn [snd fst].
       change (Receipt.expenses (Account.release_submissions a t)) with (Receipt.expenses t).
       by rewrite (Hp k r Hin). }
  eexists. split; [reflexivity|]. split; try reflexivity. cbn [Receipt.submissions Receipt.set_submissions Receipt.set_expenses].
  apply map_eq. intros k. rewrite lookup_fmap.
  destruct (Receipt.submissions (Account.release_submissions a t) !! k) as [r|] eqn:Hr; [|done]. cbn [fmap option_fmap option_map].
  change (Receipt.expenses (Account.release_submissions a t)) with (Receipt.expenses t). by rewrite (Hp k r Hr).
Qed.

(** Whose submission [id] is. *)
Lemma alive_spec (m : gmap uuid Receipt.submission) id :
  Receipt.is_none (filter (Account.owned_submission a) m !! id) = true
  <-> forall r, m !! id = Some r -> Receipt.sub_account r <> a.
Proof.
  destruct (filter _ m !! id) as [r|] eqn:E; cbn.
  - apply map_lookup_filter_Some in E as [E Ho]. split; [done|]. intros H. by destruct (H r E).
  - split; [|done]. intros _ r Hr Ha. rewrite map_lookup_filter_None in E. destruct E as [E|E]; [congruence|].
    by destruct (E r Hr).
Qed.

Lemma released_account t id r :
  Receipt.submissions (Account.release_submissions a t) !! id = Some r ->
  exists q, Receipt.submissions t !! id = Some q /\ Receipt.sub_account r = Receipt.sub_account q.
Proof.
  cbn. rewrite lookup_fmap. destruct (Receipt.submissions t !! id) as [q|]; [|done]. cbn. intros [= <-].
  exists q. split; [done|]. by case_bool_decide.
Qed.
Lemma released_lookup t id q :
  Receipt.submissions t !! id = Some q ->
  exists r, Receipt.submissions (Account.release_submissions a t) !! id = Some r
            /\ Receipt.sub_account r = Receipt.sub_account q.
Proof. intros H. cbn. rewrite lookup_fmap, H. cbn. eexists. split; [done|]. by case_bool_decide. Qed.

(** The database [purge_account_content] leaves. *)
Definition purged (d : db) (t : Receipt.tables) : db :=
  let t := Account.delete_submissions a t in
  let t := Receipt.set_usage (filter (fun p => Account.account_counter a p.1 = false) (Receipt.usage t)) t in
  upd_inbound_events (fmap (Account.forget_event a))
    (upd_insight_snapshots (filter (fun p => sk_account p.1 <> a))
    (upd_export_artifacts (filter (fun p => xp_account p.2 <> a))
    (upd_outbound_messages (filter (fun p => ob_account p.2 <> Some a))
    (upd_summary_schedules (filter (fun p => p.1.1 <> a))
    (upd_conversation_states (delete a)
    (upd_expense_cols (filter (fun p => is_Some (Receipt.expenses t !! p.1)))
    (upd_rt (fun _ => t) d))))))).

Section Purged.
Context (d : db) (t : Receipt.tables) (O : owners_agree (rt d)) (W : without_expenses (rt d) t).

(** A submission of the account [acct] survives when [acct] is another account. *)
Lemma alive_owner id acct :
  (exists r, Receipt.submissions (rt d) !! id = Some r /\ Receipt.sub_account r = acct) ->
  Receipt.is_none (filter (Account.owned_submission a) (Receipt.submissions t) !! id) = true <-> acct <> a.
Proof.
  intros (q & Hq & <-). rewrite alive_spec, (we_submissions _ _ W). destruct (released_lookup _ _ _ Hq) as (r & Hr & <-).
  split; [intros H; by apply H | intros H r' Hr'; rewrite Hr in Hr'; by injection Hr' as <-].
Qed.

Ltac gone := intros; match goal with H : filter _ _ !! _ = Some _ |- _ => exact (filter_lookup_ne _ _ _ _ H) end.

Lemma purged_no_rows : no_rows_of a (purged d t).
Proof.
  split; unfold purged, expenses; cbn.
  - rewrite (we_expenses _ _ W). gone.
  - gone.
  - intros k x [Hk Hal]%map_lookup_filter_Some. cbn in Hal. rewrite (we_assets _ _ W) in Hk.
    apply (alive_owner k); [exact (oa_asset _ O k x Hk) | exact Hal].
  - intros k x [Hk Hal]%map_lookup_filter_Some. cbn in Hal. rewrite (we_drafts _ _ W) in Hk.
    apply (alive_owner k); [exact (oa_draft _ O k x Hk) | exact Hal].
  - apply lookup_delete_eq.
  - intros f. apply map_lookup_filter_None. right. cbn. tauto.
  - intros k x [_ H]%map_lookup_filter_Some. exact H.
  - gone.
  - gone.
  - intros k Hk. apply map_lookup_filter_None. right. intros x _. cbn. by rewrite Hk.
  - intros k x. rewrite lookup_fmap. destruct (inbound_events d !! k); [|done]. cbn. intros [= <-].
    unfold Account.forget_event. by case_bool_decide.
Qed.

Lemma purged_expenses :
  others_expenses a (filter (fun p => ~ Account.owned_expense a p) (Receipt.expenses (rt d)))
  = others_expenses a (Receipt.expenses (rt d)).
Proof. apply filter_filter_hidden. auto. Qed.
Lemma purged_submissions :
  others_submissions a (filter (fun p => ~ Account.owned_submission a p) (Receipt.submissions t))
  = others_submissions a (Receipt.submissions (rt d)).
Proof. rewrite (we_submissions _ _ W), <- others_released. apply filter_filter_hidden. auto. Qed.

Lemma purged_others : rows_of_others a (purged d t) = rows_of_others a d.
Proof.
  destruct W as [_ Hx Ha Has Hdr Hat Hu]. unfold purged, rows_of_others, accounts, expenses. cbn.
  rewrite Ha, Hx, Has, Hdr, Hat, Hu, purged_expenses, purged_submissions.
  f_equal; try (apply filter_filter_hidden; cbn; tauto).
  - apply delete_delete_eq.
  - apply filter_filter_hidden. cbn. intros k x Hk Hne.
    apply (alive_owner k (Receipt.as_account x)); [exact (oa_asset _ O k x Hk) | exact Hne].
  - apply filter_filter_hidden. cbn. intros k x Hk Hne.
    apply (alive_owner k (ReceiptTypes.dr_account_id x)); [exact (oa_draft _ O k x Hk) | exact Hne].
  - apply filter_filter_hidden. cbn. intros k x _ [r [Hr Hne]%map_lookup_filter_Some].
    by apply (alive_owner k.1 (Receipt.sub_account r)); [exists r|].
Qed.
End Purged.

Lemma purge_ok d :
  owners_agree (rt d) ->
  exists t, Account.purge_account_content a d = Ok (tt, purged d t) /\ without_expenses (rt d) t.
Proof.
  intros O. destruct (delete_expenses_ok (rt d) O) as (t & Ht & W). exists t. split; [|exact W].
  unfold Account.purge_account_content, res_bind. rewrite Ht. reflexivity.
Qed.

Context `{OS : ReceiptTypes.ObjectStore} `{OL : !ReceiptTypes.ObjectStoreLaws}.

(** A store whose deletions succeed. *)
Definition deletes_work : Prop := forall k o, (ReceiptTypes.os_delete k o).2 = Ok tt.

Lemma delete_objects_ok keys (w : Account.world) :
  deletes_work ->
  exists o, Account.delete_objects keys w = ((w.1, o), Ok tt)
  /\ (forall k, k ∈ keys -> ReceiptTypes.os_get k o = Ok None)
  /\ (forall k, k ∉ keys -> ReceiptTypes.os_get k o = ReceiptTypes.os_get k w.2).
Proof.
  intros Hw. revert w. induction keys as [|k keys IH]; intros [d o]; cbn [Account.delete_objects].
  - exists o. split; [done|]. split; [by intros k ?%elem_of_nil | done].
  - pose proof (Hw k o) as Hk. unfold p_bind, Account.on_objects. cbn [fst snd].
    destruct (ReceiptTypes.os_delete k o) as [o1 r1] eqn:Hd. cbn in Hk. subst r1.
    destruct (IH (d, o1)) as (o2 & -> & Hin & Hout). exists o2. split; [done|].
    pose proof (ReceiptTypes.delete_get k o o1 Hd) as Hg.
    split; intros k' Hk'.
    + destruct (decide (k' ∈ keys)) as [H|H]; [by apply Hin|]. apply elem_of_cons in Hk' as [-> | Hk']; [|done].
      rewrite (Hout k H). exact Hg.
    + apply not_elem_of_cons in Hk' as [Hne Hk']. rewrite (Hout k' Hk').
      change o1 with ((o1, Ok tt : result unit ReceiptTypes.ReceiptError).1). rewrite <- Hd.
      by apply ReceiptTypes.delete_other.
Qed.

Lemma buried_others d id f : rows_of_others a (Account.mark_request a id f (Account.bury_account a d)) = rows_of_others a d.
Proof.
  unfold Account.mark_request, Account.bury_account, Account.upd_columns.
  destruct (account_row _ a) as [[r c]|]; unfold rows_of_others; f_equal; try reflexivity;
    first [apply delete_alter_hidden | apply delete_hidden].
Qed.
Lemma buried_no_rows d id f : no_rows_of a d -> no_rows_of a (Account.mark_request a id f (Account.bury_account a d)).
Proof.
  intros []. unfold Account.mark_request, Account.bury_account, Account.upd_columns.
  destruct (account_row _ a) as [[r c]|]; by split.
Qed.
Lemma buried_account d id f r :
  accounts d !! a = Some r ->
  account_row (Account.mark_request a id f (Account.bury_account a d)) a
  = Some (Account.set_lifecycle (s! "deleted") r,
          Account.set_consent None (default default_account (account_cols d !! a))).
Proof.
  intros Hr. unfold Account.bury_account, Account.upd_columns.
  assert (Ha : accounts (Account.upd_accounts (alter (Account.set_lifecycle (s! "deleted")) a) d) !! a
               = Some (Account.set_lifecycle (s! "deleted") r)).
  { change (alter (Account.set_lifecycle (s! "deleted")) a (accounts d) !! a
            = Some (Account.set_lifecycle (s! "deleted") r)). by rewrite lookup_alter_eq, Hr. }
  unfold account_row at 2. rewrite Ha. cbn [fmap option_fmap option_map].
  unfold account_row. change (accounts (Account.mark_request a id f ?x)) with (accounts x).
  match goal with |- context [accounts (upd_account_cols ?g ?x)] => change (accounts (upd_account_cols g x)) with (accounts x) end.
  rewrite Ha. cbn [fmap option_fmap option_map]. do 2 f_equal.
  change (default default_account (<[a := Account.set_consent None (default default_account (account_cols d !! a))]>
            (account_cols d) !! a) = Account.set_consent None (default default_account (account_cols d !! a))).
  by rewrite lookup_insert_eq.
Qed.

Lemma start_request_keeps id (d : db) :
  let d1 := Account.mark_request a id Account.start_request d in
  rt d1 = rt d /\ account_cols d1 = account_cols d /\ export_artifacts d1 = export_artifacts d
  /\ rows_of_others a d1 = rows_of_others a d.
Proof.
  repeat split. unfold rows_of_others, Account.mark_request. f_equal; try reflexivity. apply delete_alter_hidden.
Qed.

Lemma account_row_account (d : db) b r c : account_row d b = Some (r, c) -> accounts d !! b = Some r.
Proof. unfold account_row. destruct (accounts d !! b) as [r'|]; [|discriminate]. cbn. by intros [= -> _]. Qed.

(** A job of a deleted account does nothing. *)
Lemma delete_again now p (w : Account.world) r :
  Account.ad_schema_version p = Account.ACCOUNT_JOB_PAYLOAD_VERSION ->
  accounts w.1 !! Account.ad_account_id p = Some r -> Receipt.acc_lifecycle_state r = s! "deleted" ->
  Account.execute_account_delete now p w = (w, Ok tt).
Proof.
  intros Hv Hr Hd. unfold Account.execute_account_delete, p_bind, p_read. rewrite Hv, Z.eqb_refl. cbn [negb].
  cbv beta. rewrite Hr. cbn [fmap option_fmap option_map]. rewrite Hd, (proj2 (str_eqb_eq _ _) eq_refl). reflexivity.
Qed.

(** The run of a job whose steps succeed. *)
Lemma execute_delete_run now p (w : Account.world) r d1 o d2 :
  Account.ad_schema_version p = Account.ACCOUNT_JOB_PAYLOAD_VERSION -> Account.ad_account_id p = a ->
  accounts w.1 !! a = Some r -> Receipt.acc_lifecycle_state r <> s! "deleted" ->
  Account.mark_request a (Account.ad_deletion_request_id p) Account.start_request w.1 = d1 ->
  Account.delete_objects (Account.load_account_object_keys d1 a) (d1, w.2) = ((d1, o), Ok tt) ->
  Account.purge_account_content a d1 = Ok (tt, d2) ->
  Account.execute_account_delete now p w
  = ((Account.mark_request a (Account.ad_deletion_request_id p) (Account.complete_request now)
        (Account.bury_account a d2), o), Ok tt).
Proof.
  intros Hv Ha Hr Hst Hd1 Hdel Hp. unfold Account.execute_account_delete, p_bind at 1, p_read at 1.
  rewrite Hv, Z.eqb_refl, Ha. cbn [negb]. cbv beta. rewrite Hr. cbn [fmap option_fmap option_map].
  destruct (str_eqb _ _) eqn:He; [by apply str_eqb_eq in He|]. clear He.
  unfold p_bind at 1, Account.in_tx at 1, atomically at 1. rewrite Hd1. unfold p_bind at 1, p_read at 1. cbn [fst].
  unfold p_bind. rewrite Hdel. unfold Account.in_tx, atomically, Account.delete_account_tx, t_bind. cbn [fst snd].
  rewrite Ha, Hp. reflexivity.
Qed.

End Deletion.
