(* ===== verification/EndToEnd.v ===== *)
(** * From a text message to the books

    A confirmation word of a user with an open manual expense, through the whole of
    [process_text_command]: the context read from the tables, the decision, its effects
    on the tables, and the reply. *)

From S2P Require Import Prelude RustStr RustStrFacts Platform AmountProps Errors Work Quota Schedule ConvTypes Templates Conversation.
From S2P Require Import ConversationProps ReceiptTypes Receipt Database Insight Account IngressTypes IngressStore IngressApply IngressApp.
From S2P Require Import IngressFrame.
Import Db Ingress IngressStore IngressApply IngressApp.
Import (hints) Errors Work Quota ReceiptTypes Receipt.

(** Replies, counters and events change nothing else. *)
Definition same_books (d d' : db) : Prop :=
  expenses d' = expenses d /\ expense_cols d' = expense_cols d /\ conversation_states d' = conversation_states d
  /\ accounts d' = accounts d.
#[export] Instance same_books_preorder : PreOrder same_books.
Proof.
  split; [by intros d|]. intros d1 d2 d3 (A1 & B1 & C1 & D1) (A2 & B2 & C2 & D2).
  repeat split; congruence.
Qed.

Lemma queue_books {E A} (f : Work.WorkError -> E) (m : txn Work.db Work.WorkError A) : t_maintains same_books (on_queue f m).
Proof. intros d u d' H. unfold on_queue in H. destruct (m _) as [[x q]|e]; simplify_eq. done. Qed.
Lemma usage_books {E A} (f : Quota.QuotaError -> E) (m : txn Quota.usage Quota.QuotaError A) :
  t_maintains same_books (on_usage f m).
Proof. intros d u d' H. unfold on_usage in H. destruct (m _) as [[x q]|e]; simplify_eq. done. Qed.
Lemma message_books now id a ev sc tg body key st : t_maintains same_books (insert_outbound now id a ev sc tg body key st).
Proof.
  intros d u d' H. unfold insert_outbound in H. destruct (negb _); [discriminate|].
  destruct (outbound_with_key d key) as [[old m]|]; [by simplify_eq|]. destruct (negb _ || _ || _); by simplify_eq.
Qed.
Lemma reply_books `{Chrono} `{UuidText} now utc ids policy at_ a ev sc tg body key :
  t_maintains same_books (enqueue_outbound_in_transaction now utc ids policy at_ a ev sc tg body key).
Proof.
  pose proof (@queue_books). pose proof (@usage_books). pose proof (message_books).
  unfold enqueue_outbound_in_transaction, outbound_delivery_allowed. cbv zeta. steps.
Qed.

(** ** The context of a decision *)

Lemma context_spec `{CH : Chrono} `{PG : Postgres} `{UT : UuidText} env a ev r lim d c d1 :
  load_decision_context env a ev r lim d = Ret (Ok (c, d1)) ->
  d1 = d /\ dc_inbound_event_id c = Some ev /\ dc_sender_allowed c = true /\ dc_now c = observed_at r
  /\ dc_user_text c = user_text r
  /\ (exists acc, accounts d !! a = Some acc
        /\ LifecycleState.from_str (Receipt.acc_lifecycle_state acc) = dc_lifecycle_state c)
  /\ load_pending_action d a (load_recent_expenses d a) = Ok (dc_pending_action c).
Proof.
  intros H. unfold load_decision_context, period_of, call_invalid in H. cbv zeta in H.
  apply x_bind_ok in H as ([acc cols] & s1 & [Hacc ->]%x_read_ok & H).
  apply x_bind_ok in H as (life & s2 & [Hlife ->]%x_read_ok & H).
  apply x_bind_ok in H as (today & s3 & [_ ->]%x_read_ok & H).
  apply x_bind_ok in H as (week & s4 & Hw & H). apply x_bind_ok in Hw as (wp & s5 & [_ ->]%x_call_ok & [= _ <-]).
  apply x_bind_ok in H as (wt & s6 & [_ ->]%x_read_ok & H).
  apply x_bind_ok in H as (month & s7 & Hm & H). apply x_bind_ok in Hm as (mp & s8 & [_ ->]%x_call_ok & [= _ <-]).
  apply x_bind_ok in H as (mt & s9 & [_ ->]%x_read_ok & H).
  apply x_bind_ok in H as (dd & s10 & [Hdd ->]%x_read_ok & H). injection Hdd as Hdd. subst dd.
  apply x_bind_ok in H as (pend & s11 & [Hpend ->]%x_read_ok & H). injection H as Hc Hd.
  subst c. repeat split; [symmetry; exact Hd | | exact Hpend]. cbn [dc_lifecycle_state]. unfold account_row in Hacc.
  destruct (accounts d !! a) as [row|]; [|discriminate]. cbn in Hacc. injection Hacc as -> _. exists acc. split; [done|].
  destruct (LifecycleState.from_str _); [|discriminate]. by injection Hlife as <-.
Qed.

(** ** Every decision can be carried out *)

Section Decisions.
Context `{CH : Chrono} `{PG : Postgres} `{UT : UuidText} `{UC : UnicodeCase} `{UN : UnicodeNorm}
  `{UL : !UnicodeCaseLaws} `{NL : !UnicodeNormLaws}.

(** Versions as the INTEGER columns hold them. *)
Definition version_ok (v : Z) : Prop := 0 <= v <= i32_max.
Definition context_wf (c : DecisionContext) : Prop :=
  is_Some (dc_inbound_event_id c)
  /\ match dc_pending_action c with
     | Some p => match pa_expense p with Some x => version_ok (rx_version x) | None => True end
                 /\ match pa_receipt_draft p with Some x => version_ok (rd_version x) | None => True end
     | None => True
     end.

Lemma small_u64 z : 0 <= z <= i64_max -> as_u64 z = z.
Proof. intros H. unfold as_u64. apply Z.mod_small. unfold i64_max in H. lia. Qed.
Lemma version_i32 v : version_ok v -> to_i32 (as_u64 v) = Ok v.
Proof.
  intros H. unfold version_ok in H. rewrite small_u64 by (unfold i32_max, i64_max in *; lia). unfold to_i32.
  rewrite (proj2 (in_i32_spec _)); [done|]. unfold i32_min, i32_max in *. lia.
Qed.

(** The version of a pending expense or draft maps to the column type. *)
Lemma pending_version c now k id v :
  context_wf c -> k <> Conv.AccountDeletion -> live_pending (to_conversation_context c) now k id v ->
  exists n, to_i32 v = Ok n.
Proof.
  intros [_ Hw] Hk (p & Hp & Hkind & _ & Hv & _). change (to_pending c = Some p) in Hp. unfold to_pending in Hp.
  destruct (dc_pending_action c) as [pa|]; [|discriminate]. destruct Hw as [Hx Hd].
  destruct (str_eqb _ _); [injection Hp as <-; by subst k|].
  destruct (pa_expense pa) as [x|].
  - injection Hp as <-. rewrite <- Hv. exists (rx_version x). exact (version_i32 _ Hx).
  - destruct (pa_receipt_draft pa) as [x|]; [|discriminate]. injection Hp as <-. rewrite <- Hv. exists (rd_version x).
    exact (version_i32 _ Hd).
Qed.

Lemma command_maps c now cmd ev :
  context_wf c -> authorized (to_conversation_context c) now cmd ->
  exists e, map_command cmd (pa_version <$> dc_pending_action c) ev = Ok e.
Proof.
  intros W [_ Ha].
  assert (Hv : forall k id v (f : Z -> IngressEffect), k <> Conv.AccountDeletion ->
    live_pending (to_conversation_context c) now k id v -> exists e, (let? n := to_i32 v in Ok (f n)) = Ok e).
  { intros k id v f Hk Hl. destruct (pending_version c now k id v W Hk Hl) as [n ->]. by exists (f n). }
  destruct cmd; cbn [map_command] in *; try (by eexists); destruct Ha as [_ Ha]; cbn [authorized_active] in Ha.
  1: destruct Ha as (_ & _ & _ & _ & _ & -> & _); by eexists.
  all: try (eapply Hv; [|first [exact Ha | exact (proj1 Ha)]]; discriminate).
  assert (Hpa : exists p, dc_pending_action c = Some p).
  { destruct (dc_pending_action c) as [p|] eqn:E; [by exists p|]. exfalso. apply Ha.
    change (to_pending c = None). unfold to_pending. by rewrite E. }
  destruct Hpa as [p ->]. by eexists.
Qed.

Lemma commands_map c now l ev :
  context_wf c -> Forall (authorized (to_conversation_context c) now) l ->
  exists es, map_commands l (pa_version <$> dc_pending_action c) ev = Ok es.
Proof.
  intros W. induction 1 as [|cmd l Hc _ [es IH]]; [by eexists|]. cbn [map_commands].
  destruct (command_maps c now cmd ev W Hc) as [e He]. unfold res_bind. rewrite He, IH. by eexists.
Qed.

Lemma decision_maps c :
  context_wf c -> Forall benign (dc_user_text c) ->
  exists out, decide_text_and_map c = Ret (Ok out) /\ is_Some (reply out)
    /\ (dc_sender_allowed c = false -> effects out = []).
Proof.
  intros W Ht. destruct (decide_ok (to_conversation_context c) (dc_user_text c) (dc_now c) Ht) as (o & Ho & Hr & Hc).
  unfold decide_text_and_map. rewrite Ho. cbn [run_bind]. unfold map_outcome, res_bind.
  destruct (proj1 W) as [ev ->]. cbn [ok_or]. destruct (commands_map c _ _ ev W Hc) as [es He]. rewrite He.
  destruct (Conv.replies o) as [|body [|]]; try discriminate. eexists. split; [reflexivity|]. split; [by eexists|].
  intros Hs. cbn [effects]. destruct (Conv.commands o) as [|cmd l]; [by injection He as <-|].
  apply Forall_cons_1 in Hc as [[Hc _] _]. change (dc_sender_allowed c = true) in Hc. congruence.
Qed.
End Decisions.

Section Confirm.
Context `{CH : Chrono} `{PG : Postgres} `{UT : UuidText} `{IL : ImageLib} `{SJ : SerdeJson} `{UC : UnicodeCase}
  `{UN : UnicodeNorm} `{UL : !UuidTextLaws}.

(** ** The context *)

(** The snapshot of an expense that waits for confirmation. *)
Definition awaiting_snapshot (d : db) (eid : uuid) (e : Receipt.expense) : RecentExpense :=
  {| rx_id := eid; rx_amount_minor := Receipt.ex_amount_minor e; rx_currency := Receipt.ex_currency e;
     rx_occurred_at := Receipt.ex_occurred_at e; rx_description := Receipt.ex_description e;
     rx_source := Receipt.ex_source e; rx_state := AwaitingConfirmation; rx_version := expense_version d eid;
     rx_category_key := Receipt.ex_category_key e; rx_transaction_type := Receipt.ex_transaction_type e |}.

Lemma recent_awaiting d eid e :
  Receipt.ex_state e = s! "awaiting_confirmation" -> recent_expense d (eid, e) = Some (awaiting_snapshot d eid e).
Proof. intros He. unfold recent_expense. rewrite He. reflexivity. Qed.

Lemma recent_row d a x :
  In x (load_recent_expenses d a) -> exists e, expenses d !! rx_id x = Some e /\ recent_expense d (rx_id x, e) = Some x.
Proof.
  intros Hx. unfold load_recent_expenses in Hx. apply list_elem_of_In, list_elem_of_omap in Hx as ([id e] & Hin & Hr).
  assert (Hid : rx_id x = id).
  { unfold recent_expense in Hr. destruct (ExpenseState.from_str _); [|discriminate]. by injection Hr as <-. }
  exists e. rewrite Hid. split; [|exact Hr].
  apply elem_of_take in Hin as (i & Hi & _). apply list_elem_of_lookup_2 in Hi.
  rewrite (merge_sort_Permutation (newer d)) in Hi. unfold expenses_of in Hi.
  apply list_elem_of_In, filter_In in Hi as [Hi _]. by apply list_elem_of_In, elem_of_map_to_list in Hi.
Qed.

Lemma pending_expense_found d a eid e :
  expenses d !! eid = Some e -> Receipt.ex_account e = a -> Receipt.ex_state e = s! "awaiting_confirmation" ->
  load_pending_expense d a (load_recent_expenses d a) eid = Some (awaiting_snapshot d eid e).
Proof.
  intros He Ha Hs. unfold load_pending_expense. destruct (List.find _ _) as [x|] eqn:Hf.
  - apply List.find_some in Hf as [Hin Hid]. apply bool_decide_eq_true in Hid.
    destruct (recent_row _ _ _ Hin) as (e' & He' & Hr). rewrite Hid in He', Hr. rewrite He in He'. injection He' as <-.
    by rewrite recent_awaiting in Hr.
  - rewrite He, bool_decide_eq_true_2 by exact Ha. by apply recent_awaiting.
Qed.

(** Account [a] is active and has been asked to confirm the manual expense [eid]. *)
Record open_expense (d : db) (a eid : uuid) (e : Receipt.expense) (expires v : Z) : Prop := {
  oe_active : exists r, accounts d !! a = Some r /\ Receipt.acc_lifecycle_state r = s! "active";
  oe_pending : conversation_states d !! a = Some {|
    pending_action_type := Some (s! "manual_expense_confirmation"); pending_payload_ref := Some (uuid_str eid);
    expires_at := Some expires; cs_version := v |};
  oe_expense : expenses d !! eid = Some e;
  oe_owner : Receipt.ex_account e = a;
  oe_state : Receipt.ex_state e = s! "awaiting_confirmation";
  oe_version : 0 < expense_version d eid < i32_max;
  oe_range : uuid_range eid;
}.

Definition open_action (d : db) (eid : uuid) (e : Receipt.expense) (expires v : Z) : PendingAction :=
  {| pa_action_type := s! "manual_expense_confirmation"; pa_payload_ref := Some (uuid_str eid);
     pa_expires_at := expires; pa_version := v; pa_expense := Some (awaiting_snapshot d eid e);
     pa_receipt_draft := None |}.

Lemma open_pending d a eid e expires v :
  open_expense d a eid e expires v ->
  load_pending_action d a (load_recent_expenses d a) = Ok (Some (open_action d eid e expires v)).
Proof.
  intros [_ Hp He Ho Hs _ Hr]. unfold load_pending_action. rewrite Hp. cbv zeta.
  rewrite (proj2 (str_eqb_eq _ _) eq_refl). cbn [mbind option_bind]. rewrite (parse_uuid_str _ Hr). cbn [mbind option_bind].
  rewrite (pending_expense_found d a eid e He Ho Hs). reflexivity.
Qed.

Lemma open_context env a ev r lim d c d1 eid e expires v :
  open_expense d a eid e expires v -> load_decision_context env a ev r lim d = Ret (Ok (c, d1)) ->
  d1 = d /\ dc_inbound_event_id c = Some ev /\ dc_sender_allowed c = true /\ dc_lifecycle_state c = Some Active
  /\ dc_now c = observed_at r /\ dc_user_text c = user_text r
  /\ dc_pending_action c = Some (open_action d eid e expires v).
Proof.
  intros O (-> & Hev & Hsa & Hnow & Hu & (acc & Hacc & Hl) & Hp)%context_spec.
  rewrite (open_pending _ _ _ _ _ _ O) in Hp. injection Hp as Hp.
  destruct (oe_active _ _ _ _ _ _ O) as (row & Hrow & Hact). rewrite Hacc in Hrow. injection Hrow as ->.
  rewrite Hact in Hl. repeat split; try done.
Qed.

(** ** The decision *)

Lemma map_confirm c ev eid x n v body :
  dc_inbound_event_id c = Some ev -> pa_version <$> dc_pending_action c = Some v -> to_i32 x = Ok n ->
  map_outcome {| Conv.replies := [body]; Conv.commands := [Conv.ConfirmExpense eid x; Conv.ClearPending] |} c
  = Ok {| effects := [ConfirmExpense eid n; ClearPendingAction v]; reply := Some body |}.
Proof.
  intros Hev Hv Hx. unfold map_outcome, res_bind. rewrite Hev, Hv. cbn [ok_or Conv.commands map_commands map_command].
  unfold res_bind. rewrite Hx. reflexivity.
Qed.

Lemma not_a_deletion : str_eqb (s! "manual_expense_confirmation") (s! "account_deletion") = false.
Proof. vm_compute. reflexivity. Qed.

Lemma open_decision c d ev eid e expires v a :
  open_expense d a eid e expires v ->
  dc_inbound_event_id c = Some ev -> dc_sender_allowed c = true -> dc_lifecycle_state c = Some Active ->
  dc_now c < expires -> dc_pending_action c = Some (open_action d eid e expires v) ->
  Conversation.confirm_words (Conversation.fold (Conversation.trim_command_punctuation (dc_user_text c))) = true ->
  exists out body, decide_text_and_map c = Ret (Ok out)
    /\ effects out = [ConfirmExpense eid (expense_version d eid); ClearPendingAction v] /\ reply out = Some body.
Proof.
  intros O Hev Hal Hli Hnow Hpa Hw. pose proof (oe_version _ _ _ _ _ _ O) as Hv.
  assert (Hpend : to_pending c = Some (expense_confirmation c (open_action d eid e expires v) (awaiting_snapshot d eid e))).
  { unfold to_pending. rewrite Hpa. cbn [pa_action_type pa_expense open_action]. by rewrite not_a_deletion. }
  assert (Hlife : Conv.lifecycle (to_conversation_context c) = Conv.Active).
  { change (to_lifecycle (dc_lifecycle_state c) = Conv.Active). by rewrite Hli. }
  destruct (decide_confirm (to_conversation_context c)
    (expense_confirmation c (open_action d eid e expires v) (awaiting_snapshot d eid e)) (dc_user_text c) (dc_now c)
    Hal Hlife Hpend Hnow eq_refl Hw) as [body Hd].
  assert (Hi : to_i32 (as_u64 (expense_version d eid)) = Ok (expense_version d eid)).
  { apply version_i32. unfold version_ok. lia. }
  assert (Hm : map_outcome {| Conv.replies := [body];
    Conv.commands := [Conv.ConfirmExpense eid (as_u64 (expense_version d eid)); Conv.ClearPending] |} c
    = Ok {| effects := [ConfirmExpense eid (expense_version d eid); ClearPendingAction v]; reply := Some body |}).
  { apply map_confirm with (ev := ev); [exact Hev | by rewrite Hpa | exact Hi]. }
  exists {| effects := [ConfirmExpense eid (expense_version d eid); ClearPendingAction v]; reply := Some body |}, body.
  split; [|split; reflexivity]. unfold decide_text_and_map. rewrite Hd. cbn [run_bind]. f_equal. exact Hm.
Qed.

(** ** The effects *)

Lemma settle_confirm d a eid e expires v :
  open_expense d a eid e expires v ->
  settle_expense a eid (expense_version d eid) (s! "confirmed") d
  = Ok (tt, put_expense eid (set_expense_state (s! "confirmed") e) d).
Proof.
  intros [_ _ He Ho Hs Hv _]. unfold settle_expense, awaiting_expense.
  rewrite He, (bool_decide_eq_true_2 _ Ho), Z.eqb_refl, Hs, (proj2 (str_eqb_eq _ _) eq_refl). cbn [andb].
  rewrite (proj2 (in_i32_spec _)); [done|]. unfold i32_min, i32_max in *. lia.
Qed.

Lemma confirm_effects env st a ev r d eid e expires v o d' :
  open_expense d a eid e expires v ->
  apply_effects env 0 st a ev r [ConfirmExpense eid (expense_version d eid); ClearPendingAction v] None d
  = Ret (Ok (o, d')) ->
  o = None
  /\ same_books (upd_conversation_states
       <[a := {| pending_action_type := None; pending_payload_ref := None; expires_at := None; cs_version := v + 1 |}]>
       (put_expense eid (set_expense_state (s! "confirmed") e) d)) d'.
Proof.
  intros O H. cbn [apply_effects] in H. apply x_bind_ok in H as (o1 & d1 & H1 & H).
  apply x_bind_ok in H as (o2 & d2 & H2 & H). unfold x_ret in H. injection H as <- <-.
  unfold apply_effect, quiet in H1, H2. cbv zeta in H1, H2. injection H1 as H1. injection H2 as H2.
  apply t_bind_ok in H1 as ([] & d3 & H1 & [= <- <-]). apply t_bind_ok in H2 as ([] & d4 & H2 & [= <- <-]).
  rewrite (settle_confirm _ _ _ _ _ _ O) in H1. injection H1 as <-. split; [done|].
  unfold update_pending in H2.
  change (conversation_states (put_expense _ _ d)) with (conversation_states d) in H2.
  rewrite (oe_pending _ _ _ _ _ _ O) in H2. cbn [cs_version] in H2. rewrite Z.eqb_refl in H2.
  unfold put_pending in H2. case_match; [|discriminate]. by injection H2 as <-.
Qed.

(** ** The event *)

Lemma insert_event_books id r o st : t_maintains same_books (insert_observed_event id r o st).
Proof.
  intros d out d' H. unfold insert_observed_event in H. cbv zeta in H. repeat case_match; by simplify_eq.
Qed.
Lemma insert_event_identities id r o st d out d' :
  insert_observed_event id r o st d = Ok (out, d') -> provider_identities d' = provider_identities d.
Proof. intros H. unfold insert_observed_event in H. cbv zeta in H. repeat case_match; by simplify_eq. Qed.

Lemma open_same_books d d' a eid e expires v :
  same_books d d' -> open_expense d a eid e expires v -> open_expense d' a eid e expires v.
Proof.
  intros (Hx & Hc & Hs & Ha) []. split; try done; [by rewrite Ha | by rewrite Hs | by rewrite Hx |].
  unfold expense_version. by rewrite Hc.
Qed.
Lemma expense_version_same d d' eid : same_books d d' -> expense_version d' eid = expense_version d eid.
Proof. intros (_ & Hc & _). unfold expense_version. by rewrite Hc. Qed.

(** What [process_accepted] leaves of the books. *)
Lemma accepted_confirms env st r ev d d' out a eid e expires v :
  open_expense d a eid e expires v ->
  provider_identities d !! (provider_scope r, provider_sender_id r) = Some a ->
  sender_allowed r = true -> observed_at r < expires ->
  Conversation.confirm_words (Conversation.fold (Conversation.trim_command_punctuation (user_text r))) = true ->
  process_accepted env st r decide_text_and_map ev d = Ret (Ok (out, d')) ->
  same_books (upd_conversation_states
       <[a := {| pending_action_type := None; pending_payload_ref := None; expires_at := None; cs_version := v + 1 |}]>
       (put_expense eid (set_expense_state (s! "confirmed") e) d)) d'.
Proof.
  intros O Hid Hal Hexp Hw H. unfold process_accepted in H. rewrite Hal in H.
  apply x_bind_ok in H as (acct & s1 & H1 & H). apply x_bind_ok in H1 as (a1 & s2 & H1 & [= <- <-]).
  apply x_map_err_ok in H1. injection H1 as H1. unfold resolve_or_create_account in H1. rewrite Hid in H1.
  injection H1 as <- <-. apply x_bind_ok in H as (c & s3 & Hc & H). apply x_map_err_ok in Hc.
  destruct (open_context _ _ _ _ _ _ _ _ _ _ _ _ O Hc) as (-> & Hev & Hsa & Hli & Hnow & Htext & Hpa).
  rewrite <- Hnow in Hexp. rewrite <- Htext in Hw.
  destruct (open_decision c d ev eid e expires v a O Hev Hsa Hli Hexp Hpa Hw) as (o & body & Hd & Heff & Hrep).
  apply x_bind_ok in H as (o' & s4 & Ho & H). apply x_map_err_ok in Ho. apply x_call_ok in Ho as [Ho ->].
  rewrite Hd in Ho. injection Ho as <-. rewrite Heff in H.
  apply x_bind_ok in H as (ov & s5 & Ha & H). apply x_map_err_ok in Ha.
  destruct (confirm_effects _ _ _ _ _ _ _ _ _ _ _ _ O Ha) as [-> Hb]. rewrite Hrep in H.
  apply x_bind_ok in H as (u1 & s6 & Hr & H). apply x_map_err_ok in Hr. injection Hr as Hr.
  apply x_bind_ok in H as (u2 & s7 & [= <- <-] & [= <- <-]).
  etransitivity; [exact Hb|]. etransitivity; [exact (reply_books _ _ _ _ _ _ _ _ _ _ _ _ _ _ Hr)|].
  unfold finalize_event. repeat split.
Qed.

(** C12. From a message to the books: an active user who was asked to confirm a manual expense
    and answers in time with a confirmation word has it confirmed: the row becomes
    confirmed at the next version with every other column kept, the question is cleared,
    and no other expense changes. *)
Theorem confirm_text_confirms env st r d d' ev a eid e expires v :
  open_expense d a eid e expires v ->
  provider_identities d !! (provider_scope r, provider_sender_id r) = Some a ->
  sender_allowed r = true -> observed_at r < expires ->
  Conversation.confirm_words (Conversation.fold (Conversation.trim_command_punctuation (user_text r))) = true ->
  process_text_command env st r d = (d', Ret (Ok (Accepted ev))) ->
  expenses d' = <[eid := set_expense_state (s! "confirmed") e]> (expenses d)
  /\ expense_version d' eid = expense_version d eid + 1
  /\ (forall x, x <> eid -> expense_version d' x = expense_version d x)
  /\ conversation_states d' !! a = Some {| pending_action_type := None; pending_payload_ref := None;
                                          expires_at := None; cs_version := v + 1 |}.
Proof.
  intros O Hid Hal Hexp Hw H. unfold process_text_command, process, x_atomically in H.
  destruct (process_tx _ _ _ _ _ d) as [[[out d1]|]| |] eqn:E; try discriminate. injection H as -> ->.
  unfold process_tx in E. apply x_bind_ok in E as (mode & s0 & [_ ->]%x_read_ok & E). destruct (negb _).
  { apply x_bind_ok in E as (oc & s1 & _ & E). injection E as E _. by destruct oc. }
  apply x_bind_ok in E as (oc & s1 & [= E1] & E). destruct oc as [id| |]; [|discriminate..].
  pose proof (insert_event_books _ _ _ _ _ _ _ E1) as Hb. rewrite <- (insert_event_identities _ _ _ _ _ _ _ E1) in Hid.
  apply (accepted_confirms _ _ _ _ _ _ _ _ _ _ _ _ (open_same_books _ _ _ _ _ _ _ Hb O) Hid Hal Hexp Hw) in E.
  destruct E as (Hx & Hc & Hs & _). destruct Hb as (Hx1 & Hc1 & _ & _).
  split; [|split; [|split]].
  - rewrite Hx. change (<[eid := set_expense_state (s! "confirmed") e]> (expenses s1)
                        = <[eid := set_expense_state (s! "confirmed") e]> (expenses d)). by rewrite Hx1.
  - unfold expense_version. rewrite Hc. cbn [expense_cols upd_conversation_states put_expense upd_expense_cols upd_rt].
    rewrite lookup_insert_eq. cbn [ex_version]. unfold expense_version. by rewrite Hc1.
  - intros x Hne. unfold expense_version. rewrite Hc.
    cbn [expense_cols upd_conversation_states put_expense upd_expense_cols upd_rt]. by rewrite lookup_insert_ne, Hc1 by congruence.
  - rewrite Hs. cbn [conversation_states upd_conversation_states]. apply lookup_insert_eq.
Qed.
End Confirm.

(** ** Contexts read from the tables *)

Section Loaded.
Context `{CH : Chrono} `{PG : Postgres} `{UT : UuidText} `{UC : UnicodeCase} `{UN : UnicodeNorm}
  `{UL : !UnicodeCaseLaws} `{NL : !UnicodeNormLaws}.

Definition versions_ok (d : db) : Prop :=
  (forall eid, version_ok (expense_version d eid))
  /\ forall id n, Receipt.drafts (rt d) !! id = Some n -> version_ok (ReceiptTypes.version n).

Lemma recent_version d id e x : recent_expense d (id, e) = Some x -> rx_version x = expense_version d id.
Proof. unfold recent_expense. destruct (ExpenseState.from_str _); [|discriminate]. by intros [= <-]. Qed.

Lemma pending_expense_version d a id x :
  versions_ok d -> load_pending_expense d a (load_recent_expenses d a) id = Some x -> version_ok (rx_version x).
Proof.
  intros [Hv _]. unfold load_pending_expense. destruct (List.find _ _) as [y|] eqn:Hf.
  - intros [= <-]. apply List.find_some in Hf as [Hin _]. destruct (recent_row _ _ _ Hin) as (e & _ & Hr).
    by rewrite (recent_version _ _ _ _ Hr).
  - destruct (expenses d !! id) as [e|]; [|discriminate]. case_bool_decide; [|discriminate]. intros Hr.
    by rewrite (recent_version _ _ _ _ Hr).
Qed.

Lemma draft_snapshot_version d a id x :
  versions_ok d -> load_receipt_draft_snapshot d a id = Ok (Some x) -> version_ok (rd_version x).
Proof.
  intros [_ Hv]. unfold load_receipt_draft_snapshot, res_bind. destruct (load_account d a); [|discriminate].
  intros [= H]. destruct (Receipt.drafts (rt d) !! id) as [n|] eqn:Hn; [|discriminate]. cbn in H.
  destruct (Receipt.submissions (rt d) !! id); [|discriminate]. cbn in H.
  destruct (category_names d !! _); [|discriminate]. cbn in H. case_match; [|discriminate]. injection H as <-.
  exact (Hv id n Hn).
Qed.

Lemma pending_action_wf d a p :
  versions_ok d -> load_pending_action d a (load_recent_expenses d a) = Ok (Some p) ->
  match pa_expense p with Some x => version_ok (rx_version x) | None => True end
  /\ match pa_receipt_draft p with Some x => version_ok (rd_version x) | None => True end.
Proof.
  intros V. unfold load_pending_action. destruct (conversation_states d !! a) as [[[ty|] ref [ex|] v]|]; try discriminate.
  cbv zeta. destruct (str_eqb ty (s! "manual_expense_confirmation")).
  { intros [= <-]. cbn [pa_expense pa_receipt_draft]. split; [|exact I]. destruct (ref ≫= parse_uuid) as [id|]; [|exact I].
    cbn [mbind option_bind]. destruct (load_pending_expense _ _ _ _) eqn:E; [|exact I]. by eapply pending_expense_version. }
  destruct (str_eqb ty (s! "receipt_review")).
  { destruct (ref ≫= parse_uuid) as [id|]; [|intros [= <-]; done]. unfold res_bind.
    destruct (load_receipt_draft_snapshot d a id) as [[x|]|] eqn:E; [| |discriminate]; intros [= <-]; cbn; [|done].
    split; [exact I|]. by eapply draft_snapshot_version. }
  destruct (str_eqb ty (s! "account_deletion")); [|discriminate]. by intros [= <-].
Qed.

Lemma loaded_context env a ev r lim d c d1 :
  versions_ok d -> load_decision_context env a ev r lim d = Ret (Ok (c, d1)) ->
  context_wf c /\ dc_user_text c = user_text r.
Proof.
  intros V (-> & Hev & _ & _ & Hu & _ & Hp)%context_spec. split; [|exact Hu]. split; [by eexists|].
  destruct (dc_pending_action c) as [p|]; [|exact I]. by eapply pending_action_wf.
Qed.

End Loaded.
