(* ===== verification/SystemFrame.v ===== *)
(** * What every operation of the system respects

    [progress d d'] collects what no operation ever undoes: an event keeps its id and
    stays accepted, an account stays and its lifecycle only moves forward, jobs keep
    their keys, and a queued message keeps having a delivery job.  Each statement, and so
    each transaction and each operation, makes progress in this sense. *)

From S2P Require Import Prelude RustStr RustStrFacts Platform Errors Work WorkProps Quota Schedule ConvTypes.
From S2P Require Import ReceiptTypes Receipt ReceiptFrame Database Insight Account IngressTypes IngressStore IngressApply.
From S2P Require Import IngressFrame IngressApp Outbound Scheduler Jobs System.
Import Db Ingress IngressStore IngressApply.

Abbreviation db_queue d := (Receipt.queue (rt d)).

Definition is_accepted (e : inbound_event) : Prop := ev_processing_state e = s! "accepted".

(** ** Lifecycles of accounts *)

Inductive leads : rstr -> rstr -> Prop :=
| leads_same s : leads s s
| leads_consent : leads (s! "pending_consent") (s! "active")
| leads_delete s : leads s (s! "deleted")
| leads_pending_deleting : leads (s! "pending_consent") (s! "deleting")
| leads_deleting : leads (s! "active") (s! "deleting").

Lemma leads_trans a b c : leads a b -> leads b c -> leads a c.
Proof.
  intros H1 H2. inversion H2; subst; try exact H1; try apply leads_delete;
    inversion H1; subst; try constructor; try discriminate.
Qed.
Lemma leads_deleted s : leads (s! "deleted") s -> s = s! "deleted".
Proof. inversion 1; subst; try discriminate; reflexivity. Qed.

(** ** The relation *)

Definition job_with_key (q : Work.db) (k : rstr) : Prop :=
  exists id j, Work.jobs q !! id = Some j /\ Work.dedupe_key j = k.

(** Every queued message has a delivery job. *)
Definition outbox (d : db) : Prop :=
  forall id m, outbound_messages d !! id = Some m -> ob_state m = ObQueued ->
    job_with_key (db_queue d) (deliver_dedupe_key (ob_idempotency_key m)).

Record progress (d d' : db) : Prop := {
  pr_events : forall k e, inbound_events d !! k = Some e ->
    exists e', inbound_events d' !! k = Some e' /\ ev_id e' = ev_id e /\ (is_accepted e -> is_accepted e');
  pr_accounts : forall a r, accounts d !! a = Some r ->
    exists r', accounts d' !! a = Some r'
      /\ leads (Receipt.acc_lifecycle_state r) (Receipt.acc_lifecycle_state r');
  pr_queue : queue_step (db_queue d) (db_queue d');
  pr_outbox : wf (db_queue d) -> outbox d -> outbox d';
}.

#[export] Instance progress_preorder : PreOrder progress.
Proof.
  split.
  - intros d. split; [|intros a r H; exists r; split; [done | apply leads_same] | done..].
    intros k e H. exists e. auto.
  - intros d1 d2 d3 [E1 A1 Q1 O1] [E2 A2 Q2 O2]. split.
    + intros k e H. destruct (E1 k e H) as (e2 & H2 & I2 & P2). destruct (E2 k e2 H2) as (e3 & H3 & I3 & P3).
      exists e3. split; [done|]. split; [congruence | auto].
    + intros a r H. destruct (A1 a r H) as (r2 & H2 & L2). destruct (A2 a r2 H2) as (r3 & H3 & L3).
      exists r3. split; [done|]. by eapply leads_trans.
    + by etransitivity.
    + intros W O. destruct (Q1 W) as [W2 _]. auto.
Qed.

Lemma keeps_job_with_key q q' k : keeps_keys q q' -> job_with_key q k -> job_with_key q' k.
Proof. intros H (id & j & Hj & E). destruct (H id j Hj) as (j' & Hj' & E'). exists id, j'. split; [done | congruence]. Qed.

Lemma outbox_keeps d d' :
  outbound_messages d' = outbound_messages d -> queue_step (db_queue d) (db_queue d') ->
  wf (db_queue d) -> outbox d -> outbox d'.
Proof.
  intros Hm Hq W O id m. rewrite Hm. intros Hid Hst. destruct (Hq W) as [_ K].
  eapply keeps_job_with_key; [exact K | by eapply O].
Qed.

(** A change outside events, accounts, queue and messages. *)
Lemma progress_frame d d' :
  inbound_events d' = inbound_events d -> accounts d' = accounts d ->
  queue_step (db_queue d) (db_queue d') -> outbound_messages d' = outbound_messages d -> progress d d'.
Proof.
  intros He Ha Hq Hm. split; [rewrite He; intros k e H; by exists e | | done | by apply outbox_keeps].
  rewrite Ha. intros a r H. exists r. split; [done | apply leads_same].
Qed.

Lemma progress_same d d' :
  inbound_events d' = inbound_events d -> accounts d' = accounts d ->
  db_queue d' = db_queue d -> outbound_messages d' = outbound_messages d -> progress d d'.
Proof. intros He Ha Hq Hm. apply progress_frame; [done | done | by rewrite Hq | done]. Qed.

(** A change of account lifecycles. *)
Lemma progress_lifecycle st a d d' :
  inbound_events d' = inbound_events d -> accounts d' = alter (Account.set_lifecycle st) a (accounts d) ->
  db_queue d' = db_queue d -> outbound_messages d' = outbound_messages d ->
  (forall r, accounts d !! a = Some r -> leads (Receipt.acc_lifecycle_state r) st) -> progress d d'.
Proof.
  intros He Ha Hq Hm Hl. split; [rewrite He; intros k e H; by exists e | | by rewrite Hq |].
  - rewrite Ha. intros b r H. rewrite lookup_alter. case_decide; subst.
    + rewrite H. cbn. eexists. split; [reflexivity|]. by apply Hl.
    + exists r. split; [done | apply leads_same].
  - apply outbox_keeps; [done | by rewrite Hq].
Qed.

Abbreviation keeps_progress m := (t_maintains progress m).
Abbreviation px_progress m := (maintains progress m).

(** ** Statements *)

Ltac statement := intros ? ? ? ?; branches; apply progress_same; reflexivity.

Lemma upd_columns_same a f d :
  rt (Account.upd_columns a f d) = rt d /\ inbound_events (Account.upd_columns a f d) = inbound_events d
  /\ outbound_messages (Account.upd_columns a f d) = outbound_messages d.
Proof. unfold Account.upd_columns. by destruct (account_row d a) as [[]|]. Qed.

Lemma upd_columns_progress a f d : progress d (Account.upd_columns a f d).
Proof.
  destruct (upd_columns_same a f d) as (H1 & H2 & H3). unfold accounts.
  apply progress_same; unfold accounts; by rewrite ?H1, ?H2, ?H3.
Qed.

Lemma set_lifecycle_progress st a d :
  (forall r, accounts d !! a = Some r -> leads (Receipt.acc_lifecycle_state r) st) ->
  progress d (Account.upd_accounts (alter (Account.set_lifecycle st) a) d).
Proof. intros H. by apply (progress_lifecycle st a). Qed.

Lemma grant_consent_progress a v : keeps_progress (grant_consent a v).
Proof.
  unfold grant_consent. intros d u d' E. destruct (accounts d !! a) as [row|] eqn:Ha; [|discriminate].
  destruct (str_eqb _ _) eqn:Hst; simplify_eq. apply bool_decide_eq_true in Hst.
  etransitivity; [|apply upd_columns_progress]. apply set_lifecycle_progress.
  intros r Hr. simplify_eq. rewrite Hst. apply leads_consent.
Qed.

Lemma update_columns_progress a f : keeps_progress (update_columns a f).
Proof. intros d u d'. unfold update_columns. case_match; intros E; simplify_eq. apply upd_columns_progress. Qed.

Lemma start_deleting_progress a : keeps_progress (start_deleting a).
Proof.
  unfold start_deleting. intros d u d' E. destruct (accounts d !! a) as [row|] eqn:Ha; [|discriminate].
  destruct (str_eqb _ (s! "active") || _) eqn:Hst; simplify_eq. apply set_lifecycle_progress.
  intros r Hr. simplify_eq. apply orb_true_iff in Hst as [Hst|Hst]; apply bool_decide_eq_true in Hst; rewrite Hst;
    constructor.
Qed.

Lemma insert_manual_expense_progress now a eid am cur desc occ v :
  keeps_progress (insert_manual_expense now a eid am cur desc occ v).
Proof. unfold insert_manual_expense. statement. Qed.
Lemma settle_expense_progress a eid v st : keeps_progress (settle_expense a eid v st).
Proof. unfold settle_expense. statement. Qed.
Lemma edit_manual_progress a eid v am m c o t :
  keeps_progress (edit_manual_expense_in_transaction a eid v am m c o t).
Proof. unfold edit_manual_expense_in_transaction. cbv zeta. statement. Qed.
Lemma recategorize_progress a k : keeps_progress (recategorize_latest_in_transaction a k).
Proof. unfold recategorize_latest_in_transaction. cbv zeta. statement. Qed.
Lemma put_pending_progress a act p e v : keeps_progress (put_pending a act p e v).
Proof. unfold put_pending. statement. Qed.
Lemma update_pending_progress a v act p e : keeps_progress (update_pending a v act p e).
Proof.
  intros d u d'. unfold update_pending. destruct (_ !! a); [|discriminate]. case_match; [|discriminate].
  apply put_pending_progress.
Qed.
Lemma upsert_pending_progress a act p e v : keeps_progress (upsert_pending_action a act p e v).
Proof.
  intros d u d'. unfold upsert_pending_action. repeat (case_match; try discriminate);
    try apply update_pending_progress; apply put_pending_progress.
Qed.
Lemma reset_pending_progress a : keeps_progress (reset_pending a).
Proof.
  intros d u d'. unfold reset_pending. case_match; [apply put_pending_progress|]. intros [= <- <-]. done.
Qed.
Lemma upsert_schedule_progress id a f m r n : keeps_progress (upsert_schedule id a f m r n).
Proof. unfold upsert_schedule. cbv zeta. statement. Qed.
Lemma request_deletion_progress id a n : keeps_progress (request_deletion id a n).
Proof. unfold request_deletion. cbv zeta. statement. Qed.
Lemma upsert_snapshot_progress id k e agg : keeps_progress (Insight.upsert_snapshot id k e agg).
Proof. unfold Insight.upsert_snapshot. cbv zeta. statement. Qed.
Lemma set_narrative_progress now id a t : keeps_progress (Insight.set_narrative now id a t).
Proof. unfold Insight.set_narrative. statement. Qed.
Lemma insert_artifact_progress id a f k n : keeps_progress (Account.insert_export_artifact id a f k n).
Proof. unfold Account.insert_export_artifact. statement. Qed.

Lemma resolve_account_progress id r : keeps_progress (resolve_or_create_account id r).
Proof.
  intros d u d'. unfold resolve_or_create_account. case_match; [intros [= <- <-]; done|].
  destruct (accounts d !! id) as [row|] eqn:Ha; cbn [Receipt.is_none negb]; [discriminate|]. intros [= <- <-].
  split; [by intros k e H'; exists e | | done | by apply outbox_keeps].
  intros b r' Hb. exists r'. split; [|apply leads_same].
  change (<[id := {| Receipt.acc_lifecycle_state := s! "pending_consent";
                     Receipt.retention_preference_days := DEFAULT_RETENTION_DAYS |}]> (accounts d) !! b = Some r').
  rewrite lookup_insert_ne; [done|]. intros ->. by rewrite Ha in Hb.
Qed.

(** Queue, counters and receipts. *)
Lemma on_queue_progress {E A} (f : Work.WorkError -> E) (m : txn Work.db Work.WorkError A) :
  t_maintains queue_step m -> keeps_progress (on_queue f m).
Proof.
  intros Hm d u d'. unfold on_queue. destruct (m _) as [[a q]|e] eqn:Eq; intros E1; simplify_eq.
  apply progress_frame; try done. by eapply Hm.
Qed.
Lemma enqueue_progress {E} (f : Work.WorkError -> E) now r :
  keeps_progress (on_queue f (Work.enqueue_in_transaction now r)).
Proof. apply on_queue_progress. intros q o q' H. by eapply enqueue_queue_step. Qed.
Lemma cancel_progress {E} (f : Work.WorkError -> E) now key :
  keeps_progress (on_queue f (Work.cancel_queued_by_serialization_key_in_transaction now key)).
Proof.
  apply on_queue_progress. intros q o q' H.
  pose proof (exec_queue_step now (Work.OCancelQueued key) q) as Hs. cbn [Work.exec] in Hs.
  unfold atomically in Hs. rewrite H in Hs. exact Hs.
Qed.
Lemma on_usage_progress {E A} (f : Quota.QuotaError -> E) (m : txn Quota.usage Quota.QuotaError A) :
  keeps_progress (on_usage f m).
Proof.
  intros d u d'. unfold on_usage. destruct (m _) as [[a q]|e]; intros E1; simplify_eq. by apply progress_same.
Qed.
Lemma set_rt_progress now t d : rframe (rt d) t -> progress d (set_rt now t d).
Proof. intros [Ha _ _ Hq]. apply progress_frame; try done. Qed.
Lemma on_receipts_progress {E A} now (f : ReceiptTypes.ReceiptError -> E)
    (m : txn Receipt.tables ReceiptTypes.ReceiptError A) :
  t_maintains rframe m -> keeps_progress (on_receipts now f m).
Proof.
  intros Hm d u d'. unfold on_receipts. destruct (m _) as [[a t]|e] eqn:E1; intros E2; simplify_eq.
  apply set_rt_progress. by eapply Hm.
Qed.

#[export] Hint Resolve grant_consent_progress update_columns_progress start_deleting_progress
  insert_manual_expense_progress settle_expense_progress edit_manual_progress recategorize_progress
  update_pending_progress upsert_pending_progress reset_pending_progress upsert_schedule_progress
  request_deletion_progress upsert_snapshot_progress set_narrative_progress insert_artifact_progress
  resolve_account_progress enqueue_progress cancel_progress on_usage_progress : transactions.
#[export] Hint Extern 3 (t_maintains progress (on_receipts _ _ _)) => apply on_receipts_progress : transactions.
#[export] Hint Resolve accept_frames confirm_frames reject_frames edit_frames : transactions.

(** ** Transactions of the ingress store *)

Section Ingress.
Context `{CH : Chrono} `{CT : ChronoText} `{PG : Postgres} `{UT : UuidText} `{IL : ImageLib} `{SJ : SerdeJson}
  `{UC : UnicodeCase}.

Lemma recompute_loop_progress now tz rows : px_progress (recompute_loop now tz rows).
Proof.
  assert (H : forall E id n, keeps_progress (fun d => Ok (E := E) (tt, set_next_run id n d))).
  { intros E id n d u d' [= <- <-]. by apply progress_same. }
  induction rows as [|[[id f] m] rows IH]; cbn [recompute_loop]; unfold call_invalid; steps.
Qed.
#[local] Hint Resolve recompute_loop_progress : transactions.

#[export] Instance progress_statements a : Statements a progress.
Proof.
  split; try (intros *; solve [auto with transactions]); try (intros * _; solve [auto with transactions]).
  - apply _.
  - intros now. unfold recompute_account_schedule_runs, account_timezone. steps.
  - intros f d. by apply progress_same.
Qed.

(** ** The outbox: a message is queued together with its job *)

Lemma insert_outbound_spec now id a ev sc tg body key st d oid d' :
  insert_outbound now id a ev sc tg body key st d = Ok (oid, d') ->
  rt d' = rt d /\ inbound_events d' = inbound_events d /\
  (forall i m, outbound_messages d' !! i = Some m -> outbound_messages d !! i = Some m
     \/ (ob_state m = st /\ ob_idempotency_key m = key)).
Proof.
  unfold insert_outbound. intros E. branches; (split; [done|]); (split; [done|]); intros i m; cbn;
    [intros ?; by left|..]; rewrite lookup_insert; destruct (decide (oid = i)); intros Hm; simplify_eq; auto.
Qed.

Lemma insert_outbound_progress now id a ev sc tg body key st d oid d' :
  insert_outbound now id a ev sc tg body key st d = Ok (oid, d') -> st <> ObQueued -> progress d d'.
Proof.
  intros (Ht & He & Hm)%insert_outbound_spec Hst.
  split; [rewrite He; intros k e H; by exists e | | by rewrite Ht |].
  - unfold accounts. rewrite Ht. intros b r H. exists r. split; [done | apply leads_same].
  - intros _ O i m Hi Hq. rewrite Ht. destruct (Hm i m Hi) as [Hi' | [Hs _]]; [by eapply O | congruence].
Qed.

Lemma queued_with_job d d2 q key :
  rt d2 = rt d -> inbound_events d2 = inbound_events d ->
  (forall i m, outbound_messages d2 !! i = Some m -> outbound_messages d !! i = Some m
     \/ (ob_state m = ObQueued /\ ob_idempotency_key m = key)) ->
  queue_step (db_queue d) q -> job_with_key q (deliver_dedupe_key key) ->
  progress d (upd_rt (Receipt.set_queue q) d2).
Proof.
  intros Ht He Hm Hs Hj. split; cbn -[deliver_dedupe_key].
  - rewrite He. intros k e H. by exists e.
  - unfold accounts. cbn. rewrite Ht. intros b r H. exists r. split; [done | apply leads_same].
  - exact Hs.
  - intros W O i m Hi2 Hst. destruct (Hm i m Hi2) as [Hi1 | [_ ->]]; [|exact Hj].
    eapply keeps_job_with_key; [apply (Hs W) | exact (O i m Hi1 Hst)].
Qed.

Lemma enqueue_outbound_progress now utc ids policy at_ a ev sc tg body key :
  keeps_progress (enqueue_outbound_in_transaction now utc ids policy at_ a ev sc tg body key).
Proof.
  unfold enqueue_outbound_in_transaction. apply t_maintains_bind; [apply _ | | intros deliver].
  { unfold outbound_delivery_allowed. steps. }
  cbv zeta. intros d u d3 E. apply t_bind_ok in E as (oid & d2 & Hi & Hq). destruct deliver; cbn [negb] in Hq.
  2: { injection Hq as <- <-. by eapply insert_outbound_progress. }
  apply t_bind_ok in Hq as (o & d4 & Hq & [= <- <-]).
  apply insert_outbound_spec in Hi as (Ht & He & Hm). unfold on_queue in Hq. rewrite Ht in Hq.
  destruct (Work.enqueue_in_transaction _ _ _) as [[out q]|e] eqn:En; [|discriminate].
  injection Hq as <- <-. apply (queued_with_job d d2 q key Ht He Hm (enqueue_queue_step _ _ _ _ _ En)).
  exact (proj1 (enqueue_records _ _ _ _ _ En)).
Qed.

(** ** Events *)

Lemma event_progress d d' k row old :
  inbound_events d !! k = old ->
  match old with Some e => ev_id row = ev_id e /\ (is_accepted e -> is_accepted row) | None => True end ->
  inbound_events d' = <[k := row]> (inbound_events d) -> accounts d' = accounts d ->
  db_queue d' = db_queue d -> outbound_messages d' = outbound_messages d -> progress d d'.
Proof.
  intros Hk Hrow He Ha Hq Hm. split; [| | by rewrite Hq | by apply outbox_keeps; [|rewrite Hq]].
  - rewrite He. intros k' e H. rewrite lookup_insert. case_decide as Hd; [subst|by exists e].
    rewrite H in Hrow. exists row. destruct Hrow. done.
  - rewrite Ha. intros b r H. exists r. split; [done | apply leads_same].
Qed.

Lemma insert_event_progress id r o st : keeps_progress (insert_observed_event id r o st).
Proof.
  intros d out d' E. unfold insert_observed_event in E. cbv zeta in E.
  destruct (inbound_events d !! event_key r) as [old|] eqn:Hk.
  - destruct (str_eqb st _ && _) eqn:Hs; simplify_eq; [|done].
    apply andb_true_iff in Hs as [Hs _]. apply bool_decide_eq_true in Hs. subst st.
    eapply event_progress; [exact Hk | | reflexivity..]. split; [reflexivity | intros _; reflexivity].
  - case_match; simplify_eq. eapply event_progress; [exact Hk | exact I | reflexivity..].
Qed.

Lemma finalize_progress {E A} (x : A) now id a :
  keeps_progress (fun d => Ok (E := E) (x, finalize_event now id a d)).
Proof.
  intros d u d' [= <- <-]. split; cbn; [| | done | by apply outbox_keeps].
  - intros k e H. rewrite lookup_fmap, H. cbn. eexists. split; [reflexivity|]. by case_match.
  - intros b r H. exists r. split; [done | apply leads_same].
Qed.

#[export] Instance progress_event : EventStatements progress.
Proof.
  split; [apply _ | apply insert_event_progress | | intros *; apply enqueue_outbound_progress].
  intros now id a d. exact (finalize_progress (E := unit) tt now id a d tt _ eq_refl).
Qed.
#[export] Instance progress_account a : AccountStatements a progress.
Proof.
  split; [intros *; apply enqueue_outbound_progress|]. intros id r d d' H. by eapply resolve_account_progress.
Qed.

Lemma process_progress env st r o decide d : progress d (process env st r o decide d).1.
Proof. apply (process_maintains progress). intros _. split; apply _. Qed.

(** ** Follow-ups, narratives and the scheduler *)

Lemma put_pending_err_progress {E} (e : E) a act p ex v :
  keeps_progress (fun d => match put_pending a act p ex v d with Ok r => Ok r | Err _ => Err e end).
Proof.
  intros d u d' H. destruct (put_pending a act p ex v d) as [[]|] eqn:Hp; simplify_eq. by eapply put_pending_progress.
Qed.

Lemma review_pending_progress a id ex : keeps_progress (IngressApp.upsert_receipt_review_pending a id ex).
Proof.
  intros d u d' H. unfold IngressApp.upsert_receipt_review_pending in H.
  destruct (conversation_states d !! a) as [c|]; [by eapply put_pending_err_progress|].
  destruct (Receipt.is_none _); [discriminate|]. by eapply put_pending_err_progress.
Qed.

Lemma followup_progress now utc ids policy a ev sc ch body key :
  keeps_progress (IngressApp.enqueue_followup now utc ids policy a ev sc ch body key).
Proof.
  intros d u d' H. unfold IngressApp.enqueue_followup in H.
  destruct (enqueue_outbound_in_transaction _ _ _ _ _ _ _ _ _ _ _ d) as [[]|] eqn:Hp; simplify_eq.
  by eapply enqueue_outbound_progress.
Qed.
#[local] Hint Resolve review_pending_progress followup_progress : transactions.

Lemma review_followup_progress now utc ids cfg policy a id :
  preserves progress (IngressApp.enqueue_receipt_review_followup now utc ids cfg policy a id).
Proof.
  intros d. unfold IngressApp.enqueue_receipt_review_followup. destruct (negb _); [done|].
  apply (atomically_maintains progress). unfold IngressApp.review_followup_tx. cbv zeta. steps.
Qed.
Lemma failure_followup_progress now utc ids policy a id c :
  preserves progress (IngressApp.enqueue_receipt_failure_followup now utc ids policy a id c).
Proof.
  intros d. unfold IngressApp.enqueue_receipt_failure_followup. destruct (negb _); [done|].
  apply (atomically_maintains progress). unfold IngressApp.failure_followup_tx. steps.
Qed.

Lemma narrate_progress `{NR : Insight.Narrator} now utc p n :
  preserves progress (Insight.execute_insight_narrate now utc p n).
Proof.
  intros d. unfold Insight.execute_insight_narrate. case_match; [done|].
  destruct (Insight.find_snapshot _ _ _) as [[k row]|]; [|done]. case_match; [done|].
  assert (Hn : keeps_progress (Insight.narrate_tx now utc p (is_aggregate row) n)).
  { unfold Insight.narrate_tx. steps. }
  destruct (Insight.narrate_tx _ _ _ _ _ d) as [[[] d']|] eqn:E; try done. by eapply Hn.
Qed.

Lemma tick_row_progress now utc id row : px_progress (Scheduler.tick_row now utc id row).
Proof.
  unfold Scheduler.tick_row, Scheduler.internal. cbv zeta. steps.
  intros d u d' [= <- <-]. by apply progress_same.
Qed.
Lemma tick_progress now utc fresh locked d : progress d (Scheduler.scheduler_tick now utc fresh locked d).1.
Proof.
  unfold Scheduler.scheduler_tick. apply (x_atomically_maintains progress). unfold Scheduler.scheduler_tick_tx.
  apply maintains_bind; [apply _ | auto with transactions | intros rows]. generalize 0%nat.
  induction rows as [|row rows IH]; intros i; cbn [Scheduler.tick_loop]; [auto with transactions|].
  apply maintains_bind; [apply _ | apply tick_row_progress | intros ?; apply IH].
Qed.

Lemma lease_progress role now owner secs d : progress d (Scheduler.try_acquire_role_lease role now owner secs d).1.
Proof. unfold Scheduler.try_acquire_role_lease. repeat case_match; try done; by apply progress_same. Qed.
Lemma switch_progress mode d : progress d (System.run_ingress_switch mode d).1.
Proof. unfold System.run_ingress_switch. repeat case_match; try done; by apply progress_same. Qed.
End Ingress.

(** ** Deliveries *)

(** A relation every statement of a delivery respects. *)
Fixpoint each_statement {A} (R : db -> db -> Prop) (p : Outbound.proc A) : Prop :=
  match p with
  | Outbound.PRet _ => True
  | Outbound.PAtomic f k => (forall now d, R d (f now d).1) /\ forall x, each_statement R (k x)
  | Outbound.PSend _ _ _ k => forall answer, each_statement R (k answer)
  end.

Lemma run_proc_respects {A} R `{!PreOrder R} (p : Outbound.proc A) now answer d :
  each_statement R p -> R d (Outbound.run_proc now answer p d).1.
Proof.
  revert d. induction p as [a | X f k IH | id t b k IH]; intros d H; cbn [Outbound.run_proc]; [done | |].
  - destruct H as [Hf Hk]. specialize (Hf now d). destruct (f now d) as [d' x]. cbn in Hf.
    etransitivity; [exact Hf | by apply IH].
  - by apply IH.
Qed.

Lemma set_message_progress id m' d : ob_state m' <> ObQueued -> progress d (Outbound.set_message id m' d).
Proof.
  intros Hst. split; [by intros k e H; exists e | | done |].
  - intros a r H. exists r. split; [done | apply leads_same].
  - intros _ O i m Hi Hq. apply (O i m); [|exact Hq].
    change (<[id := m']> (outbound_messages d) !! i = Some m) in Hi.
    apply lookup_insert_Some in Hi as [[_ <-] | [_ Hi]]; [by destruct (Hst Hq) | exact Hi].
Qed.

Lemma delivered_not_queued s mid ec m : ob_state (Outbound.delivered_row s mid ec m) <> ObQueued.
Proof. by destruct s. Qed.

Ltac one_message :=
  repeat case_match; try done; apply set_message_progress; first [apply delivered_not_queued | discriminate].

Lemma reserve_progress jid tok id now d : progress d (Outbound.reserve_outbound_under_lease jid tok id now d).1.
Proof. unfold Outbound.reserve_outbound_under_lease. one_message. Qed.
Lemma mark_ambiguous_progress jid tok id now d : progress d (Outbound.mark_ambiguous_under_lease jid tok id now d).1.
Proof. unfold Outbound.mark_ambiguous_under_lease. one_message. Qed.
Lemma update_delivery_progress id s mid ec now d : progress d (Outbound.update_delivery id s mid ec now d).1.
Proof. unfold Outbound.update_delivery. one_message. Qed.
Lemma update_leased_progress jid tok id s mid ec now d :
  progress d (Outbound.update_delivery_under_lease jid tok id s mid ec now d).1.
Proof. unfold Outbound.update_delivery_under_lease. case_match; [apply update_delivery_progress | done]. Qed.
Lemma reserve_next_progress locked now d : progress d (Outbound.reserve_next locked now d).1.
Proof. unfold Outbound.reserve_next. one_message. Qed.

#[export] Hint Resolve reserve_progress mark_ambiguous_progress update_delivery_progress update_leased_progress
  reserve_next_progress : transactions.

(** Walk through the statements of a delivery. *)
Ltac statements :=
  repeat first
  [ exact I
  | split; [intros ? ?; first [auto with transactions; fail | reflexivity] | intros ?]
  | match goal with |- each_statement _ (match ?x with _ => _ end) => destruct x end
  | progress cbn [each_statement]
  | intros ? ].

Lemma deliver_next_progress locked now answer d :
  progress d (Outbound.run_proc now answer (Outbound.deliver_next locked) d).1.
Proof.
  apply run_proc_respects; [apply _|]. unfold Outbound.deliver_next. cbn [each_statement].
  split; [auto with transactions|]. intros [[id [t b]]|]; [|exact I]. intros answer'.
  destruct (match answer' with Ok _ => _ | Err _ => _ end) as [[s mid] ec]. cbn [each_statement]. auto with transactions.
Qed.

Lemma deliver_for_job_progress `{UuidText} job now answer d :
  progress d (Outbound.run_proc now answer (Outbound.deliver_for_job job) d).1.
Proof.
  apply run_proc_respects; [apply _|]. unfold Outbound.deliver_for_job, Outbound.not_reserved, Outbound.record_answer.
  cbv zeta. statements.
Qed.

(** ** Account jobs *)

Definition world_progress {O} (w w' : db * O) : Prop := progress w.1 w'.1.
#[export] Instance world_progress_preorder {O} : PreOrder (@world_progress O).
Proof. split; unfold world_progress; intros ?; [done|]. intros y z ? ?. by transitivity y.1. Qed.

Section Accounts.
Context `{CH : Chrono} `{CT : ChronoText} `{UT : UuidText} `{SJ : SerdeJson} `{OS : ReceiptTypes.ObjectStore}.

Lemma purged_tables a t t' :
  Account.delete_expenses a (Account.release_submissions a t) = Ok t' ->
  let t2 := Account.delete_submissions a t' in
  Receipt.accounts t2 = Receipt.accounts t /\ Receipt.queue t2 = Receipt.queue t.
Proof. unfold Account.delete_expenses. intros E. branches. done. Qed.

Lemma purge_progress a : keeps_progress (Account.purge_account_content a).
Proof.
  intros d u d' E. unfold Account.purge_account_content, res_bind in E. cbv zeta in E.
  destruct (Account.delete_expenses _ _) as [t|] eqn:Ht; [|discriminate]. apply purged_tables in Ht as [Ha Hq].
  injection E as <- <-. split; unfold accounts; cbn [rt inbound_events outbound_messages upd_inbound_events
    upd_insight_snapshots upd_export_artifacts upd_outbound_messages upd_summary_schedules upd_conversation_states
    upd_expense_cols upd_rt Receipt.queue Receipt.accounts Receipt.set_usage].
  - intros k e H. rewrite lookup_fmap, H. cbn. eexists. split; [reflexivity|]. unfold Account.forget_event.
    by case_match.
  - rewrite Ha. intros b r H. exists r. split; [done | apply leads_same].
  - by rewrite Hq.
  - intros _ O i m Hi Hst. apply map_lookup_filter_Some in Hi as [Hi _].
    specialize (O i m Hi Hst). rewrite <- Hq in O. exact O.
Qed.

Lemma mark_request_progress a id f d : progress d (Account.mark_request a id f d).
Proof. by apply progress_same. Qed.
Lemma bury_progress a d : progress d (Account.bury_account a d).
Proof.
  etransitivity; [|apply upd_columns_progress]. apply set_lifecycle_progress. intros r _. apply leads_delete.
Qed.

Lemma delete_account_progress now p : keeps_progress (Account.delete_account_tx now p).
Proof.
  unfold Account.delete_account_tx. apply t_maintains_bind; [apply _ | apply purge_progress | intros ?].
  intros d v d' [= <- <-]. etransitivity; [apply bury_progress | apply mark_request_progress].
Qed.

Lemma account_tx_progress {A} (m : txn db Errors.ErrorClass A) :
  keeps_progress m -> preserves world_progress (Account.in_tx m).
Proof.
  intros Hm [d o]. unfold Account.in_tx, world_progress. cbn [fst]. pose proof (atomically_maintains progress m d Hm).
  by destruct (atomically m d).
Qed.
Lemma account_objects_progress {A} (m : prog ReceiptTypes.objects ReceiptTypes.ReceiptError A) :
  preserves world_progress (Account.on_objects m).
Proof. intros [d o]. unfold Account.on_objects, world_progress. cbn [fst snd]. by destruct (m o). Qed.

Lemma delete_objects_progress keys : preserves world_progress (Account.delete_objects keys).
Proof.
  induction keys as [|k keys IH]; cbn [Account.delete_objects]; [apply preserves_ret, _|].
  apply preserves_bind; [apply _ | apply account_objects_progress | intros _; exact IH].
Qed.

Lemma execute_delete_progress now p : preserves world_progress (Account.execute_account_delete now p).
Proof.
  unfold Account.execute_account_delete. case_match; [apply preserves_err, _|].
  apply preserves_bind; [apply _ | apply preserves_read, _ | intros [st|]]; [|apply preserves_ret, _].
  case_match; [apply preserves_ret, _|].
  apply preserves_bind; [apply _ | apply account_tx_progress; intros d u d' [= <- <-]; apply mark_request_progress|].
  intros _. apply preserves_bind; [apply _ | apply preserves_read, _ | intros keys].
  apply preserves_bind; [apply _ | apply delete_objects_progress | intros _].
  apply account_tx_progress, delete_account_progress.
Qed.

Lemma execute_export_progress utc i1 i2 p : preserves world_progress (Account.execute_account_export utc i1 i2 p).
Proof.
  unfold Account.execute_account_export. cbv zeta. case_match; [apply preserves_err, _|].
  apply preserves_bind; [apply _ | apply preserves_read, _ | intros active].
  case_match; [apply preserves_ret, _|].
  apply preserves_bind; [apply _ | apply preserves_read, _ | intros rows].
  do 2 (apply preserves_bind; [apply _ | apply account_objects_progress | intros _]).
  apply account_tx_progress. steps.
Qed.
End Accounts.

(** ** Jobs and the system *)

Section Jobs_.
Context `{CH : Chrono} `{CT : ChronoText} `{PG : Postgres} `{UT : UuidText} `{IL : ImageLib} `{SJ : SerdeJson}
  `{UC : UnicodeCase} `{OS : ReceiptTypes.ObjectStore} `{XT : ReceiptTypes.Extractor} `{NR : Insight.Narrator}.

Lemma on_receipt_progress {A} env (m : prog Receipt.store ReceiptTypes.ReceiptError A) w :
  preserves store_frames m -> world_progress w (Jobs.on_receipt env m w).1.
Proof.
  intros Hm. specialize (Hm (rt w.1, w.2)). unfold Jobs.on_receipt, world_progress.
  destruct (m (rt w.1, w.2)) as [[t o] r]. cbn. by apply set_rt_progress.
Qed.
Lemma on_db_progress {E A} (m : prog db E A) w : preserves progress m -> world_progress w (Jobs.on_db m w).1.
Proof.
  intros Hm. specialize (Hm w.1). unfold Jobs.on_db, world_progress. by destruct (m w.1).
Qed.

Lemma failure_notice_progress env deps a id c w : world_progress w (Jobs.failure_followup env deps a id c w).1.
Proof.
  unfold Jobs.failure_followup.
  pose proof (on_db_progress _ w (failure_followup_progress (Jobs.je_db_now env) (Jobs.je_utc_now env)
    (Jobs.je_id env 0, Jobs.je_id env 1) (Jobs.jd_ingress_policy deps) a id c)) as H.
  by destruct (Jobs.on_db _ w).
Qed.
Lemma abandon_progress env deps a id c w : world_progress w (Jobs.abandon env deps a id c w).1.
Proof.
  unfold Jobs.abandon.
  pose proof (on_receipt_progress env _ w (in_tx_frames _ (fail_queued_frames (Jobs.je_db_now env) id a c))) as H.
  destruct (Jobs.on_receipt _ _ w) as [w1 r]. etransitivity; [exact H | apply failure_notice_progress].
Qed.

(** One call of a dispatcher, then the rest. *)
Ltac call lem :=
  let H := fresh "H" in
  pose proof lem as H;
  match type of H with world_progress _ (?e).1 => destruct e as [? ?] end;
  cbn [fst] in H; etransitivity; [exact H|]; clear H.

Lemma dispatch_ingest_progress env deps job w : world_progress w (Jobs.dispatch_receipt_ingest env deps job w).1.
Proof.
  unfold Jobs.dispatch_receipt_ingest. destruct (Jobs.parse_receipt_submission_id _ _) as [id|]; [|done].
  case_match; [done|]. destruct (Jobs.load_submission_media_url _ _) as [[a url]|]; [|done].
  destruct (Jobs.je_download env url) as [media|c].
  - call (on_receipt_progress env _ w (ingest_frames (Jobs.je_db_now env) (Jobs.je_utc_now env) a id
            (Jobs.bytes media) (default (s! "application/octet-stream") (Jobs.content_type media)) (Jobs.je_id env 2))).
    match goal with r : result _ _ |- _ => destruct r as [?|e] end; [done|].
    destruct (ReceiptTypes.re_class e); try done;
      match goal with |- context [Jobs.abandon _ _ _ _ ?c ?w] => call (abandon_progress env deps a id c w) end; done.
  - destruct (Jobs.is_permanent_media_failure c); [|done]. call (abandon_progress env deps a id c w). done.
Qed.

Lemma dispatch_extract_progress env deps job w : world_progress w (Jobs.dispatch_receipt_extract env deps job w).1.
Proof.
  unfold Jobs.dispatch_receipt_extract. destruct (Jobs.parse_receipt_submission_id _ _) as [id|]; [|done].
  case_match; [done|]. destruct (Receipt.sub_account <$> _) as [a|]; [|done].
  call (on_receipt_progress env _ w (extract_frames (Jobs.jd_receipt_config deps) (Jobs.je_db_now env)
          (Jobs.je_utc_now env) (Jobs.je_latency_ms env) (Jobs.je_id env 2) a id)).
  match goal with r : result _ _ |- _ => destruct r as [[]|e] end; try done.
  1-2: match goal with |- context [Jobs.on_db _ ?w] => call (on_db_progress _ w (review_followup_progress
         (Jobs.je_db_now env) (Jobs.je_utc_now env) (Jobs.je_id env 0, Jobs.je_id env 1)
         (Jobs.jd_receipt_config deps) (Jobs.jd_ingress_policy deps) a id)) end; done.
  - match goal with |- context [Jobs.failure_followup _ _ _ _ ?c ?w] =>
      call (failure_notice_progress env deps a id c w) end. done.
  - case_match; [|done]. match goal with |- context [Jobs.failure_followup _ _ _ _ ?c ?w] =>
      call (failure_notice_progress env deps a id c w) end. done.
Qed.

Lemma dispatch_emit_progress env deps job w : world_progress w (Jobs.dispatch_schedule_emit env deps job w).1.
Proof.
  unfold Jobs.dispatch_schedule_emit. case_match; [done|]. destruct (Jobs.decode_schedule _) as [p|]; [|done].
  do 2 (case_match; [done|]). destruct (account_row _ _) as [[acc cols]|]; [|done]. case_match; [done|].
  destruct (Jobs.find_schedule _ _ _) as [[[k f] sch]|]; [|done]. case_match; [done|].
  destruct (Jobs.summary_totals _ _) as [[total n] cur]. cbv zeta.
  match goal with |- context [Jobs.on_db (atomically ?m) ?w] =>
    call (on_db_progress (atomically m) w (fun d => atomically_maintains progress m d
            (enqueue_outbound_progress _ _ _ _ _ _ _ _ _ _ _))) end. done.
Qed.

Lemma dispatch_progress env deps job w : world_progress w (Jobs.dispatch_leased_job env deps job w).1.
Proof.
  unfold Jobs.dispatch_leased_job, Jobs.dispatch_account_delete, Jobs.dispatch_account_export,
    Jobs.dispatch_insight_narrate. cbv zeta.
  case_match.
  { pose proof (deliver_for_job_progress job (Jobs.je_db_now env) (Jobs.je_send env) w.1) as H1.
    by destruct (Outbound.run_proc _ _ _ w.1). }
  case_match; [apply dispatch_ingest_progress|]. case_match; [apply dispatch_extract_progress|].
  case_match; [apply dispatch_emit_progress|].
  case_match; [|case_match; [|case_match; [|done]]].
  - case_match; [done|]. destruct (Jobs.decode_delete _) as [p|]; [|done].
    call (execute_delete_progress (Jobs.je_db_now env) p w). done.
  - case_match; [done|]. destruct (Jobs.decode_export _) as [p|]; [|done].
    call (execute_export_progress (Jobs.je_utc_now env) (Jobs.je_id env 0) (Jobs.je_id env 1) p w). done.
  - do 2 (case_match; [done|]). destruct (Jobs.decode_narrate _) as [p|]; [|done]. do 2 (case_match; [done|]).
    call (on_db_progress _ w (narrate_progress (Jobs.je_db_now env) (Jobs.je_utc_now env) p
            (Insight.monthly_insight_narratives (Jobs.jd_ingress_policy deps)))). done.
Qed.

Lemma maintenance_progress env l1 l2 w : world_progress w (Jobs.maintenance_tick env l1 l2 w).1.
Proof.
  unfold Jobs.maintenance_tick.
  call (on_receipt_progress env _ w (in_tx_frames _ (expire_frames (Jobs.je_db_now env)
          Jobs.MAINTENANCE_BATCH_LIMIT l1))).
  match goal with |- context [Jobs.on_receipt _ _ ?w] => call (on_receipt_progress env _ w
    (retention_frames (Jobs.je_db_now env) Jobs.MAINTENANCE_BATCH_LIMIT l2)) end. done.
Qed.

Lemma report_step now job x q : queue_step q (Jobs.apply_execution_result now job x q).
Proof.
  unfold Jobs.apply_execution_result. cbv zeta. destruct x; [| | done |].
  - exact (exec_queue_step now (Work.OComplete (Work.cl_id job) (Work.cl_lease_token job)) q).
  - exact (exec_queue_step now (Work.OFail (Work.cl_id job) (Work.cl_lease_token job) class) q).
  - exact (exec_queue_step now (Work.OFail (Work.cl_id job) (Work.cl_lease_token job) Errors.Validation) q).
Qed.

Lemma on_queue_state_progress f d : queue_step (db_queue d) (f (db_queue d)) -> progress d (System.on_queue_state f d).
Proof. intros H. by apply progress_frame. Qed.

(** Every operation makes progress. *)
Lemma sys_exec_progress o w : world_progress w (System.sys_exec o w).
Proof.
  destruct o; cbn [System.sys_exec]; unfold world_progress; cbn [fst].
  - apply process_progress.
  - apply dispatch_progress.
  - apply on_queue_state_progress, report_step.
  - apply on_queue_state_progress, exec_queue_step.
  - apply tick_progress.
  - apply maintenance_progress.
  - apply deliver_next_progress.
  - apply lease_progress.
  - apply switch_progress.
Qed.

Lemma sys_run_progress ops w : world_progress w (System.sys_run ops w).
Proof.
  revert w. induction ops as [|o ops IH]; intros w; [done|]. unfold System.sys_run. cbn [fold_left].
  etransitivity; [apply (sys_exec_progress o w) | apply IH].
Qed.
End Jobs_.
