(* ===== verification/Demo.v ===== *)
(** * A concrete platform and a first conversation

    Instances of every interface and a few requests: the ground on which the theorems
    about the whole system are applied to concrete runs. *)

From S2P Require Import Prelude RustStr RustStrFacts Platform Errors Work Quota Schedule ConvTypes Conversation.
From S2P Require Import ReceiptTypes Receipt ReceiptSpec Database Insight Account IngressTypes IngressStore IngressApply.
From S2P Require Import IngressApp Outbound Scheduler Jobs System.
Import Db Ingress IngressStore IngressApply.

(** The database after the migrations. *)
Definition CATEGORY_NAMES : list (rstr * (rstr * rstr)) :=
  [(s! "an-uong", (s! "Ăn uống", s! "Food & drink")); (s! "thuc-pham", (s! "Thực phẩm", s! "Groceries"));
   (s! "di-lai", (s! "Đi lại", s! "Transport")); (s! "hoa-don", (s! "Hóa đơn", s! "Bills"));
   (s! "mua-sam", (s! "Mua sắm", s! "Shopping")); (s! "suc-khoe", (s! "Sức khỏe", s! "Health"));
   (s! "giai-tri", (s! "Giải trí", s! "Entertainment")); (s! "giao-duc", (s! "Giáo dục", s! "Education"));
   (s! "nha-o", (s! "Nhà ở", s! "Housing")); (s! "thu-nhap", (s! "Thu nhập", s! "Income"));
   (s! "hoan-tien", (s! "Hoàn tiền", s! "Refund")); (s! "chuyen-khoan", (s! "Chuyển khoản", s! "Transfer"));
   (s! "khac", (s! "Khác", s! "Other"))].

Definition migrated_db : db :=
  {| rt := ReceiptSpec.fresh_tables; account_cols := ∅; provider_identities := ∅; inbound_events := ∅;
     ingress_mode := s! "webhook"; mode_generation := 1; conversation_states := ∅; expense_cols := ∅;
     category_names := list_to_map CATEGORY_NAMES; outbound_messages := ∅; summary_schedules := ∅;
     role_leases := ∅; deletion_requests := ∅; export_artifacts := ∅; insight_snapshots := ∅ |}.

Module Demo.
#[export] Existing Instance hyphenated_uuid.
#[export] Existing Instance fixed_offset_chrono.
#[export] Existing Instance micros_text.
#[export] Existing Instance vi_case.
#[export] Existing Instance vi_norm.
#[export] Existing Instance ReceiptTypes.InMemoryObjectStore.
#[export] Instance postgres : Postgres := chrono_postgres fixed_offset_chrono.
#[export] Instance images : ImageLib :=
  {| blob_size := fun _ => Some (640, 480); sha256_hex := fun b => dec (Z.of_nat (length b)) |}.
#[export] Instance serde : SerdeJson := {| json_to_vec := fun _ => [] |}.
#[export] Instance narrator : Insight.Narrator := Insight.FakeNarrator.
Definition meta : ReceiptTypes.ExtractionMeta :=
  {| ReceiptTypes.provider := s! "fake"; ReceiptTypes.model := s! "fake-corpus";
     ReceiptTypes.profile_name := s! "receipt-fast"; ReceiptTypes.prompt_version := s! "v1";
     ReceiptTypes.input_tokens := Some 0; ReceiptTypes.output_tokens := Some 0 |}.
#[export] Instance extractor : ReceiptTypes.Extractor :=
  {| ReceiptTypes.extract_bytes := fun _ => Err (ReceiptTypes.dependency (s! "no corpus")); ReceiptTypes.extractor_meta := meta |}.

Definition noon : Z := 20000 * day + 12 * hour.
(** Fresh ids: a hundred per event. *)
Definition env (n : Z) : Env :=
  {| db_now := noon + n * minute; utc_now := noon + n * minute; fresh := fun k => (100 * Z.to_N n + N.of_nat k)%N |}.
Definition store : IngressStore := {| st_receipt := true; st_policy := Insight.default_policy |}.
Definition text (n : Z) (sender body : rstr) : IngressRequest :=
  {| source := Webhook; provider_scope := s! "zalo_bot"; provider_event_id := dec n; provider_sender_id := sender;
     provider_chat_id := sender; sender_allowed := true; user_text := body; observed_at := noon + n * minute |}.
Definition say (n : Z) (sender body : rstr) : System.sys_op :=
  System.OEvent (env n) store (text n sender body) default_observation IngressApp.decide_text_and_map.

End Demo.
