(* ===== verification/OutboundProps.v ===== *)
(** * Outbox delivery: a message is sent again only after a definite refusal

    Each worker has a mode: idle, holding a reservation, or holding an answer that is not
    recorded yet.  [safe] says that a program keeps to its mode; the invariant relates the
    modes, the state of the row and the calls made, message by message. *)

From S2P Require Import Prelude RustStr RustStrFacts Platform Errors Work Quota ReceiptTypes Receipt Database.
From S2P Require Import Insight IngressApply Outbound Demo.

Module OutboundProps.
Import Db Outbound.
Import (hints) Errors Work Quota ReceiptTypes Receipt.

Inductive mode := Idle | Reserved (id : uuid) | Answered (id : uuid) (answer : send_result).

Definition answer_state (answer : send_result) : DeliveryState :=
  match answer with Ok _ => Sent | Err class => error_state class end.

(** How a statement may change mode and messages. *)
Inductive mode_step : mode -> mode -> gmap uuid outbound_message -> gmap uuid outbound_message -> Prop :=
| ms_quiet m ob : mode_step m m ob ob
| ms_drop m ob : mode_step m Idle ob ob
| ms_reserve id row ob :
    ob !! id = Some row -> reservable row = true ->
    mode_step Idle (Reserved id) ob (<[id := reserved_row row]> ob)
| ms_recover id row ob :
    ob !! id = Some row -> ob_state row = ObSending ->
    mode_step Idle Idle ob (<[id := recovered_row row]> ob)
| ms_record id answer row mid ec ob :
    ob !! id = Some row -> ob_state row = ObSending ->
    mode_step (Answered id answer) Idle ob (<[id := delivered_row (answer_state answer) mid ec row]> ob).

Fixpoint safe {A} (m : mode) (p : proc A) : Prop :=
  match p with
  | PRet _ => True
  | PAtomic f k => forall now d, exists m',
      mode_step m m' (outbound_messages d) (outbound_messages (f now d).1) /\ safe m' (k (f now d).2)
  | PSend id _ _ k => m = Reserved id /\ forall answer, safe (Answered id answer) (k answer)
  end.

(** ** The programs are safe *)

(** A statement that only reads. *)
Lemma safe_read {A} {X : Set} m (g : Z -> db -> X) (k : X -> proc A) :
  (forall x, safe m (k x)) -> safe m (PAtomic (fun now d => (d, g now d)) k).
Proof. intros H now d. exists m. split; [apply ms_quiet | apply H]. Qed.

Lemma safe_record_answer job_id token id answer : safe (Answered id answer) (record_answer job_id token id answer).
Proof.
  destruct answer as [sent|class]; intros now d; exists Idle;
    (split; [|exact I]); unfold update_delivery_under_lease, update_delivery;
    repeat (case_match; try apply ms_drop); b2p.
  - by apply (ms_record id (Ok sent)).
  - by apply (ms_record id (Err class)).
Qed.

Lemma safe_not_reserved job_id token id : safe Idle (not_reserved job_id token id).
Proof. apply safe_read. intros [|]; [|exact I]. apply safe_read. intros x. exact I. Qed.

Lemma safe_after_send job_id token id :
  forall answer, safe (Answered id answer)
    (PAtomic (fun now d => (d, job_lease_current now job_id token d)) (fun current =>
       if negb current then PRet StaleLease else record_answer job_id token id answer)).
Proof. intros answer. apply safe_read. intros [|]; [apply safe_record_answer | exact I]. Qed.

Lemma deliver_for_job_safe `{UuidText} job : safe Idle (deliver_for_job job).
Proof.
  unfold deliver_for_job. destruct (parse_outbound_id job) as [id|]; [|exact I].
  apply safe_read. intros [m|]; [|exact I]. destruct (str_eqb _ _); cbn [negb]; [|exact I].
  assert (Hsend : safe Idle (PAtomic (reserve_outbound_under_lease (Work.cl_id job) (Work.cl_lease_token job) id)
    (fun reserved => match reserved with
       | None => not_reserved (Work.cl_id job) (Work.cl_lease_token job) id
       | Some (target, body) => PSend id target body (fun answer =>
           PAtomic (fun now d => (d, job_lease_current now (Work.cl_id job) (Work.cl_lease_token job) d))
             (fun current => if negb current then PRet StaleLease
                             else record_answer (Work.cl_id job) (Work.cl_lease_token job) id answer))
       end))).
  { intros now d. unfold reserve_outbound_under_lease.
    destruct (outbound_messages d !! id) as [row|] eqn:Hrow;
      [destruct (reservable row && _) eqn:Hres|]; cbn [fst snd];
      [|exists Idle; split; [apply ms_quiet | apply safe_not_reserved]..].
    b2p. exists (Reserved id). split; [by apply ms_reserve|]. split; [done|]. apply safe_after_send. }
  destruct (ob_state m); try exact I; try exact Hsend.
  apply safe_read. intros [|]; [|exact I]. cbn [negb]. intros now d. exists Idle. split; [|exact I].
  unfold mark_ambiguous_under_lease. repeat (case_match; try apply ms_drop). b2p. by apply ms_recover.
Qed.

Lemma next_queued_spec row_locked d id m :
  next_queued row_locked d = Some (id, m) ->
  outbound_messages d !! id = Some m /\ ob_state m = ObQueued /\ row_locked id = false.
Proof.
  unfold next_queued. intros H. apply head_Some_elem_of in H.
  rewrite merge_sort_Permutation in H. apply list_elem_of_In, filter_In in H as [Hin Hf]. b2p.
  apply list_elem_of_In, elem_of_map_to_list in Hin. cbn in *. auto.
Qed.

Lemma deliver_next_safe row_locked : safe Idle (deliver_next row_locked).
Proof.
  intros now d. unfold reserve_next. destruct (next_queued row_locked d) as [[id m]|] eqn:Hq; cbn [fst snd].
  - apply next_queued_spec in Hq as (Hrow & Hst & _). exists (Reserved id).
    split; [apply ms_reserve; [done|]; unfold reservable; by rewrite Hst|]. split; [done|].
    intros [sent|class] now' d'; exists Idle; (split; [|exact I]); unfold update_delivery;
      repeat (case_match; try apply ms_drop); b2p.
    + by apply (ms_record id (Ok sent)).
    + by apply (ms_record id (Err class)).
  - exists Idle. split; [apply ms_quiet | exact I].
Qed.

(** ** The phases of one message *)

Definition holds (id : uuid) (m : mode) : bool :=
  match m with Idle => false | Reserved i | Answered i _ => bool_decide (i = id) end.
Definition holders (id : uuid) (ms : list mode) : list mode := List.filter (holds id) ms.
Definition answers (id : uuid) (l : list send_entry) : list send_result :=
  map se_answer (List.filter (fun e => bool_decide (se_id e = id)) l).
Definition row_reservable (ob : gmap uuid outbound_message) (id : uuid) : bool :=
  match ob !! id with Some m => reservable m | None => false end.
Definition all_refused (l : list send_result) : Prop := Forall (fun a => refused a = true) l.

Inductive phase (id : uuid) (can : bool) : list mode -> list send_result -> Prop :=
| ph_ready l : all_refused l -> phase id can [] l
| ph_reserved l : can = false -> all_refused l -> phase id can [Reserved id] l
| ph_answered l a : can = false -> all_refused l -> phase id can [Answered id a] (l ++ [a])
| ph_done l a : can = false -> all_refused l -> phase id can [] (l ++ [a]).

Definition phases (ob : gmap uuid outbound_message) (ms : list mode) (l : list send_entry) : Prop :=
  forall id, phase id (row_reservable ob id) (holders id ms) (answers id l).

Lemma phase_drop id can m l : phase id can [m] l -> phase id can [] l.
Proof. inversion 1; subst; [by apply ph_ready | by apply ph_done]. Qed.

Lemma phase_unreservable id can hs l : phase id can hs l -> phase id false hs l.
Proof. inversion 1; subst; [apply ph_ready | apply ph_reserved | apply ph_answered | apply ph_done]; done. Qed.

Lemma phase_reservable id hs l : phase id true hs l -> hs = [] /\ all_refused l.
Proof. by inversion 1. Qed.

Lemma holders_app id ms1 ms2 : holders id (ms1 ++ ms2) = holders id ms1 ++ holders id ms2.
Proof. apply List.filter_app. Qed.

(** A holder is alone. *)
Lemma phase_alone id can ms1 m ms2 l :
  phase id can (holders id (ms1 ++ m :: ms2)) l -> holds id m = true ->
  holders id ms1 = [] /\ holders id ms2 = [] /\ phase id can [m] l.
Proof.
  unfold holders. rewrite List.filter_app. cbn [List.filter]. intros H Hm. rewrite Hm in H.
  assert (Hlen : (length (List.filter (holds id) ms1 ++ m :: List.filter (holds id) ms2) <= 1)%nat)
    by (inversion H; cbn; lia).
  rewrite length_app in Hlen. cbn in Hlen.
  destruct (List.filter (holds id) ms1), (List.filter (holds id) ms2); cbn in *; try lia. auto.
Qed.

Lemma holders_skip id ms1 m ms2 :
  holds id m = false -> holders id (ms1 ++ m :: ms2) = holders id (ms1 ++ ms2).
Proof. intros H. unfold holders. rewrite !List.filter_app. cbn [List.filter]. by rewrite H. Qed.

Lemma holders_only id ms1 m ms2 :
  holds id m = true -> holders id ms1 = [] -> holders id ms2 = [] -> holders id (ms1 ++ m :: ms2) = [m].
Proof.
  unfold holders. intros H H1 H2. rewrite List.filter_app. cbn [List.filter]. by rewrite H, H1, H2.
Qed.

(** Giving up what was held keeps the phases. *)
Lemma phases_drop ob ms1 m ms2 l : phases ob (ms1 ++ m :: ms2) l -> phases ob (ms1 ++ ms2) l.
Proof.
  intros H id. specialize (H id). destruct (holds id m) eqn:Hm.
  - destruct (phase_alone _ _ _ _ _ _ H Hm) as (H1 & H2 & Hp).
    rewrite holders_app, H1, H2. by eapply phase_drop.
  - by rewrite holders_skip in H.
Qed.

Lemma phases_idle ob ms1 ms2 l : phases ob (ms1 ++ ms2) l -> phases ob (ms1 ++ Idle :: ms2) l.
Proof. intros H id. rewrite holders_skip by done. apply H. Qed.

Lemma row_reservable_insert ob id row id' :
  row_reservable (<[id := row]> ob) id' = if bool_decide (id = id') then reservable row else row_reservable ob id'.
Proof. unfold row_reservable. rewrite lookup_insert. by case_decide; case_bool_decide. Qed.

(** A row that becomes unreservable keeps the phases. *)
Lemma phases_insert ob ms l id row :
  phases ob ms l -> reservable row = false -> phases (<[id := row]> ob) ms l.
Proof.
  intros H Hr id'. specialize (H id'). rewrite row_reservable_insert. case_bool_decide; [|done].
  rewrite Hr. by eapply phase_unreservable.
Qed.

Lemma phases_reserve ob ms1 ms2 l id row :
  phases ob (ms1 ++ Idle :: ms2) l -> ob !! id = Some row -> reservable row = true ->
  phases (<[id := reserved_row row]> ob) (ms1 ++ Reserved id :: ms2) l.
Proof.
  intros H Hrow Hr id'. specialize (H id'). rewrite holders_skip in H by done.
  rewrite row_reservable_insert. case_bool_decide as Hid.
  - subst id'. assert (Hcan : row_reservable ob id = true) by (unfold row_reservable; by rewrite Hrow).
    rewrite Hcan in H. unfold holders in *. rewrite List.filter_app in *. cbn [List.filter holds].
    rewrite bool_decide_true by done.
    apply phase_reservable in H as [HH Hl]. apply app_eq_nil in HH as [-> ->]. by apply ph_reserved.
  - rewrite holders_skip; [done|]. cbn. by rewrite bool_decide_false.
Qed.

Lemma phases_send ob ms1 ms2 l id e :
  phases ob (ms1 ++ Reserved id :: ms2) l -> se_id e = id ->
  phases ob (ms1 ++ Answered id (se_answer e) :: ms2) (l ++ [e]).
Proof.
  intros H He id'. specialize (H id'). unfold answers in *.
  rewrite List.filter_app, map_app. cbn [List.filter]. rewrite He.
  destruct (decide (id = id')) as [<-|Hne].
  - rewrite bool_decide_true by done. cbn [map].
    destruct (phase_alone _ _ _ _ _ _ H) as (H1 & H2 & Hp); [cbn; by apply bool_decide_true|].
    rewrite holders_only; [|cbn; by apply bool_decide_true | done | done].
    inversion Hp; subst. by apply ph_answered.
  - rewrite bool_decide_false by done. cbn [map]. rewrite app_nil_r.
    rewrite holders_skip in H by (cbn; by apply bool_decide_false).
    by rewrite holders_skip by (cbn; by apply bool_decide_false).
Qed.

Lemma answer_state_reservable answer mid ec row :
  reservable (delivered_row (answer_state answer) mid ec row) = true -> refused answer = true.
Proof. destruct answer as [|class]; [done|]. cbn. unfold error_state. by case_bool_decide. Qed.

Lemma phases_record ob ms1 ms2 l id answer mid ec row :
  phases ob (ms1 ++ Answered id answer :: ms2) l ->
  phases (<[id := delivered_row (answer_state answer) mid ec row]> ob) (ms1 ++ Idle :: ms2) l.
Proof.
  intros H id'. specialize (H id'). rewrite row_reservable_insert, (holders_skip _ _ Idle) by done.
  destruct (decide (id = id')) as [<-|Hne].
  - rewrite bool_decide_true by done.
    destruct (phase_alone _ _ _ _ _ _ H) as (H1 & H2 & Hp); [cbn; by apply bool_decide_true|].
    rewrite holders_app, H1, H2. inversion Hp; subst.
    destruct (reservable _) eqn:Hr; [|by apply ph_done].
    apply ph_ready. apply Forall_app. split; [done|]. constructor; [|done]. by eapply answer_state_reservable.
  - rewrite bool_decide_false by done. by rewrite holders_skip in H by (cbn; by apply bool_decide_false).
Qed.

Lemma phases_mode_step ob ob' ms1 m m' ms2 l :
  phases ob (ms1 ++ m :: ms2) l -> mode_step m m' ob ob' -> phases ob' (ms1 ++ m' :: ms2) l.
Proof.
  intros H Hs. destruct Hs.
  - done.
  - by eapply phases_idle, phases_drop.
  - by apply phases_reserve.
  - by apply phases_insert.
  - by apply phases_record.
Qed.

(** ** The invariant of the system *)

Definition worker_safe (m : mode) (w : worker) : Prop :=
  match w with Deliver p => safe m p | DeliverNext p => safe m p end.

Definition mode_seen (ids : gset uuid) (m : mode) : Prop :=
  match m with Idle => True | Reserved i | Answered i _ => i ∈ ids end.

Record delivery_inv (c : config) (ms : list mode) : Prop := {
  di_safe : Forall2 worker_safe ms (c_workers c);
  di_phases : phases (outbound_messages (c_db c)) ms (sends c);
  di_rows : dom (outbound_messages (c_db c)) ⊆ seen c;
  di_modes : Forall (mode_seen (seen c)) ms;
  di_sends : Forall (fun e => se_id e ∈ seen c) (sends c);
}.

Lemma unseen_phase id ms l ids can :
  Forall (mode_seen ids) ms -> Forall (fun e => se_id e ∈ ids) l -> id ∉ ids ->
  phase id can (holders id ms) (answers id l).
Proof.
  intros Hm Hl Hid.
  assert (H1 : holders id ms = []).
  { unfold holders. induction Hm as [|m ms Hm _ IH]; [done|]. cbn [List.filter].
    destruct m; cbn in *; try rewrite bool_decide_false by (intros ->; done); exact IH. }
  assert (H2 : answers id l = []).
  { unfold answers. induction Hl as [|e l He _ IH]; [done|]. cbn [List.filter].
    rewrite bool_decide_false by (intros <-; done). exact IH. }
  rewrite H1, H2. apply ph_ready. constructor.
Qed.

Lemma safe_step {A} m d (p : proc A) d' p' l :
  safe m p -> proc_step d p d' p' l ->
  (l = [] /\ exists m', mode_step m m' (outbound_messages d) (outbound_messages d') /\ safe m' p')
  \/ (exists e, l = [e] /\ m = Reserved (se_id e) /\ safe (Answered (se_id e) (se_answer e)) p' /\ d' = d).
Proof.
  intros Hs Hstep. destruct Hstep as [X now d f k d' x Hf | d id target body k answer].
  - left. split; [done|]. destruct (Hs now d) as (m' & H1 & H2). rewrite Hf in *. eauto.
  - right. destruct Hs as [-> Hk]. eexists. split; [reflexivity|]. cbn. eauto.
Qed.

Lemma worker_safe_step m d w d' w' l :
  worker_safe m w -> worker_step d w d' w' l ->
  (l = [] /\ exists m', mode_step m m' (outbound_messages d) (outbound_messages d') /\ worker_safe m' w')
  \/ (exists e, l = [e] /\ m = Reserved (se_id e) /\ worker_safe (Answered (se_id e) (se_answer e)) w' /\ d' = d).
Proof. intros Hs Hstep. destruct Hstep; by eapply safe_step. Qed.

Lemma mode_step_seen ids m m' ob ob' :
  mode_step m m' ob ob' -> dom ob ⊆ ids -> mode_seen ids m -> dom ob' ⊆ ids /\ mode_seen ids m'.
Proof.
  intros Hs Hd Hm. assert (Hin : forall id row, ob !! id = Some row -> id ∈ ids).
  { intros id row H. apply Hd, elem_of_dom. eauto. }
  assert (Hset : forall id row row', ob !! id = Some row -> dom (<[id := row']> ob) ⊆ ids).
  { intros id row row' H i. rewrite dom_insert, elem_of_union, elem_of_singleton.
    intros [->|Hi]; [by eapply Hin | by apply Hd]. }
  destruct Hs; cbn; eauto.
Qed.

Lemma delivery_inv_step `{UuidText} c c' ms :
  delivery_inv c ms -> step c c' -> exists ms', delivery_inv c' ms'.
Proof.
  intros [Hsafe Hph Hrows Hmodes Hsends] Hstep. destruct Hstep; cbn in *.
  - apply Forall2_app_inv_r in Hsafe as (ms1 & ms2' & Hs1 & Hs2 & ->).
    apply Forall2_cons_inv_r in Hs2 as (m & ms2 & Hm & Hs2 & ->).
    apply Forall_app in Hmodes as [Hm1 Hm2]. apply Forall_cons in Hm2 as [Hm0 Hm2].
    destruct (worker_safe_step _ _ _ _ _ _ Hm H0) as [(-> & m' & Hms & Hw') | (e & -> & -> & Hw' & ->)].
    + rewrite app_nil_r. destruct (mode_step_seen ids _ _ _ _ Hms Hrows Hm0) as [Hd Hm'].
      exists (ms1 ++ m' :: ms2). split; cbn; try done.
      * apply Forall2_app; [done|]. by constructor.
      * by eapply phases_mode_step.
      * apply Forall_app. split; [done|]. by constructor.
    + exists (ms1 ++ Answered (se_id e) (se_answer e) :: ms2). split; cbn; try done.
      * apply Forall2_app; [done|]. by constructor.
      * by apply phases_send.
      * apply Forall_app. split; [done|]. by constructor.
      * apply Forall_app. split; [done|]. by constructor.
  - apply Forall2_app_inv_r in Hsafe as (ms1 & ms2' & Hs1 & Hs2 & ->).
    apply Forall2_cons_inv_r in Hs2 as (m & ms2 & Hm & Hs2 & ->).
    apply Forall_app in Hmodes as [Hm1 Hm2]. apply Forall_cons in Hm2 as [Hm0 Hm2].
    exists (ms1 ++ ms2). split; cbn; try done.
    + by apply Forall2_app.
    + by eapply phases_drop.
    + by apply Forall_app.
  - exists (Idle :: ms). split; cbn; try done.
    + constructor; [apply deliver_for_job_safe | done].
    + by constructor.
  - exists (Idle :: ms). split; cbn; try done.
    + constructor; [apply deliver_next_safe | done].
    + by constructor.
  - exists ms. split; cbn; try done.
    + intros id. specialize (Hph id). unfold row_reservable at 1.
      destruct (outbound_messages d' !! id) as [m'|] eqn:Hm'; [|by eapply phase_unreservable].
      destruct (H0 id m' Hm') as [Hold | [Hnew _]].
      * unfold row_reservable in Hph. by rewrite Hold in Hph.
      * by eapply unseen_phase.
    + set_solver.
    + eapply Forall_impl; [exact Hmodes|]. intros [| |]; cbn; set_solver.
    + eapply Forall_impl; [exact Hsends|]. cbn. set_solver.
Qed.

Lemma delivery_inv_initial c : initial c -> delivery_inv c [].
Proof.
  intros (Hw & Hl & Hd & Hst). split.
  - rewrite Hw. constructor.
  - intros id. rewrite Hl. apply ph_ready. constructor.
  - done.
  - constructor.
  - rewrite Hl. constructor.
Qed.

Lemma reachable_inv `{UuidText} c : reachable c -> exists ms, delivery_inv c ms.
Proof.
  intros (c0 & H0 & Hr). apply delivery_inv_initial in H0.
  assert (Hex : exists ms, delivery_inv c0 ms) by eauto. clear H0.
  induction Hr as [|c1 c2 c3 Hs _ IH]; [done|]. apply IH.
  destruct Hex as [ms Hms]. by eapply delivery_inv_step.
Qed.


(** ** A delivery, cut off by a crash after the call *)

Definition demo_message : outbound_message :=
  {| ob_account := None; ob_inbound_event := None; ob_idempotency_key := s! "reply:1"; ob_provider_scope := s! "zalo_bot";
     ob_provider_target := s! "chat"; ob_body := s! "hello"; ob_state := ObQueued; ob_provider_message_id := None;
     ob_attempt_count := 0; ob_last_error_class := None; ob_ambiguity_reason := None; ob_created_at := 0 |}.

(** What [deliver_next] leaves of [d] when the provider answers [answer]. *)
Lemma deliver_next_reaches `{UuidText} d l ids (now : Z) id m answer :
  next_queued (fun _ => false) d = Some (id, m) ->
  let c := {| c_db := d; c_workers := []; sends := l; seen := ids |} in
  exists d', rtc step c {| c_db := d'; c_workers := [];
    sends := l ++ [{| se_id := id; se_target := ob_provider_target m; se_body := ob_body m; se_answer := answer |}];
    seen := ids |}.
Proof.
  intros Hn c. subst c. eexists.
  eapply rtc_l; [apply (step_next d [] l ids (fun _ => false))|].
  eapply rtc_l; [eapply (step_worker d _ []), ws_next, (step_atomic now), surjective_pairing|].
  unfold reserve_next. rewrite Hn. cbn [app].
  eapply rtc_l; [eapply (step_worker _ _ []), ws_next, (step_send _ _ _ _ _ answer)|]. rewrite app_nil_r.
  eapply rtc_l; [apply (step_crash _ [] _ []) | apply rtc_refl].
Qed.


(** ** One delivery, undisturbed *)

Section Alone.
Context `{UT : UuidText}.

(** Reference: what a delivery under job [job] does when nothing interferes. *)
Definition deliver_alone (now : Z) (answer : rstr -> rstr -> send_result) (job : Work.ClaimedJob) (d : db)
    : db * OutboundJobExecution :=
  let current := job_lease_current now (Work.cl_id job) (Work.cl_lease_token job) d in
  match parse_outbound_id job with
  | None => (d, InvalidJob)
  | Some id =>
      match outbound_messages d !! id with
      | None => (d, InvalidJob)
      | Some m =>
          if negb (str_eqb (Work.cl_dedupe_key job) (IngressApply.deliver_dedupe_key (ob_idempotency_key m))) then (d, InvalidJob)
          else match ob_state m with
          | ObSuppressed => (d, InvalidJob)
          | ObSent => (d, completed id Sent)
          | ObAmbiguous => (d, completed id Ambiguous)
          | ObSending => if current then (set_message id (recovered_row m) d, completed id Ambiguous) else (d, StaleLease)
          | ObQueued | ObFailed =>
              if negb current then (d, StaleLease)
              else
              let put s message_id error_class :=
                set_message id (delivered_row s message_id error_class (reserved_row m)) d in
              match answer (ob_provider_target m) (ob_body m) with
              | Ok sent => (put Sent (message_id_opt sent) None, completed id Sent)
              | Err class =>
                  (put (error_state class) None (Some (Errors.as_str class)),
                   if bool_decide (class = Errors.ProviderAmbiguous) then completed id Ambiguous else Fail class)
              end
          end
      end
  end.

Lemma set_message_twice id m1 m2 d : set_message id m2 (set_message id m1 d) = set_message id m2 d.
Proof. unfold set_message, upd_outbound_messages. cbn. by rewrite insert_insert_eq. Qed.
Lemma lease_set_message now job token id m d :
  job_lease_current now job token (set_message id m d) = job_lease_current now job token d.
Proof. reflexivity. Qed.

Lemma update_reserved id s mid ec now m d :
  update_delivery id s mid ec now (set_message id (reserved_row m) d)
  = (set_message id (delivered_row s mid ec (reserved_row m)) d, true).
Proof.
  unfold update_delivery. change (outbound_messages (set_message id (reserved_row m) d))
    with (<[id := reserved_row m]> (outbound_messages d)).
  rewrite lookup_insert_eq, bool_decide_eq_true_2 by reflexivity. by rewrite set_message_twice.
Qed.

(** From a reservable message on. *)
Lemma reserve_and_send now answer job id m d :
  outbound_messages d !! id = Some m -> reservable m = true ->
  run_proc now answer
    (PAtomic (reserve_outbound_under_lease (Work.cl_id job) (Work.cl_lease_token job) id) (fun reserved =>
       match reserved with
       | None => not_reserved (Work.cl_id job) (Work.cl_lease_token job) id
       | Some (target, body) =>
           PSend id target body (fun answer =>
           PAtomic (fun now d => (d, job_lease_current now (Work.cl_id job) (Work.cl_lease_token job) d)) (fun current =>
           if negb current then PRet StaleLease
           else record_answer (Work.cl_id job) (Work.cl_lease_token job) id answer))
       end)) d
  = if negb (job_lease_current now (Work.cl_id job) (Work.cl_lease_token job) d) then (d, StaleLease)
    else match answer (ob_provider_target m) (ob_body m) with
         | Ok sent => (set_message id (delivered_row Sent (message_id_opt sent) None (reserved_row m)) d, completed id Sent)
         | Err class =>
             (set_message id (delivered_row (error_state class) None (Some (Errors.as_str class)) (reserved_row m)) d,
              if bool_decide (class = Errors.ProviderAmbiguous) then completed id Ambiguous else Fail class)
         end.
Proof.
  intros Hm Hr. cbn [run_proc]. unfold reserve_outbound_under_lease. rewrite Hm, Hr. cbn [andb].
  destruct (job_lease_current now _ _ d) eqn:Hc; cbn [negb].
  - cbn [run_proc]. rewrite lease_set_message, Hc. cbn [negb]. unfold record_answer.
    destruct (answer _ _) as [sent|class]; cbn [run_proc]; unfold update_delivery_under_lease;
      rewrite lease_set_message, Hc, update_reserved; cbn [run_proc negb]; [done|]. unfold error_state.
    by destruct (bool_decide (class = Errors.ProviderAmbiguous)).
  - unfold not_reserved. cbn [run_proc]. rewrite Hc. reflexivity.
Qed.

(** C32. A delivery that nothing disturbs is one transition of the message: it equals the
    reference table, on every state of the message and of the lease and for every answer
    of the provider. *)
Theorem deliver_alone_equiv now answer job d :
  run_proc now answer (deliver_for_job job) d = deliver_alone now answer job d.
Proof.
  unfold deliver_for_job, deliver_alone. cbv zeta. destruct (parse_outbound_id job) as [id|]; [|done].
  cbn [run_proc]. destruct (outbound_messages d !! id) as [m|] eqn:Hm; [|done].
  change (OUTBOUND_DELIVER_JOB_TYPE ++ s! ":" ++ ob_idempotency_key m) with (IngressApply.deliver_dedupe_key (ob_idempotency_key m)).
  destruct (negb (str_eqb _ _)); [done|]. destruct (ob_state m) eqn:Hs; try done.
  - rewrite (reserve_and_send now answer job id m d Hm); [done|]. unfold reservable. by rewrite Hs.
  - cbn [run_proc]. destruct (job_lease_current now _ _ d) eqn:Hc; cbn [negb run_proc]; [|done].
    unfold mark_ambiguous_under_lease. by rewrite Hm, Hs, Hc.
  - rewrite (reserve_and_send now answer job id m d Hm); [done|]. unfold reservable. by rewrite Hs.
Qed.
End Alone.

End OutboundProps.
