(* ===== verification/SchedulerProps.v ===== *)
(** * What a tick of the scheduler does

    Every schedule in the batch is moved to its next delivery and its period is queued
    unless it was emitted already; every other schedule stays as it is. *)

From S2P Require Import Prelude RustStr RustStrFacts Platform Errors Work WorkProps Quota Schedule ReceiptTypes Receipt.
From S2P Require Import ReceiptFrame Database IngressTypes IngressStore IngressApply Isolation Scheduler System SystemFrame Demo.
Import Db Scheduler.
Import (hints) Errors Work Quota ReceiptTypes Receipt.

Section Tick.
Context `{CH : Chrono} `{CT : ChronoText} `{UT : UuidText}.

(** The schedules a tick selects, of which [due_rows] are the rows. *)
Definition batch (db_now : Z) (row_locked : uuid -> bool) (d : db) : list ((uuid * rstr) * summary_schedule) :=
  take (Z.to_nat BATCH_LIMIT) (merge_sort run_before
    (List.filter (fun p => is_due db_now d p && negb (row_locked (sch_id p.2))) (map_to_list (summary_schedules d)))).

Lemma batch_in db_now locked d k s :
  In (k, s) (batch db_now locked d) ->
  summary_schedules d !! k = Some s /\ is_due db_now d (k, s) = true /\ locked (sch_id s) = false.
Proof.
  unfold batch. intros H. apply list_elem_of_In, elem_of_take in H as (i & Hi & _). apply list_elem_of_lookup_2 in Hi.
  rewrite (merge_sort_Permutation run_before) in Hi. apply list_elem_of_In, filter_In in Hi as [Hi Hd].
  apply list_elem_of_In, elem_of_map_to_list in Hi. apply andb_true_iff in Hd as [Hd Hl].
  by rewrite negb_true_iff in Hl.
Qed.

Lemma batch_nodup db_now locked d :
  schedule_ids_unique d -> NoDup (map due_schedule_id (due_rows db_now locked d)).
Proof.
  intros U. assert (Hn : NoDup (batch db_now locked d)).
  { unfold batch. eapply sublist_NoDup; [|apply sublist_take]. rewrite (merge_sort_Permutation run_before).
    apply NoDup_ListNoDup, List.NoDup_filter, NoDup_ListNoDup, NoDup_map_to_list. }
  change (due_rows db_now locked d) with (map (due_row d) (batch db_now locked d)). rewrite map_map.
  assert (Hin : forall p, p ∈ batch db_now locked d -> summary_schedules d !! p.1 = Some p.2).
  { intros [k s] Hp. by apply list_elem_of_In, batch_in in Hp as [Hp _]. }
  revert Hn Hin. generalize (batch db_now locked d) as l. induction l as [|[k s] l IH]; intros Hn Hin; [constructor|].
  cbn [map]. apply NoDup_cons in Hn as [Hx Hn]. apply NoDup_cons. split.
  - intros Hd. apply list_elem_of_In, in_map_iff in Hd as ([k2 s2] & Heq & Hp). cbn in Heq. apply Hx.
    apply list_elem_of_In in Hp. pose proof (Hin (k2, s2) ltac:(by right)) as H2. pose proof (Hin (k, s) ltac:(by left)) as H1.
    cbn in H1, H2. pose proof (U k2 k s2 s H2 H1 Heq) as ->. rewrite H1 in H2. by injection H2 as <-.
  - apply IH; [done|]. intros p Hp. apply Hin. by right.
Qed.

(** ** One row *)

(** What the tick does for [row], whose schedule was [s] and is [s'] afterwards. *)
Definition ticked (db_now now : Z) (row : DueScheduleRow) (s s' : summary_schedule) (q : Work.db) : Prop :=
  exists f latest next,
    Schedule.parse (due_frequency row) = Some f
    /\ Schedule.latest_delivery now (due_timezone row) f (due_delivery_minute row) = Ret (Ok latest)
    /\ Schedule.next_delivery now (due_timezone row) f (due_delivery_minute row) = Ret (Ok next)
    /\ let skip := match due_last_emitted_at row with Some e => latest <=? e | None => false end in
       s' = advance db_now (due_schedule_id row) next (negb skip) s
       /\ (skip = false -> exists p, Schedule.scheduled_period f latest (due_timezone row) = Ret (Ok p)
            /\ job_with_key q (Schedule.schedule_emit_dedupe_key (due_account_id row) (due_frequency row)
                                 (Schedule.start p.1))).

Lemma internal_ok {A} msg (m : run (result A Schedule.ScheduleError)) (d : db) a d' :
  internal msg m d = Ret (Ok (a, d')) -> m = Ret (Ok a) /\ d' = d.
Proof.
  unfold internal. intros [H ->]%x_call_ok. destruct m as [[x|e]| |]; cbn in H; try discriminate. by injection H as ->.
Qed.

Lemma tick_row_effect db_now now jid row d u d' :
  tick_row db_now now jid row d = Ret (Ok (u, d')) ->
  queue_step (db_queue d) (db_queue d')
  /\ exists g, summary_schedules d' = g <$> summary_schedules d
     /\ (forall s, sch_id s <> due_schedule_id row -> g s = s)
     /\ (forall s, sch_id (g s) = sch_id s)
     /\ forall s, ticked db_now now row s (g s) (db_queue d').
Proof.
  intros H. unfold tick_row in H. cbv zeta in H. apply x_bind_ok in H as (f & s1 & [Hf ->]%x_read_ok & H).
  apply x_bind_ok in H as (latest & s2 & Hl & H). apply internal_ok in Hl as [Hl ->].
  apply x_bind_ok in H as (next & s3 & Hn & H). apply internal_ok in Hn as [Hn ->].
  destruct (Schedule.parse (due_frequency row)) as [f'|] eqn:Hp; [|discriminate]. injection Hf as ->.
  apply x_bind_ok in H as (u1 & d1 & H1 & H). injection H as <- <-.
  set (skip := match due_last_emitted_at row with Some e => latest <=? e | None => false end) in *.
  assert (Hq : queue_step (db_queue d) (db_queue d1) /\ summary_schedules d1 = summary_schedules d
    /\ (skip = false -> exists p, Schedule.scheduled_period f latest (due_timezone row) = Ret (Ok p)
         /\ job_with_key (db_queue d1) (Schedule.schedule_emit_dedupe_key (due_account_id row) (due_frequency row)
                                          (Schedule.start p.1)))).
  { destruct skip; cbn [negb] in H1; [by injection H1 as _ <-|].
    apply x_bind_ok in H1 as (p & d2 & Hs & H1). apply internal_ok in Hs as [Hs ->].
    apply x_bind_ok in H1 as (o & d2 & H1 & [= _ <-]). injection H1 as H1. unfold on_queue in H1.
    destruct (Work.enqueue_in_transaction _ _ _) as [[out q]|e] eqn:Eq; [|discriminate]. injection H1 as <- <-.
    split; [exact (enqueue_queue_step _ _ _ _ _ Eq)|]. split; [done|]. intros _. exists p. split; [exact Hs|].
    exact (proj1 (enqueue_records _ _ _ _ _ Eq)). }
  destruct Hq as (Hq & Hsame & Hjob). split; [exact Hq|].
  exists (advance db_now (due_schedule_id row) next (negb skip)). split; [cbn; by rewrite Hsame|].
  split; [intros s Hne; unfold advance; by rewrite bool_decide_eq_false_2|].
  split; [intros s; unfold advance; by case_bool_decide|].
  intros s. exists f, latest, next. done.
Qed.

(** ** All rows *)

Lemma ticked_later db_now now row s s' q q' :
  wf q -> queue_step q q' -> ticked db_now now row s s' q -> ticked db_now now row s s' q'.
Proof.
  intros W Hq (f & latest & next & H1 & H2 & H3 & H4 & H5). exists f, latest, next. split; [done|]. split; [done|].
  split; [done|]. split; [exact H4|]. intros Hs. destruct (H5 Hs) as (p & Hp & Hj). exists p. split; [done|].
  eapply keeps_job_with_key; [apply (Hq W) | exact Hj].
Qed.

Lemma tick_loop_effect db_now now fresh i rows d u d' :
  wf (db_queue d) -> NoDup (map due_schedule_id rows) ->
  tick_loop db_now now fresh i rows d = Ret (Ok (u, d')) ->
  queue_step (db_queue d) (db_queue d')
  /\ forall k s, summary_schedules d !! k = Some s ->
     exists s', summary_schedules d' !! k = Some s'
     /\ ((forall row, In row rows -> due_schedule_id row <> sch_id s) -> s' = s)
     /\ (forall row, In row rows -> due_schedule_id row = sch_id s -> ticked db_now now row s s' (db_queue d')).
Proof.
  revert i d. induction rows as [|row rows IH]; intros i d W Hn H; cbn [tick_loop] in H.
  { injection H as _ <-. split; [done|]. intros k s Hs. exists s. done. }
  apply x_bind_ok in H as ([] & d1 & H1 & H). cbn [map] in Hn. apply NoDup_cons in Hn as [Hfresh Hn].
  destruct (tick_row_effect _ _ _ _ _ _ _ H1) as (Hq1 & g & Hg & Hother & Hid & Htick).
  destruct (Hq1 W) as [W1 _]. destruct (IH (S i) d1 W1 Hn H) as (Hq2 & Hrest).
  split; [by etransitivity|]. intros k s Hs.
  destruct (Hrest k (g s)) as (s' & Hs' & Hsame & Hdone); [by rewrite Hg, lookup_fmap, Hs|].
  assert (Hlast : due_schedule_id row = sch_id s -> s' = g s).
  { intros Heq. apply Hsame. intros row' Hin Hid'. apply Hfresh. rewrite Heq, <- (Hid s), <- Hid'.
    by apply list_elem_of_In, in_map. }
  exists s'. split; [done|]. split.
  - intros Hno. rewrite Hsame by (intros r Hr; rewrite Hid; apply Hno; by right).
    apply Hother. intros Heq. apply (Hno row); [by left | done].
  - intros r [<-|Hr] Heq.
    + rewrite (Hlast Heq). eapply ticked_later; [exact W1 | exact Hq2 | apply Htick].
    + assert (Hne : sch_id s <> due_schedule_id row).
      { intros He. apply Hfresh. rewrite <- He, <- Heq. by apply list_elem_of_In, in_map. }
      rewrite <- (Hother s Hne). apply Hdone; [done|]. by rewrite Hid.
Qed.

(** C13. A tick that succeeds moves every schedule of its batch (enabled, due, its account
    active, not locked elsewhere, the hundred earliest) to its next delivery, and queues
    the emission of the period before the latest delivery, unless that was emitted
    already; every other schedule keeps its row. *)
Theorem tick_effect db_now now fresh row_locked d d' :
  schedule_ids_unique d -> wf (db_queue d) ->
  scheduler_tick db_now now fresh row_locked d = (d', Ret (Ok tt)) ->
  forall k s, summary_schedules d !! k = Some s ->
  exists s', summary_schedules d' !! k = Some s'
  /\ (In (k, s) (batch db_now row_locked d) -> ticked db_now now (due_row d (k, s)) s s' (db_queue d'))
  /\ (~ In (k, s) (batch db_now row_locked d) -> s' = s).
Proof.
  intros U W H k s Hs. unfold scheduler_tick, x_atomically in H.
  destruct (scheduler_tick_tx _ _ _ _ d) as [[[[] d1]|]| |] eqn:E; try discriminate. injection H as ->.
  unfold scheduler_tick_tx in E. apply x_bind_ok in E as (rows & s1 & [Hr ->]%x_read_ok & E). injection Hr as <-.
  destruct (tick_loop_effect _ _ _ _ _ _ _ _ W (batch_nodup db_now row_locked d U) E) as [_ Hall].
  destruct (Hall k s Hs) as (s' & Hs' & Hsame & Hdone). exists s'. split; [done|]. split.
  - intros Hin. apply Hdone; [|reflexivity]. exact (in_map (due_row d) _ _ Hin).
  - intros Hout. apply Hsame. intros row Hrow Heq. apply Hout. apply in_map_iff in Hrow as ([k2 s2] & <- & Hin).
    cbn in Heq. destruct (batch_in _ _ _ _ _ Hin) as [H2 _]. pose proof (U k2 k s2 s H2 Hs Heq) as ->.
    rewrite Hs in H2. by injection H2 as <-.
Qed.
End Tick.
