(* ===== verification/SystemProps.v ===== *)
(** * Histories of the whole system

    What holds of the database after any sequence of operations: events are handled once,
    queued messages have their jobs, accounts only move forward. *)

From S2P Require Import Prelude RustStr RustStrFacts Platform Errors Work WorkProps Quota Schedule ConvTypes Conversation.
From S2P Require Import ReceiptTypes Receipt ReceiptFrame ReceiptSpec Database Insight Account IngressTypes IngressStore IngressApply.
From S2P Require Import IngressFrame IngressApp Outbound Scheduler Jobs System SystemFrame Demo.
Import Db Ingress IngressStore IngressApply.

Section Histories.
Context `{CH : Chrono} `{CT : ChronoText} `{PG : Postgres} `{UT : UuidText} `{IL : ImageLib} `{SJ : SerdeJson}
  `{UC : UnicodeCase} `{OS : ReceiptTypes.ObjectStore} `{XT : ReceiptTypes.Extractor} `{NR : Insight.Narrator}.

(** ** Events *)

Lemma process_tx_accepts env st r o dec d id d' :
  process_tx env st r o dec d = Ret (Ok (Accepted id, d')) ->
  exists e, inbound_events d' !! event_key r = Some e /\ ev_id e = id /\ is_accepted e.
Proof.
  unfold process_tx. intros H. apply x_bind_ok in H as (mode & d0 & [_ ->]%x_read_ok & H).
  destruct (negb _).
  - apply x_bind_ok in H as (out & d1 & _ & H). injection H as H _. by destruct out.
  - apply x_bind_ok in H as (out & d1 & H1 & H). injection H1 as H1.
    unfold insert_observed_event in H1. cbv zeta in H1.
    assert (Hrow : forall ev, out = Accepted ev ->
      exists e, inbound_events d1 !! event_key r = Some e /\ ev_id e = ev /\ is_accepted e).
    { intros ev ->. destruct (inbound_events d !! event_key r) as [old|].
      - destruct (str_eqb _ _ && _); [|discriminate]. injection H1 as <- <-.
        eexists. split; [apply lookup_insert_eq|]. split; reflexivity.
      - destruct (bool_decide _); [discriminate|]. injection H1 as <- <-.
        eexists. split; [apply lookup_insert_eq|]. split; reflexivity. }
    destruct out as [ev|ev|ev]; [|discriminate..]. destruct (Hrow ev eq_refl) as (e & He & Hid & Ha).
    assert (Hp : progress d1 d').
    { eapply (process_accepted_maintains progress); [|exact H]. intros _. split; apply _. }
    destruct (pr_events _ _ Hp _ _ He) as (e' & He' & Hid' & Ha').
    exists e'. split; [exact He'|]. split; [|exact (Ha' Ha)].
    rewrite Hid', Hid. clear -H. unfold process_accepted in H.
    repeat (apply x_bind_ok in H as (? & ? & _ & H)). by injection H.
Qed.

Lemma process_accepts env st r o dec d id :
  (process env st r o dec d).2 = Ret (Ok (Accepted id)) ->
  exists e, inbound_events (process env st r o dec d).1 !! event_key r = Some e /\ ev_id e = id /\ is_accepted e.
Proof.
  unfold process, x_atomically. destruct (process_tx env st r o dec d) as [[[out d']|e]| |] eqn:E; cbn [fst snd];
    intros [= ->]. by eapply process_tx_accepts.
Qed.

Lemma known_event_duplicate env st r o dec d e :
  inbound_events d !! event_key r = Some e -> is_accepted e ->
  process env st r o dec d = (d, Ret (Ok (Duplicate (ev_id e)))).
Proof.
  intros He Ha. unfold process, x_atomically, process_tx, insert_observed_event. cbv zeta.
  assert (Hr : str_eqb (ev_processing_state e) (s! "rejected") = false) by (unfold is_accepted in Ha; by rewrite Ha).
  unfold x_bind at 1. unfold x_read at 1. destruct (negb _); unfold x_bind, x_exec; rewrite He, Hr, ?andb_false_r;
    reflexivity.
Qed.

Lemma accepted_then_duplicate env st r o dec ops env' st' r' o' dec' (w : System.world) id :
  (process env st r o dec w.1).2 = Ret (Ok (Accepted id)) -> event_key r' = event_key r ->
  let w' := System.sys_run ops ((process env st r o dec w.1).1, w.2) in
  process env' st' r' o' dec' w'.1 = (w'.1, Ret (Ok (Duplicate id))).
Proof.
  intros Hp Hk w'. destruct (process_accepts _ _ _ _ _ _ _ Hp) as (e & He & Hid & Ha).
  destruct (pr_events _ _ (sys_run_progress ops ((process env st r o dec w.1).1, w.2)) _ _ He) as (e' & He' & Hid' & Ha').
  rewrite <- Hid, <- Hid'. apply known_event_duplicate; [by rewrite Hk | exact (Ha' Ha)].
Qed.

(** C3. Exactly once: when an event was accepted, then, whatever the system does
    afterwards, the same event delivered again (by webhook or polling, in any ingress
    mode) is reported as a duplicate with the first id and changes nothing. *)
Theorem event_handled_once env st r o dec ops env' st' r' o' dec' (w : System.world) id :
  (process env st r o dec w.1).2 = Ret (Ok (Accepted id)) -> event_key r' = event_key r ->
  let w' := System.sys_run ops ((process env st r o dec w.1).1, w.2) in
  process env' st' r' o' dec' w'.1 = (w'.1, Ret (Ok (Duplicate id))).
Proof. exact (accepted_then_duplicate env st r o dec ops env' st' r' o' dec' w id). Qed.

(** ** The outbox *)

Lemma migrated_outbox : outbox migrated_db.
Proof. intros id m H. exfalso. exact (lookup_empty_Some _ _ H). Qed.

Lemma sys_run_queue ops objs : wf (db_queue (System.sys_run ops (migrated_db, objs)).1).
Proof. apply (pr_queue _ _ (sys_run_progress ops (migrated_db, objs))). apply wf_empty. Qed.

(** C5. Outbox invariant: after any history of operations from the migrated database, every
    message that waits to be sent has its delivery job in the work queue, and the queue
    is sound. *)
Theorem outbox_invariant ops objs :
  outbox (System.sys_run ops (migrated_db, objs)).1 /\ wf (db_queue (System.sys_run ops (migrated_db, objs)).1).
Proof.
  split; [|apply sys_run_queue].
  exact (pr_outbox _ _ (sys_run_progress ops (migrated_db, objs)) wf_empty migrated_outbox).
Qed.

(** ** Accounts *)

(** C31. Account lifecycles only move forward: no operation removes an account row; its
    state goes from pending consent to active to deleting to deleted, and a deleted
    account stays deleted through any history. *)
Theorem account_lifecycle_forward ops (w : System.world) a r :
  accounts w.1 !! a = Some r ->
  exists r', accounts (System.sys_run ops w).1 !! a = Some r'
    /\ leads (Receipt.acc_lifecycle_state r) (Receipt.acc_lifecycle_state r')
    /\ (Receipt.acc_lifecycle_state r = s! "deleted" -> Receipt.acc_lifecycle_state r' = s! "deleted").
Proof.
  intros Ha. destruct (pr_accounts _ _ (sys_run_progress ops w) a r Ha) as (r' & Hr & Hl).
  exists r'. split; [exact Hr|]. split; [exact Hl|]. intros E. rewrite E in Hl. exact (leads_deleted _ Hl).
Qed.
End Histories.
