(* ===== verification/RuntimeProps.v ===== *)
(** * Properties of the runtime

    The supervisor always comes to a stop, and with success only after a signal; the worker
    keeps to its concurrency and does to the system only what histories of the system do. *)

From S2P Require Import Prelude RustStr RustStrFacts Platform Errors Work WorkProps Schedule ReceiptTypes Receipt ReceiptFrame ReceiptSpec Database Insight IngressTypes.
From S2P Require Import ConfigLoad IngressStore Outbound Scheduler Jobs Provider Http FsStore System SystemFrame SystemProps Demo Update Operator Runtime.

Module RuntimeProps.
Import Http Runtime.
#[local] Opaque lit.

(** What every step preserves holds along every run. *)
Lemma rtc_invariant {A} (R : relation A) (P : A -> Prop) x y :
  (forall a b, R a b -> P a -> P b) -> rtc R x y -> P x -> P y.
Proof. intros Hstep Hrun. induction Hrun as [|a b c Hab _ IH]; eauto. Qed.

(** ** The supervisor *)

(** What a task, the phase and the listener still have to go through. *)
Definition task_weight (e : option task_end) : nat := match e with None => 2 | Some _ => 1 end.
Definition phase_weight (ph : phase) : nat := match ph with Serving => 2 | Draining => 1 | Stopped _ => 0 end.
Definition tasks_weight (ts : tasks) : nat := map_fold (fun _ e n => task_weight e + n)%nat 0%nat ts.
Definition supervisor_weight (s : supervisor) : nat :=
  tasks_weight (sp_tasks s) + phase_weight (sp_phase s) + match sp_listener s with None => 1 | Some _ => 0 end.

Lemma tasks_weight_insert (role : rstr) (e : option task_end) (ts : tasks) :
  ts !! role = None -> tasks_weight (<[role := e]> ts) = (task_weight e + tasks_weight ts)%nat.
Proof. intros H. unfold tasks_weight. rewrite map_fold_insert_L; [reflexivity| |exact H]. intros. lia. Qed.

Lemma tasks_weight_delete (role : rstr) (e : option task_end) (ts : tasks) :
  ts !! role = Some e -> tasks_weight ts = (task_weight e + tasks_weight (delete role ts))%nat.
Proof.
  intros H. rewrite <- (insert_delete_id ts role e H) at 1. apply tasks_weight_insert. apply lookup_delete_eq.
Qed.

Lemma tasks_weight_end (role : rstr) (e : task_end) (ts : tasks) :
  ts !! role = Some None -> (tasks_weight (<[role := Some e]> ts) < tasks_weight ts)%nat.
Proof.
  intros H. rewrite (tasks_weight_delete role None ts H). rewrite <- insert_delete_eq.
  rewrite tasks_weight_insert by apply lookup_delete_eq. simpl. lia.
Qed.

(** Every step of the supervisor uses something up. *)
Lemma supervisor_step_weight s t : supervisor_step s t -> (supervisor_weight t < supervisor_weight s)%nat.
Proof.
  destruct 1 as [s role e Hp Ht|s Hp Hl|s Hp Hl|s Hp Hl|s Hp Hl|s role e Hp Ht Hf|s role e Hp Ht Hf|? ?
    [s role e Hp Ht Hd|s role e Hp Ht Hd|s Hp He|s Hp He]]; unfold supervisor_weight; simpl; unfold abort_role_tasks;
    first [rewrite Hl|idtac]; first [rewrite Hp|idtac]; simpl; try lia;
    try (pose proof (tasks_weight_end role e _ Ht)); try (pose proof (tasks_weight_delete role _ _ Ht)); simpl in *; try lia.
  all: assert (tasks_weight ∅ = 0%nat) by (unfold tasks_weight; apply map_fold_empty); destruct (sp_listener s); lia.
Qed.

(** What holds of every state on the way: a stop comes with the shutdown signal sent and
    readiness withdrawn, draining and success come only after a signal. *)
Record supervised (s : supervisor) : Prop := {
  sd_ready : sp_shutdown s = true -> shutting_down (sp_readiness s) = true;
  sd_listener : sp_listener s = Some true -> sp_shutdown s = true;
  sd_draining : sp_phase s = Draining -> sp_listener s = Some true;
  sd_stopped : forall code, sp_phase s = Stopped code ->
    sp_shutdown s = true /\ (code = Errors.Success /\ sp_listener s = Some true /\ sp_tasks s = ∅ \/ code = Errors.RuntimeError);
}.

Lemma supervised_start roles readiness : supervised (start_supervisor roles readiness).
Proof. split; simpl; discriminate. Qed.

Lemma supervised_step s t : supervisor_step s t -> supervised s -> supervised t.
Proof.
  intros Hs [Hr Hli Hd Hst].
  destruct Hs as [| | | | | | |? ? []]; split; simpl in *; try (intros; first [done|congruence|tauto]);
    try (intros code E; rewrite E in *; first [done|injection E as <-]);
    try (intros E; rewrite E in *; first [done|injection E as <-]);
    repeat match goal with H : sp_phase _ = _ |- _ => rewrite H in * end; try done.
  1: { intros Hp. rewrite (Hd Hp) in *. done. }
  all: intros code [= <-]; split; auto 6.
Qed.

Lemma supervised_reach roles readiness s : rtc supervisor_step (start_supervisor roles readiness) s -> supervised s.
Proof. intros Hrun. exact (rtc_invariant _ _ _ _ supervised_step Hrun (supervised_start roles readiness)). Qed.

(** A state that is not stopped can go on. *)
Lemma supervisor_goes_on s : is_stopped (sp_phase s) = false -> exists t, supervisor_step s t.
Proof.
  intros Hp. destruct (sp_phase s) as [| |code] eqn:Ep; [| |discriminate].
  - destruct (sp_listener s) as [[|]|] eqn:El; [eexists; apply SeesSignal|eexists; apply SeesListenerDead|eexists; apply Signal];
      try done. rewrite Ep. done.
  - destruct (decide (sp_tasks s = ∅)); eexists; apply DrainsOn; [apply Drained|apply DrainDeadline]; done.
Qed.

(** The end of the process is final. *)
Lemma supervisor_final s t : is_stopped (sp_phase s) = true -> ~ supervisor_step s t.
Proof.
  intros Hp Hs. destruct Hs as [| | | | | | |? ? []]; try congruence;
    match goal with H : sp_phase _ = _ |- _ => rewrite H in Hp; discriminate Hp end.
Qed.

Lemma supervisor_bounded n s t : nsteps supervisor_step n s t -> (n + supervisor_weight t <= supervisor_weight s)%nat.
Proof. induction 1 as [|n x y z Hxy _ IH]; [lia|]. pose proof (supervisor_step_weight x y Hxy). lia. Qed.


(** ** The worker *)

Section Worker.
Context `{CH : Chrono} `{CT : ChronoText} `{PG : Postgres} `{UT : UuidText} `{IL : ImageLib} `{SJ : SerdeJson}
  `{UC : UnicodeCase} `{OS : ReceiptTypes.ObjectStore} `{XT : ReceiptTypes.Extractor} `{NR : Insight.Narrator}.
Context (deps : Jobs.JobDeps) (outbound_delivery send_timeout_seconds : Z) (lease_owner : rstr).

#[local] Abbreviation step := (worker_step deps outbound_delivery send_timeout_seconds lease_owner).

(** [w'] is reached from [w] by operations of the system. *)
Definition follows (w w' : System.world) : Prop := exists ops, w' = System.sys_run ops w.

Lemma follows_refl w : follows w w.
Proof. exists []. reflexivity. Qed.

Lemma follows_op w w' o : follows w w' -> follows w (System.sys_exec o w').
Proof. intros [ops ->]. exists (ops ++ [o]). unfold System.sys_run. rewrite fold_left_app. reflexivity. Qed.

(** A step of a job is an operation of the system, or leaves it alone. *)
Lemma flight_follows shutdown w0 w f w' st :
  flight_step deps send_timeout_seconds shutdown w f w' st -> follows w0 w -> follows w0 w'.
Proof.
  intros Hf Hw. destruct Hf as [env _|now _|now _ _|_|now x _]; [| | |exact Hw|].
  - exact (follows_op _ _ (System.OJob env deps (fl_job f)) Hw).
  - exact (follows_op _ _ (System.OQueue now (Work.OHeartbeat (Work.cl_id (fl_job f)) (Work.cl_lease_token (fl_job f))
             (lease_secs send_timeout_seconds))) Hw).
  - exact (follows_op _ _ (System.OQueue now (Work.OFail (Work.cl_id (fl_job f)) (Work.cl_lease_token (fl_job f))
             Errors.Transient)) Hw).
  - exact (follows_op _ _ (System.OReport now (fl_job f) x) Hw).
Qed.

Record working (w0 : System.world) (k : worker) : Prop := {
  wo_world : follows w0 (wk_world k);
  wo_flights : (length (wk_flights k) <= capacity outbound_delivery)%nat;
  wo_finishing : wk_phase k = Finishing -> wk_shutdown k = true;
  wo_ending : forall r, wk_phase k = Ending r ->
    wk_flights k = [] /\ (r = Ok tt /\ wk_shutdown k = true
                         \/ exists error, r = Err (Errors.AppError.internal (s! "worker handler task failed: " ++ error)));
}.

Lemma working_start w0 : working w0 (start_worker w0).
Proof. split; simpl; try discriminate; [apply follows_refl|lia]. Qed.

(** A joined task leaves the invariant. *)
Lemma joins_working w0 k before f after ok : is_ending (wk_phase k) = false -> wk_flights k = before ++ f :: after ->
  working w0 k -> working w0 (joins before after ok k).
Proof.
  intros Hp Hfl [Hw Hf Hfi He]. rewrite Hfl, length_app in Hf. simpl in Hf. destruct ok; split; simpl; auto; try (intros; congruence); try lia.
  - rewrite length_app. lia.
  - intros r Hr. rewrite Hr in Hp. discriminate Hp.
  - intros r Hr. injection Hr as <-. eauto 6.
Qed.

Lemma finish_working w0 k k' : finish_step k k' -> working w0 k -> working w0 k'.
Proof.
  intros Hs Hk. destruct Hs as [k Hp Hfl|k before f after ok Hp Hfl Hst|k Hp].
  - destruct Hk as [Hw Hf Hfi He]. split; simpl; auto. intros r Hr. injection Hr as <-. auto.
  - apply (joins_working w0 k before f); [by rewrite Hp|exact Hfl|exact Hk].
  - destruct Hk as [Hw Hf Hfi He]. split; simpl; auto; [lia|]. intros r Hr. injection Hr as <-. auto.
Qed.

Lemma working_step w0 k k' : step k k' -> working w0 k -> working w0 k'.
Proof.
  intros Hs Hk. destruct Hs as [k o|k|k now env Hp Hc|k before f after w st Hp Hfl Hst|k before f after ok Hp Hfl Hst
    |k Hp Hsd|k k' Hs];
    [| | | |apply (joins_working w0 k before f); [by rewrite Hp|exact Hfl|exact Hk]| |exact (finish_working w0 k k' Hs Hk)];
    destruct Hk as [Hw Hf Hfi He].
  - split; simpl; auto. apply follows_op. exact Hw.
  - split; simpl; auto. intros r Hr. destruct (He r Hr) as [H1 [[H2 H3]|H2]]; auto.
  - set (res := (Work.claim _ _ _ _).2). assert (Hnew : follows w0 (wk_world k)) by exact Hw.
    apply (follows_op _ _ (System.OQueue now (Work.OClaim (claim_options send_timeout_seconds lease_owner) env))) in Hnew.
    destruct res as [[|job jobs]|e]; split; simpl; auto; try (intros; congruence).
    rewrite length_app. simpl. lia.
  - rewrite Hfl, length_app in Hf. simpl in Hf.
    split; simpl; auto; [exact (flight_follows _ _ _ _ _ _ Hst Hw)|rewrite length_app; exact Hf|].
    intros r Hr. rewrite Hr in Hp. discriminate Hp.
  - split; simpl; auto. discriminate.
Qed.

Lemma working_reach w0 k : rtc step (start_worker w0) k -> working w0 k.
Proof. intros Hrun. exact (rtc_invariant _ _ _ _ (working_step w0) Hrun (working_start w0)). Qed.

(** The rounds of the other roles. *)
Lemma scheduler_round_follows owner db_now now fresh row_locked w :
  follows w (scheduler_round owner db_now now fresh row_locked w).
Proof.
  pose proof (follows_op w w (System.OLease Scheduler.ROLE db_now owner Scheduler.LEASE_DURATION_SECS) (follows_refl w)) as H.
  cbn [System.sys_exec] in H. unfold scheduler_round.
  destruct (Scheduler.try_acquire_role_lease _ _ _ _ _) as [d [|]]; [|exact H].
  exact (follows_op _ _ (System.OTick db_now now fresh row_locked) H).
Qed.
Lemma maintenance_round_follows owner env l1 l2 w : follows w (maintenance_round owner env l1 l2 w).
Proof.
  pose proof (follows_op w w (System.OLease MAINTENANCE_ROLE (Jobs.je_db_now env) owner MAINTENANCE_LEASE_DURATION_SECS)
    (follows_refl w)) as H.
  cbn [System.sys_exec] in H. unfold maintenance_round, maintenance_lease.
  destruct (Scheduler.try_acquire_role_lease _ _ _ _ _) as [d [|]]; [|exact H].
  exact (follows_op _ _ (System.OMaintenance env l1 l2) H).
Qed.

End Worker.

(** ** Start-up *)

Section Start.
Context {UL : UrlLib} {SM : SqlxMigrate}.
Context (p : Operator.process) (zalo_client s3_client gemini_client : bool).

Lemma or_exit_ok {A} (pr : Update.upd A) m m' a : or_exit pr m = (m', Ok a) -> pr m = (m', Ok a).
Proof. unfold or_exit. destruct (pr m) as [m1 [a1|e]]; [|discriminate]. intros [= -> ->]. reflexivity. Qed.

Lemma start_bind {A B} (pr : prog Update.machine Errors.ExitCode A) (f : A -> prog Update.machine Errors.ExitCode B) m m' b :
  p_bind pr f m = (m', Ok b) -> exists m1 a, pr m = (m1, Ok a) /\ f a m1 = (m', Ok b).
Proof. intros [(e & _ & [=])|H]%p_bind_inv. exact H. Qed.

(** The adapter is there for the roles that send or receive, and a webhook secret is one
    that [valid_runtime_secret] lets through. *)
Lemma start_adapter_ok c roles m m' a : start_adapter p zalo_client c roles m = (m', Ok a) ->
  m' = m /\ (has_role roles Jobs.RIngress || has_role roles Jobs.RWorker = true <-> is_Some a)
  /\ (has_role roles Jobs.RIngress = true -> forall cfg, a = Some cfg -> Jobs.valid_runtime_secret (Provider.webhook_secret cfg) = true).
Proof.
  unfold start_adapter. destruct (has_role roles Jobs.RIngress || has_role roles Jobs.RWorker) eqn:Hr.
  - intros [(e & _ & [=])|(m1 & token & Ht & H)]%p_bind_inv. injection Ht as <- _.
    apply p_bind_inv in H as [(e & _ & [=])|(m2 & secret & Hs & H)].
    assert (m2 = m /\ (has_role roles Jobs.RIngress = true -> Jobs.valid_runtime_secret secret = true)) as [-> Hvalid].
    { unfold webhook_secret_of in Hs. destruct (has_role roles Jobs.RIngress); [|by injection Hs as <- _].
      injection Hs as <- Hs. apply res_bind_ok in Hs as (value & _ & Hv).
      destruct (Jobs.valid_runtime_secret value) eqn:E; [|discriminate]. injection Hv as <-. auto. }
    destruct (negb zalo_client); [discriminate|]. injection H as <- <-.
    split; [reflexivity|]. split; [split; eauto|]. intros Hi cfg [= <-]. exact (Hvalid Hi).
  - intros [= <- <-]. split; [reflexivity|]. split; [split; [discriminate|intros [? [=]]]|]. intros _ cfg [=].
Qed.

(** Building the stores leaves the database alone. *)
Lemma build_object_store_applied c m m' s :
  Operator.build_object_store p s3_client c m = (m', Ok s) -> Update.applied m' = Update.applied m.
Proof.
  intros H. apply (f_equal fst) in H. simpl in H. rewrite <- H. unfold Operator.build_object_store.
  destruct (ConfigLoad.r_storage_backend c); try reflexivity. destruct (FsStore.new _ _ _) as [f r]. reflexivity.
Qed.

(** [ready] in what [start_database] reports: every migration is in the table. *)
Lemma start_database_ready m m' r : start_database m = (m', Ok r) ->
  is_ready r = true -> exists rows, Update.applied m' = Some rows /\ Update.MIGRATOR_LEN <= Z.of_nat (length rows).
Proof.
  intros (m1 & _ & _ & H)%start_bind. apply start_bind in H as (m2 & _ & _ & H). apply or_exit_ok in H. revert H.
  unfold p_try, Update.check_connection, Update.connect, Update.check_migrations_current, p_bind, Update.db_call. simpl.
  generalize (Operator.is_ok (ok_or (Update.done_if (negb (Update.breaks (hd Update.Works (Update.outcomes m2)))))
    (Errors.AppError.dependency (s! "database connection failed")))). intros connected H Hready.
  destruct (Update.breaks _); [by injection H as <- <-; destruct connected|].
  destruct (Update.applied m2) as [rows|] eqn:Ea; [|by injection H as <- <-; destruct connected].
  injection H as <- <-. exists rows. split; [reflexivity|].
  unfold is_ready in Hready. cbn in Hready. rewrite !andb_true_iff in Hready.
  apply Z.leb_le. exact (proj2 (proj1 Hready)).
Qed.

Lemma has_role_true roles r : has_role roles r = true <-> r ∈ roles.
Proof. apply bool_decide_eq_true. Qed.

End Start.
End RuntimeProps.
