(* ===== verification/CliProps.v ===== *)
(** * What the commands of the operator may touch

    Each command has a footprint: whether it may write files, run migrations, and change
    the tables.  Whatever calls fail on the way, a command keeps to its footprint, and the
    destructive ones do nothing without [--yes]. *)

From S2P Require Import Prelude RustStr RustStrFacts Platform Errors Paths ConfigTypes Work ConfigLayers ReceiptTypes Receipt.
From S2P Require Import Database Insight Jobs Provider Media Http Extractors FsStore S3Store ConfigLoad Update System Operator Runtime Cli.

Module CliProps.
Import Db FsStore Errors.AppError Update Operator Cli.
#[local] Opaque lit.

(** ** Footprints *)

Record footprint := { on_files : bool; on_migrations : bool; on_tables : bool }.
Definition reads_only : footprint := {| on_files := false; on_migrations := false; on_tables := false |}.
Definition writes_files : footprint := {| on_files := true; on_migrations := false; on_tables := false |}.
Definition changes_tables : footprint := {| on_files := false; on_migrations := false; on_tables := true |}.

Definition within (ft : footprint) (m m' : machine) : Prop :=
  (on_files ft = false -> files m' = files m)
  /\ (on_migrations ft = false -> applied m' = applied m)
  /\ (on_tables ft = false -> tables m' = tables m).

#[export] Instance within_preorder ft : PreOrder (within ft).
Proof.
  split; [by intros m|]. intros a b c (A1 & A2 & A3) (B1 & B2 & B3).
  split; [|split]; intros E; [rewrite (B1 E), (A1 E)|rewrite (B2 E), (A2 E)|rewrite (B3 E), (A3 E)]; reflexivity.
Qed.

(** What a command may touch. *)
Definition footprint_of (c : Commands) : footprint :=
  match c with
  | CDb DbMigrate => {| on_files := false; on_migrations := true; on_tables := false |}
  | CJobs (JRetry _ | JCancel _) | CIngress (IWebhook | IPoll) => changes_tables
  | Doctor (Some DObjectStore) | Backup _ | Diagnose _ | CUpdate (Rollback true _ _) => writes_files
  | Restore _ true => {| on_files := false; on_migrations := true; on_tables := true |}
  | CUpdate (Apply _ _ _ _ _ _ true _ skip_migrate _ _) =>
      {| on_files := true; on_migrations := negb skip_migrate; on_tables := false |}
  | Run _ => {| on_files := true; on_migrations := true; on_tables := false |}
  | _ => reads_only
  end.

(** The commands that ask for [--yes] and did not get it. *)
Definition unconfirmed (c : Commands) : bool :=
  match c with
  | Restore _ false | CUpdate (Apply _ _ _ _ _ _ false _ _ _ _) | CUpdate (Rollback false _ _) => true
  | _ => false
  end.

(** ** The single calls *)

Lemma print_within ft l : preserves (within ft) (print l).
Proof. by intros m. Qed.
Lemma query_within ft {A} (q : db -> A) e : preserves (within ft) (query q e).
Proof. by intros m. Qed.
Lemma reading_within ft {A} (op : outcome -> fs -> fs * option A) e : (forall o f, (op o f).1 = f) ->
  preserves (within ft) (file_call op e).
Proof. intros H m. unfold file_call. specialize (H (hd Works (outcomes m)) (files m)). by destruct (op _ _). Qed.
Lemma writing_within ft {A} (op : outcome -> fs -> fs * option A) e : on_files ft = true ->
  preserves (within ft) (file_call op e).
Proof. intros H m. unfold file_call, within. destruct (op _ _). by rewrite H. Qed.
Lemma db_reading_within ft {A} (op : outcome -> migration_table -> migration_table * option A) e :
  (forall o t, (op o t).1 = t) -> preserves (within ft) (db_call op e).
Proof. intros H m. unfold db_call. specialize (H (hd Works (outcomes m)) (applied m)). by destruct (op _ _). Qed.
Lemma migrate_within {SM : SqlxMigrate} ft : on_migrations ft = true -> preserves (within ft) migrate.
Proof. intros H m. unfold migrate, db_call, within. destruct (migrator_run _ _). cbn. by rewrite H. Qed.
Lemma on_work_within ft {A} (f : Work.db -> Work.db * result A Work.WorkError) : on_tables ft = true ->
  preserves (within ft) (on_work f).
Proof. intros H m. unfold on_work, within. destruct (f _) as [q r]. by rewrite H. Qed.
Lemma pg_dump_within {PGT : PgTools} ft url output : on_files ft = true -> preserves (within ft) (pg_dump_run url output).
Proof.
  intros H m. unfold pg_dump_run, within. destruct (hd _ _) as [|? [part|]]; [destruct (FsStore.write _ _ _ _)|..]; by rewrite H.
Qed.
Lemma pg_restore_within {PGT : PgTools} ft url input : on_migrations ft = true -> on_tables ft = true ->
  preserves (within ft) (pg_restore_run url input).
Proof.
  intros H1 H2 m. unfold pg_restore_run, within. rewrite H1, H2. split; [|by split].
  destruct (hd _ _) as [|? [part|]]; destruct (files m !! input) as [[bytes|]|]; try done. by destruct (pg_restore _ _ _).
Qed.

Lemma attempt_within ft {A} (pr : upd A) : preserves (within ft) pr -> preserves (within ft) (attempt_of pr).
Proof. intros H. apply preserves_try; [apply within_preorder|exact H|]. intros r. apply preserves_ret, within_preorder. Qed.

(** Their names. *)
Lemma println_within ft t : preserves (within ft) (println t).
Proof. apply print_within. Qed.
Lemma eprintln_within ft t : preserves (within ft) (eprintln t).
Proof. apply print_within. Qed.
Lemma check_within ft {A} (r : result A AppError) : preserves (within ft) (check r).
Proof. apply preserves_read, within_preorder. Qed.
Lemma fs_read_within ft q e : preserves (within ft) (fs_read q e).
Proof. by apply reading_within. Qed.
Lemma path_exists_within ft q : preserves (within ft) (path_exists q).
Proof. by apply reading_within. Qed.
Lemma path_is_dir_within ft q : preserves (within ft) (path_is_dir q).
Proof. by apply reading_within. Qed.
Lemma read_dir_within ft q e : preserves (within ft) (file_call (read_dir_op q) e).
Proof. by apply reading_within. Qed.
Lemma permissions_within ft q e : preserves (within ft) (file_call (set_permissions_op q) e).
Proof. by apply reading_within. Qed.
Lemma dir_names_within ft q e : preserves (within ft) (file_call (dir_names_op q) e).
Proof. by apply reading_within. Qed.
Lemma create_pool_within ft : preserves (within ft) create_pool.
Proof. by apply db_reading_within. Qed.
Lemma check_connection_within ft : preserves (within ft) check_connection.
Proof. by apply db_reading_within. Qed.

Create HintDb footprint.
#[export] Hint Constants Opaque : footprint.
#[export] Hint Extern 0 (PreOrder _) => apply within_preorder : footprint.
#[export] Hint Resolve preserves_ret preserves_err preserves_read print_within query_within : footprint.
#[export] Hint Resolve println_within eprintln_within check_within fs_read_within path_exists_within path_is_dir_within : footprint.
#[export] Hint Resolve read_dir_within permissions_within dir_names_within : footprint.
#[export] Hint Extern 0 (preserves _ create_pool) => simple apply create_pool_within : footprint.
#[export] Hint Extern 0 (preserves _ check_connection) => simple apply check_connection_within : footprint.
#[export] Hint Extern 0 (preserves _ migrate) => simple apply migrate_within : footprint.
#[export] Hint Resolve writing_within on_work_within pg_dump_within pg_restore_within : footprint.
#[export] Hint Extern 1 (preserves _ (db_call _ _)) => simple apply db_reading_within; intros [] ?; reflexivity : footprint.

(** Through the structure of a program, the single calls by the hints. *)
Ltac footed :=
  repeat first
    [ progress intros
    | match goal with
      | |- preserves _ (p_bind _ _) => simple apply preserves_bind
      | |- preserves _ (p_try _ _) => simple apply preserves_try
      | |- preserves _ (attempt_of _) => simple apply attempt_within
      | |- preserves _ (match ?x with _ => _ end) => destruct x
      | |- preserves _ (let _ := _ in _) => cbv zeta
      end
    | solve [eauto 3 with footprint] ].

(** ** The commands *)

Section Commands.
Context {UL : UrlLib} {UP : UrlPath} {TL : TomlLib} {SH : Sha256} {HM : HmacSha256} {B64 : Base64} {ED : Ed25519}
  {SM : SqlxMigrate} {PGT : PgTools} {SP : SerdeParse} {SJ : SerdeJson} {SPr : SerdePretty} {UT : UuidText} {CT : ChronoText}
  {CD : ChronoDisplay}.
Context (p : process) (ARCH : rstr) (now : Z) (last_received_at : db -> option Z) (fresh : uuid).
Context (http_get : rstr -> health_answer) (zalo_client s3_client gemini_client : bool).
Context (serve : S3Store.s3_request -> nat -> S3Store.s3_answer) (clock : nat -> rstr).
Context (systemd : bool) (journalctl : list rstr -> option bool).

Lemma print_lines_within ft ls : preserves (within ft) (print_lines ls).
Proof. induction ls as [|l ls IH]; cbn; footed. Qed.
Hint Resolve print_lines_within : footprint.

Lemma load_within ft path : preserves (within ft) (Operator.load p path).
Proof. apply preserves_read. apply within_preorder. Qed.
Hint Resolve load_within : footprint.

Lemma current_within ft : preserves (within ft) check_migrations_current.
Proof. unfold check_migrations_current. footed. Qed.
Lemma schema_within ft : preserves (within ft) current_database_schema.
Proof. unfold current_database_schema. footed. Qed.
Hint Extern 0 (preserves _ check_migrations_current) => simple apply current_within : footprint.
Hint Extern 0 (preserves _ current_database_schema) => simple apply schema_within : footprint.

Lemma status_within ft : preserves (within ft) (collect_status now last_received_at).
Proof. unfold collect_status. footed. Qed.
Hint Resolve status_within : footprint.

Lemma jobs_within c : preserves (within (footprint_of (CJobs c))) (run_jobs now c).
Proof. destruct c; cbn [run_jobs]; unfold run_jobs_list, run_jobs_show, run_jobs_retry, run_jobs_cancel; footed. Qed.
Hint Resolve jobs_within : footprint.

Lemma ingress_within c : preserves (within (footprint_of (CIngress c))) (run_ingress c).
Proof.
  assert (Hs : forall mode, preserves (within changes_tables) (run_ingress_switch mode)).
  { intros mode. unfold run_ingress_switch. footed.
    intros m. cbv zeta. destruct (breaks _); [by split|]. destruct (System.run_ingress_switch _ _). by split. }
  destruct c; cbn [run_ingress footprint_of]; [|apply Hs..]. unfold run_ingress_status. footed.
Qed.

Lemma backup_within ft c output : on_files ft = true -> preserves (within ft) (run_backup c output).
Proof. intros H. unfold run_backup. footed. Qed.
Lemma restore_within c input yes : preserves (within (footprint_of (Restore input yes))) (run_restore c input yes).
Proof. unfold run_restore. destruct yes; cbn [negb]; footed. Qed.
Hint Resolve ingress_within backup_within restore_within : footprint.

Lemma read_keys_within ft ps : preserves (within ft) (read_keys ps).
Proof. induction ps as [|q ps IH]; cbn; footed. Qed.
Hint Resolve read_keys_within : footprint.
Lemma verify_within ft paths : preserves (within ft) (verify_artifact paths).
Proof. unfold verify_artifact, load_public_keys. footed. Qed.
Lemma replace_within ft src dest : on_files ft = true -> preserves (within ft) (atomic_replace src dest).
Proof. intros H. unfold atomic_replace, create_parent. footed. Qed.
Lemma write_json_within ft q md : on_files ft = true -> preserves (within ft) (write_json q md).
Proof. intros H. unfold write_json. footed. Qed.
Hint Resolve verify_within replace_within write_json_within : footprint.
Lemma restore_previous_within ft paths schema : on_files ft = true -> preserves (within ft) (restore_previous paths schema).
Proof. intros H. unfold restore_previous. footed. Qed.
Lemma snapshot_within ft paths : on_files ft = true -> preserves (within ft) (snapshot_current ARCH paths).
Proof. intros H. unfold snapshot_current, sha256_file. footed. Qed.
Hint Resolve restore_previous_within snapshot_within : footprint.

Lemma apply_within c paths options : yes options = true ->
  preserves (within {| on_files := true; on_migrations := negb (skip_migrate options); on_tables := false |})
    (run_apply ARCH http_get c paths options).
Proof.
  intros Hy. unfold run_apply. rewrite Hy. cbn [negb]. unfold install_artifact, confirm_or_restore, announce.
  footed.
Qed.

Lemma update_within c command : preserves (within (footprint_of (CUpdate command))) (run_update ARCH http_get c command).
Proof.
  unfold run_update. destruct command as [a m s k i d|a m s k i d [] sb sm sh url|[] i d]; cbn [footprint_of].
  - unfold run_preflight. footed.
  - footed. exact (apply_within c _ {| Update.yes := true; skip_backup := sb; skip_migrate := sm; skip_health := sh;
      health_url := url |} eq_refl).
  - unfold run_apply. cbn [Update.yes negb]. footed.
  - unfold run_rollback. cbn [negb]. footed.
  - unfold run_rollback. cbn [negb]. footed.
Qed.
Hint Resolve update_within : footprint.

Lemma build_store_within ft c : on_files ft = true -> preserves (within ft) (build_object_store p s3_client c).
Proof.
  intros H. unfold build_object_store. footed. intros m. unfold within. rewrite H. by destruct (FsStore.new _ _ _).
Qed.
Hint Resolve build_store_within : footprint.

Lemma on_files_within ft {A} n (pr : list outcome -> fs -> fs * result A ReceiptTypes.ReceiptError) : CliProps.on_files ft = true ->
  preserves (within ft) (Operator.on_files n pr).
Proof. intros H m. unfold Operator.on_files, within. rewrite H. by destruct (pr _ _). Qed.
Lemma with_error_within ft {A} (pr : prog machine ReceiptTypes.ReceiptError A) e :
  preserves (within ft) pr -> preserves (within ft) (with_error pr e).
Proof. intros H m. specialize (H m). unfold with_error. by destruct (pr m). Qed.
Lemma probe_within ft (s : receipt_store) : CliProps.on_files ft = true -> preserves (within ft) (probe_store fresh serve clock s).
Proof.
  intros H. destruct s; cbn [probe_store]; [by intros m| |by intros m]. unfold probe.
  pose proof (@on_files_within ft). footed; apply with_error_within; auto.
Qed.
Hint Resolve probe_within : footprint.

Lemma doctor_within path active :
  preserves (within (footprint_of (Doctor active))) (run_doctor p http_get s3_client fresh serve clock path (probe_of <$> active)).
Proof.
  unfold run_doctor, doctor_database, run_active_probe, probe_http, report, Operator.validate.
  destruct active as [[]|]; cbn [fmap option_fmap option_map probe_of footprint_of]; footed.
Qed.

Lemma write_string_within ft q t : on_files ft = true -> preserves (within ft) (write_string q t).
Proof. intros H. unfold write_string. footed. Qed.
Lemma scan_within ft qs : preserves (within ft) (scan_files qs).
Proof. induction qs as [|q qs IH]; cbn; unfold scan_file; footed. Qed.
Hint Resolve doctor_within write_string_within scan_within : footprint.
Lemma diagnose_within c path output :
  preserves (within writes_files) (run_diagnose p now last_received_at c path output).
Proof. unfold run_diagnose, capture_doctor_json. footed. Qed.
Lemma logs_within ft follow since : preserves (within ft) (run_logs systemd journalctl follow since).
Proof. unfold run_logs. footed. Qed.
Hint Resolve diagnose_within logs_within : footprint.

Lemma or_exit_within ft {A} (pr : upd A) : preserves (within ft) pr -> preserves (within ft) (Runtime.or_exit pr).
Proof. intros H m. specialize (H m). unfold Runtime.or_exit. by destruct (pr m). Qed.
Lemma start_within ft c roles : on_files ft = true -> on_migrations ft = true ->
  preserves (within ft) (Cli.run p zalo_client s3_client gemini_client c roles).
Proof.
  intros Hf Hm.
  assert (H : preserves (within ft) (Runtime.start p zalo_client s3_client gemini_client c roles)).
  { unfold Runtime.start, Runtime.start_database, Runtime.start_adapter, Runtime.webhook_secret_of.
    footed; try (simple apply or_exit_within); footed. }
  intros m. specialize (H m). unfold Cli.run. by destruct (Runtime.start _ _ _ _ _ _ m).
Qed.
Hint Resolve start_within : footprint.

Lemma finish_within ft (pr : upd unit) : preserves (within ft) pr -> preserves (within ft) (finish pr).
Proof. intros H. unfold finish. footed. Qed.

Abbreviation run_command := (Cli.run_command p ARCH now last_received_at fresh http_get zalo_client s3_client gemini_client
  serve clock systemd journalctl).
Abbreviation execute := (Cli.execute p ARCH now last_received_at fresh http_get zalo_client s3_client gemini_client
  serve clock systemd journalctl).

Lemma run_command_within cli : preserves (within (footprint_of (command cli))) (run_command cli).
Proof.
  unfold Cli.run_command. cbv zeta. generalize (config_path cli). intros path.
  destruct (command cli) as [[]|[]|json|c|active|c|output|input yes|follow since|output|c|roles];
    [simple apply finish_within..|]; unfold Operator.validate, run_status; footed.
Qed.

(** A destructive command without [--yes] ends in an error. *)
Lemma unconfirmed_fails cli m m' r : unconfirmed (command cli) = true -> run_command cli m = (m', r) -> exists e, r = Err e.
Proof.
  intros Hu. unfold Cli.run_command, finish. cbv zeta.
  destruct (command cli) as [[]|[]|json|c|active|c|output|input [|]|follow since|output|[|? ? ? ? ? ? [|]|[|]]|roles]; try discriminate Hu;
    intros [(e & _ & ->)|(m1 & [] & H & _)]%p_bind_inv; eauto; exfalso.
  all: apply p_bind_inv in H as [(e & _ & [=])|(m2 & c & _ & H)].
  - discriminate H.
  - apply p_bind_inv in H as [(e & _ & [=])|(m3 & u & _ & H)]. discriminate H.
  - apply p_bind_inv in H as [(e & _ & [=])|(m3 & u & _ & H)].
    apply p_bind_inv in H as [(e & _ & [=])|(m4 & n & _ & H)]. discriminate H.
Qed.

(** C28. Operator commands keep to their footprint: whatever the machine and whichever calls
    fail, a command writes files, applies migrations or changes the tables only where its
    kind does - inspection commands and a refused command touch nothing, job recovery and
    the ingress switch only the tables, an update never the tables.  Without [--yes],
    restore, update and rollback end in an error: its JSON line is the last thing printed,
    and the exit code is the one of its class, not zero. *)
Theorem operator_commands_confined cli m :
  within (footprint_of (command cli)) m (execute cli m).1
  /\ (unconfirmed (command cli) = true ->
      within reads_only m (execute cli m).1
      /\ exists e, (execute cli m).2 = Exits (Errors.AppError.exit e)
                   /\ last (printed (execute cli m).1) = Some (Stderr (to_json_line e))
                   /\ Errors.as_i32 (Errors.AppError.exit e) <> 0).
Proof.
  unfold Cli.execute. pose proof (run_command_within cli m) as Hw.
  destruct (run_command cli m) as [m' r] eqn:E. cbn [fst] in Hw.
  assert (Hfin : forall ft, within ft m m' -> within ft m (match r with
            | Ok e => (m', e)
            | Err e => ((eprintln (to_json_line e) m').1, Exits (exit e))
            end).1) by (intros ft H; destruct r; exact H).
  split; [exact (Hfin _ Hw)|]. intros Hu. destruct (unconfirmed_fails cli m m' r Hu E) as [e ->]. split.
  - apply (Hfin reads_only). by destruct (command cli) as [| | | | | | |? []| | |[|? ? ? ? ? ? []|[]]|].
  - exists e. split; [reflexivity|]. split; [apply last_snoc|]. apply Errors.exit_code_nonzero.
Qed.
End Commands.
End CliProps.
