(* ===== verification/OperatorProps.v ===== *)
(** * What the operator is told

    The counts of the status report are those of the tables, and neither the job command
    nor a diagnostic bundle shows what it must not. *)

From S2P Require Import Prelude RustStr RustStrFacts Platform Errors Paths ConfigTypes Work ConfigLayers ReceiptTypes Receipt.
From S2P Require Import Database Insight Provider Media Http Extractors FsStore S3Store ConfigLoad Update System Operator Runtime Cli CliProps.

Module OperatorProps.
Import Db FsStore Errors.AppError Update Operator CliProps.
#[local] Existing Instance Work.JobState_eq_dec.
#[local] Opaque lit.

(** ** Counts *)

Lemma count_zero (k : rstr) keys : k ∉ keys -> length (List.filter (str_eqb k) keys) = 0%nat.
Proof.
  induction keys as [|x keys IH]; [reflexivity|]. intros H. rewrite not_elem_of_cons in H. destruct H as [H1 H2]. cbn.
  destruct (str_eqb k x) eqn:E; [by apply str_eqb_eq in E|]. exact (IH H2).
Qed.

(** Folding the rows of a [GROUP BY] into a record: a field that the row of [k] sets, and no
    other, ends up with the count of [k]. *)
Lemma group_fold {C} (step : C -> rstr * Z -> C) (get : C -> Z) (k : rstr) (keys : list rstr) (c : C) :
  (forall c row, get (step c row) = if str_eqb row.1 k then row.2 else get c) -> get c = 0 ->
  get (foldl step c (group_counts keys)) = Z.of_nat (length (List.filter (str_eqb k) keys)).
Proof.
  intros Hstep Hc. unfold group_counts.
  set (n := fun x : rstr => Z.of_nat (length (List.filter (str_eqb x) keys))).
  assert (H : forall l c, get (foldl step c (map (fun x => (x, n x)) l)) = if bool_decide (k ∈ l) then n k else get c).
  { clear Hc c. induction l as [|x l IH]; intros c; [reflexivity|]. cbn [map foldl]. rewrite IH, Hstep. cbn [fst snd].
    destruct (str_eqb x k) eqn:E; [apply str_eqb_eq in E; subst x|].
    - rewrite (bool_decide_eq_true_2 (k ∈ k :: l)) by left. by destruct (bool_decide _).
    - assert (k <> x) by (intros ->; by rewrite (proj2 (str_eqb_eq x x) eq_refl) in E).
      destruct (decide (k ∈ l)) as [Hi|Hi].
      + rewrite !bool_decide_eq_true_2; [reflexivity|by right|exact Hi].
      + rewrite !bool_decide_eq_false_2; [reflexivity|rewrite elem_of_cons; tauto|exact Hi]. }
  rewrite H. destruct (decide (k ∈ remove_dups keys)) as [Hi|Hi]; [by rewrite (bool_decide_eq_true_2 _ Hi)|].
  rewrite (bool_decide_eq_false_2 _ Hi), Hc. rewrite elem_of_remove_dups in Hi. by rewrite (count_zero k keys Hi).
Qed.

(** The rows of a list whose key is the text of [s]. *)
Lemma count_text {A S} `{EqDecision S} (text : S -> rstr) (f : A -> S) (l : list A) s :
  (forall a b, text a = text b -> a = b) ->
  length (List.filter (str_eqb (text s)) (map (fun x => text (f x)) l)) = length (filter (fun x => f x = s) l).
Proof.
  intros Hinj. induction l as [|x l IH]; [reflexivity|]. cbn [map List.filter]. rewrite filter_cons.
  destruct (str_eqb (text s) (text (f x))) eqn:E; destruct (decide (f x = s)) as [Hs|Hs].
  - cbn. by rewrite IH.
  - apply str_eqb_eq, Hinj in E. congruence.
  - subst s. by rewrite (proj2 (str_eqb_eq _ _) eq_refl) in E.
  - exact IH.
Qed.

Lemma job_state_inj a b : Work.JobState_as_str a = Work.JobState_as_str b -> a = b.
Proof. destruct a, b; vm_compute; congruence. Qed.
Lemma outbound_state_inj a b : outbound_state_str a = outbound_state_str b -> a = b.
Proof. destruct a, b; vm_compute; congruence. Qed.

(** Columns hold states and outcomes as text; what is written is read back, so the tables
    of the model can hold the values themselves. *)
Lemma stored_text_reads_back :
  (forall s, Work.JobState_parse (Work.JobState_as_str s) = Some s)
  /\ (forall o, AttemptOutcome_parse (AttemptOutcome_as_str o) = Some o).
Proof. split; intros []; reflexivity. Qed.

(** The field of a state. *)
Definition job_count (c : JobCounts) (s : Work.JobState) : Z :=
  match s with
  | Work.Queued => jc_queued c | Work.Leased => jc_leased c | Work.Completed => jc_completed c
  | Work.JobCancelled => jc_cancelled c | Work.Dead => jc_dead c
  end.
Definition outbound_count (c : OutboundCounts) (s : OutboundState) : Z :=
  match s with
  | ObQueued => oc_queued c | ObSending => oc_sending c | ObSent => oc_sent c | ObFailed => oc_failed c
  | ObSuppressed => oc_suppressed c | ObAmbiguous => oc_ambiguous c
  end.

(** Through the keys a row may have. *)
Ltac by_key k :=
  unfold count_jobs, count_outbound; cbn [fst snd];
  repeat (match goal with |- context [if str_eqb k ?t then _ else _] =>
            let E := fresh "E" in destruct (str_eqb k t) eqn:E; [apply str_eqb_eq in E; subst k; vm_compute; reflexivity|]
          end);
  reflexivity.

Lemma count_jobs_field s c row :
  job_count (count_jobs c row) s = if str_eqb row.1 (Work.JobState_as_str s) then row.2 else job_count c s.
Proof.
  destruct row as [k n], s; cbn [Work.JobState_as_str]; by_key k.
Qed.
Lemma count_outbound_field s c row :
  outbound_count (count_outbound c row) s = if str_eqb row.1 (outbound_state_str s) then row.2 else outbound_count c s.
Proof. destruct row as [k n], s; cbn [outbound_state_str]; by_key k. Qed.

(** ** The status report *)

Lemma query_result {A} (q : db -> A) e m m' a : query q e m = (m', Ok a) -> a = q (tables m) /\ tables m' = tables m /\ applied m' = applied m.
Proof. unfold query. destruct (breaks _); [discriminate|]. by intros [= <- <-]. Qed.

Section Status.
Context {SM : SqlxMigrate} {SPr : SerdePretty} {CT : ChronoText} {CD : ChronoDisplay}.
Context (now : Z) (last_received_at : db -> option Z).

Abbreviation jobs_of m := (map_to_list (Work.jobs (Receipt.queue (rt (tables m))))).
Abbreviation messages_of m := (map_to_list (outbound_messages (tables m))).

Lemma epoch_seconds_mono a b : a <= b -> epoch_seconds a <= epoch_seconds b.
Proof.
  intros H. unfold epoch_seconds.
  destruct (0 <=? a) eqn:Ea, (0 <=? b) eqn:Eb; try lia.
  - apply Z.div_le_mono; lia.
  - transitivity 0; [|apply Z.div_pos; lia]. apply Z.opp_nonpos_nonneg, Z.div_pos; lia.
  - apply -> Z.opp_le_mono. apply Z.div_le_mono; lia.
Qed.

Lemma foldl_min_le ts t x : x ∈ t :: ts -> foldl Z.min t ts <= x.
Proof.
  revert t x. induction ts as [|u ts IH]; intros t x H; cbn.
  - apply list_elem_of_singleton in H. lia.
  - assert (Hu : foldl Z.min (Z.min t u) ts <= Z.min t u) by (apply IH; left).
    rewrite !elem_of_cons in H. destruct H as [->|[->|H]]; [lia..|]. apply IH. by right.
Qed.
Lemma foldl_min_in ts t : foldl Z.min t ts ∈ t :: ts.
Proof.
  revert t. induction ts as [|u ts IH]; intros t; cbn; [left|]. specialize (IH (Z.min t u)). rewrite elem_of_cons in IH.
  rewrite !elem_of_cons. destruct IH as [->|H]; [|auto]. destruct (Z.min_spec t u) as [[_ ->]|[_ ->]]; auto.
Qed.

(** The age of the oldest queued job. *)
Lemma oldest_age m :
  match oldest_queued_age now (tables m) with
  | None => forall x, x ∈ jobs_of m -> Work.state x.2 <> Work.Queued
  | Some age => (exists x, x ∈ jobs_of m /\ Work.state x.2 = Work.Queued /\ age = epoch_seconds (now - Work.run_at x.2))
                /\ forall x, x ∈ jobs_of m -> Work.state x.2 = Work.Queued -> epoch_seconds (now - Work.run_at x.2) <= age
  end.
Proof.
  unfold oldest_queued_age. set (l := omap _ _).
  assert (Hl : forall t, t ∈ l <-> exists x, x ∈ jobs_of m /\ Work.state x.2 = Work.Queued /\ Work.run_at x.2 = t).
  { intros t. unfold l. rewrite list_elem_of_omap. split.
    - intros (x & Hx & E). destruct (bool_decide (Work.state x.2 = Work.Queued)) eqn:Eb; [|discriminate].
      injection E as <-. apply bool_decide_eq_true in Eb. eauto.
    - intros (x & Hx & Hs & <-). exists x. split; [exact Hx|]. by rewrite (bool_decide_eq_true_2 _ Hs). }
  clearbody l. destruct l as [|t ts].
  - intros x Hx Hs. assert (H : Work.run_at x.2 ∈ []) by (apply Hl; eauto). by apply not_elem_of_nil in H.
  - split.
    + destruct (proj1 (Hl _) (foldl_min_in ts t)) as (x & Hx & Hs & E). exists x. by rewrite E.
    + intros x Hx Hs. apply epoch_seconds_mono. assert (H : Work.run_at x.2 ∈ t :: ts) by (apply Hl; eauto).
      pose proof (foldl_min_le ts t _ H). lia.
Qed.

(** Every row has one of the states. *)
Lemma job_counts_total (l : list (uuid * Work.job)) :
  sum_list_with (fun s => length (filter (fun x => Work.state x.2 = s) l))
    [Work.Queued; Work.Leased; Work.Completed; Work.JobCancelled; Work.Dead] = length l.
Proof.
  induction l as [|x l IH]; [reflexivity|]. rewrite <- (f_equal S IH : _ = length (x :: l)). cbn [sum_list_with].
  rewrite !filter_cons. destruct (Work.state x.2) eqn:E; cbn [decide];
    repeat (destruct (decide _); [try congruence|try congruence]); cbn [length]; lia.
Qed.

Lemma attempt_ok {A} (pr : upd A) m m' r : attempt_of pr m = (m', Ok r) -> pr m = (m', r).
Proof. unfold attempt_of, p_try. destruct (pr m) as [m1 r1]. by intros [= <- <-]. Qed.

(** The two checks before the counts. *)
Lemma current_result m m' : check_migrations_current m = (m', Ok true) ->
  exists rows, applied m = Some rows /\ MIGRATOR_LEN <= Z.of_nat (length rows).
Proof.
  unfold check_migrations_current, p_bind, db_call. cbn. destruct (breaks _); [discriminate|].
  destruct (applied m) as [rows|]; cbn; [|discriminate]. intros H. exists rows. split; [reflexivity|].
  apply Z.leb_le. apply (f_equal snd) in H. cbn in H. by apply ok_inj in H.
Qed.

Definition same_tables (m m' : machine) : Prop := tables m' = tables m /\ applied m' = applied m.
Lemma within_same {A} (pr : upd A) m m' r : preserves (within reads_only) pr -> pr m = (m', r) -> same_tables m m'.
Proof. intros H E. destruct (preserves_run _ _ _ _ _ H E) as (_ & H2 & H3). split; auto. Qed.

Lemma checks_same m m1 m2 db_ok current : attempt_of check_connection m = (m1, Ok db_ok) ->
  (if is_ok db_ok then let% r := attempt_of check_migrations_current in p_ret (or_false r) else p_ret false) m1 = (m2, Ok current) ->
  same_tables m m2 /\ (is_ok db_ok && current = true ->
    exists rows, applied m = Some rows /\ MIGRATOR_LEN <= Z.of_nat (length rows)).
Proof.
  intros H1 H2. pose proof (attempt_within reads_only check_connection (check_connection_within _)) as W1.
  destruct (within_same _ _ _ _ W1 H1) as [T1 A1].
  assert (W2 : same_tables m1 m2).
  { apply (within_same _ m1 m2 (Ok current)) in H2; [exact H2|]. pose proof current_within as Hc. footed. }
  split; [destruct W2; split; congruence|]. intros Hr. apply andb_true_iff in Hr as [Hk ->]. rewrite Hk in H2.
  apply p_bind_inv in H2 as [(e & _ & [=])|(m3 & r & Hc & H2)]. apply attempt_ok in Hc. injection H2 as <- Hr.
  destruct r as [[|]|]; try discriminate. rewrite <- A1. exact (current_result _ _ Hc).
Qed.

End Status.

(** ** What is shown and written *)

Section Redaction.
Context {UL : UrlLib} {TL : TomlLib} {SM : SqlxMigrate} {SPr : SerdePretty} {CT : ChronoText} {CD : ChronoDisplay} {UT : UuidText}.
Context (p : process) (now : Z) (last_received_at : db -> option Z).

Definition clean (words : list rstr) (text : rstr) : Prop := forall w, w ∈ words -> contains text w = false.
Lemma existsb_clean words text : existsb (contains text) words = false -> clean words text.
Proof.
  intros H w Hw. apply not_true_iff_false. intros E. apply not_true_iff_false in H. apply H, existsb_exists.
  exists w. split; [by apply list_elem_of_In|exact E].
Qed.

Lemma check_ok {A} (r : result A AppError) m m' a : check r m = (m', Ok a) -> m' = m /\ r = Ok a.
Proof. intros H. apply pair_equal_spec in H as [<- H]. auto. Qed.

(** A scanned file is there, is text, and has none of the words. *)
Definition scanned (m : machine) (q : rstr) : Prop :=
  exists bytes text, files m !! Paths.components q = Some (FileNode bytes) /\ Extractors.from_utf8 bytes = Some text
                     /\ clean FORBIDDEN_SUBSTRINGS text.
Lemma scan_file_ok q m m' u : scan_file q m = (m', Ok u) -> files m' = files m /\ scanned m q.
Proof.
  unfold scan_file. cbv zeta. intros [(e & _ & [=])|(m1 & bytes & H1 & H)]%p_bind_inv.
  assert (Hb : files m1 = files m /\ files m !! Paths.components q = Some (FileNode bytes)).
  { revert H1. unfold fs_read, file_call, read_op, FsStore.read. destruct (breaks _); [discriminate|].
    destruct (files m !! _) as [[b|]|]; [|discriminate..]. by intros [= <- <-]. }
  apply p_bind_inv in H as [(e & _ & [=])|(m2 & text & (-> & Ht%ok_or_ok)%check_ok & H)].
  apply check_ok in H as [-> H]. destruct u. apply refuse_if_ok in H. split; [apply Hb|]. exists bytes, text.
  split; [apply Hb|]. split; [exact Ht|]. exact (existsb_clean _ _ H).
Qed.
Lemma scan_files_ok qs m m' u : scan_files qs m = (m', Ok u) -> files m' = files m /\ forall q, q ∈ qs -> scanned m q.
Proof.
  revert m. induction qs as [|q qs IH]; intros m H; [injection H as <- _; split; [reflexivity|]; intros q Hq; by apply not_elem_of_nil in Hq|].
  cbn in H. apply p_bind_inv in H as [(e & _ & [=])|(m1 & u1 & (F1 & S1)%scan_file_ok & H)].
  destruct (IH _ H) as [F2 S2]. split; [congruence|]. intros r Hr. apply elem_of_cons in Hr as [->|Hr]; [exact S1|].
  destruct (S2 r Hr) as (b & t & Hf & Hrest). exists b, t. by rewrite <- F1.
Qed.

(** C30. Nothing sensitive reaches the operator: what the job command shows holds none of the
    fields it must not, and a diagnosis that succeeds leaves its whole bundle on disk, every
    file of it text without a database URL, a private key or an API key header. *)
Theorem operator_output_redacted :
  (forall id m m' u, run_jobs_show id m = (m', Ok u) ->
     exists output, printed m' = printed m ++ [Stdout output] /\ clean FORBIDDEN output)
  /\ (forall c path output m m' u, run_diagnose p now last_received_at c path output m = (m', Ok u) ->
     forall name, name ∈ BUNDLE -> scanned m' (Paths.path_join output name)).
Proof.
  split.
  - intros id m m' u H. unfold run_jobs_show in H. cbv zeta in H.
    apply p_bind_inv in H as [(e & _ & [=])|(m1 & found & H1 & H)].
    apply p_bind_inv in H as [(e & _ & [=])|(m2 & summary & (-> & _)%check_ok & H)].
    apply p_bind_inv in H as [(e & _ & [=])|(m3 & attempts & H3 & H)].
    apply p_bind_inv in H as [(e & _ & [=])|(m4 & [] & (-> & Hr%refuse_if_ok)%check_ok & H)].
    eexists. split; [|exact (existsb_clean _ _ Hr)]. apply pair_equal_spec in H as [<- _].
    apply pair_equal_spec in H1 as [<- _], H3 as [<- _]. reflexivity.
  - intros c path output m m' u H name Hn. unfold run_diagnose in H. cbv zeta in H.
    repeat match type of H with p_bind _ _ _ = _ => apply p_bind_inv in H as [(e & _ & [=])|(? & ? & _ & H)] end.
    apply scan_files_ok in H as [Hf Hs]. destruct (Hs (Paths.path_join output name)) as (b & t & Hb & Hrest).
    { apply list_elem_of_In, in_map. by apply list_elem_of_In. }
    exists b, t. by rewrite Hf.
Qed.
End Redaction.
End OperatorProps.
