(* ===== verification/Witnesses.v ===== *)
(** * The theorems about the system on concrete runs

    A user consents, records an expense, confirms it and asks for a daily summary; each
    theorem is applied to a state or an operation of this conversation. *)

From S2P Require Import Prelude RustStr RustStrFacts Platform AmountProps Errors Work WorkProps Quota Schedule ConvTypes.
From S2P Require Import Conversation ConversationProps ReceiptTypes Receipt ReceiptSpec Database Insight Account IngressTypes IngressStore.
From S2P Require Import IngressApply IngressFrame IngressApp Isolation DeletionProps EndToEnd Outbound Scheduler Jobs System SystemFrame Demo.
From S2P Require Import SchedulerProps SystemProps.
Import Db Ingress IngressStore IngressApply Demo.

(** The first message of a new user, then consent; the provider delivers the first again
    by polling after the operator switched the mode. *)
Definition start : System.world := (migrated_db, ∅).
Definition rest : list System.sys_op := [say 2 (s! "an") (s! "dong y"); System.OSwitch (s! "poll")].
Definition polled : IngressRequest :=
  {| source := Polling; provider_scope := s! "zalo_bot"; provider_event_id := s! "1"; provider_sender_id := s! "an";
     provider_chat_id := s! "an"; sender_allowed := true; user_text := s! "hi"; observed_at := noon |}.
Abbreviation first_event :=
  (process (env 1) store (text 1 (s! "an") (s! "hi")) default_observation IngressApp.decide_text_and_map start.1).
Abbreviation later := (System.sys_run rest (first_event.1, start.2)).

Lemma event_handled_once_witness :
  let w' := later in
  process (env 9) store polled default_observation IngressApp.decide_text_and_map w'.1
  = (w'.1, Ret (Ok (Duplicate 100%N))).
Proof.
  refine (event_handled_once (env 1) store (text 1 (s! "an") (s! "hi")) default_observation
    IngressApp.decide_text_and_map rest (env 9) store polled default_observation IngressApp.decide_text_and_map
    start 100%N _ _); vm_compute; reflexivity.
Defined.

Definition new_account : Receipt.account :=
  {| Receipt.acc_lifecycle_state := s! "pending_consent"; Receipt.retention_preference_days := 7 |}.
Lemma account_lifecycle_forward_witness :
  exists r', accounts (System.sys_run rest (System.sys_exec (say 1 (s! "an") (s! "hi")) start)).1 !! 101%N = Some r'
    /\ leads (Receipt.acc_lifecycle_state new_account) (Receipt.acc_lifecycle_state r')
    /\ (Receipt.acc_lifecycle_state new_account = s! "deleted" -> Receipt.acc_lifecycle_state r' = s! "deleted").
Proof.
  refine (account_lifecycle_forward rest (System.sys_exec (say 1 (s! "an") (s! "hi")) start) 101%N new_account _).
  vm_compute. reflexivity.
Defined.

(** ** The conversation *)

Definition consented : list System.sys_op := [say 1 (s! "an") (s! "hi"); say 2 (s! "an") (s! "dong y")].
Definition asked : System.world := System.sys_run (consented ++ [say 3 (s! "an") (s! "pho 50k")]) start.
Definition scheduled : System.world :=
  System.sys_run (consented ++ [say 3 (s! "an") (s! "pho 50k"); say 4 (s! "an") (s! "ok");
                                say 5 (s! "an") (s! "/sched daily 20:00")]) start.

Definition pho : Receipt.expense :=
  {| Receipt.ex_account := 101%N; Receipt.ex_amount_minor := 50000; Receipt.ex_currency := s! "VND";
     Receipt.ex_occurred_at := noon + 3 * minute; Receipt.ex_description := s! "pho";
     Receipt.ex_source := s! "manual"; Receipt.ex_state := s! "awaiting_confirmation";
     Receipt.ex_receipt_submission := None; Receipt.ex_category_key := s! "khac";
     Receipt.ex_transaction_type := s! "expense" |}.
Definition daily : summary_schedule :=
  {| sch_id := 507%N; sch_delivery_minute := 1200; sch_provider_scope := s! "zalo_bot"; sch_provider_chat_id := s! "an";
     sch_enabled := true; sch_next_run_at := 1728046800000000; sch_last_emitted_at := None |}.

Lemma one_schedule : summary_schedules scheduled.1 = {[ (101%N, s! "daily") := daily ]}.
Proof. vm_compute. reflexivity. Qed.
Lemma scheduled_unique : schedule_ids_unique scheduled.1.
Proof.
  intros k1 k2 s1 s2. rewrite one_schedule. intros [<- _]%lookup_singleton_Some [<- _]%lookup_singleton_Some. done.
Qed.
Lemma no_receipts : Receipt.submissions (rt scheduled.1) = ∅ /\ Receipt.drafts (rt scheduled.1) = ∅
  /\ Receipt.assets (rt scheduled.1) = ∅.
Proof. vm_compute. done. Qed.
Lemma scheduled_owners : owners_agree (rt scheduled.1).
Proof.
  destruct no_receipts as (H1 & H2 & H3). split; intros id; rewrite ?H1, ?H2, ?H3; intros * H;
    destruct (lookup_empty_Some _ _ H).
Qed.


Definition delete_job : Account.AccountDeletePayload :=
  {| Account.ad_schema_version := 1; Account.ad_account_id := 101%N; Account.ad_deletion_request_id := 7%N |}.
Definition active_account : Receipt.account :=
  {| Receipt.acc_lifecycle_state := s! "active"; Receipt.retention_preference_days := 7 |}.


Definition answer : IngressRequest := text 4 (s! "an") (s! "Đồng ý!").

Lemma asked_open : open_expense asked.1 101 302 pho (noon + 18 * minute) 1.
Proof.
  split; [exists active_account; split; vm_compute; reflexivity | vm_compute; reflexivity..| |].
  - split; vm_compute; reflexivity.
  - vm_compute. reflexivity.
Qed.

Definition answered : db * run (result IngressOutcome IngressError) :=
  IngressApp.process_text_command (env 4) store answer asked.1.
Lemma answer_accepted : answered.2 = Ret (Ok (Accepted 400%N)).
Proof. vm_compute. reflexivity. Qed.
Lemma answered_run : IngressApp.process_text_command (env 4) store answer asked.1 = (answered.1, Ret (Ok (Accepted 400%N))).
Proof. rewrite <- answer_accepted. apply surjective_pairing. Qed.
Lemma answer_sender : provider_identities asked.1 !! (provider_scope answer, provider_sender_id answer) = Some 101%N.
Proof. vm_compute. reflexivity. Qed.
Lemma answer_confirms : Conversation.confirm_words (Conversation.fold (Conversation.trim_command_punctuation (user_text answer))) = true.
Proof. vm_compute. reflexivity. Qed.

Lemma confirm_text_confirms_witness :
  expenses answered.1 = <[302%N := set_expense_state (s! "confirmed") pho]> (expenses asked.1)
  /\ expense_version answered.1 302 = expense_version asked.1 302 + 1
  /\ (forall x, x <> 302%N -> expense_version answered.1 x = expense_version asked.1 x)
  /\ conversation_states answered.1 !! 101%N = Some {| pending_action_type := None; pending_payload_ref := None;
                                              expires_at := None; cs_version := 1 + 1 |}.
Proof.
  exact (confirm_text_confirms (UL := hyphenated_uuid_laws) (env 4) store answer asked.1 answered.1 400%N 101%N 302%N pho
           (noon + 18 * minute) 1 asked_open answer_sender eq_refl eq_refl answer_confirms answered_run).
Defined.

Lemma asked_versions : versions_ok asked.1.
Proof.
  split.
  - intros eid. assert (H : expense_cols asked.1 = {[ 302%N := {| ex_version := 1; ex_created_at := noon + 3 * minute |} ]})
      by (vm_compute; reflexivity).
    unfold expense_version. rewrite H, lookup_singleton. case_decide; vm_compute; split; discriminate.
  - intros id n H. assert (E : Receipt.drafts (rt asked.1) = ∅) by (vm_compute; reflexivity). rewrite E in H.
    destruct (lookup_empty_Some _ _ H).
Qed.


(** A tick two days later. *)
Definition tick_time : Z := noon + 2 * day.
Definition tick : db * run (result unit rstr) :=
  Scheduler.scheduler_tick tick_time tick_time (fun i => (900 + N.of_nat i)%N) (fun _ => false) scheduled.1.

Lemma tick_succeeds : tick.2 = Ret (Ok tt).
Proof. vm_compute. reflexivity. Qed.
Lemma tick_run : Scheduler.scheduler_tick tick_time tick_time (fun i => (900 + N.of_nat i)%N) (fun _ => false) scheduled.1
  = (tick.1, Ret (Ok tt)).
Proof. rewrite <- tick_succeeds. apply surjective_pairing. Qed.
Lemma scheduled_queue : wf (db_queue scheduled.1).
Proof. unfold scheduled, start. apply sys_run_queue. Qed.
Lemma daily_row : summary_schedules scheduled.1 !! (101%N, s! "daily") = Some daily.
Proof. rewrite one_schedule. apply lookup_singleton_eq. Qed.

Lemma tick_effect_witness :
  exists s', summary_schedules tick.1 !! (101%N, s! "daily") = Some s'
  /\ (In (101%N, s! "daily", daily) (batch tick_time (fun _ => false) scheduled.1) ->
       ticked tick_time tick_time (Scheduler.due_row scheduled.1 (101%N, s! "daily", daily)) daily s' (db_queue tick.1))
  /\ (~ In (101%N, s! "daily", daily) (batch tick_time (fun _ => false) scheduled.1) -> s' = daily).
Proof.
  exact (tick_effect tick_time tick_time (fun i => (900 + N.of_nat i)%N) (fun _ => false) scheduled.1 tick.1
    scheduled_unique scheduled_queue tick_run (101%N, s! "daily") daily daily_row).
Defined.
