(* ===== verification/ProviderProps.v ===== *)
(** * Redaction: proofs ([src/src/provider/redact.rs])

    A needle that holds no bracket and is no part of the word REDACTED does not survive:
    replacing it leaves no occurrence, and replacing other needles creates none. *)

From S2P Require Import Prelude RustStr RustStrFacts Platform Errors Work Provider.

Module Redaction.
Import Provider.

(** ** Occurrences *)

Definition occurs (n s : rstr) : Prop := exists a b, s = a ++ n ++ b.

Lemma occurs_here n b : occurs n (n ++ b).
Proof. by exists [], b. Qed.

Lemma occurs_app_l n x s : occurs n s -> occurs n (x ++ s).
Proof. intros (a & b & ->). exists (x ++ a), b. by rewrite <- app_assoc. Qed.

Lemma occurs_app_r n x s : occurs n s -> occurs n (s ++ x).
Proof. intros (a & b & ->). exists a, (b ++ x). by rewrite !app_assoc. Qed.

Lemma contains_occurs s n : contains s n = true <-> occurs n s.
Proof.
  unfold contains. rewrite bool_decide_eq_true. split.
  - intros [r (a & b & -> & _)%find_spec]. by exists a, b.
  - intros (a & b & ->). unfold find. generalize 0. induction a as [|c a IH]; intros off; simpl.
    + assert (E : starts_with (n ++ b) n = true) by (apply starts_with_spec; by exists b).
      destruct (n ++ b); simpl; rewrite E; by eexists.
    + destruct (starts_with _ n); [by eexists | apply IH].
Qed.

(** An occurrence in a text with a foreign character in the middle is on one side of it. *)
Lemma occurs_split n c x y : n <> [] -> c ∉ n -> occurs n (x ++ c :: y) -> occurs n x \/ occurs n y.
Proof.
  intros Hn Hc (a & b & E).
  destruct (decide (length (a ++ n) <= length x)%nat) as [L|L].
  - left. apply (f_equal (take (length x))) in E.
    rewrite take_app_length, app_assoc, take_app_ge in E by done. rewrite E.
    apply occurs_app_r, occurs_app_l. exists [], []. by rewrite app_nil_r.
  - destruct (decide (length a <= length x)%nat) as [L'|L'].
    + exfalso. apply Hc.
      assert (F : (a ++ n ++ b) !! length x = Some c) by (rewrite <- E; by apply list_lookup_middle).
      rewrite lookup_app_r in F by done. rewrite length_app in L.
      rewrite lookup_app_l in F by lia. by eapply list_elem_of_lookup_2.
    + right. apply (f_equal (drop (S (length x)))) in E.
      rewrite cons_middle, app_assoc, drop_app_length' in E by (rewrite length_app; simpl; lia).
      rewrite E, drop_app_le by lia. apply occurs_app_l. by exists [], b.
Qed.

(** ** Replacement, as the pieces of the text between the matches *)

Inductive replaced (m r : rstr) : rstr -> rstr -> Prop :=
| replaced_rest s : ~ occurs m s -> replaced m r s s
| replaced_match a s t : ~ occurs m a -> replaced m r s t -> replaced m r (a ++ m ++ s) (a ++ r ++ t).

Lemma replace_from_skip m r a s : replace_from m r (a ++ s) (length a) = replace_from m r s 0.
Proof. induction a as [|c a IH]; [done | exact IH]. Qed.

Lemma replace_match m r s : m <> [] -> replace (m ++ s) m r = r ++ replace s m r.
Proof.
  intros Hm. destruct m as [|c m]; [done|]. unfold replace.
  assert (E : starts_with ((c :: m) ++ s) (c :: m) = true) by (apply starts_with_spec; by exists s).
  cbn [app replace_from] in *. rewrite E. cbn [length]. rewrite Nat.sub_1_r, Nat.pred_succ.
  by rewrite replace_from_skip.
Qed.

Lemma replace_cons m r c s :
  starts_with (c :: s) m = false -> replace (c :: s) m r = c :: replace s m r.
Proof. intros E. unfold replace. cbn [replace_from]. by rewrite E. Qed.

(** The first match is at the head, or the text has none, or it comes later. *)
Lemma replace_replaced m r s : m <> [] -> replaced m r s (replace s m r).
Proof.
  intros Hm. remember (length s) as k eqn:Ek. revert s Ek.
  induction (lt_wf k) as [k _ IH]. intros s ->.
  destruct (starts_with s m) eqn:E.
  - apply starts_with_spec in E as [u ->]. rewrite replace_match by done.
    apply (replaced_match _ _ [] u).
    + intros (a & b & Hab). symmetry in Hab. apply app_eq_nil in Hab as [_ Hab].
      by apply app_eq_nil in Hab as [? _].
    + eapply IH; [|done]. rewrite length_app. destruct m; [done | simpl; lia].
  - destruct s as [|c s].
    { apply replaced_rest. intros (a & b & Hab). symmetry in Hab. apply app_eq_nil in Hab as [_ Hab].
      by apply app_eq_nil in Hab as [? _]. }
    assert (Hs : forall b, c :: s <> m ++ b).
    { intros b Hb. assert (starts_with (c :: s) m = true) by (apply starts_with_spec; eauto). congruence. }
    assert (R : replaced m r s (replace s m r)) by (eapply IH; [|done]; simpl; lia).
    rewrite replace_cons by done. generalize dependent (replace s m r). intros t R.
    destruct R as [s Hfree|a u t Hfree Hr].
    + apply replaced_rest. intros ([|c' a] & b & Hab); [by eapply Hs|].
      apply Hfree. injection Hab as _ ->. by exists a, b.
    + apply (replaced_match _ _ (c :: a) u t); [|done].
      intros ([|c' a'] & b & Hab).
      * apply (Hs (b ++ m ++ u)). rewrite (app_comm_cons a), Hab. cbn [app]. by rewrite <- !app_assoc.
      * apply Hfree. injection Hab as _ ->. by exists a', b.
Qed.

(** ** Needles that cannot come back *)

Definition safe_needle (n : rstr) : Prop :=
  n <> [] /\ ~ (c! "[" ∈ n) /\ ~ (c! "]" ∈ n) /\ ~ occurs n (s! "REDACTED").

(** A text whose pieces are free of a safe needle is free of it with the marks in between. *)
Lemma marked_free n x t : safe_needle n -> ~ occurs n x -> ~ occurs n t -> ~ occurs n (x ++ REDACTED ++ t).
Proof.
  intros (Hn & Ho & Hc & Hr) Hx Ht H.
  change (x ++ REDACTED ++ t) with (x ++ (c! "[") :: (s! "REDACTED" ++ (c! "]") :: t)) in H.
  apply occurs_split in H as [?|H]; [done| |done|done].
  by apply occurs_split in H as [?|?].
Qed.

Lemma replaced_free m n s t :
  safe_needle n -> replaced m REDACTED s t -> ~ occurs n s \/ n = m -> ~ occurs n t.
Proof.
  intros Hn. induction 1 as [s Hs|a s t Ha R IH]; intros Hf.
  - by destruct Hf as [?| ->].
  - apply marked_free; [done | |].
    + destruct Hf as [Hf| ->]; [|done]. intros ?. by apply Hf, occurs_app_r.
    + apply IH. destruct Hf as [Hf| ->]; [left | by right]. intros ?. by apply Hf, occurs_app_l, occurs_app_l.
Qed.

Lemma needle_hidden out n : safe_needle n -> ~ occurs n (redact_needle out n).
Proof.
  intros Hn. unfold redact_needle. destruct (contains out n) eqn:E.
  - eapply replaced_free; [done | apply replace_replaced; by destruct Hn | by right].
  - intros H%contains_occurs. congruence.
Qed.

Lemma needle_stays_hidden out m n :
  m <> [] -> safe_needle n -> ~ occurs n out -> ~ occurs n (redact_needle out m).
Proof.
  intros Hm Hn Hf. unfold redact_needle. destruct (contains out m); [|done].
  eapply replaced_free; [done | by apply replace_replaced | by left].
Qed.

Lemma plain_hidden out n : safe_needle n -> ~ occurs n (redact_plain out n).
Proof.
  intros Hn. unfold redact_plain. destruct (is_empty n) eqn:E; [|by apply needle_hidden].
  apply is_empty_nil in E. by destruct Hn.
Qed.
Lemma plain_stays_hidden out m n : safe_needle n -> ~ occurs n out -> ~ occurs n (redact_plain out m).
Proof.
  intros Hn Hf. unfold redact_plain. destruct (is_empty m) eqn:E; [done|].
  apply needle_stays_hidden; [|done|done]. intros ->. done.
Qed.

Lemma plain_needles_hidden l out n :
  safe_needle n -> n ∈ l \/ ~ occurs n out -> ~ occurs n (foldl redact_plain out l).
Proof.
  intros Hn. revert out. induction l as [|m l IH]; intros out H; simpl.
  - destruct H as [H|H]; [by apply not_elem_of_nil in H | done].
  - apply IH. destruct H as [[->|H]%elem_of_cons|H]; [right | by left | right].
    + by apply plain_hidden.
    + by apply plain_stays_hidden.
Qed.

Lemma escape_nonempty c s : url_escape (c :: s) <> [] /\ path_escape (c :: s) <> [].
Proof.
  split.
  - unfold url_escape. cbn [map concat]. intros [E _]%app_eq_nil. unfold url_escape_char in E.
    destruct (List.find _ URL_ESCAPES) as [[k e]|] eqn:F; [|done].
    apply find_some in F as [F _]. subst e.
    cut (Forall (fun p => p.2 <> []) URL_ESCAPES).
    { intros A. rewrite List.Forall_forall in A. by apply (A _ F). }
    unfold URL_ESCAPES. repeat (apply List.Forall_cons; [vm_compute; discriminate|]). apply List.Forall_nil.
  - unfold path_escape, replace_char. cbn [map concat]. by destruct (c =? _).
Qed.

Lemma escaped_stay_hidden out secret n : safe_needle n -> ~ occurs n out -> ~ occurs n (redact_escaped out secret).
Proof.
  intros Hn Hf. unfold redact_escaped. destruct secret as [|c s]; [done|]. cbn [is_empty].
  destruct (escape_nonempty c s). by apply needle_stays_hidden; [| |apply needle_stays_hidden].
Qed.

Lemma escaped_hidden out secret n :
  safe_needle n -> secret <> [] -> n = url_escape secret \/ n = path_escape secret ->
  ~ occurs n (redact_escaped out secret).
Proof.
  intros Hn Hs H. unfold redact_escaped. destruct secret as [|c s]; [done|]. cbn [is_empty].
  destruct (escape_nonempty c s). destruct H as [-> | ->].
  - apply needle_stays_hidden; [done|done|]. by apply needle_hidden.
  - by apply needle_hidden.
Qed.

(** The secrets of an error, with the escaped forms of the token and the URL. *)
Definition secrets (token chat_id text url : rstr) : list rstr :=
  [token; chat_id; text; url]
  ++ (if is_empty token then [] else [url_escape token; path_escape token])
  ++ (if is_empty url then [] else [url_escape url; path_escape url]).

Lemma redact_value_hides value token chat_id text url n :
  n ∈ secrets token chat_id text url -> safe_needle n ->
  contains (redact_value value token chat_id text url) n = false.
Proof.
  intros Hin Hn. apply not_true_iff_false. rewrite contains_occurs.
  unfold redact_value. destruct (is_empty value) eqn:Ev.
  { apply is_empty_nil in Ev as ->. intros (a & b & E). symmetry in E.
    apply app_eq_nil in E as [_ E]. apply app_eq_nil in E as [E _]. by destruct Hn. }
  unfold secrets in Hin. rewrite !elem_of_app in Hin. destruct Hin as [H|[H|H]].
  - by do 2 (apply escaped_stay_hidden; [done|]); apply plain_needles_hidden; [|left].
  - apply escaped_stay_hidden; [done|]. destruct token; [by apply not_elem_of_nil in H|].
    apply escaped_hidden; [done|done|]. cbn [is_empty] in H. set_solver.
  - destruct url; [by apply not_elem_of_nil in H|].
    apply escaped_hidden; [done|done|]. cbn [is_empty] in H. set_solver.
Qed.

(** ** Errors of sending *)

Section Send.
Context `{SP : SerdeParse} `{UL : UrlLib}.

(** The context an error of a checked request carries. *)
Definition send_context (token chat_id text : rstr) (e : ZaloProviderError) : Prop :=
  needles e = {| n_token := token; n_chat_id := chat_id; n_text := text; n_url := [] |}.

Lemma send_message_context post config chat_id text e :
  validate_outbound chat_id text = Ok tt -> is_empty (trim (bot_token config)) = false ->
  send_message post config chat_id text = Err e -> send_context (bot_token config) chat_id text e.
Proof.
  intros Hv Ht. unfold send_message. rewrite Hv, Ht. cbn [res_bind]. unfold send_context.
  destruct (send_url config) as [url|e0] eqn:Eu.
  - destruct (post url _) as [te|status [bytes|te]].
    + intros [= <-]. unfold map_transport_error. by destruct (is_timeout te).
    + destruct (negb _); [by intros [= <-]|]. unfold parse_success_body.
      destruct (json_from_slice bytes ≫= _) as [[ok mid]|]; [|by intros [= <-]]. destruct ok; [done|by intros [= <-]].
    + intros [= <-]. unfold map_transport_error. by destruct (is_timeout te).
  - intros [= <-]. unfold send_url, ok_or in Eu. destruct (url_parse _); cbn [res_bind] in Eu.
    + destruct (url_push _ _); [done|]. by injection Eu as <-.
    + by injection Eu as <-.
Qed.


(** A connection that breaks while the answer is read counts as a failure that the queue
    retries, whatever status came before. *)
Lemma lost_answer_is_retried post config chat_id text url status te :
  validate_outbound chat_id text = Ok tt -> is_empty (trim (bot_token config)) = false ->
  send_url config = Ok url -> post url (send_payload chat_id text) = Response status (Err te) ->
  is_timeout te = false ->
  exists e, send_message post config chat_id text = Err e /\ Work.is_retryable (pe_class e) = true.
Proof.
  intros Hv Ht Hu Hp Hte. unfold send_message. rewrite Hv, Ht, Hu, Hp. cbn [res_bind].
  eexists. split; [done|]. unfold map_transport_error. by rewrite Hte.
Qed.

End Send.

End Redaction.
