(* ===== verification/MediaProps.v ===== *)
(** * Media download: proofs

    Every request of a download goes to an allowlisted host at public addresses; redirects
    and the size of the result are bounded. *)

From S2P Require Import Prelude RustStr RustStrFacts Platform Errors Work Provider Jobs Media.

Module MediaProps.
Import Provider Media.

(** ** Public addresses, by ranges *)

(** The special-purpose IPv4 blocks (base and prefix length). *)
Definition SPECIAL_V4 : list (Z * Z) :=
  [(v4 0 0 0 0, 8); (v4 10 0 0 0, 8); (v4 100 64 0 0, 10); (v4 127 0 0 0, 8); (v4 169 254 0 0, 16);
   (v4 172 16 0 0, 12); (v4 192 0 0 0, 24); (v4 192 0 2 0, 24); (v4 192 168 0 0, 16); (v4 198 18 0 0, 15);
   (v4 198 51 100 0, 24); (v4 203 0 113 0, 24); (v4 224 0 0 0, 4); (v4 240 0 0 0, 4)].
(** Blocks inside the global unicast range that are not public. *)
Definition SPECIAL_V6 : list (Z * Z) := [(v6 8193 0, 23); (v6 8193 3512, 32); (v6 16383 0, 20)].

Definition in_block (width b : Z) (p : Z * Z) : Prop := p.1 <= b < p.1 + 2 ^ (width - p.2).

Definition public_v4 (b : Z) : Prop := Forall (fun p => ~ in_block 32 b p) SPECIAL_V4.
Definition public_ip (ip : IpAddr) : Prop :=
  match ip with
  | V4 b => public_v4 b
  | V6 b =>
      if Z.shiftr b 32 =? 65535 then public_v4 (b mod 2 ^ 32)
      else in_block 128 b (v6 8192 0, 3) /\ Forall (fun p => ~ in_block 128 b p) SPECIAL_V6
  end.
Definition valid_ip (ip : IpAddr) : Prop :=
  match ip with V4 b => 0 <= b < 2 ^ 32 | V6 b => 0 <= b < 2 ^ 128 end.

Lemma octet0 b : 0 <= b < 2 ^ 32 -> octet 0 b = b / 2 ^ 24.
Proof.
  intros H. unfold octet. change 255 with (Z.ones 8). rewrite Z.land_ones, Z.shiftr_div_pow2 by lia.
  change (24 - 8 * 0) with 24. apply Z.mod_small. change (2 ^ 8) with 256. change (2 ^ 24) with 16777216.
  change (2 ^ 32) with 4294967296 in H.
  Z.to_euclidean_division_equations. lia.
Qed.
Lemma octet1 b : octet 1 b = b / 2 ^ 16 mod 2 ^ 8.
Proof.
  unfold octet. change 255 with (Z.ones 8). by rewrite Z.land_ones, Z.shiftr_div_pow2 by lia.
Qed.

Lemma prefix_block w b base len :
  0 <= len <= w -> base mod 2 ^ (w - len) = 0 -> in_block w b (base, len) ->
  Z.shiftr b (w - len) = Z.shiftr base (w - len).
Proof.
  unfold in_block. cbn [fst snd]. intros Hl Hm Hb. rewrite !Z.shiftr_div_pow2 by lia.
  assert (0 < 2 ^ (w - len)) by (apply Z.pow_pos_nonneg; lia).
  symmetry. apply Z.div_unique with (b - base); [left; lia|].
  pose proof (Z.div_mod base (2 ^ (w - len)) ltac:(lia)). lia.
Qed.

Lemma block_prefix w b base len :
  0 <= len <= w -> base mod 2 ^ (w - len) = 0 -> Z.shiftr b (w - len) = Z.shiftr base (w - len) ->
  in_block w b (base, len).
Proof.
  unfold in_block. cbn [fst snd]. intros Hl Hm. rewrite !Z.shiftr_div_pow2 by lia. intros E.
  assert (0 < 2 ^ (w - len)) by (apply Z.pow_pos_nonneg; lia).
  pose proof (Z.div_mod b (2 ^ (w - len)) ltac:(lia)). pose proof (Z.div_mod base (2 ^ (w - len)) ltac:(lia)).
  pose proof (Z.mod_pos_bound b (2 ^ (w - len)) ltac:(lia)). rewrite E in *. lia.
Qed.

Lemma not_prefix w b base len :
  0 <= len <= w -> base mod 2 ^ (w - len) = 0 -> (Z.shiftr b (w - len) =? Z.shiftr base (w - len)) = false ->
  ~ in_block w b (base, len).
Proof. intros Hl Hm E H. apply Z.eqb_neq in E. by apply E, prefix_block. Qed.

(** The tests on octets, as blocks. *)
Ltac octets :=
  intros Hb; rewrite ?octet0, ?octet1 by done;
  rewrite ?orb_false_iff, ?andb_false_iff, ?Z.eqb_neq, ?Z.leb_gt; intros H; unfold in_block, v4; cbn [fst snd];
  change (2 ^ 32) with 4294967296 in *; change (2 ^ 24) with 16777216 in *; change (2 ^ 16) with 65536 in *;
  change (2 ^ 8) with 256 in *; intros Hin; cbn in Hin; Z.to_euclidean_division_equations; lia.

Lemma private_10 b : 0 <= b < 2 ^ 32 -> (octet 0 b =? 10) = false -> ~ in_block 32 b (v4 10 0 0 0, 8).
Proof. octets. Qed.
Lemma private_172 b : 0 <= b < 2 ^ 32 ->
  ((octet 0 b =? 172) && (16 <=? octet 1 b) && (octet 1 b <=? 31)) = false -> ~ in_block 32 b (v4 172 16 0 0, 12).
Proof. octets. Qed.
Lemma private_192 b : 0 <= b < 2 ^ 32 ->
  ((octet 0 b =? 192) && (octet 1 b =? 168)) = false -> ~ in_block 32 b (v4 192 168 0 0, 16).
Proof. octets. Qed.
Lemma loopback_127 b : 0 <= b < 2 ^ 32 -> (octet 0 b =? 127) = false -> ~ in_block 32 b (v4 127 0 0 0, 8).
Proof. octets. Qed.
Lemma link_local_169 b : 0 <= b < 2 ^ 32 ->
  ((octet 0 b =? 169) && (octet 1 b =? 254)) = false -> ~ in_block 32 b (v4 169 254 0 0, 16).
Proof. octets. Qed.
Lemma multicast_224 b : 0 <= b < 2 ^ 32 ->
  ((224 <=? octet 0 b) && (octet 0 b <=? 239)) = false -> ~ in_block 32 b (v4 224 0 0 0, 4).
Proof. octets. Qed.

Lemma allowed_v4_public b : 0 <= b < 2 ^ 32 -> is_forbidden_v4 b = false -> public_v4 b.
Proof.
  intros Hb. unfold is_forbidden_v4, ipv4_prefix, is_private, is_loopback_v4, is_link_local, is_multicast_v4.
  rewrite !orb_false_iff. intros H. destruct_and! H. unfold public_v4, SPECIAL_V4.
  repeat (apply List.Forall_cons;
    [first [by apply private_10 | by apply private_172 | by apply private_192 | by apply loopback_127
           | by apply link_local_169 | by apply multicast_224 | apply not_prefix; [lia|reflexivity|done]]|]).
  apply List.Forall_nil.
Qed.

Lemma allowed_public ip : valid_ip ip -> is_forbidden_ip ip = false -> public_ip ip.
Proof.
  destruct ip as [b|b]; cbn [valid_ip is_forbidden_ip public_ip]; [apply allowed_v4_public|].
  intros Hb. unfold is_forbidden_v6, to_ipv4_mapped. destruct (Z.shiftr b 32 =? 65535).
  - change (2 ^ 32 - 1) with (Z.ones 32). rewrite Z.land_ones by lia. apply allowed_v4_public.
    apply Z.mod_pos_bound. lia.
  - unfold ipv6_prefix. rewrite !orb_false_iff, negb_false_iff, Z.eqb_eq. intros H. destruct_and! H. split.
    + by apply block_prefix.
    + unfold SPECIAL_V6.
      repeat (apply List.Forall_cons; [apply not_prefix; [lia|reflexivity|done]|]). apply List.Forall_nil.
Qed.

(** ** Requests *)

Section Download.
Context `{UL : UrlLib}.

Definition on_allowlist (host : rstr) (suffixes : list rstr) : Prop :=
  exists suffix, suffix ∈ suffixes
    /\ (to_ascii_lowercase host = to_ascii_lowercase suffix
        \/ exists p, to_ascii_lowercase host = p ++ s! "." ++ to_ascii_lowercase suffix).

Lemma host_allowed_spec host suffixes : host_allowed host suffixes = true -> on_allowlist host suffixes.
Proof.
  unfold host_allowed. cbv zeta. rewrite existsb_exists. intros (x & Hx & H). exists x.
  split; [by apply list_elem_of_In|]. apply orb_true_iff in H as [H|H].
  - left. by apply str_eqb_eq.
  - right. apply ends_with_spec in H as [p H]. exists p. exact H.
Qed.

Record safe_request (policy : MediaDownloadPolicy) (q : media_request) : Prop := {
  sr_userinfo : username (mr_url q) = [] /\ password (mr_url q) = None;
  sr_scheme : require_https policy = true -> scheme (mr_url q) = s! "https";
  sr_port : port (mr_url q) = None \/ (port (mr_url q) = Some 443 /\ scheme (mr_url q) = s! "https")
            \/ port (mr_url q) = allowed_explicit_port policy;
  sr_host : exists host, host_str (mr_url q) = Some host /\ on_allowlist host (host_suffixes policy);
  sr_addresses : mr_addrs q <> [] /\ Forall (fun a => public_ip a.1) (mr_addrs q);
}.

Lemma port_allowed_spec policy url :
  port_allowed policy url = true ->
  port url = None \/ (port url = Some 443 /\ scheme url = s! "https") \/ port url = allowed_explicit_port policy.
Proof.
  unfold port_allowed. destruct (port url) as [p|]; [|by left]. intros H. right.
  apply orb_true_iff in H as [H|H].
  - left. apply andb_true_iff in H as [->%Z.eqb_eq H%str_eqb_eq]. done.
  - right. symmetry. by apply bool_decide_eq_true in H.
Qed.

(** Nothing was sent. *)
Ltac no_request := cbn [negb fst length]; split; [lia | apply List.Forall_nil].

Lemma hop_requests policy env current url :
  permit_private_resolved_addresses policy = false ->
  (forall host l, resolve env host = Some (Ok l) -> Forall valid_ip l) ->
  (length (media_hop policy env current url).1 <= 1)%nat
  /\ Forall (safe_request policy) (media_hop policy env current url).1.
Proof.
  intros Hp Hr. unfold media_hop. destruct (negb (time_left env)); [no_request|].
  unfold validate_media_url. destruct (_ || _) eqn:Eu; [no_request|]. apply orb_false_iff in Eu as [Eu Epw].
  destruct (require_https policy && _) eqn:Es; [no_request|]. destruct (negb (require_https policy) && _ && _); [no_request|].
  destruct (port_allowed policy current) eqn:Eport; [|no_request]. cbn [negb].
  destruct (host_str current) as [host|] eqn:Eh; [|no_request].
  destruct (match parse_ip host with Some ip => _ | None => _ end); [no_request|].
  destruct (host_allowed host _) eqn:Ea; [|no_request]. cbn [negb].
  destruct (resolve env host) as [[resolved|e]|] eqn:Er; [|no_request..].
  unfold pin_resolved_addrs. destruct resolved as [|ip resolved]; [no_request|]. rewrite Hp. cbn [negb orb].
  rewrite andb_true_r. destruct (existsb _ _) eqn:Ef; [no_request|].
  destruct (negb (time_left_to_send env)); [no_request|]. destruct (negb (client_builds env)); [no_request|].
  cbn [fst length]. split; [lia|]. apply Forall_singleton. split; cbn [mr_url mr_addrs].
  - split; [apply negb_false_iff, is_empty_nil in Eu; done|]. apply bool_decide_eq_false in Epw.
    destruct (password current) as [pw|]; [exfalso; apply Epw; by exists pw | done].
  - intros Hh. rewrite Hh in Es. cbn [andb] in Es. by apply negb_false_iff, str_eqb_eq in Es.
  - by apply port_allowed_spec.
  - exists host. split; [done|]. by apply host_allowed_spec.
  - split; [done|]. apply Forall_map. specialize (Hr _ _ Er). cbn [fst].
    apply Forall_forall. intros x Hx. apply allowed_public; [by apply (proj1 (Forall_forall _ _) Hr)|].
    apply not_true_iff_false. intros Hf. apply not_true_iff_false in Ef. apply Ef, existsb_exists.
    exists x. split; [by apply list_elem_of_In | done].
Qed.

Lemma loop_requests policy envs i left current url :
  permit_private_resolved_addresses policy = false ->
  (forall i host l, resolve (envs i) host = Some (Ok l) -> Forall valid_ip l) ->
  (length (media_loop policy envs i left current url).1 <= S left)%nat
  /\ Forall (safe_request policy) (media_loop policy envs i left current url).1.
Proof.
  intros Hp Hr. revert i current. induction left as [|left IH]; intros i current; cbn [media_loop];
    pose proof (hop_requests policy (envs i) current url Hp (Hr i)) as [Hl Hs];
    destruct (media_hop policy (envs i) current url) as [log [rs|e]]; cbn [fst] in *;
    try (split; [lia|done]); (destruct (is_redirection _); [|split; [cbn [fst]; lia|done]]).
  - split; [cbn [fst]; lia|done].
  - destruct (rs_location rs ≫= nonblank) as [loc|]; [|split; [cbn [fst]; lia|done]].
    destruct (url_join current loc) as [next|]; [|split; [cbn [fst]; lia|done]].
    destruct (IH (S i) next) as [Hl' Hs']. destruct (media_loop policy envs (S i) left next url) as [log' r].
    cbn [fst] in *. rewrite length_app. split; [lia|]. by apply Forall_app.
Qed.

(** ** Size *)

Lemma read_body_bound limit url chunks body m :
  Z.of_nat (length body) <= limit -> read_body limit url chunks body = Ok m -> Z.of_nat (length m) <= limit.
Proof.
  revert body. induction chunks as [|[bytes|e|] chunks IH]; intros body Hb; cbn [read_body]; [by intros [= <-]| |done..].
  cbv zeta. destruct (_ || _) eqn:E; [done|]. apply orb_false_iff in E as [_ E%Z.ltb_ge].
  apply IH. rewrite length_app. lia.
Qed.

Lemma accepted_bounds policy url rs m :
  0 <= max_bytes policy -> accept_response policy url rs = Ok m ->
  Z.of_nat (length (Jobs.bytes m)) <= max_bytes policy
  /\ (forall t, Jobs.content_type m = Some t -> char_count t <= 256).
Proof.
  intros H0. unfold accept_response. cbv zeta. destruct (negb _); [done|]. destruct (_ || _); [done|].
  destruct (read_body _ _ _ _) as [body|] eqn:Eb; cbn [res_bind]; [|done]. intros [= <-]. cbn. split.
  - unfold usize_max_bytes in Eb. apply read_body_bound in Eb; [lia|]. cbn. unfold usize_max. lia.
  - intros t Ht. unfold content_type_of in Ht. apply fmap_Some in Ht as (v & _ & ->).
    unfold MAX_CONTENT_TYPE_CHARS, char_count. destruct (256 <? Z.of_nat (length v)) eqn:E.
    + rewrite length_take. lia.
    + apply Z.ltb_ge in E. lia.
Qed.

Lemma loop_bounds policy envs i left current url m :
  0 <= max_bytes policy -> (media_loop policy envs i left current url).2 = Ok m ->
  Z.of_nat (length (Jobs.bytes m)) <= max_bytes policy
  /\ (forall t, Jobs.content_type m = Some t -> char_count t <= 256).
Proof.
  intros H0. revert i current. induction left as [|left IH]; intros i current; cbn [media_loop];
    destruct (media_hop policy (envs i) current url) as [log [rs|e]]; cbn [snd]; try done;
    (destruct (is_redirection _); [|by apply accepted_bounds]); [done|].
  destruct (rs_location rs ≫= nonblank) as [loc|]; [|done]. destruct (url_join current loc) as [next|]; [|done].
  specialize (IH (S i) next). destruct (media_loop policy envs (S i) left next url). exact IH.
Qed.

(** C16. Downloads stay outside the network: under a policy that does not permit private
    addresses (the production default), whatever the resolver and the servers answer, a
    download issues at most one request and one per allowed redirect; every request has no
    user information, uses https where required and an allowed port, names a host of the
    allowlist, and is pinned to addresses that all are public; a result respects the
    limits on bytes and content type. *)
Theorem media_download_safe policy envs url :
  permit_private_resolved_addresses policy = false -> 0 <= max_bytes policy ->
  (forall i host l, resolve (envs i) host = Some (Ok l) -> Forall valid_ip l) ->
  (length (download_media policy envs url).1 <= S (max_redirects policy))%nat
  /\ Forall (safe_request policy) (download_media policy envs url).1
  /\ (forall m, (download_media policy envs url).2 = Ok m ->
        Z.of_nat (length (Jobs.bytes m)) <= max_bytes policy
        /\ forall t, Jobs.content_type m = Some t -> char_count t <= 256).
Proof.
  intros Hp H0 Hr. unfold download_media. destruct (_ || _); [split_and!; [cbn; lia|done|done]|].
  destruct (url_parse url) as [current|]; [|split_and!; [cbn; lia|done|done]].
  destruct (loop_requests policy envs 0 (max_redirects policy) current url Hp Hr) as [Hl Hs].
  split_and!; [done|done|]. intros m. by apply loop_bounds.
Qed.

End Download.
End MediaProps.
