(* ===== verification/HttpProps.v ===== *)
(** * The webhook: proofs

    What the handler lets through to the database, and what a repeated call does. *)

From S2P Require Import Prelude RustStr RustStrFacts Platform Errors Work Schedule ConvTypes Conversation.
From S2P Require Import ReceiptTypes Receipt Database Insight IngressTypes IngressStore IngressApply IngressApp.
From S2P Require Import Outbound Scheduler Jobs System SystemFrame SystemProps Provider Http.
Import Db Ingress IngressStore IngressApply.

Module HttpProps.
Import Http.

Section Webhook.
Context `{CH : Chrono} `{CT : ChronoText} `{PG : Postgres} `{UT : UuidText} `{IL : ImageLib} `{SJ : SerdeJson}
  `{UC : UnicodeCase} `{UN : UnicodeNorm} `{SP : SerdeParse} `{OS : ReceiptTypes.ObjectStore}
  `{XT : ReceiptTypes.Extractor} `{NR : Insight.Narrator}.

(** ** The secret *)

(** The header holds the configured secret, which is not blank. *)
Definition authenticated (s : WebhookService) (rq : request) : Prop :=
  trim (Provider.webhook_secret (ws_config s)) <> []
  /\ encode_utf8 (default [] (trim <$> rq_secret rq)) = encode_utf8 (trim (Provider.webhook_secret (ws_config s))).

Lemma char_len_bytes c : 0 <= c -> Z.of_nat (length (encode_char c)) = char_len c.
Proof. intros ?. unfold encode_char, char_len. by repeat case_match. Qed.

Lemma verify_authenticated s rq :
  Provider.verify_webhook_secret (ws_config s) (rq_secret rq) = Ok tt -> authenticated s rq.
Proof.
  unfold Provider.verify_webhook_secret, authenticated. cbv zeta.
  destruct (is_empty _) eqn:E; [done|]. destruct (negb _ || negb _) eqn:F; [done|]. intros _.
  apply orb_false_iff in F as [_ F]. apply negb_false_iff, bool_decide_eq_true in F.
  split; [|done]. intros H. by rewrite H in E.
Qed.

(** ** Parsing *)

Definition limits (s : rstr) : Prop := 1 <= char_count s <= 256.

Lemma in_limits s : Provider.out_of_limits s = false -> limits s.
Proof.
  unfold Provider.out_of_limits, limits, char_count. intros [E F]%orb_false_iff. apply Z.ltb_ge in F.
  destruct s; [done|]. cbn [length] in *. lia.
Qed.

Lemma check_ids_ok a b c : Provider.check_ids a b c = Ok tt -> limits a /\ limits b /\ limits c.
Proof.
  unfold Provider.check_ids. destruct (Provider.out_of_limits a) eqn:A; [done|].
  destruct (Provider.out_of_limits b) eqn:B; [done|]. destruct (Provider.out_of_limits c) eqn:C; [done|].
  intros _. by auto using in_limits.
Qed.

(** The clock decides at most the time of receipt. *)
Lemma received_any now now' date t :
  Provider.received_at now date = Ok t -> exists t', Provider.received_at now' date = Ok t'.
Proof. unfold Provider.received_at. destruct (date =? 0); eauto. Qed.

Definition same_text (e e' : Provider.NormalizedInboundText) : Prop :=
  Provider.nt_kind e' = Provider.nt_kind e /\ Provider.nt_provider_scope e' = Provider.nt_provider_scope e
  /\ Provider.nt_event_id e' = Provider.nt_event_id e /\ Provider.nt_sender_id e' = Provider.nt_sender_id e.
Definition same_image (e e' : Provider.NormalizedInboundImage) : Prop :=
  Provider.ni_kind e' = Provider.ni_kind e /\ Provider.ni_provider_scope e' = Provider.ni_provider_scope e
  /\ Provider.ni_event_id e' = Provider.ni_event_id e /\ Provider.ni_sender_id e' = Provider.ni_sender_id e.

Ltac parsed H :=
  repeat (let x := fresh "x" in let Hx := fresh "Hx" in
          apply res_bind_ok in H as (x & Hx & H); rewrite ?Hx; cbn [res_bind]).

Lemma parse_text_any now now' c body e :
  Provider.parse_text_webhook now c body = Ok e ->
  exists e', Provider.parse_text_webhook now' c body = Ok e' /\ same_text e e'.
Proof.
  unfold Provider.parse_text_webhook. cbv zeta. intros H. parsed H.
  match goal with H : Provider.received_at _ _ = _ |- _ => destruct (received_any _ now' _ _ H) as [t Ht] end.
  rewrite Ht. cbn [res_bind]. injection H as <-. by eexists.
Qed.

Lemma parse_image_any now now' c body e :
  Provider.parse_image_webhook now c body = Ok e ->
  exists e', Provider.parse_image_webhook now' c body = Ok e' /\ same_image e e'.
Proof.
  unfold Provider.parse_image_webhook. cbv zeta. intros H. apply res_bind_ok in H as (em & Hem & H).
  rewrite Hem. cbn [res_bind]. destruct (256 <? _); [done|]. apply res_bind_ok in H as (w & Hw & H).
  rewrite Hw. cbn [res_bind]. apply res_bind_ok in H as (u & Hu & H). rewrite Hu. cbn [res_bind].
  destruct (match Provider.event_kind _ _ _ with Provider.ImageReceived => _ | _ => _ end); [done|].
  destruct (2000 <? _); [done|]. apply res_bind_ok in H as (t & Ht & H).
  destruct (received_any _ now' _ _ Ht) as [t' Ht']. rewrite Ht'. cbn [res_bind]. injection H as <-. by eexists.
Qed.

Lemma parse_text_limits now c body e :
  Provider.parse_text_webhook now c body = Ok e -> Provider.nt_kind e = Provider.TextReceived ->
  limits (Provider.nt_event_id e) /\ limits (Provider.nt_sender_id e) /\ limits (Provider.nt_chat_id e)
  /\ char_count (Provider.nt_text e) <= 2000.
Proof.
  unfold Provider.parse_text_webhook. cbv zeta. intros H Hk. parsed H. injection H as <-.
  cbn [Provider.nt_kind Provider.nt_event_id Provider.nt_sender_id Provider.nt_chat_id Provider.nt_text] in *.
  rewrite Hk in *.
  match goal with H : res_bind (Provider.check_ids _ _ _) _ = _ |- _ => apply res_bind_ok in H as ([] & Hc & Hl) end.
  destruct (check_ids_ok _ _ _ Hc) as (? & ? & ?). split_and!; [done..|].
  destruct (_ || _) eqn:E in Hl; [done|]. apply orb_false_iff in E as [_ E]. by apply Z.ltb_ge in E.
Qed.

Lemma parse_image_limits now c body e :
  Provider.parse_image_webhook now c body = Ok e ->
  limits (Provider.ni_event_id e) /\ limits (Provider.ni_sender_id e) /\ limits (Provider.ni_chat_id e)
  /\ char_count (Provider.ni_caption e) <= 2000.
Proof.
  unfold Provider.parse_image_webhook. cbv zeta. intros H. apply res_bind_ok in H as (em & _ & H).
  destruct (256 <? _); [done|]. apply res_bind_ok in H as (w & _ & H).
  apply res_bind_ok in H as ([] & Hc & H). destruct (check_ids_ok _ _ _ Hc) as (? & ? & ?).
  destruct (match Provider.event_kind _ _ _ with Provider.ImageReceived => _ | _ => _ end); [done|].
  destruct (2000 <? _) eqn:E; [done|]. apply Z.ltb_ge in E. apply res_bind_ok in H as (t & _ & H).
  by injection H as <-.
Qed.

(** ** Admission *)

Definition in_bounds (s : WebhookService) (r : IngressRequest) : Prop :=
  source r = Webhook /\ limits (provider_event_id r) /\ limits (provider_sender_id r)
  /\ limits (provider_chat_id r) /\ char_count (user_text r) <= 2000
  /\ sender_allowed r = bool_decide (provider_sender_id r ∈ allowed_provider_sender_ids s).

Definition admitted (s : WebhookService) (rq : request) (i : intake) : Prop :=
  match i with
  | Reject _ => True
  | Text r | Image r _ =>
      authenticated s rq /\ is_json (rq_content_type rq) = true
      /\ Z.of_nat (length (rq_body rq)) <= max_body_bytes s /\ in_bounds s r
  end.

Lemma let_in_admitted now s rq : admitted s rq (let_in now s rq).2.
Proof.
  unfold let_in. destruct (Provider.verify_webhook_secret _ _) as [[]|] eqn:Ev; [|done].
  apply verify_authenticated in Ev. cbn [snd].
  destruct (is_json (rq_content_type rq)) eqn:Ej; [|done]. cbn [negb].
  destruct (max_body_bytes s <? _) eqn:El; [done|]. apply Z.ltb_ge in El.
  destruct (Provider.parse_text_webhook _ _ _) as [e|] eqn:Et; [|done].
  destruct (Provider.nt_kind e) eqn:Ek.
  - destruct (parse_text_limits _ _ _ _ Et Ek) as (? & ? & ? & ?). done.
  - destruct (Provider.parse_image_webhook _ _ _) as [ei|] eqn:Ei; [|done].
    destruct (parse_image_limits _ _ _ _ Ei) as (? & ? & ? & ?). by destruct (Provider.ni_kind ei).
  - destruct (negb _); [done|]. destruct (Provider.parse_image_webhook _ _ _) as [ei|] eqn:Ei; [|done].
    destruct (parse_image_limits _ _ _ _ Ei) as (? & ? & ? & ?). by destruct (Provider.ni_kind ei).
Qed.

(** The same call at another time is let in as the same event. *)
Definition same_intake (i i' : intake) : Prop :=
  match i, i' with
  | Text r, Text r' => event_key r' = event_key r
  | Image r _, Image r' _ => event_key r' = event_key r
  | Reject _, _ => True
  | _, _ => False
  end.

Lemma let_in_any now now' s rq : same_intake (let_in now s rq).2 (let_in now' s rq).2.
Proof.
  unfold let_in. destruct (Provider.verify_webhook_secret _ _) as [[]|]; [|done]. cbn [snd].
  destruct (negb (is_json _)); [done|]. destruct (max_body_bytes s <? _); [done|].
  destruct (Provider.parse_text_webhook (now false) _ _) as [e|] eqn:Et; [|done].
  destruct (parse_text_any _ (now' false) _ _ _ Et) as (e' & -> & Hk & Hs & Hi & _). rewrite Hk.
  assert (Himg : same_intake
    match Provider.parse_image_webhook (now true) (ws_config s) (rq_body rq) with
    | Ok e => match Provider.ni_kind e with
              | Provider.ImageReceived => Image (image_request s e) (Provider.ni_image_url e)
              | _ => Reject (status_json 200 (s! "unsupported")) end
    | Err _ => Reject (status_json 400 (s! "invalid_payload")) end
    match Provider.parse_image_webhook (now' true) (ws_config s) (rq_body rq) with
    | Ok e => match Provider.ni_kind e with
              | Provider.ImageReceived => Image (image_request s e) (Provider.ni_image_url e)
              | _ => Reject (status_json 200 (s! "unsupported")) end
    | Err _ => Reject (status_json 400 (s! "invalid_payload")) end).
  { destruct (Provider.parse_image_webhook (now true) _ _) as [ei|] eqn:Ei; [|done].
    destruct (parse_image_any _ (now' true) _ _ _ Ei) as (ei' & -> & Hk' & Hs' & Hi' & _). rewrite Hk'.
    destruct (Provider.ni_kind ei); [done| |done]. unfold same_intake, event_key, image_request. cbn. by rewrite Hs', Hi'. }
  destruct (Provider.nt_kind e) as [| |name]; [|exact Himg|destruct (negb _); [done|exact Himg]].
  unfold same_intake, event_key, text_request. cbn. by rewrite Hs, Hi.
Qed.

(** C15. The webhook guards the database: a call either leaves it as it is, or it carried the
    configured secret, a JSON content type and a body within the size limit, and the
    database is the result of one ingress transaction on a request whose ids have 1 to 256
    characters and whose text has at most 2000, allowed exactly when the sender is on the
    allowlist.  A call without the secret is answered 401 and counted. *)
Theorem webhook_guards_database env now rq st d :
  let res := zalo_webhook_handler env now rq st d in
  (res.1.1 = d
   \/ exists s r o dec, webhook st = Some s /\ authenticated s rq /\ is_json (rq_content_type rq) = true
        /\ Z.of_nat (length (rq_body rq)) <= max_body_bytes s /\ in_bounds s r
        /\ res.1.1 = (process env (ws_store s) r o dec d).1)
  /\ (forall s, webhook st = Some s -> ~ authenticated s rq ->
        res = (d, count inc_webhook_unauthorized st, Ret (status_json 401 (s! "unauthorized")))).
Proof.
  cbv zeta. unfold zalo_webhook_handler. destruct (webhook st) as [s|]; [|split; [by left|done]].
  split.
  - pose proof (let_in_admitted now s rq) as Ha. destruct (let_in now s rq) as [u [resp|r|r url]]; cbn [snd admitted] in Ha.
    + by left.
    + right. exists s, r, default_observation, IngressApp.decide_text_and_map. destruct Ha as (? & ? & ? & ?).
      split_and!; [done..|]. unfold IngressApp.process_text_command.
      destruct (process _ _ _ _ _ d) as [d' o]. destruct o as [o| |]; [|done..].
      by destruct (outcome_response st o).
    + unfold IngressApp.process_image. destruct (negb (st_receipt (ws_store s))); [by left|].
      right. exists s, r, {| event_kind := ImageReceived; media_url := Some url |}, IngressApp.decide_image_and_map.
      destruct Ha as (? & ? & ? & ?). split_and!; [done..|].
      destruct (process _ _ _ _ _ d) as [d' o]. destruct o as [o| |]; [|done..].
      by destruct (outcome_response st o).
  - intros s' [= <-] Hn. unfold let_in. destruct (Provider.verify_webhook_secret _ _) as [[]|] eqn:Ev; [|done].
    by apply verify_authenticated in Ev.
Qed.

(** ** Repeated calls *)

Lemma reject_not_accepted now s rq u resp :
  let_in now s rq = (u, Reject resp) -> resp <> status_json 200 (s! "accepted").
Proof.
  assert (U : status_json 200 (s! "unsupported") <> status_json 200 (s! "accepted")) by (vm_compute; discriminate).
  unfold let_in. destruct (Provider.verify_webhook_secret _ _) as [[]|]; [|by intros [= _ <-]].
  destruct (negb _); [by intros [= _ <-]|]. destruct (_ <? _); [by intros [= _ <-]|].
  destruct (Provider.parse_text_webhook _ _ _) as [e|]; [|by intros [= _ <-]].
  destruct (Provider.nt_kind e) as [| |name]; [discriminate| |destruct (negb _); [by intros [= _ <-]|]];
    (destruct (Provider.parse_image_webhook _ _ _) as [ei|]; [|by intros [= _ <-]]);
    destruct (Provider.ni_kind ei); try discriminate; by intros [= _ <-].
Qed.

Lemma accepted_outcome st o st' :
  outcome_response st o = (st', status_json 200 (s! "accepted")) -> exists id, o = Ok (Accepted id).
Proof.
  destruct o as [[id|id|id]|]; [by exists id|discriminate| |]; intros H; apply (f_equal snd) in H; vm_compute in H;
    discriminate.
Qed.

(** What an accepted call did: one accepted transaction on the request it was let in as. *)
Lemma accepted_call env now rq st s d :
  webhook st = Some s -> (zalo_webhook_handler env now rq st d).2 = Ret (status_json 200 (s! "accepted")) ->
  exists r o dec id, (process env (ws_store s) r o dec d).2 = Ret (Ok (Accepted id))
    /\ (zalo_webhook_handler env now rq st d).1.1 = (process env (ws_store s) r o dec d).1
    /\ ((let_in now s rq).2 = Text r \/ st_receipt (ws_store s) = true /\ exists url, (let_in now s rq).2 = Image r url).
Proof.
  intros Hs. unfold zalo_webhook_handler. rewrite Hs. destruct (let_in now s rq) as [u [resp|r|r url]] eqn:Ea; cbn [snd].
  - intros [= ->]. by apply reject_not_accepted in Ea.
  - unfold IngressApp.process_text_command. intros H.
    exists r, default_observation, IngressApp.decide_text_and_map.
    destruct (process _ _ _ _ _ d) as [d' [o| |]]; [|discriminate..].
    destruct (outcome_response st o) as [st' resp] eqn:Eo. cbn [snd] in H. injection H as ->.
    apply accepted_outcome in Eo as [id ->]. exists id. split_and!; [done|done|by left].
  - unfold IngressApp.process_image. destruct (st_receipt (ws_store s)) eqn:Er; cbn [negb].
    2:{ intros H. destruct (outcome_response st _) as [st' resp] eqn:Eo in H. cbn [snd] in H. injection H as ->.
        apply accepted_outcome in Eo as [id [=]]. }
    intros H. exists r, {| event_kind := ImageReceived; media_url := Some url |}, IngressApp.decide_image_and_map.
    destruct (process _ _ _ _ _ d) as [d' [o| |]]; [|discriminate..].
    destruct (outcome_response st o) as [st' resp] eqn:Eo. cbn [snd] in H. injection H as ->.
    apply accepted_outcome in Eo as [id ->]. exists id. split_and!; [done|done|right]. split; [done|by exists url].
Qed.

(** A repeated webhook call is harmless: after a call was answered 200 accepted, and
    whatever the system did since, the same call (at any time, with the same service) is
    answered 200 duplicate, counted as a duplicate, and leaves the database as it is. *)
Theorem webhook_replay_harmless env now rq st s ops env' now' st' (w : System.world) :
  webhook st = Some s -> webhook st' = Some s ->
  (zalo_webhook_handler env now rq st w.1).2 = Ret (status_json 200 (s! "accepted")) ->
  let w' := System.sys_run ops ((zalo_webhook_handler env now rq st w.1).1.1, w.2) in
  zalo_webhook_handler env' now' rq st' w'.1
  = (w'.1, count inc_webhook_duplicate st', Ret (status_json 200 (s! "duplicate"))).
Proof.
  intros Hs Hs' Ha w'. destruct (accepted_call _ _ _ _ _ _ Hs Ha) as (r & o & dec & id & Hp & Hd & Hr).
  subst w'. rewrite Hd. unfold zalo_webhook_handler. rewrite Hs'.
  pose proof (let_in_any now now' s rq) as Hsame. destruct (let_in now' s rq) as [u' i'].
  destruct Hr as [E|(Hrec & url & E)]; rewrite E in Hsame; cbn [snd same_intake] in Hsame;
    destruct i' as [resp|r'|r' url']; try done.
  - unfold IngressApp.process_text_command.
    by rewrite (accepted_then_duplicate env (ws_store s) r o dec ops env' (ws_store s) r' _ _ w id Hp Hsame).
  - unfold IngressApp.process_image. rewrite Hrec. cbn [negb].
    by rewrite (accepted_then_duplicate env (ws_store s) r o dec ops env' (ws_store s) r' _ _ w id Hp Hsame).
Qed.

End Webhook.
End HttpProps.
