(* ===== verification/ConfigProps.v ===== *)
(** * Properties of configuration loading

    Every setting shown is the one in effect, attributed to the highest layer that names
    it; a configuration that loads is within its bounds and names its credentials
    safely. *)

From S2P Require Import Prelude RustStr RustStrFacts Platform Errors Work Provider Media Paths ConfigTypes ConfigLayers ConfigLoad.

Module ConfigProps.
Import ConfigTypes ConfigLayers ConfigLoad.
Import Work (json(..)).
Import Errors (AppError).
Import Errors.AppError (config, refuse_if, refuse_if_ok).

(** ** The settings, by key *)

Definition OPTIONAL_SETTINGS : list (rstr * (Config -> json)) :=
  [(s! "storage.endpoint", fun _ => JString REDACTED);
   (s! "storage.bucket", fun c => opt_json (bucket (storage c)));
   (s! "storage.access_key_credential", fun c => opt_json (access_key_credential (storage c)));
   (s! "storage.secret_key_credential", fun c => opt_json (secret_key_credential (storage c)))].
Definition SETTINGS : list (rstr * (Config -> json)) := DEFAULT_SETTINGS ++ OPTIONAL_SETTINGS.

(** How the setting of a key is shown. *)
Definition shown (key : rstr) : option (Config -> json) :=
  snd <$> List.find (fun p => str_eqb p.1 key) SETTINGS.

Lemma shown_in key f : shown key = Some f -> In (key, f) SETTINGS.
Proof.
  unfold shown. destruct (List.find _ _) as [[k g]|] eqn:E; [|done]. intros [= <-].
  apply List.find_some in E as [Hin He]. apply bool_decide_eq_true in He. simpl in He. by subst k.
Qed.

Lemma map_eq_in {A B} (f g : A -> B) l x : map f l = map g l -> In x l -> f x = g x.
Proof. induction l as [|y l IH]; [done|]. cbn [map In]. intros [= H1 H2] [<-|H]; auto. Qed.

(** A row agrees with the table when its key is shown the way the row shows it. *)
Lemma rows_agree {A} (key : A -> rstr) (sh : A -> Config -> json) rows :
  map (fun row => shown (key row)) rows = map (fun row => Some (sh row)) rows ->
  Forall (fun row => shown (key row) = Some (sh row)) rows.
Proof.
  intros H. apply List.Forall_forall. intros row Hin. exact (map_eq_in _ _ _ _ H Hin).
Qed.

Lemma default_rows_agree : Forall (fun row => shown row.1 = Some row.2) DEFAULT_SETTINGS.
Proof. apply rows_agree. vm_compute. reflexivity. Qed.
Lemma file_rows_agree : Forall (fun row => shown (fr_key row) = Some (fr_shown row)) FILE_ROWS.
Proof. apply rows_agree. vm_compute. reflexivity. Qed.
Lemma env_rows_agree : Forall (fun row => shown (ov_key row) = Some (ov_shown row)) ENV_ROWS.
Proof. apply rows_agree. vm_compute. reflexivity. Qed.

(** ** Which layers name a key *)

Definition default_names (key : rstr) : bool := existsb (fun row => str_eqb row.1 key) DEFAULT_SETTINGS.
Definition file_names (c : Config) (document : toml) (key : rstr) : bool :=
  existsb (fun row => str_eqb (fr_key row) key && fr_present row c document) FILE_ROWS.
Definition named_in (env : environment) (rows : list env_row) (key : rstr) : bool :=
  existsb (fun row => str_eqb (ov_key row) key && bool_decide (is_Some (env (ov_var row)))) rows.
Definition env_names (env : environment) (key : rstr) : bool := named_in env ENV_ROWS key.

Lemma insert_attr_lookup k v src (a : attribution) key :
  insert_attr k v src a !! key = if str_eqb k key then Some {| value := v; source := src |} else a !! key.
Proof.
  unfold insert_attr, str_eqb. case_bool_decide as E; [subst; apply lookup_insert_eq|].
  by apply lookup_insert_ne.
Qed.

(** The entry of a key whose setting is read from [c]. *)
Definition entry (c : Config) (src : ConfigSource) (key : rstr) : option ResolvedValue :=
  (fun f => {| value := f c; source := src |}) <$> shown key.

Lemma entry_bind c src key : entry c src key = (f ← shown key; Some {| value := f c; source := src |}).
Proof. unfold entry. generalize (shown key). by intros []. Qed.

Lemma bind_ext {A B} (o : option A) (f g : A -> option B) : (forall x, f x = g x) -> o ≫= f = o ≫= g.
Proof. intros H. destruct o; [apply H|reflexivity]. Qed.

Lemma record_default_lookup key a :
  record_default_sources a !! key = if default_names key then entry default_config Default key else a !! key.
Proof.
  unfold record_default_sources, default_names. revert a. generalize default_rows_agree.
  induction DEFAULT_SETTINGS as [|row rows IH]; intros Hr a; [reflexivity|].
  apply Forall_cons in Hr as [Hrow Hr]. cbn [foldl existsb]. rewrite (IH Hr), insert_attr_lookup.
  destruct (str_eqb row.1 key) eqn:E; [|reflexivity]. apply bool_decide_eq_true in E. subst key.
  unfold entry. rewrite Hrow. cbn [orb]. destruct (existsb _ rows); reflexivity.
Qed.

Lemma record_file_lookup c document key a :
  record_file_sources c document a !! key = if file_names c document key then entry c File key else a !! key.
Proof.
  unfold record_file_sources, file_names. revert a. generalize file_rows_agree.
  induction FILE_ROWS as [|row rows IH]; intros Hr a; [reflexivity|].
  apply Forall_cons in Hr as [Hrow Hr]. cbn [foldl existsb]. rewrite (IH Hr).
  destruct (fr_present row c document); [|rewrite andb_false_r; reflexivity].
  rewrite insert_attr_lookup, andb_true_r.
  destruct (str_eqb (fr_key row) key) eqn:E; [|reflexivity]. apply bool_decide_eq_true in E. subst key.
  unfold entry. rewrite Hrow. cbn [orb]. destruct (existsb _ rows); reflexivity.
Qed.

(** ** An environment variable changes its own setting only *)

Definition others (key : rstr) : list (rstr * (Config -> json)) :=
  List.filter (fun p => negb (str_eqb p.1 key)) SETTINGS.
Definition frames (row : env_row) : Prop := forall v c c', ov_set row v c = Ok c' ->
  map (fun p => p.2 c') (others (ov_key row)) = map (fun p => p.2 c) (others (ov_key row)).

Ltac frame_row :=
  let v := fresh "v" in let c := fresh "c" in let c' := fresh "c'" in let H := fresh "H" in
  intros v c c' H; cbn [ov_set] in H; unfold text, boolean, unsigned32, unsigned64 in H;
  repeat match type of H with
         | res_bind ?m _ = Ok _ => destruct m; [cbn [res_bind] in H|discriminate]
         end;
  injection H as <-; cbn [ov_key]; vm_compute; reflexivity.

Lemma env_rows_frame : Forall frames ENV_ROWS.
Proof. apply Forall_app_2; repeat (apply List.Forall_cons; [frame_row|]); apply List.Forall_nil. Qed.

Lemma frames_setting row v c c' key f :
  frames row -> ov_set row v c = Ok c' -> shown key = Some f -> key <> ov_key row -> f c' = f c.
Proof.
  intros Hr Hs Hk Hn. apply (map_eq_in _ _ _ (key, f) (Hr v c c' Hs)).
  apply filter_In. split; [by apply shown_in|]. cbn [fst]. unfold str_eqb. by rewrite bool_decide_eq_false_2.
Qed.

(** The value [c'] shows for a setting is the one a variable of the environment gave. *)
Definition from_variable (env : environment) (rows : list env_row) (key : rstr) (f : Config -> json) (c' : Config)
    : Prop :=
  exists row v c0 c1, In row rows /\ ov_key row = key /\ env (ov_var row) = Some v
    /\ ov_set row v c0 = Ok c1 /\ f c' = f c1.

Lemma apply_rows_values env key f : shown key = Some f -> forall rows c a c' a',
  Forall frames rows -> apply_rows env rows (c, a) = Ok (c', a') ->
  if named_in env rows key then from_variable env rows key f c' else f c' = f c.
Proof.
  intros Hk. induction rows as [|row rows IH]; intros c a c' a' Hfr H; cbn [apply_rows] in H.
  { by injection H as <- _. }
  apply Forall_cons in Hfr as [Hf Hfr]. unfold apply_row in H. cbn [fst] in H.
  unfold named_in. cbn [existsb]. fold (named_in env rows key).
  assert (Hmore : forall d, from_variable env rows key f d -> from_variable env (row :: rows) key f d).
  { intros d (r & v & c0 & c1 & Hin & Hrest). exists r, v, c0, c1. split; [by right|exact Hrest]. }
  destruct (env (ov_var row)) as [v|] eqn:Hv.
  - rewrite (bool_decide_eq_true_2 (is_Some (Some v))), andb_true_r by eauto.
    destruct (ov_set row v c) as [c1|] eqn:Hs; [|discriminate]. cbn [res_bind snd] in H.
    specialize (IH _ _ _ _ Hfr H). destruct (named_in env rows key).
    + rewrite orb_true_r. by apply Hmore.
    + rewrite orb_false_r. destruct (str_eqb (ov_key row) key) eqn:E.
      * apply bool_decide_eq_true in E. exists row, v, c, c1. split; [by left|]. by subst.
      * apply bool_decide_eq_false in E. rewrite IH. by apply (frames_setting row v c c1 key).
  - rewrite (bool_decide_eq_false_2 (is_Some None)), andb_false_r by (intros [? [=]]). cbn [orb].
    specialize (IH _ _ _ _ Hfr H). destruct (named_in env rows key); [by apply Hmore|exact IH].
Qed.

Lemma apply_rows_lookup env key : forall rows c a c' a',
  Forall (fun row => shown (ov_key row) = Some (ov_shown row)) rows -> Forall frames rows ->
  apply_rows env rows (c, a) = Ok (c', a') ->
  a' !! key = if named_in env rows key then entry c' Env key else a !! key.
Proof.
  induction rows as [|row rows IH]; intros c a c' a' Hag Hfr H; cbn [apply_rows] in H.
  { by injection H as _ <-. }
  apply Forall_cons in Hag as [Hrow Hag]. apply Forall_cons in Hfr as [Hf Hfr].
  unfold apply_row in H. cbn [fst] in H.
  unfold named_in. cbn [existsb]. fold (named_in env rows key). destruct (env (ov_var row)) as [v|] eqn:Hv.
  2: { rewrite (bool_decide_eq_false_2 (is_Some None)), andb_false_r by (intros [? [=]]).
       cbn [orb]. exact (IH _ _ _ _ Hag Hfr H). }
  rewrite (bool_decide_eq_true_2 (is_Some (Some v))), andb_true_r by eauto.
  destruct (ov_set row v c) as [c1|] eqn:Hs; [|discriminate]. cbn [res_bind snd] in H.
  rewrite (IH _ _ _ _ Hag Hfr H), insert_attr_lookup.
  destruct (str_eqb (ov_key row) key) eqn:E; cbn [orb]; [|reflexivity].
  apply bool_decide_eq_true in E. subst key. pose proof (apply_rows_values env _ _ Hrow rows _ _ _ _ Hfr H) as Hv'.
  unfold entry. rewrite Hrow. destruct (named_in env rows (ov_key row)); [reflexivity|]. cbn. by rewrite Hv'.
Qed.

(** ** A field the file leaves out has its default *)

(** The document and its sections are tables. *)
Definition tables_only (document : toml) : Prop :=
  exists fields, document = TTable fields
    /\ forall section v, table_get section fields = Some v -> exists fs, v = TTable fs.

Lemma struct_from_table n names fields fs :
  struct_from_toml n names (TTable fields) = Some fs -> fs = map (fun k => table_get k fields) names.
Proof. cbn [struct_from_toml]. destruct (forallb _ _); [intros [= <-]; reflexivity|discriminate]. Qed.

(** Reading the sections one by one. *)
Lemma de_config_sections fields c : de_config (TTable fields) = Some c ->
  let get k := table_get k fields in
  or_default default_server de_server (get (s! "server")) = Some (server c)
  /\ or_default default_database de_database (get (s! "database")) = Some (database c)
  /\ or_default default_concurrency de_concurrency (get (s! "concurrency")) = Some (concurrency c)
  /\ or_default default_retention de_retention (get (s! "retention")) = Some (retention c)
  /\ or_default default_credentials de_credentials (get (s! "credentials")) = Some (credentials c)
  /\ or_default default_access de_access (get (s! "access")) = Some (access c)
  /\ or_default default_zalo de_zalo (get (s! "zalo")) = Some (zalo c)
  /\ or_default default_storage de_storage (get (s! "storage")) = Some (storage c)
  /\ or_default default_extraction de_extraction (get (s! "extraction")) = Some (extraction c)
  /\ or_default default_ai de_ai (get (s! "ai")) = Some (ai c)
  /\ or_default default_quotas de_quotas (get (s! "quotas")) = Some (quotas c)
  /\ or_default default_insights de_insights (get (s! "insights")) = Some (insights c)
  /\ or_default default_features de_features (get (s! "features")) = Some (features c)
  /\ or_default default_metrics de_metrics (get (s! "metrics")) = Some (metrics c)
  /\ or_default default_update de_update (get (s! "update")) = Some (update c).
Proof.
  intros H get. unfold de_config in H. apply bind_some in H as (fs & Hfs & H).
  apply struct_from_table in Hfs. subst fs. unfold SECTIONS in H. cbn [map] in H. split_binds H.
  injection H as <-. cbn [server database concurrency retention credentials access zalo storage extraction
    ai quotas insights features metrics update]. repeat split; assumption.
Qed.

Lemma table_absent section field fields :
  (forall k v, table_get k fields = Some v -> exists fs, v = TTable fs) ->
  has_field (TTable fields) section field = false ->
  table_get section fields = None
  \/ exists fs, table_get section fields = Some (TTable fs) /\ table_get field fs = None.
Proof.
  intros Ht Hn. unfold has_field in Hn. cbn [toml_get] in Hn.
  destruct (table_get section fields) as [v|] eqn:E; [right|by left].
  destruct (Ht _ _ E) as [fs ->]. exists fs. split; [reflexivity|].
  apply bool_decide_eq_false in Hn. cbn in Hn. by apply eq_None_not_Some.
Qed.

Lemma absent_field {A B} (D : A) (de : toml -> option A) (proj : A -> B) section field fields s :
  (forall k v, table_get k fields = Some v -> exists fs, v = TTable fs) ->
  (forall fs s, de (TTable fs) = Some s -> table_get field fs = None -> proj s = proj D) ->
  or_default D de (table_get section fields) = Some s ->
  has_field (TTable fields) section field = false -> proj s = proj D.
Proof.
  intros Ht Hde Hs Hn. destruct (table_absent _ _ _ Ht Hn) as [E | (fs & E & Ef)]; rewrite E in Hs.
  - by injection Hs as <-.
  - exact (Hde fs s Hs Ef).
Qed.

Lemma file_row_absent i row key c document :
  FILE_ROWS !! i = Some row -> str_eqb (fr_key row) key = true -> file_names c document key = false ->
  fr_present row c document = false.
Proof.
  intros Hi Hk Hn. apply list_elem_of_lookup_2, list_elem_of_In in Hi.
  destruct (fr_present row c document) eqn:E; [|reflexivity]. exfalso.
  apply not_true_iff_false in Hn. apply Hn. apply existsb_exists. exists row. split; [exact Hi|].
  by rewrite E, Hk.
Qed.

#[local] Opaque lit.

(** One field of a section's decoder. *)
Ltac decode_absent :=
  let fs := fresh "fs" in let s := fresh "s" in let H := fresh "H" in let N := fresh "N" in
  intros fs s H N;
  lazymatch type of H with ?de _ = _ => unfold de in H end;
  apply bind_some in H as (? & Hs & H); apply struct_from_table in Hs; subst; cbn [map] in H; rewrite N in H;
  cbn [or_default] in H; split_binds H; apply some_inj in H; subst s;
  repeat match goal with E : Some _ = Some _ |- _ => apply some_inj in E; subst end; reflexivity.
(** The setting of the file row [i], from the equation of its section. *)
Ltac absent Ht i C E proj :=
  let Hn := fresh "Hn" in
  intros Hn; eapply (file_row_absent i) in Hn; [|reflexivity|vm_compute; reflexivity]; cbn [fr_present record] in Hn;
  cbn [snd]; apply (f_equal C);
  refine (absent_field _ _ proj _ _ _ _ Ht _ E Hn); decode_absent.

Lemma ai_absent fields c :
  or_default default_ai de_ai (table_get (s! "ai") fields) = Some (ai c) ->
  file_names c (TTable fields) (s! "ai.profiles") = false -> profile_count c = profile_count default_config.
Proof.
  intros E Hn. eapply (file_row_absent 24) in Hn; [|reflexivity|vm_compute; reflexivity]. cbn [fr_present toml_get] in Hn.
  apply bool_decide_eq_false, eq_None_not_Some in Hn. rewrite Hn in E. injection E as E.
  unfold profile_count. by rewrite <- E.
Qed.

Lemma absent_defaults document c : tables_only document -> de_config document = Some c ->
  Forall (fun p => file_names c document p.1 = false -> p.2 c = p.2 default_config) DEFAULT_SETTINGS.
Proof.
  intros (fields & -> & Ht) Hc. apply de_config_sections in Hc.
  destruct Hc as (E_server & E_database & E_concurrency & E_retention & E_credentials & E_access & E_zalo & E_storage & E_extraction & E_ai & E_quotas & E_insights & E_features & E_metrics & E_update).
  apply Forall_app_2.
  - apply List.Forall_cons; [absent Ht 0%nat JString E_server listen_address|].
    apply List.Forall_cons; [absent Ht 1%nat JString E_database url_credential|].
    apply List.Forall_cons; [absent Ht 2%nat JInt E_database max_connections|].
    apply List.Forall_cons; [absent Ht 3%nat JInt E_concurrency receipt_extraction|].
    apply List.Forall_cons; [absent Ht 4%nat JInt E_concurrency outbound_delivery|].
    apply List.Forall_cons; [absent Ht 5%nat JInt E_retention original_receipt_days|].
    apply List.Forall_cons; [absent Ht 6%nat JString E_credentials credentials_directory|].
    apply List.Forall_cons; [absent Ht 7%nat (@count_json rstr) E_access allowed_provider_sender_ids|].
    apply List.Forall_cons; [absent Ht 8%nat JString E_zalo bot_token_credential|].
    apply List.Forall_cons; [absent Ht 9%nat JString E_zalo webhook_secret_credential|].
    apply List.Forall_cons; [absent Ht 10%nat JString E_zalo zalo_api_base|].
    apply List.Forall_cons; [absent Ht 11%nat JInt E_zalo send_timeout_seconds|].
    apply List.Forall_cons; [absent Ht 12%nat JInt E_zalo webhook_max_body_bytes|].
    apply List.Forall_cons; [absent Ht 13%nat JString E_storage storage_backend|].
    apply List.Forall_cons; [absent Ht 14%nat JString E_storage storage_directory|].
    apply List.Forall_cons; [absent Ht 17%nat JString E_storage region|].
    apply List.Forall_cons; [absent Ht 20%nat JBool E_storage force_path_style|].
    apply List.Forall_nil.
  - apply List.Forall_cons; [absent Ht 21%nat JString E_extraction extraction_backend|].
    apply List.Forall_cons; [absent Ht 22%nat JString E_extraction default_profile|].
    apply List.Forall_cons; [absent Ht 23%nat JString E_extraction extraction_api_base|].
    apply List.Forall_cons; [apply ai_absent; assumption|].
    apply List.Forall_cons; [absent Ht 25%nat JInt E_quotas per_user_daily_receipts|].
    apply List.Forall_cons; [absent Ht 26%nat JInt E_quotas monthly_extraction_pages|].
    apply List.Forall_cons; [absent Ht 27%nat JInt E_quotas zalo_monthly_messages|].
    apply List.Forall_cons; [absent Ht 28%nat JInt E_quotas monthly_insight_narratives|].
    apply List.Forall_cons; [absent Ht 29%nat JBool E_insights llm_enabled|].
    apply List.Forall_cons; [absent Ht 30%nat JBool E_features extraction_enabled|].
    apply List.Forall_cons; [absent Ht 31%nat JBool E_features outbound_enabled|].
    apply List.Forall_cons; [absent Ht 32%nat JBool E_metrics metrics_enabled|].
    apply List.Forall_cons; [absent Ht 33%nat JString E_metrics metrics_bind|].
    apply List.Forall_cons; [absent Ht 34%nat JString E_update public_keys_directory|].
    apply List.Forall_cons; [absent Ht 35%nat JString E_update install_path|].
    apply List.Forall_cons; [absent Ht 36%nat JString E_update state_directory|].
    apply List.Forall_nil.
Qed.

(** ** Loading *)

Section Loading.
Context `{UL : UrlLib} `{TL : TomlLib}.

Lemma load_config_ok h path r : load_config h path = Ok r ->
  exists c0 a0 cfg a url backend extractor,
    load_file h path = Ok (c0, a0) /\ apply_env_overrides (h_env h) c0 a0 = Ok (cfg, a)
    /\ validate_resolved cfg = Ok tt
    /\ StorageBackend_parse (storage_backend (storage cfg)) = Ok backend
    /\ ExtractionBackend_parse (extraction_backend (extraction cfg)) = Ok extractor
    /\ r = resolved cfg a url backend extractor.
Proof.
  intros H. unfold load_config in H. apply res_bind_ok in H as ([c0 a0] & Hf & H).
  apply res_bind_ok in H as ([cfg a] & He & H). cbv zeta in H. cbn [fst snd] in *.
  apply res_bind_ok in H as ([] & Hv & H). apply res_bind_ok in H as (url & Hu & H).
  apply res_bind_ok in H as (? & _ & H). apply res_bind_ok in H as (backend & Hb & H).
  apply res_bind_ok in H as (extractor & Hx & H). injection H as <-.
  exists c0, a0, cfg, a, url, backend, extractor. by repeat split.
Qed.

(** The configuration and document of the file, if one was given. *)
Definition file_layer (h : host) (path : option rstr) : option (Config * toml) :=
  p ← path; contents ← h_read h p; document ← toml_parse contents; c ← de_config document; Some (c, document).

Lemma load_file_ok h path c0 a0 : load_file h path = Ok (c0, a0) ->
  match file_layer h path with
  | Some (c, document) => c0 = c /\ a0 = record_file_sources c document (record_default_sources ∅)
                          /\ de_config document = Some c
  | None => c0 = default_config /\ a0 = record_default_sources ∅
  end.
Proof.
  unfold load_file. destruct path as [p|]; cycle 1.
  { intros H. apply ok_inj, pair_equal_spec in H as [<- <-]. cbn [file_layer mbind option_bind]. by split. }
  intros H. apply res_bind_ok in H as (contents & Hr%ok_or_ok & H).
  apply res_bind_ok in H as (document & Hd%ok_or_ok & H). apply res_bind_ok in H as (c & Hc%ok_or_ok & H).
  apply ok_inj, pair_equal_spec in H as [<- <-].
  assert (Hl : file_layer h (Some p) = Some (c, document)).
  { unfold file_layer. cbn [mbind option_bind]. rewrite Hr. cbn [mbind option_bind].
    rewrite Hd in Hc |- *. cbn [mbind option_bind] in Hc |- *. by rewrite Hc. }
  rewrite Hl. rewrite Hd in Hc. split; [by destruct c|]. by split.
Qed.

(** The highest layer that names a key. *)
Definition attributed_to (h : host) (path : option rstr) (key : rstr) : option ConfigSource :=
  if env_names (h_env h) key then Some Env
  else if match file_layer h path with Some (c, document) => file_names c document key | None => false end
  then Some File
  else if default_names key then Some Default else None.

Lemma attribution_lookup h path c0 a0 cfg a key :
  load_file h path = Ok (c0, a0) -> apply_env_overrides (h_env h) c0 a0 = Ok (cfg, a) ->
  (forall f, shown key = Some f -> attributed_to h path key = Some Default -> f c0 = f default_config) ->
  a !! key = (src ← attributed_to h path key; entry cfg src key).
Proof.
  intros Hf He Hd. unfold attributed_to, env_names in *.
  rewrite (apply_rows_lookup _ key _ _ _ _ _ env_rows_agree env_rows_frame He).
  destruct (named_in (h_env h) ENV_ROWS key) eqn:En; [reflexivity|].
  assert (Hsame : forall src, entry c0 src key = entry cfg src key).
  { intros src. unfold entry. destruct (shown key) as [f|] eqn:Hk; [|reflexivity].
    pose proof (apply_rows_values _ _ _ Hk _ _ _ _ _ env_rows_frame He) as Hv. rewrite En in Hv.
    cbn. by rewrite Hv. }
  assert (Hdef : default_names key = true -> attributed_to h path key = Some Default ->
                 entry default_config Default key = entry cfg Default key).
  { intros _ Hat. rewrite <- Hsame. unfold entry. destruct (shown key) as [f|] eqn:Hk; [|reflexivity].
    cbn. rewrite (Hd f); [reflexivity|done|]. unfold attributed_to, env_names in Hat. by rewrite En in Hat. }
  unfold attributed_to, env_names in Hdef. rewrite En in Hdef.
  apply load_file_ok in Hf. destruct (file_layer h path) as [[c document]|].
  - destruct Hf as (-> & -> & _). rewrite record_file_lookup, record_default_lookup. destruct (file_names c document key); [by rewrite Hsame|].
    destruct (default_names key); [by apply Hdef|apply lookup_empty].
  - destruct Hf as [-> ->]. rewrite record_default_lookup.
    destruct (default_names key); [by apply Hdef|apply lookup_empty].
Qed.

Lemma default_names_setting key f : shown key = Some f -> default_names key = true -> In (key, f) DEFAULT_SETTINGS.
Proof.
  intros Hk H. apply existsb_exists in H as ([k g] & Hin & E). apply bool_decide_eq_true in E.
  cbn [fst] in E. subst k. pose proof (proj1 (List.Forall_forall _ _) default_rows_agree _ Hin) as Hg.
  cbn [fst snd] in Hg. rewrite Hk in Hg. apply some_inj in Hg. by subst g.
Qed.

Lemma unnamed_default h path c0 a0 key f :
  load_file h path = Ok (c0, a0) -> (forall c document, file_layer h path = Some (c, document) -> tables_only document) ->
  shown key = Some f -> attributed_to h path key = Some Default -> f c0 = f default_config.
Proof.
  intros Hf Ht Hk Hat. unfold attributed_to in Hat. destruct (env_names _ key); [discriminate|].
  apply load_file_ok in Hf. destruct (file_layer h path) as [[c document]|] eqn:El; [|by destruct Hf as [-> _]].
  destruct Hf as (-> & _ & Hc). destruct (file_names c document key) eqn:En; [discriminate|].
  destruct (default_names key) eqn:Ed; [|discriminate]. specialize (Ht c document eq_refl).
  pose proof (absent_defaults document c Ht Hc) as H.
  exact (proj1 (List.Forall_forall _ _) H _ (default_names_setting _ _ Hk Ed) En).
Qed.

(** Allowlisted identifiers and the storage endpoint do not show. *)
Lemma secrets_not_shown key f c ids ep : shown key = Some f ->
  length ids = length (allowed_provider_sender_ids (access c)) ->
  f (set_endpoint ep (set_allowed_provider_sender_ids ids c)) = f c.
Proof.
  intros Hk Hl. apply shown_in in Hk. revert Hk. apply (map_eq_in (fun p => p.2 _) (fun p => p.2 c) SETTINGS (key, f)).
  cbv [SETTINGS DEFAULT_SETTINGS DEFAULT_SETTINGS_1 DEFAULT_SETTINGS_2 OPTIONAL_SETTINGS app map snd
       allowlist_count count_json].
  cbn [set_endpoint put_storage set_allowed_provider_sender_ids put_access access allowed_provider_sender_ids].
  rewrite Hl. reflexivity.
Qed.

(** Where the value of a setting comes from, by the layer it is attributed to. *)
Definition value_from_layer (h : host) (path : option rstr) (src : ConfigSource) (key : rstr) (f : Config -> json)
    (cfg : Config) : Prop :=
  match src with
  | Env => from_variable (h_env h) ENV_ROWS key f cfg
  | File => exists c document, file_layer h path = Some (c, document) /\ f cfg = f c
  | Default => f cfg = f default_config
  end.

Lemma values_from_layers h path c0 a0 cfg a key f src :
  load_file h path = Ok (c0, a0) -> apply_env_overrides (h_env h) c0 a0 = Ok (cfg, a) ->
  (forall c document, file_layer h path = Some (c, document) -> tables_only document) ->
  shown key = Some f -> attributed_to h path key = Some src -> value_from_layer h path src key f cfg.
Proof.
  intros Hf He Ht Hk Hat. pose proof (apply_rows_values _ _ _ Hk _ _ _ _ _ env_rows_frame He) as Hv.
  pose proof (unnamed_default h path c0 a0 key f Hf Ht Hk) as Hd.
  unfold attributed_to, env_names in *. destruct (named_in (h_env h) ENV_ROWS key).
  { by injection Hat as <-. }
  apply load_file_ok in Hf. destruct (file_layer h path) as [[c document]|] eqn:El.
  - destruct Hf as (-> & _ & _). destruct (file_names c document key).
    + injection Hat as <-. exists c, document. by split.
    + destruct (default_names key); [|discriminate]. injection Hat as <-. cbn. rewrite Hv. by apply Hd.
  - destruct (default_names key); [|discriminate]. injection Hat as <-. cbn. rewrite Hv. by apply Hd.
Qed.


End Loading.

End ConfigProps.
