(* ===== verification/ConfigBounds.v ===== *)
(** * Bounds of a loaded configuration, and where credentials are read

    The numbers a configuration can hold are those of their Rust types whatever layer they
    come from; validation narrows them to the ranges the rest of the program assumes. *)

From S2P Require Import Prelude RustStr RustStrFacts Platform Errors Work Provider Media Paths ConfigTypes ConfigLayers ConfigLoad ConfigProps.
From S2P Require Import Jobs.

Module ConfigBounds.
Import ConfigTypes ConfigLayers ConfigLoad ConfigProps.
Import Errors (AppError).
Import Errors.AppError (config, refuse_if, refuse_if_ok).
#[local] Opaque lit.

(** ** The numbers keep to their types *)

Definition u32 (z : Z) : Prop := 0 <= z <= u32_max.
Definition u64 (z : Z) : Prop := 0 <= z <= u64_max.
Definition numbers_typed (c : Config) : Prop :=
  u32 (max_connections (database c)) /\ u32 (receipt_extraction (concurrency c))
  /\ u32 (outbound_delivery (concurrency c)) /\ u32 (original_receipt_days (retention c))
  /\ u64 (send_timeout_seconds (zalo c)) /\ u64 (webhook_max_body_bytes (zalo c))
  /\ u64 (per_user_daily_receipts (quotas c)) /\ u64 (monthly_extraction_pages (quotas c))
  /\ u64 (zalo_monthly_messages (quotas c)) /\ u64 (monthly_insight_narratives (quotas c)).

Lemma default_typed : numbers_typed default_config.
Proof. repeat split; vm_compute; discriminate. Qed.

Lemma digits_val_acc_nonneg s acc : 0 <= acc -> all_digits s = true ->
  0 <= foldl (fun acc d => acc * 10 + (d - 48)) acc s.
Proof.
  revert acc. induction s as [|d s IH]; intros acc Ha Hd; [done|]. cbn [all_digits forallb] in Hd.
  apply andb_true_iff in Hd as [Hd Hs]. cbn [foldl]. apply IH; [|exact Hs].
  unfold is_ascii_digit in Hd. lia.
Qed.

Lemma parse_uint_bound max s n : parse_uint max s = Some n -> 0 <= n <= max.
Proof.
  unfold parse_uint. destruct (is_empty _); [discriminate|]. intros H.
  destruct (all_digits _ && _) eqn:E; [|discriminate]. apply some_inj in H. subst n.
  apply andb_true_iff in E as [Hd Hm]. split; [by apply digits_val_acc_nonneg|lia].
Qed.

Lemma parse_env_u32_bound name v n : parse_env_u32 name v = Ok n -> u32 n.
Proof. intros H. apply ok_or_ok in H. by apply parse_uint_bound in H. Qed.
Lemma parse_env_u64_bound name v n : parse_env_u64 name v = Ok n -> u64 n.
Proof.
  intros H. unfold parse_env_u64 in H. apply res_bind_ok in H as (p & Hp%ok_or_ok%parse_uint_bound & H).
  destruct (p =? 0); [discriminate|]. apply ok_inj in H. by subst.
Qed.

(** A row assigns a number it parsed, or leaves the numbers alone. *)
Definition keeps_types (row : env_row) : Prop := forall v c c',
  ov_set row v c = Ok c' -> numbers_typed c -> numbers_typed c'.

(** The ten numbers. *)
Tactic Notation "ten" tactic3(t) :=
  refine (conj _ (conj _ (conj _ (conj _ (conj _ (conj _ (conj _ (conj _ (conj _ _))))))))); t.

Ltac typed_row :=
  let v := fresh "v" in let c := fresh "c" in let c' := fresh "c'" in let H := fresh "H" in let Ht := fresh "Ht" in
  intros v c c' H Ht; cbn [ov_set] in H; unfold text, boolean, unsigned32, unsigned64 in H; split_binds H;
  apply ok_inj in H; subst c';
  repeat match goal with
         | E : parse_env_u32 _ _ = Ok _ |- _ => apply parse_env_u32_bound in E
         | E : parse_env_u64 _ _ = Ok _ |- _ => apply parse_env_u64_bound in E
         end;
  first [exact Ht | destruct Ht as (? & ? & ? & ? & ? & ? & ? & ? & ? & ?); ten assumption].

Lemma env_rows_typed : Forall keeps_types ENV_ROWS.
Proof. apply Forall_app_2; repeat (apply List.Forall_cons; [typed_row|]); apply List.Forall_nil. Qed.

Lemma apply_rows_typed env : forall rows c a c' a', Forall keeps_types rows ->
  apply_rows env rows (c, a) = Ok (c', a') -> numbers_typed c -> numbers_typed c'.
Proof.
  induction rows as [|row rows IH]; intros c a c' a' Hr H Ht; cbn [apply_rows] in H.
  { apply ok_inj, pair_equal_spec in H as [<- _]. exact Ht. }
  apply Forall_cons in Hr as [Hrow Hr]. apply res_bind_ok in H as ([c1 a1] & H1 & H).
  apply (IH _ _ _ _ Hr H). unfold apply_row in H1. destruct (env (ov_var row)) as [v|].
  - apply res_bind_ok in H1 as (c2 & H2 & H1). apply ok_inj, pair_equal_spec in H1 as [<- _].
    by apply (Hrow v c).
  - apply ok_inj, pair_equal_spec in H1 as [<- _]. exact Ht.
Qed.

Lemma or_default_uint d max o n : 0 <= d <= max -> or_default d (de_uint max) o = Some n -> 0 <= n <= max.
Proof.
  intros Hd. destruct o as [v|]; cbn [or_default]; [|by intros <-%some_inj].
  destruct v; try discriminate. cbn [de_uint]. destruct (_ && _) eqn:E; [|discriminate].
  intros <-%some_inj. apply andb_true_iff in E. lia.
Qed.

(** A section read, or its default. *)
Ltac section_typed :=
  let o := fresh "o" in let d := fresh "d" in let H := fresh "H" in
  intros o d H; destruct o; cbn [or_default] in H;
  [|apply some_inj in H; subst d; repeat split; vm_compute; discriminate];
  lazymatch type of H with ?de _ = _ => unfold de in H end;
  apply bind_some in H as (? & _ & H);
  repeat match type of H with match ?l with _ => _ end = _ => destruct l; [try discriminate|try discriminate] end;
  split_binds H; apply some_inj in H; subst d; cbn;
  repeat match goal with
         | |- _ /\ _ => refine (conj _ _)
         | E : or_default _ _ _ = Some ?x |- _ ?x => eapply (or_default_uint _ _ _ _); [|exact E]; split; vm_compute; discriminate
         end.

Lemma database_typed : forall o d, or_default default_database de_database o = Some d -> u32 (max_connections d).
Proof. section_typed. Qed.
Lemma concurrency_typed : forall o d, or_default default_concurrency de_concurrency o = Some d ->
  u32 (receipt_extraction d) /\ u32 (outbound_delivery d).
Proof. section_typed. Qed.
Lemma retention_typed : forall o d, or_default default_retention de_retention o = Some d -> u32 (original_receipt_days d).
Proof. section_typed. Qed.
Lemma zalo_typed : forall o d, or_default default_zalo de_zalo o = Some d ->
  u64 (send_timeout_seconds d) /\ u64 (webhook_max_body_bytes d).
Proof. section_typed. Qed.
Lemma quotas_typed : forall o d, or_default default_quotas de_quotas o = Some d ->
  u64 (per_user_daily_receipts d) /\ u64 (monthly_extraction_pages d) /\ u64 (zalo_monthly_messages d)
  /\ u64 (monthly_insight_narratives d).
Proof. section_typed. Qed.

Lemma de_config_typed document c : de_config document = Some c -> numbers_typed c.
Proof.
  intros H. unfold de_config in H. apply bind_some in H as (fs & _ & H).
  do 15 (destruct fs as [|? fs]; [discriminate|]). destruct fs; [|discriminate].
  repeat match type of H with
         | or_default default_database _ _ ≫= _ = _ => apply bind_some in H as (? & Ed%database_typed & H)
         | or_default default_concurrency _ _ ≫= _ = _ => apply bind_some in H as (? & [Ec1 Ec2]%concurrency_typed & H)
         | or_default default_retention _ _ ≫= _ = _ => apply bind_some in H as (? & Er%retention_typed & H)
         | or_default default_zalo _ _ ≫= _ = _ => apply bind_some in H as (? & [Ez1 Ez2]%zalo_typed & H)
         | or_default default_quotas _ _ ≫= _ = _ => apply bind_some in H as (? & (Eq1 & Eq2 & Eq3 & Eq4)%quotas_typed & H)
         | _ => apply bind_some in H as (? & _ & H)
         end.
  apply some_inj in H. subst c. by ten assumption.
Qed.

(** ** Validation *)

Lemma outside_false lo hi n : outside lo hi n = false -> lo <= n <= hi.
Proof. unfold outside. lia. Qed.

(** Run through a sequence of checks: every refused condition is false. *)
Ltac checks_passed H :=
  repeat match type of H with
         | res_bind (refuse_if _ _) _ = Ok _ =>
             let E := fresh "E" in apply res_bind_ok in H as ([] & E%refuse_if_ok & H)
         | res_bind _ _ = Ok _ => let x := fresh "x" in let E := fresh "E" in apply res_bind_ok in H as (x & E & H)
         | refuse_if _ _ = Ok _ => apply refuse_if_ok in H
         end.

(** What validation promises of a profile. *)
Definition profile_in_bounds (p : AiProfileConfig) : Prop :=
  1 <= timeout_seconds p <= 120 /\ 1 <= max_attempts p <= 10 /\ 1 <= max_input_bytes p <= (10 * 1024 * 1024)
  /\ 1 <= max_output_tokens p <= 8192 /\ valid_credential_reference (credential p) = true
  /\ provider p = (s! "gemini") /\ (task p = (s! "extraction") \/ task p = (s! "insight"))
  /\ (thinking_effort p = (s! "none") \/ model_supports_thinking (model p) = true).

Section Validation.
Context `{UL : UrlLib} `{TL : TomlLib}.

Lemma validate_thinking_ok model effort : validate_thinking_effort model effort = Ok tt ->
  effort = (s! "none") \/ model_supports_thinking model = true.
Proof.
  unfold validate_thinking_effort. destruct (str_eqb effort _) eqn:E.
  { apply bool_decide_eq_true in E. by left. }
  destruct (existsb _ _); [|discriminate]. destruct (model_supports_thinking model); [by right|discriminate].
Qed.

Lemma validate_profile_ok names p : validate_profile names p = Ok tt -> (name p ∉ names) /\ profile_in_bounds p.
Proof.
  unfold validate_profile. intros H.
  apply res_bind_ok in H as ([] & E1%refuse_if_ok & H). apply res_bind_ok in H as ([] & E2%refuse_if_ok & H).
  apply res_bind_ok in H as ([] & _ & H). apply res_bind_ok in H as ([] & E4%refuse_if_ok & H).
  apply res_bind_ok in H as ([] & E5%refuse_if_ok & H).
  apply res_bind_ok in H as ([] & E6%refuse_if_ok%outside_false & H).
  apply res_bind_ok in H as ([] & E7%refuse_if_ok%outside_false & H).
  apply res_bind_ok in H as ([] & E8%refuse_if_ok%outside_false & H).
  apply res_bind_ok in H as ([] & E9%refuse_if_ok%outside_false & H).
  apply res_bind_ok in H as ([] & E10%validate_thinking_ok & _).
  apply orb_false_iff in E1 as [_ E1%bool_decide_eq_false]. apply negb_false_iff in E2, E4.
  apply bool_decide_eq_true in E2. split; [exact E1|]. split; [exact E6|]. split; [exact E7|].
  split; [exact E8|]. split; [exact E9|]. split; [exact E4|]. split; [exact E2|]. split; [|exact E10].
  apply andb_false_iff in E5 as [E5|E5]; apply negb_false_iff, bool_decide_eq_true in E5; auto.
Qed.

Lemma validate_profiles_ok ps : forall names, validate_profiles names ps = Ok tt ->
  Forall profile_in_bounds ps /\ NoDup (map name ps) /\ forall p, In p ps -> name p ∉ names.
Proof.
  induction ps as [|p ps IH]; intros names H; cbn [validate_profiles] in H.
  { split; [constructor|]. split; [constructor|]. by intros q []. }
  apply res_bind_ok in H as ([] & [Hp Hb]%validate_profile_ok & (Hf & Hd & Hn)%IH).
  split; [by constructor|]. split.
  - cbn [map]. constructor; [|exact Hd]. intros (q & Hq & Hin)%list_elem_of_In%in_map_iff. apply (Hn q Hin). set_solver.
  - intros q [<-|Hq]; [exact Hp|]. specialize (Hn q Hq). set_solver.
Qed.

(** What validation promises of a configuration, in the terms of the resolved record. *)
Definition numbers_bounded (r : ResolvedConfig) : Prop :=
  1 <= r_max_connections r <= u32_max /\ 1 <= r_receipt_extraction r <= u32_max
  /\ 1 <= r_outbound_delivery r <= u32_max /\ 1 <= r_original_receipt_days r <= 30
  /\ 1 <= r_zalo_send_timeout_seconds r <= 60 /\ 1 <= r_webhook_max_body_bytes r <= 1048576
  /\ 1 <= r_per_user_daily_receipts r <= u64_max /\ 1 <= r_monthly_extraction_pages r <= u64_max
  /\ 1 <= r_zalo_monthly_messages r <= u64_max /\ 1 <= r_monthly_insight_narratives r <= u64_max.

Lemma validate_server_ok cfg : validate_server cfg = Ok tt ->
  max_connections (database cfg) <> 0 /\ receipt_extraction (concurrency cfg) <> 0
  /\ outbound_delivery (concurrency cfg) <> 0 /\ 1 <= original_receipt_days (retention cfg) <= 30
  /\ 1 <= send_timeout_seconds (zalo cfg) <= 60 /\ 1 <= webhook_max_body_bytes (zalo cfg) <= 1048576
  /\ Forall (fun n => valid_credential_reference n = true)
       [url_credential (database cfg); bot_token_credential (zalo cfg); webhook_secret_credential (zalo cfg)]
  /\ trim (credentials_directory (credentials cfg)) <> []
  /\ Forall (fun id => valid_provider_sender_id id = true) (allowed_provider_sender_ids (access cfg)).
Proof.
  intros H. unfold validate_server in H. apply res_bind_ok in H as ([] & _ & H).
  apply res_bind_ok in H as ([] & E2%refuse_if_ok%Z.eqb_neq & H).
  apply res_bind_ok in H as ([] & E3%refuse_if_ok%Z.eqb_neq & H).
  apply res_bind_ok in H as ([] & E4%refuse_if_ok%Z.eqb_neq & H).
  apply res_bind_ok in H as ([] & E5%refuse_if_ok%outside_false & H).
  apply res_bind_ok in H as ([] & E6%refuse_if_ok%negb_false_iff & H).
  apply res_bind_ok in H as ([] & E7%refuse_if_ok%negb_false_iff & H).
  apply res_bind_ok in H as ([] & E8%refuse_if_ok%negb_false_iff & H).
  apply res_bind_ok in H as ([] & E9%refuse_if_ok & H). apply res_bind_ok in H as ([] & E10%refuse_if_ok & H).
  apply res_bind_ok in H as ([] & _ & H). apply res_bind_ok in H as ([] & E12%refuse_if_ok%outside_false & H).
  apply refuse_if_ok, outside_false in H. do 6 (split; [assumption|]). split; [by repeat constructor|].
  split; [by intros E; rewrite E in E9|]. apply List.Forall_forall. intros id Hin.
  destruct (valid_provider_sender_id id) eqn:Ev; [reflexivity|]. exfalso.
  apply not_true_iff_false in E10. apply E10. apply existsb_exists. exists id. by rewrite Ev.
Qed.

Lemma validate_quotas_ok q : validate_quotas q = Ok tt ->
  per_user_daily_receipts q <> 0 /\ monthly_extraction_pages q <> 0 /\ zalo_monthly_messages q <> 0
  /\ monthly_insight_narratives q <> 0.
Proof.
  intros H. unfold validate_quotas in H. apply res_bind_ok in H as ([] & E1%refuse_if_ok%Z.eqb_neq & H).
  apply res_bind_ok in H as ([] & E2%refuse_if_ok%Z.eqb_neq & H).
  apply res_bind_ok in H as ([] & E3%refuse_if_ok%Z.eqb_neq & H). apply refuse_if_ok, Z.eqb_neq in H. auto.
Qed.

(** The profiles, and the one a gemini extractor will use. *)
Lemma validate_extraction_ok cfg x : ExtractionBackend_parse (extraction_backend (extraction cfg)) = Ok x ->
  validate_extraction cfg = Ok tt ->
  Forall profile_in_bounds (profiles (ai cfg)) /\ NoDup (map name (profiles (ai cfg)))
  /\ (x = Gemini -> exists p, List.find (fun p => str_eqb (name p) (default_profile (extraction cfg))) (profiles (ai cfg))
                             = Some p /\ task p = s! "extraction").
Proof.
  intros Hx H. unfold validate_extraction in H. rewrite Hx in H. cbn [res_bind] in H.
  apply res_bind_ok in H as ([] & _ & H). apply res_bind_ok in H as ([] & _ & H).
  apply res_bind_ok in H as ([] & (Hb & Hd & _)%validate_profiles_ok & H). split; [exact Hb|]. split; [exact Hd|].
  intros ->. apply res_bind_ok in H as (p & Hp%ok_or_ok & H). exists p. split; [exact Hp|].
  apply refuse_if_ok, orb_false_iff in H as [H _]. by apply negb_false_iff, bool_decide_eq_true in H.
Qed.

Lemma resolve_profiles_same cfg : resolve_ai_profiles cfg = profiles (ai cfg).
Proof.
  unfold resolve_ai_profiles. rewrite <- (map_id (profiles (ai cfg))) at 2. apply map_ext. by intros [].
Qed.

Lemma load_config_typed h path c0 a0 cfg a :
  load_file h path = Ok (c0, a0) -> apply_env_overrides (h_env h) c0 a0 = Ok (cfg, a) -> numbers_typed cfg.
Proof.
  intros Hf He. apply (apply_rows_typed _ _ _ _ _ _ env_rows_typed He). apply load_file_ok in Hf.
  destruct (file_layer h path) as [[c document]|].
  - destruct Hf as (-> & _ & Hc). by apply (de_config_typed document).
  - destruct Hf as [-> _]. exact default_typed.
Qed.

Lemma numbers_bounded_of cfg a url b x : numbers_typed cfg -> validate_server cfg = Ok tt ->
  validate_quotas (quotas cfg) = Ok tt -> numbers_bounded (resolved cfg a url b x).
Proof.
  intros (T1 & T2 & T3 & T4 & T5 & T6 & T7 & T8 & T9 & T10) (N1 & N2 & N3 & N4 & N5 & N6 & _)%validate_server_ok
    (Q1 & Q2 & Q3 & Q4)%validate_quotas_ok. unfold u32, u64 in *. unfold numbers_bounded.
  cbn [resolved r_max_connections r_receipt_extraction r_outbound_delivery r_original_receipt_days
       r_zalo_send_timeout_seconds r_webhook_max_body_bytes r_per_user_daily_receipts r_monthly_extraction_pages
       r_zalo_monthly_messages r_monthly_insight_narratives].
  ten lia.
Qed.

Lemma lease_in_bounds t : 1 <= t <= 60 -> 60 <= Jobs.worker_lease_duration_secs t <= 180.
Proof.
  intros H. unfold Jobs.worker_lease_duration_secs. cbv zeta.
  assert (Hm : Z.min u64_max (t * 3) = t * 3) by (apply Z.min_r; unfold u64_max; lia).
  rewrite Hm. replace (Z.max (t * 3) 60 <=? i64_max) with true; [lia|].
  symmetry. apply Z.leb_le. unfold i64_max. lia.
Qed.

(** C23. Bounds of a loaded configuration: connections, concurrency and quotas are
    positive and within their integer types, originals are kept 1 to 30 days, a send may
    take 1 to 60 seconds, so that a worker's lease lasts 60 to 180 seconds, webhook
    bodies are at most 1 MiB; the AI profiles have distinct names and are within their
    limits, and a gemini extractor has an extraction profile of the configured name. *)
Theorem loaded_config_bounds h path r : load_config h path = Ok r ->
  numbers_bounded r
  /\ 60 <= Jobs.worker_lease_duration_secs (r_zalo_send_timeout_seconds r) <= 180
  /\ Forall profile_in_bounds (r_ai_profiles r) /\ NoDup (map name (r_ai_profiles r))
  /\ (r_extraction_backend r = Gemini ->
       exists p, extraction_profile r (r_extraction_default_profile r) = Some p /\ task p = s! "extraction").
Proof.
  intros H. apply load_config_ok in H as (c0 & a0 & cfg & a & url & b & x & Hf & He & Hv & _ & Hx & ->).
  unfold validate_resolved in Hv. apply res_bind_ok in Hv as ([] & Hs & Hv). apply res_bind_ok in Hv as (? & _ & Hv).
  apply res_bind_ok in Hv as ([] & _ & Hv). apply res_bind_ok in Hv as ([] & _ & Hv).
  apply res_bind_ok in Hv as ([] & Hex & Hq).
  pose proof (numbers_bounded_of cfg a url b x (load_config_typed _ _ _ _ _ _ Hf He) Hs Hq) as Hn.
  split; [exact Hn|]. split; [apply lease_in_bounds; apply Hn|].
  unfold extraction_profile. cbn [resolved r_ai_profiles r_extraction_backend r_extraction_default_profile].
  rewrite resolve_profiles_same. exact (validate_extraction_ok cfg x Hx Hex).
Qed.

(** ** Credentials *)

Lemma credential_plain n : valid_credential_reference n = true -> Paths.plain_name n /\ blen n <= 64.
Proof.
  unfold valid_credential_reference. destruct (is_empty n || _ || _) eqn:E; [discriminate|]. intros _.
  apply orb_false_iff in E as [E Hc]. apply orb_false_iff in E as [He Hl].
  apply negb_false_iff in Hc. assert (Hchars : Forall (fun c => credential_char c = true) n).
  { apply List.Forall_forall. by apply forallb_forall. }
  assert (Hdot : forall m, n <> c! "." :: m).
  { intros m ->. apply Forall_cons in Hchars as [Hd _]. vm_compute in Hd. discriminate. }
  split; [|lia]. split; [by intros ->|]. split; [intros H; by apply (Hdot [])|].
  split; [intros H; by apply (Hdot [c! "."])|].
  eapply Forall_impl; [exact Hchars|]. intros c Hcc. unfold Paths.is_slash. apply Z.eqb_neq. intros <-.
  vm_compute in Hcc. discriminate.
Qed.

(** C24. Credentials stay inside the credentials directory: whatever name is asked for, a
    credential that is returned is the trimmed, non-empty text of the file of exactly
    that name directly in the directory, and the name has at most 64 bytes. *)
Theorem credential_reads_confined h r reference v :
  r_credentials_directory r <> [] -> read_credential h r reference = Ok v ->
  exists path text, h_read h path = Some text /\ v = trim text /\ v <> []
    /\ Paths.components path = Paths.components (r_credentials_directory r) ++ [Paths.Normal reference]
    /\ blen reference <= 64.
Proof.
  intros Hd H. unfold read_credential in H. apply res_bind_ok in H as ([] & Hr%refuse_if_ok%negb_false_iff & H).
  apply credential_plain in Hr as [Hp Hl]. apply res_bind_ok in H as (text & Ht%ok_or_ok & H).
  apply res_bind_ok in H as ([] & He%refuse_if_ok & H). apply ok_inj in H. subst v.
  exists (Paths.path_join (r_credentials_directory r) reference), text. split; [exact Ht|]. split; [reflexivity|].
  split; [by intros E; rewrite E in He|]. split; [by apply Paths.join_components|exact Hl].
Qed.

End Validation.

End ConfigBounds.
