(* ===== verification/ExtractorProps.v ===== *)
(** * Properties of the extractors

    What the Gemini adapter accepts can be stored: it passes every CHECK of the drafts
    table, so a supported extraction never fails at the database. *)

From S2P Require Import Prelude RustStr RustStrFacts Platform Errors Work Provider Floats ReceiptTypes Receipt ReceiptClaims Extractors.
From Stdlib Require Import Floats.SpecFloat.

Module ExtractorProps.
Import ReceiptTypes Receipt Extractors ReceiptClaims.
Import Work (json(..)).
#[local] Opaque lit.

(** ** The numbers of a JSON document are finite *)

Fixpoint json_finite (v : json) : bool :=
  match v with
  | JFloat bits => match Floats.f64_of_bits bits with S754_nan => false | _ => true end
  | JArray l => forallb json_finite l
  | JObject fields => forallb (fun p => json_finite p.2) fields
  | _ => true
  end.

(** JSON has no notation for NaN. *)
Class SerdeParseLaws `{SerdeParse} : Prop := {
  parsed_finite : forall b v, json_from_slice b = Some v -> json_finite v = true;
}.

Lemma assoc_in k fields v : Work.assoc k fields = Some v -> In (k, v) fields.
Proof.
  induction fields as [|[k' w] fields IH]; [discriminate|]. cbn [Work.assoc]. unfold str_eqb.
  case_bool_decide as E; [intros ->%some_inj; subst; by left|intros H; right; auto].
Qed.

Lemma get_finite v k w : json_finite v = true -> get v k = Some w -> json_finite w = true.
Proof.
  destruct v as [| | | | | |fields]; try discriminate. cbn [json_finite get]. intros Hf Hg.
  unfold Provider.value_get in Hg. apply assoc_in, in_rev in Hg.
  exact (proj1 (forallb_forall _ _) Hf _ Hg).
Qed.

Lemma as_f64_not_nan v x : json_finite v = true -> value_as_f64 v = Some x -> x <> S754_nan.
Proof.
  destruct v; try discriminate; cbn [json_finite value_as_f64]; intros Hf H; apply some_inj in H; subst x.
  - apply Floats.f64_of_int_not_nan.
  - intros E. by rewrite E in Hf.
Qed.

(** ** What is accepted *)

Section Accepted.
Context `{SP : SerdeParse} `{SPL : !SerdeParseLaws} `{B64 : Base64} `{RF : Rfc3339}.

(** The fields of an accepted answer, by the checks each one passed. *)
Definition extraction_ok (x : ExtractionResult) : Prop :=
  (exists m, validate_merchant m = Ok (x_merchant x))
  /\ in_i64 (x_amount_minor x) = true
  /\ existsb (str_eqb (x_category_key x)) CATEGORY_KEYS = true
  /\ existsb (str_eqb (x_transaction_type x)) [s! "expense"; s! "income"; s! "transfer"] = true
  /\ confidence_ok (x_confidence x) = true
  /\ (x_unsupported x = false ->
       validate_amount_minor (x_amount_minor x) = Ok tt /\ validate_currency (x_currency x) = Ok tt).

Lemma field_ok {A} v k (decode : json -> option A) a :
  field v k decode = Ok a -> exists w, get v k = Some w /\ decode w = Some a.
Proof. intros H%ok_or_ok. by apply bind_some in H. Qed.

Lemma clamped_confidence v k x : json_finite v = true -> field v k value_as_f64 = Ok x ->
  confidence_ok (Floats.f32_bits (Floats.clamp (Floats.f32_of_f64 x) Floats.f32_zero Floats.f32_one)) = true.
Proof.
  intros Hf (w & Hw & Hd)%field_ok. pose proof (as_f64_not_nan w x (get_finite v k w Hf Hw) Hd) as Hn.
  unfold confidence_ok.
  destruct (Floats.clamp_bits _ (Floats.f32_of_f64_not_nan x Hn) (Floats.f32_of_f64_canonical x)) as [H|H].
  - apply orb_true_iff. left. apply andb_true_iff. split; apply Z.leb_le; apply H.
  - apply orb_true_iff. right. by apply Z.eqb_eq.
Qed.

Lemma parse_extraction_ok text x : parse_extraction_json text = Ok x -> extraction_ok x.
Proof.
  unfold parse_extraction_json. cbv zeta. intros H.
  apply res_bind_ok in H as (v & Hv%ok_or_ok%parsed_finite & H). apply res_bind_ok in H as (m & _ & H).
  apply res_bind_ok in H as (m' & Hm & H). apply res_bind_ok in H as (a & Ha & H).
  apply res_bind_ok in H as (c & _ & H). apply res_bind_ok in H as (k & _ & H).
  destruct (existsb (str_eqb k) CATEGORY_KEYS) eqn:Hk; [cbn [negb] in H|discriminate].
  apply res_bind_ok in H as (t & _ & H).
  destruct (existsb (str_eqb t) _) eqn:Ht; [cbn [negb] in H|discriminate].
  apply res_bind_ok in H as (o & _ & H). apply res_bind_ok in H as (o' & _ & H).
  apply res_bind_ok in H as (f & Hf & H). apply res_bind_ok in H as (u & _ & H).
  apply res_bind_ok in H as ([] & Hu & H). apply ok_inj in H. subst x.
  split; [by exists m|]. split.
  { apply field_ok in Ha as (w & _ & Hw). destruct w; try discriminate. cbn in Hw.
    destruct (in_i64 z) eqn:Ez; [|discriminate]. apply some_inj in Hw. by subst. }
  split; [exact Hk|]. split; [exact Ht|]. split; [exact (clamped_confidence v _ f Hv Hf)|].
  cbn [x_unsupported x_amount_minor x_currency]. intros ->. by apply res_bind_ok in Hu as ([] & Hu1 & Hu2).
Qed.

Lemma gemini_execute_ok `{IC : ImageCodec} post g bytes a :
  gemini_execute post g bytes = Ok a -> extraction_ok (x_result a).
Proof.
  unfold gemini_execute. cbv zeta. intros H. apply res_bind_ok in H as (jpeg & _ & H).
  destruct (_ <? _); [discriminate|]. destruct (negb (header_value_ok _)); [discriminate|].
  destruct (post _) as [[]|status body]; [discriminate..|]. destruct (in_range 300 399 status); [discriminate|].
  destruct (gemini_status status); [discriminate|]. apply res_bind_ok in H as (text & _ & H).
  unfold parse_generate_content in H. cbv zeta in H. apply res_bind_ok in H as (parsed & _ & H).
  destruct (bool_decide _); [discriminate|].
  destruct (match pointer parsed _ ≫= _ with Some _ => _ | None => _ end); [discriminate|].
  apply res_bind_ok in H as (t & _ & H). apply res_bind_ok in H as (x & Hx & H). apply ok_inj in H. subst a.
  exact (parse_extraction_ok t x Hx).
Qed.

(** ** It can be stored *)

Lemma gemini_types_allowed t : existsb (str_eqb t) [s! "expense"; s! "income"; s! "transfer"] = true ->
  existsb (str_eqb t) TRANSACTION_TYPES = true.
Proof.
  intros (u & Hu & He)%existsb_exists. apply existsb_exists. exists u. split; [|exact He].
  unfold TRANSACTION_TYPES. cbn [In] in *. tauto.
Qed.

Definition draft_of (did acct : uuid) (x : ExtractionResult) : ExpenseDraftView :=
  {| draft_id := did; dr_account_id := acct; amount_minor := x_amount_minor x; currency := x_currency x;
     merchant := x_merchant x; category_key := x_category_key x; transaction_type := x_transaction_type x;
     occurred_at := x_occurred_at x; confidence := Some (x_confidence x); version := 1 |}.

Lemma extraction_draft_check did acct x :
  extraction_ok x -> x_unsupported x = false -> draft_check (draft_of did acct x) = true.
Proof.
  intros ((m & Hm) & Hi & _ & Ht & Hc & Hs) Hu. destruct (Hs Hu) as [Ha Hcur]. apply draft_check_iff.
  cbn [draft_of amount_minor currency merchant transaction_type confidence version].
  assert (Hmt : x_merchant x = trim m).
  { unfold validate_merchant in Hm. cbv zeta in Hm. destruct (_ || _); [discriminate|]. by apply ok_inj in Hm. }
  split; [unfold validate_amount_minor in Ha; destruct (x_amount_minor x <=? 0) eqn:E; [discriminate|lia]|].
  split; [exact Hi|]. split; [by apply currency_valid|]. split; [rewrite Hmt in Hm |- *; by apply merchant_valid|].
  split; [by apply gemini_types_allowed|]. split; [exact Hc|]. split; [lia|reflexivity].
Qed.


End Accepted.

(** ** The fixtures of the corpus extractor *)

Section Fixtures.
Context `{SH : Sha256}.

Lemma search_nonce_selects fuel index nonce b :
  search_nonce fuel index nonce = Ret b -> corpus_index_for b = index.
Proof.
  revert nonce. induction fuel as [|f IH]; intros nonce; cbn [search_nonce]; [discriminate|].
  destruct (Z.eqb_spec (index_for (sha256 (encode_utf8 (s! "mock-fixture-" ++ dec index ++ s! "-" ++ dec nonce)))) index)
    as [E|]; [by intros [= <-]|].
  destruct (nonce =? u32_max); [discriminate | apply IH].
Qed.

Lemma search_nonce_ends fuel index nonce :
  nonce <= u32_max -> u32_max - nonce < Z.of_nat fuel -> search_nonce fuel index nonce <> Timeout.
Proof.
  revert nonce. induction fuel as [|f IH]; intros nonce Hn Hf; [lia|]. cbn [search_nonce].
  destruct (index_for _ =? index); [discriminate|].
  destruct (Z.eqb_spec nonce u32_max); [discriminate|]. apply IH; lia.
Qed.

(** The search for a fixture ends within the 2^32 nonces there are, and the bytes it
    returns select the entry asked for. *)
Theorem fixture_search_correct index fuel : u32_max < Z.of_nat fuel ->
  bytes_for_corpus_index fuel index <> Timeout
  /\ (forall b, bytes_for_corpus_index fuel index = Ret (Some b) -> corpus_index_for b = index).
Proof.
  intros Hf. unfold bytes_for_corpus_index. destruct (_ <=? index); [done|].
  pose proof (search_nonce_ends fuel index 0 ltac:(done) ltac:(lia)) as Hends.
  destruct (search_nonce fuel index 0) as [b| |] eqn:E; [|done..].
  split; [done|]. intros b' [= <-]. exact (search_nonce_selects _ _ _ _ E).
Qed.

End Fixtures.

End ExtractorProps.
