(* ===== verification/FsStoreProps.v ===== *)
(** * The filesystem store implements the object store

    On the keys of the program (four plain components, the last not a dot name) the files
    under the root are a map from keys to bytes; an operation that reports success acts on
    the map as the in-memory store does, and one that fails leaves the map as it was,
    whatever system call failed. *)

From S2P Require Import Prelude RustStr RustStrFacts Platform Errors Paths ReceiptTypes FsStore.

Module FsStoreProps.
Import ReceiptTypes Paths FsStore.
#[local] Opaque lit.

(** ** Keys and their paths *)

Definition parts (k : rstr) : list rstr := split_by is_slash k.
Definition key_path (r k : rstr) : path := components r ++ map Normal (parts k).

(** The shape of [object_key]: four components that pass the check, the last without a
    leading dot. *)
Record good_key (k : rstr) : Prop := {
  gk_valid : validate_object_key k = Ok tt;
  gk_parts : Forall (fun c => key_component_ok c = true) (parts k);
  gk_shape : exists a b c d, parts k = [a; b; c; d] /\ starts_with d (s! ".") = false;
}.

Lemma join_split k : join [c! "/"] (split_by is_slash k) = k.
Proof.
  induction k as [|c k IH]; [reflexivity|]. cbn [split_by]. destruct (is_slash c) eqn:E.
  - apply Z.eqb_eq in E. subst c. pose proof (split_by_nonempty is_slash k) as Hn.
    destruct (split_by is_slash k) as [|w ws]; [done|]. cbn [join app] in *. by rewrite IH.
  - pose proof (split_by_nonempty is_slash k) as Hn. destruct (split_by is_slash k) as [|w ws]; [done|].
    destruct ws; cbn [join app] in *; by rewrite <- IH.
Qed.

Lemma parts_inj k k' : parts k = parts k' -> k = k'.
Proof. intros H. rewrite <- (join_split k), <- (join_split k'). unfold parts in H. by rewrite H. Qed.

Lemma map_normal_inj l l' : map Normal l = map Normal l' -> l = l'.
Proof.
  revert l'. induction l as [|x l IH]; intros [|y l']; cbn [map]; try discriminate; [done|].
  intros H. injection H as -> H. by rewrite (IH l').
Qed.

Lemma key_path_inj r k k' : key_path r k = key_path r k' -> k = k'.
Proof. intros H. apply app_inv_head, map_normal_inj in H. by apply parts_inj. Qed.

Lemma split_no_sep f s : Forall (Forall (fun c => f c = false)) (split_by f s).
Proof.
  induction s as [|c s IH]; cbn [split_by]; [by repeat constructor|]. destruct (f c) eqn:E; [by constructor|].
  destruct (split_by f s) as [|w ws]; [by repeat constructor|]. apply Forall_cons in IH as [Hw Hws].
  by repeat constructor.
Qed.

Lemma good_plain k : good_key k -> Forall plain_name (parts k).
Proof.
  intros [_ Hok _]. apply List.Forall_forall. intros c Hc.
  pose proof (proj1 (List.Forall_forall _ _) Hok c Hc) as H. unfold key_component_ok in H.
  apply andb_true_iff in H as [H _]. apply negb_true_iff in H. apply orb_false_iff in H as [H H2].
  apply orb_false_iff in H as [H0 H1]. apply bool_decide_eq_false in H1, H2.
  split; [by intros ->|]. split; [exact H1|]. split; [exact H2|].
  exact (proj1 (List.Forall_forall _ _) (split_no_sep is_slash k) c Hc).
Qed.

Lemma ends_plain x w : plain_name w -> ends_with (x ++ w) (s! "/") = false.
Proof.
  intros (Hne & _ & _ & Hs). apply not_true_iff_false. intros (r & Hr)%ends_with_spec.
  change (s! "/") with [c! "/"] in Hr. destruct (exists_last Hne) as (w' & c & ->).
  rewrite app_assoc in Hr. apply app_inj_tail in Hr as [_ ->].
  apply Forall_app in Hs as [_ Hc]. apply Forall_cons in Hc as [Hc _]. discriminate.
Qed.

Lemma fold_join : forall ws p, p <> [] -> ends_with p (s! "/") = false -> Forall plain_name ws ->
  foldl path_join p ws = p ++ concat (map (cons (c! "/")) ws).
Proof.
  induction ws as [|w ws IH]; intros p Hp He Hw; [cbn; by rewrite app_nil_r|].
  apply Forall_cons in Hw as [Hpw Hw]. cbn [foldl map concat].
  assert (E : path_join p w = p ++ c! "/" :: w).
  { unfold path_join. rewrite (plain_not_absolute w) by apply Hpw. rewrite He. by destruct p. }
  rewrite E, IH; [|by destruct p| |exact Hw].
  - rewrite <- app_assoc. reflexivity.
  - change (c! "/" :: w) with ([c! "/"] ++ w). rewrite app_assoc. by apply ends_plain.
Qed.

Lemma join_cons c w ws : join [c] (w :: ws) = w ++ concat (map (cons c) ws).
Proof.
  revert w. induction ws as [|v ws IH]; intros w; [cbn; by rewrite app_nil_r|].
  cbn [map concat app]. rewrite <- (IH v). reflexivity.
Qed.

Lemma push_all ws : Forall (fun c => key_component_ok c = true) ws -> forall p,
  foldl push_component (Ok p) ws = Ok (foldl path_join p ws).
Proof.
  induction 1 as [|w ws Hw _ IH]; intros p; [reflexivity|]. cbn [foldl].
  unfold push_component at 2. cbn [res_bind]. rewrite Hw. apply IH.
Qed.

Lemma relative_is_key k : good_key k -> key_to_relative_path k = Ok k.
Proof.
  intros Hk. pose proof (good_plain k Hk) as Hp. destruct Hk as [Hv Hok (a & b & c & d & Hs & _)].
  unfold key_to_relative_path. fold (parts k). rewrite (push_all _ Hok). cbn [res_bind].
  assert (E : foldl path_join [] (parts k) = k).
  { rewrite <- (join_split k) at 2. fold (parts k). rewrite Hs in *. apply Forall_cons in Hp as [Ha Hp].
    rewrite join_cons. cbn [foldl]. assert (Ea : path_join [] a = a).
    { unfold path_join. by rewrite (plain_not_absolute a) by apply Ha. }
    rewrite Ea. apply (fold_join [b; c; d] a); [apply Ha|apply (ends_plain [] a Ha)|exact Hp]. }
  rewrite E. destruct k as [|x k]; [|reflexivity]. discriminate.
Qed.

Lemma omap_plain ws : Forall plain_name ws -> omap component_of ws = map Normal ws.
Proof. induction 1 as [|w ws Hw _ IH]; [reflexivity|]. cbn. by rewrite (component_of_plain w Hw), IH. Qed.

Lemma resolve_good store k : root store <> [] -> good_key k -> resolve_path store k = Ok (key_path (root store) k).
Proof.
  intros Hr Hk. unfold resolve_path. rewrite (gk_valid k Hk). cbn [res_bind].
  rewrite (relative_is_key k Hk). cbn [res_bind].
  assert (Ha : is_absolute k = false).
  { pose proof (gk_valid k Hk) as Hv. unfold validate_object_key in Hv.
    destruct (is_empty (trim k)); [discriminate|]. unfold is_absolute. destruct (starts_with k (s! "/")); [discriminate|done]. }
  rewrite (join_relative _ _ Hr Ha). fold (parts k). rewrite (omap_plain _ (good_plain k Hk)).
  fold (key_path (root store) k).
  unfold path_starts_with. rewrite bool_decide_eq_true_2; [reflexivity|].
  unfold key_path. apply take_app_length.
Qed.

(** ** Positions in the tree *)

Lemma key_path_split r k : good_key k -> exists dir d,
  key_path r k = dir ++ [Normal d] /\ length dir = (length (components r) + 3)%nat /\ starts_with d (s! ".") = false.
Proof.
  intros [_ _ (a & b & c & d & Hs & Hd)]. unfold key_path. rewrite Hs.
  exists (components r ++ [Normal a; Normal b; Normal c]), d. split; [by rewrite <- app_assoc|].
  split; [rewrite length_app; cbn; lia|exact Hd].
Qed.

Lemma key_path_length r k : good_key k -> length (key_path r k) = (length (components r) + 4)%nat.
Proof. intros (dir & d & -> & Hl & _)%(key_path_split r). rewrite length_app. cbn. lia. Qed.

Section Temp.
Context {UT : UuidText}.
Lemma temp_dotted fresh : starts_with (temp_name fresh) (s! ".") = true.
Proof. apply starts_with_spec. by eexists. Qed.

Lemma temp_not_key r k dir fresh : good_key k -> dir ++ [Normal (temp_name fresh)] <> key_path r k.
Proof.
  intros (dir' & d & -> & _ & Hd)%(key_path_split r) E. apply app_inj_tail in E as [_ E].
  injection E as <-. by rewrite temp_dotted in Hd.
Qed.
End Temp.

(** ** The files of a store as a map *)

Record represents (r : rstr) (f : fs) (m : gmap rstr (list Z)) : Prop := {
  rep_files : forall k, good_key k -> f !! key_path r k = FileNode <$> m !! k;
  rep_above : forall k n, good_key k -> (n < length (components r) + 4)%nat -> is_file f (take n (key_path r k)) = false;
}.

(** What a change outside the keys' files does: it may add directories above them. *)
Definition harmless (r : rstr) (f f' : fs) : Prop :=
  (forall k, good_key k -> f' !! key_path r k = f !! key_path r k)
  /\ (forall k n, good_key k -> (n < length (components r) + 4)%nat ->
       is_file f (take n (key_path r k)) = false -> is_file f' (take n (key_path r k)) = false).

Lemma harmless_refl r f : harmless r f f.
Proof. by split. Qed.
Lemma harmless_trans r f g h : harmless r f g -> harmless r g h -> harmless r f h.
Proof. intros [A B] [C D]. split; [intros k Hk; by rewrite C, A|intros k n Hk Hn Hf; by apply D, B]. Qed.
Lemma harmless_represents r f f' m : harmless r f f' -> represents r f m -> represents r f' m.
Proof. intros [A B] [C D]. split; [intros k Hk; rewrite A by done; by apply C|intros k n Hk Hn; by apply B, D]. Qed.

(** [create_dir_all] adds directories only, and succeeds when no file is in the way. *)
Lemma make_dirs_spec : forall ps f stop f' ok, make_dirs f ps stop = (f', ok) ->
  (forall q, f' !! q = f !! q \/ (f !! q = None /\ f' !! q = Some DirNode /\ q ∈ ps))
  /\ (ok = true -> Forall (fun q => f' !! q = Some DirNode) ps)
  /\ (stop = None -> Forall (fun q => is_file f q = false) ps -> ok = true).
Proof.
  induction ps as [|p ps IH]; intros f stop f' ok H; cbn [make_dirs] in H.
  { injection H as <- <-. split; [by left|]. split; [by constructor|]. intros ->. by rewrite bool_decide_eq_true_2. }
  assert (Hrec : forall g stop', make_dirs g ps stop' = (f', ok) -> g !! p = Some DirNode ->
    (forall q, q <> p -> g !! q = f !! q) -> (f !! p = Some DirNode \/ f !! p = None) ->
    (forall q, f' !! q = f !! q \/ (f !! q = None /\ f' !! q = Some DirNode /\ q ∈ p :: ps))
    /\ (ok = true -> Forall (fun q => f' !! q = Some DirNode) (p :: ps))
    /\ (stop' = None -> Forall (fun q => is_file f q = false) (p :: ps) -> ok = true)).
  { intros g stop' Hg Hp Ho Hfp. apply IH in Hg as (A & B & C).
    assert (Hp' : f' !! p = Some DirNode) by (destruct (A p) as [E|(_ & E & _)]; congruence).
    split; [|split].
    - intros q. destruct (decide (q = p)) as [->|Hq].
      + destruct Hfp as [E|E]; [left; congruence|right]. split; [exact E|]. split; [exact Hp'|by left].
      + rewrite <- (Ho q Hq). destruct (A q) as [E|(E1 & E2 & E3)]; [by left|right].
        split; [exact E1|]. split; [exact E2|by right].
    - intros Hok. constructor; [exact Hp'|by apply B].
    - intros Hs Hf. apply Forall_cons in Hf as [_ Hf]. apply C; [exact Hs|].
      eapply Forall_impl; [exact Hf|]. intros q Hq. unfold is_file in *.
      destruct (decide (q = p)) as [->|Hne]; [by rewrite Hp|by rewrite Ho]. }
  destruct stop as [[|n]|].
  - injection H as <- <-. split; [by left|]. split; discriminate.
  - destruct (f !! p) as [[bs|]|] eqn:E.
    + injection H as <- <-. split; [by left|]. split; discriminate.
    + destruct (Hrec f (Some n) H E) as (A & B & _); [done|by left|]. split; [exact A|]. split; [exact B|discriminate].
    + destruct (Hrec (<[p := DirNode]> f) (Some n) H) as (A & B & _);
        [apply lookup_insert_eq|intros q Hq; by apply lookup_insert_ne|by right|].
      split; [exact A|]. split; [exact B|discriminate].
  - destruct (f !! p) as [[bs|]|] eqn:E.
    + injection H as <- <-. split; [by left|]. split; [discriminate|].
      intros _ [Hf _]%Forall_cons. unfold is_file in Hf. by rewrite E in Hf.
    + by apply (Hrec f None H E); [|left].
    + by apply (Hrec (<[p := DirNode]> f) None H);
        [apply lookup_insert_eq|intros q Hq; apply lookup_insert_ne|right].
Qed.

Lemma parent_key_path r k : good_key k ->
  parent (key_path r k) = Some (take (length (components r) + 3) (key_path r k))
  /\ parent_of (key_path r k) = take (length (components r) + 3) (key_path r k).
Proof.
  intros Hk. pose proof (key_path_length r k Hk) as Hl. unfold parent, parent_of. rewrite Hl.
  replace (length (components r) + 4 - 1)%nat with (length (components r) + 3)%nat by lia.
  split; [|reflexivity]. destruct (key_path_split r k Hk) as (dir & d & -> & _).
  rewrite rev_app_distr. reflexivity.
Qed.

Lemma prefix_of_dir r k q : good_key k -> q ∈ prefixes (take (length (components r) + 3) (key_path r k)) ->
  exists n, (n < length (components r) + 4)%nat /\ q = take n (key_path r k).
Proof.
  intros Hk (n & <- & Hn)%list_elem_of_In%in_map_iff. rewrite take_take. eexists. split; [|reflexivity].
  apply in_seq in Hn. lia.
Qed.

(** A key's file is deeper than the directories above any key. *)
Lemma above_not_key r k k' n : good_key k -> good_key k' -> (n < length (components r) + 4)%nat ->
  take n (key_path r k) <> key_path r k'.
Proof.
  intros Hk Hk' Hn E. apply (f_equal length) in E. rewrite length_take, !key_path_length in E by done. lia.
Qed.

Lemma create_dirs_harmless r k f stop f' ok : good_key k ->
  create_dir_all f (take (length (components r) + 3) (key_path r k)) stop = (f', ok) -> harmless r f f'.
Proof.
  intros Hk H. apply make_dirs_spec in H as (A & _ & _). split.
  - intros k' Hk'. destruct (A (key_path r k')) as [E|(_ & _ & Hin)]; [exact E|]. exfalso.
    apply (prefix_of_dir r k) in Hin as (n & Hn & E); [|done]. symmetry in E. by apply (above_not_key r k k' n).
  - intros k' n _ _ Hf. unfold is_file in *.
    destruct (A (take n (key_path r k'))) as [E|(_ & E & _)]; by rewrite E.
Qed.

Lemma create_dirs_dir r k f stop f' : good_key k ->
  create_dir_all f (take (length (components r) + 3) (key_path r k)) stop = (f', true) ->
  is_dir f' (take (length (components r) + 3) (key_path r k)) = true.
Proof.
  intros Hk H. apply make_dirs_spec in H as (_ & B & _). specialize (B eq_refl).
  set (dir := take _ _) in *. assert (Hl : length dir = (length (components r) + 3)%nat).
  { unfold dir. rewrite length_take, key_path_length by done. lia. }
  assert (Hin : In dir (prefixes dir)).
  { apply in_map_iff. exists (length dir). split; [apply take_ge; lia|]. apply in_seq. lia. }
  unfold is_dir. by rewrite (proj1 (List.Forall_forall _ _) B dir Hin).
Qed.

Section Ops.
Context {UT : UuidText}.
Variable store : FilesystemObjectStore.
Hypothesis Hroot : root store <> [].
Let r := root store.

Lemma file_change_harmless f q (b : option node) :
  (forall k, good_key k -> q <> key_path r k) -> length q = (length (components r) + 4)%nat ->
  harmless r f (match b with Some n => <[q := n]> f | None => delete q f end).
Proof.
  intros Hq Hl.
  assert (Hne : forall k n, good_key k -> (n < length (components r) + 4)%nat -> q <> take n (key_path r k)).
  { intros k n Hk Hn E. apply (f_equal length) in E. rewrite length_take, key_path_length in E by done. lia. }
  split.
  - intros k Hk. specialize (Hq k Hk). destruct b; [by apply lookup_insert_ne|by apply lookup_delete_ne].
  - intros k n Hk Hn. specialize (Hne k n Hk Hn). unfold is_file.
    destruct b; [by rewrite lookup_insert_ne|by rewrite lookup_delete_ne].
Qed.

(** The temporary file of a key. *)
Definition temp_path (k : rstr) (fresh : uuid) : path :=
  take (length (components r) + 3) (key_path r k) ++ [Normal (temp_name fresh)].

Lemma temp_path_facts k fresh : good_key k ->
  (forall k', good_key k' -> temp_path k fresh <> key_path r k')
  /\ length (temp_path k fresh) = (length (components r) + 4)%nat
  /\ parent_of (temp_path k fresh) = take (length (components r) + 3) (key_path r k).
Proof.
  intros Hk. assert (Hl : length (take (length (components r) + 3) (key_path r k)) = (length (components r) + 3)%nat).
  { rewrite length_take, key_path_length by done. lia. }
  unfold temp_path. split; [intros k' Hk'; by apply temp_not_key|]. split; [rewrite length_app, Hl; cbn; lia|].
  unfold parent_of. rewrite length_app, Hl. cbn [length].
  replace (length (components r) + 3 + 1 - 1)%nat with (length (components r) + 3)%nat by lia.
  rewrite <- Hl at 1. apply take_app_length.
Qed.

Lemma put_represents k bytes fresh faults f m f' res : good_key k -> represents r f m ->
  put store k bytes fresh faults f = (f', res) ->
  match res with
  | Ok _ => represents r f' (<[k := bytes]> m)
  | Err _ => represents r f' m
  end.
Proof.
  intros Hk Hm. unfold put. rewrite (resolve_good store k Hroot Hk). fold r.
  destruct (parent_key_path r k Hk) as [-> Hpar]. fold (temp_path k fresh).
  destruct (temp_path_facts k fresh Hk) as (Htk & Htl & Htp).
  destruct (create_dir_all f _ _) as [f1 ok1] eqn:E1. pose proof (create_dirs_harmless r k f _ _ _ Hk E1) as H1.
  destruct ok1; cbn [negb]; [|intros [= <- <-]; by apply (harmless_represents r f)].
  destruct (write f1 _ bytes _) as [f2 ok2] eqn:E2.
  assert (H2 : harmless r f1 f2 /\ (ok2 = true -> f2 = <[temp_path k fresh := FileNode bytes]> f1)).
  { unfold write in E2. destruct (negb _ || _); [injection E2 as <- <-; split; [apply harmless_refl|discriminate]|].
    destruct (pf_write faults) as [[[part|]]|]; injection E2 as <- <-; (split; [|done || discriminate]);
      [exact (file_change_harmless f1 _ (Some (FileNode part)) Htk Htl)|apply harmless_refl
      |exact (file_change_harmless f1 _ (Some (FileNode bytes)) Htk Htl)]. }
  destruct H2 as [H2 H2']. pose proof (harmless_trans _ _ _ _ H1 H2) as H12.
  destruct ok2; cbn [negb]; [specialize (H2' eq_refl); subst f2|intros [= <- <-]; by apply (harmless_represents r f)].
  destruct (rename _ _ _ _) as [f3 ok3] eqn:E3. unfold rename in E3. rewrite lookup_insert_eq in E3.
  destruct (_ || _ || _); injection E3 as <- <-; intros [= <- <-].
  - apply (harmless_represents r f); [|exact Hm]. eapply harmless_trans; [exact H12|].
    unfold remove_file. destruct (pf_cleanup faults); [apply harmless_refl|]. rewrite lookup_insert_eq.
    exact (file_change_harmless _ _ None Htk Htl).
  - assert (H4 : harmless r f (delete (temp_path k fresh) (<[temp_path k fresh := FileNode bytes]> f1))).
    { eapply harmless_trans; [exact H12|]. exact (file_change_harmless _ _ None Htk Htl). }
    pose proof (harmless_represents _ _ _ _ H4 Hm) as [C D]. split.
    + intros k' Hk'. destruct (decide (k' = k)) as [->|Hne]; [by rewrite !lookup_insert_eq|].
      rewrite !lookup_insert_ne; [by apply C|by intros ->|]. intros E%key_path_inj. by subst.
    + intros k' n Hk' Hn. unfold is_file. rewrite lookup_insert_ne; [by apply D|].
      intros E. symmetry in E. by apply (above_not_key r k' k n).
Qed.

Lemma read_represents k f m : good_key k -> represents r f m ->
  read f (key_path r k) false = match m !! k with Some b => Ok b | None => Err NotFoundError end.
Proof.
  intros Hk [C D]. unfold read. rewrite (C k Hk). destruct (m !! k) as [b|]; [reflexivity|]. cbn [fmap option_fmap option_map].
  unfold missing_error. destruct (existsb _ _) eqn:E; [|reflexivity]. exfalso.
  apply existsb_exists in E as (q & Hq%list_elem_of_In & Hf). rewrite (proj2 (parent_key_path r k Hk)) in Hq.
  apply (prefix_of_dir r k) in Hq as (n & Hn & ->); [|done]. by rewrite (D k n Hk Hn) in Hf.
Qed.

Lemma get_represents k f m : good_key k -> represents r f m -> get store k false f = Ok (m !! k).
Proof.
  intros Hk Hm. unfold get. rewrite (resolve_good store k Hroot Hk). cbn [res_bind]. fold r.
  rewrite (read_represents k f m Hk Hm). by destruct (m !! k).
Qed.

Lemma delete_represents k fails f m f' res : good_key k -> represents r f m ->
  delete_object store k fails f = (f', res) ->
  match res with
  | Ok _ => represents r f' (delete k m)
  | Err _ => represents r f' m
  end /\ (fails = false -> res = Ok tt).
Proof.
  intros Hk Hm. unfold delete_object. rewrite (resolve_good store k Hroot Hk). fold r.
  unfold remove_file. destruct fails; [intros [= <- <-]; by split|].
  pose proof (read_represents k f m Hk Hm) as Hr. unfold read in Hr. pose proof Hm as [C D]. rewrite (C k Hk) in *.
  destruct (m !! k) as [b|] eqn:Em; cbn [fmap option_fmap option_map] in *; [|injection Hr as ->];
    intros [= <- <-]; (split; [|done]).
  - split.
    + intros k' Hk'. destruct (decide (k' = k)) as [->|Hne]; [by rewrite !lookup_delete_eq|].
      rewrite !lookup_delete_ne; [by apply C|by intros ->|]. intros E%key_path_inj. by subst.
    + intros k' n Hk' Hn. unfold is_file. rewrite lookup_delete_ne; [by apply D|].
      intros E. symmetry in E. by apply (above_not_key r k' k n).
  - by rewrite delete_id.
Qed.

Lemma put_succeeds k bytes fresh f m : good_key k -> represents r f m -> f !! temp_path k fresh <> Some DirNode ->
  (put store k bytes fresh no_faults f).2 = Ok tt.
Proof.
  intros Hk Hm Htemp. unfold put. rewrite (resolve_good store k Hroot Hk). fold r.
  destruct (parent_key_path r k Hk) as [-> Hpar]. fold (temp_path k fresh). cbn [no_faults pf_dirs pf_write pf_rename].
  destruct (temp_path_facts k fresh Hk) as (Htk & Htl & Htp).
  destruct (create_dir_all f _ None) as [f1 ok1] eqn:E1. pose proof (make_dirs_spec _ _ _ _ _ E1) as (A & _ & Hok).
  assert (ok1 = true) as ->.
  { apply Hok; [reflexivity|]. apply List.Forall_forall. intros q Hq%list_elem_of_In. apply (prefix_of_dir r k) in Hq as (n & Hn & ->); [|done].
    by apply (rep_above r f m Hm). }
  pose proof (create_dirs_dir r k f None f1 Hk E1) as Hd.
  pose proof (harmless_represents _ _ _ _ (create_dirs_harmless r k f _ _ _ Hk E1) Hm) as Hm1. cbn [negb].
  assert (Ht : is_dir f1 (temp_path k fresh) = false).
  { unfold is_dir. destruct (A (temp_path k fresh)) as [->|(_ & _ & Hin)].
    - destruct (f !! _) as [[]|]; done.
    - exfalso. apply (prefix_of_dir r k) in Hin as (n & Hn & E); [|done]. apply (f_equal length) in E.
      rewrite Htl, length_take, key_path_length in E by done. lia. }
  unfold write. rewrite Htp, Hd, Ht. cbn [negb orb]. unfold rename. rewrite lookup_insert_eq.
  assert (Hp : is_dir (<[temp_path k fresh := FileNode bytes]> f1) (key_path r k) = false).
  { unfold is_dir. rewrite lookup_insert_ne by (by apply Htk). rewrite (rep_files r f1 m Hm1 k Hk). by destruct (m !! k). }
  assert (Hq : is_dir (<[temp_path k fresh := FileNode bytes]> f1) (parent_of (key_path r k)) = true).
  { rewrite Hpar. unfold is_dir in *. rewrite lookup_insert_ne; [exact Hd|]. intros E. apply (f_equal length) in E.
    rewrite Htl, length_take, key_path_length in E by done. lia. }
  by rewrite Hp, Hq.
Qed.

(** ** Histories *)

Inductive operation := OpPut (k : rstr) (bytes : list Z) (fresh : uuid) (faults : put_faults)
                     | OpDelete (k : rstr) (fails : bool).
Definition op_key (o : operation) : rstr := match o with OpPut k _ _ _ => k | OpDelete k _ => k end.

Definition perform (o : operation) (f : fs) : fs * result unit ReceiptError :=
  match o with
  | OpPut k bytes fresh faults => put store k bytes fresh faults f
  | OpDelete k fails => delete_object store k fails f
  end.
(** The same operation on the in-memory store. *)
Definition perform_memory (o : operation) (m : gmap rstr (list Z)) : gmap rstr (list Z) :=
  match o with
  | OpPut k bytes _ _ => (os_put (ObjectStore := InMemoryObjectStore) k bytes m).1
  | OpDelete k _ => (os_delete (ObjectStore := InMemoryObjectStore) k m).1
  end.
(** Every operation on the files, the successful ones in memory. *)
Definition history (ops : list operation) (fm : fs * gmap rstr (list Z)) : fs * gmap rstr (list Z) :=
  foldl (fun fm o => let '(f', res) := perform o fm.1 in
                     (f', match res with Ok _ => perform_memory o fm.2 | Err _ => fm.2 end)) fm ops.

Lemma perform_represents o f m : good_key (op_key o) -> represents r f m ->
  represents r (perform o f).1 (match (perform o f).2 with Ok _ => perform_memory o m | Err _ => m end).
Proof.
  intros Hk Hm. destruct o as [k bytes fresh faults|k fails]; cbn [op_key perform perform_memory] in *.
  - destruct (put store k bytes fresh faults f) as [f' res] eqn:E.
    pose proof (put_represents k bytes fresh faults f m f' res Hk Hm E) as H. cbn [fst snd].
    destruct res; [|exact H]. cbn. by rewrite (gk_valid k Hk).
  - destruct (delete_object store k fails f) as [f' res] eqn:E.
    pose proof (delete_represents k fails f m f' res Hk Hm E) as [H _]. by destruct res.
Qed.

Lemma history_represents ops : forall f m, Forall (fun o => good_key (op_key o)) ops -> represents r f m ->
  represents r (history ops (f, m)).1 (history ops (f, m)).2.
Proof.
  induction ops as [|o ops IH]; intros f m Hops Hm; [exact Hm|]. apply Forall_cons in Hops as [Ho Hops].
  pose proof (perform_represents o f m Ho Hm) as H. unfold history. cbn [foldl].
  destruct (perform o f) as [f' res] eqn:E. cbn [fst snd] in *. rewrite E. apply (IH f' _ Hops H).
Qed.


End Ops.

End FsStoreProps.
