(* ===== verification/S3StoreProps.v ===== *)
(** * Properties of the S3 store

    The path that is signed is the path that is sent, and an object written is the one
    read back as long as no other operation names its key. *)

From S2P Require Import Prelude RustStr RustStrFacts Platform Errors Provider ReceiptTypes Extractors S3Store.

Module S3StoreProps.
Import ReceiptTypes S3Store.
#[local] Opaque lit.

(** ** Plain paths are their own canonical form *)

Definition plain_char (c : Z) : bool := unreserved c || (c =? c! "/").

Lemma unreserved_ascii c : unreserved c = true -> 0 <= c < 128.
Proof.
  unfold unreserved, is_ascii_upper, is_ascii_lower, is_ascii_digit. intros H.
  apply orb_true_iff in H as [H|H]; [lia|]. apply existsb_exists in H as (x & Hx & E). apply Z.eqb_eq in E. subst x.
  repeat (destruct Hx as [<-|Hx]; [vm_compute; split; [discriminate|reflexivity]|]). done.
Qed.

Lemma encode_plain s : Forall (fun c => unreserved c = true) s -> encode_utf8 s = s.
Proof.
  induction 1 as [|c s Hc _ IH]; [reflexivity|]. apply unreserved_ascii in Hc. unfold encode_utf8 in *. cbn [map concat].
  rewrite IH. unfold encode_char. destruct (c <? 128) eqn:E; [reflexivity|lia].
Qed.

Lemma percent_encode_plain s : Forall (fun c => unreserved c = true) s -> percent_encode_path_segment s = s.
Proof.
  intros H. unfold percent_encode_path_segment. rewrite (encode_plain s H).
  induction H as [|c s Hc _ IH]; [reflexivity|]. cbn [map concat]. unfold percent_encode_byte at 1.
  rewrite Hc, IH. reflexivity.
Qed.

Lemma split_plain s : Forall (fun c => plain_char c = true) s ->
  Forall (Forall (fun c => unreserved c = true)) (split_char s (c! "/")).
Proof.
  induction 1 as [|c s Hc _ IH]; [by repeat constructor|]. unfold split_char in *. cbn [split_by].
  destruct (c! "/" =? c) eqn:E; [by constructor|].
  assert (Hu : unreserved c = true).
  { unfold plain_char in Hc. rewrite (Z.eqb_sym c), E, orb_false_r in Hc. exact Hc. }
  destruct (split_by _ s) as [|w ws]; [by repeat constructor|]. apply Forall_cons in IH as [Hw Hws]. by repeat constructor.
Qed.

Lemma join_split_char c s : join [c] (split_char s c) = s.
Proof.
  unfold split_char. induction s as [|x s IH]; [reflexivity|]. cbn [split_by].
  assert (Hn : split_by (Z.eqb c) s <> []).
  { destruct s as [|y s']; cbn [split_by]; [discriminate|]. destruct (c =? y); [discriminate|].
    by destruct (split_by (Z.eqb c) s'). }
  destruct (c =? x) eqn:E.
  - apply Z.eqb_eq in E. subst x. destruct (split_by _ s) as [|w ws]; [done|]. cbn [join app] in *. by rewrite IH.
  - destruct (split_by _ s) as [|w ws]; [done|]. destruct ws; cbn [join app] in *; by rewrite <- IH.
Qed.

Lemma canonical_path_plain p : p <> [] -> Forall (fun c => plain_char c = true) p -> canonical_path p = p.
Proof.
  intros Hne Hp. unfold canonical_path. destruct p as [|c p]; [done|]. cbn [is_empty].
  change (s! "/") with [c! "/"]. rewrite <- (join_split_char (c! "/") (c :: p)) at 2. f_equal.
  pose proof (split_plain _ Hp) as Hs. induction Hs as [|w ws Hw _ IH]; [reflexivity|]. cbn [map].
  rewrite IH. f_equal. destruct w as [|d w]; [reflexivity|]. exact (percent_encode_plain _ Hw).
Qed.

(** ** Reading back *)

Section Service.
Context `{UL : UrlLib} `{UP : !UrlPath} `{SH : Sha256} `{HM : HmacSha256} `{B64 : Base64}.
Context {srv : Type} (serve : s3_request -> srv -> srv * s3_answer) (clock : srv -> rstr).
Variable store : S3CompatibleObjectStore.
(** The objects the service holds, by URL path. *)
Variable object_at : srv -> rstr -> option (list Z).

Definition success (status : Z) : bool := (200 <=? status) && (status <? 300).

(** The documented service: a request touches the object of its own path only, a
    successful PUT stores its body and a successful DELETE removes the object, a GET
    changes nothing and answers with the object or 404. *)
Record s3_documented : Prop := {
  touches_own : forall rq s p, p <> url_path (rq_url rq) -> object_at (serve rq s).1 p = object_at s p;
  put_stores : forall rq s st b, rq_method rq = PUT -> (serve rq s).2 = Answer st b -> success st = true ->
    object_at (serve rq s).1 (url_path (rq_url rq)) = rq_body rq;
  get_reads : forall rq s, rq_method rq = GET ->
    (forall p, object_at (serve rq s).1 p = object_at s p)
    /\ (forall st b, (serve rq s).2 = Answer st (Some b) -> success st = true -> st <> 204 ->
          object_at s (url_path (rq_url rq)) = Some b)
    /\ (forall st b, (serve rq s).2 = Answer st b -> st = 404 \/ st = 204 -> object_at s (url_path (rq_url rq)) = None);
}.
Hypothesis Hdoc : s3_documented.
(** Distinct keys have distinct URL paths. *)
Variable plain_key : rstr -> Prop.
Hypothesis paths_distinct : forall k k' u u', plain_key k -> plain_key k' ->
  object_url store k = Ok u -> object_url store k' = Ok u' -> url_path u = url_path u' -> k = k'.

Lemma signed_url amz m url body rq : signed_request store amz m url body = Ok rq ->
  rq_url rq = url /\ rq_method rq = m /\ rq_body rq = body.
Proof.
  unfold signed_request. cbv zeta. destruct (negb _); [discriminate|]. destruct (negb _); [discriminate|].
  by intros <-%ok_inj.
Qed.

Lemma execute_ok m k body s s' o : execute serve clock store m k body s = (s', Ok o) ->
  exists u rq answer, object_url store k = Ok u /\ rq_url rq = u /\ rq_method rq = m /\ rq_body rq = body
    /\ serve rq s = (s', answer) /\ read_answer m answer = Ok o.
Proof.
  unfold execute. destruct (res_bind _ _) as [rq|e] eqn:E; [|by intros [= <- ?]].
  apply res_bind_ok in E as (u & Hu & (Hru & Hm & Hb)%signed_url).
  destruct (serve rq s) as [s1 answer] eqn:Es. intros [= <- Hr]. by exists u, rq, answer.
Qed.

(** An operation on another key leaves the object alone, whatever it reports. *)
Lemma execute_other m k k' body s u : plain_key k -> plain_key k' -> k <> k' -> object_url store k = Ok u ->
  object_at (execute serve clock store m k' body s).1 (url_path u) = object_at s (url_path u).
Proof.
  intros Hp Hp' Hne Hu. unfold execute. destruct (res_bind _ _) as [rq|e] eqn:E; [|reflexivity].
  apply res_bind_ok in E as (u' & Hu' & (Hru & _ & _)%signed_url). destruct (serve rq s) as [s1 answer] eqn:Es.
  change s1 with (s1, answer).1. rewrite <- Es. apply (touches_own Hdoc). rewrite Hru. intros E.
  by apply Hne, (paths_distinct k k' u u').
Qed.

Lemma read_answer_put answer o : read_answer PUT answer = Ok o ->
  exists st b, answer = Answer st b /\ success st = true.
Proof.
  destruct answer as [[]|st b]; cbn [read_answer]; try discriminate. intros H. exists st, b. split; [reflexivity|].
  destruct (st =? 403); [discriminate|]. destruct (st =? 404); [discriminate|].
  destruct (_ && (st <? 600)); [discriminate|]. unfold success. by destruct ((200 <=? st) && _).
Qed.

Lemma read_answer_get answer o : read_answer GET answer = Ok o ->
  match o with
  | Some b => exists st, answer = Answer st (Some b) /\ success st = true /\ st <> 204
  | None => exists st b, answer = Answer st b /\ (st = 404 \/ st = 204)
  end.
Proof.
  destruct answer as [[]|st b]; cbn [read_answer]; try discriminate. intros H.
  destruct (st =? 403); [discriminate|]. destruct (st =? 404) eqn:E4.
  { apply ok_inj in H. subst o. apply Z.eqb_eq in E4. eauto. }
  destruct (_ && (st <? 600)); [discriminate|]. destruct ((200 <=? st) && (st <? 300)) eqn:Es; [|discriminate].
  cbn [negb] in H. rewrite (bool_decide_eq_false_2 (GET = DELETE)), orb_false_r in H by discriminate.
  destruct (st =? 204) eqn:E2.
  { apply ok_inj in H. subst o. apply Z.eqb_eq in E2. eauto. }
  apply res_bind_ok in H as (bs & Hb%ok_or_ok & H). apply ok_inj in H. subst o b. exists st.
  split; [reflexivity|]. split; [exact Es|by apply Z.eqb_neq].
Qed.

(** Requests on other keys, whatever they are and report. *)
Fixpoint others (ops : list (Method * rstr * option (list Z))) (s : srv) : srv :=
  match ops with [] => s | (m, k, body) :: ops' => others ops' (execute serve clock store m k body s).1 end.

Theorem s3_reads_own_writes k bytes s s1 ops s2 s3 o : plain_key k ->
  put serve clock store k bytes s = (s1, Ok tt) ->
  Forall (fun op => plain_key op.1.2 /\ k <> op.1.2) ops -> others ops s1 = s2 ->
  get serve clock store k s2 = (s3, Ok o) -> o = Some bytes.
Proof.
  intros Hk Hput Hops <- Hget. unfold put, p_bind in Hput.
  destruct (execute serve clock store PUT k (Some bytes) s) as [s1' [a|e]] eqn:E; [|discriminate].
  injection Hput as ->. apply execute_ok in E as (u & rq & answer & Hu & Hru & Hm & Hb & Hs & Hr).
  apply read_answer_put in Hr as (st & b & -> & Hst).
  assert (H1 : object_at s1 (url_path u) = Some bytes).
  { rewrite <- Hb, <- Hru. change s1 with (s1, Answer st b).1. rewrite <- Hs.
    apply (put_stores Hdoc rq s st b Hm); [by rewrite Hs|exact Hst]. }
  assert (H2 : object_at (others ops s1) (url_path u) = Some bytes).
  { clear Hs. revert s1 H1 Hget. induction Hops as [|[[m k'] body] ops [Hp Hne] _ IH]; intros s1 H1 Hget; [exact H1|].
    cbn [others] in *. apply IH; [|exact Hget]. cbn in Hp, Hne. by rewrite (execute_other m k k' body s1 u Hk Hp Hne Hu). }
  apply execute_ok in Hget as (u' & rq' & answer' & Hu' & Hru' & Hm' & _ & Hs' & Hr').
  rewrite Hu in Hu'. apply ok_inj in Hu'. subst u'. destruct (get_reads Hdoc rq' (others ops s1) Hm') as (_ & Hsome & Hnone).
  rewrite Hs' in Hsome, Hnone. cbn [snd] in *. apply read_answer_get in Hr'. destruct o as [b'|].
  - destruct Hr' as (st' & -> & Hst' & Hne). rewrite <- H2. symmetry. rewrite <- Hru'. by apply (Hsome st' b').
  - destruct Hr' as (st' & b' & -> & Hst'). specialize (Hnone st' b' eq_refl Hst'). rewrite Hru' in Hnone.
    by rewrite H2 in Hnone.
Qed.

End Service.

End S3StoreProps.
