(* ===== verification/UpdateProps.v ===== *)
(** * What an update leaves installed

    Whatever call fails, the installed file is the one before, the verified artifact, or a
    binary kept for a rollback, never a part of one. *)

From S2P Require Import Prelude RustStr RustStrFacts Platform Errors Paths ConfigTypes Work ReceiptTypes Provider.
From S2P Require Import Extractors FsStore S3Store ConfigLoad Insight Update FsStoreProps.

Module UpdateProps.
Import Paths FsStore ConfigLoad Errors.AppError Update.
#[local] Opaque lit.

(** ** What a program does to one path *)

Definition keeps (p : path) (m m' : machine) : Prop := files m' !! p = files m !! p.
(** The file in place stays; a directory may appear where there was none. *)
Definition held (p : path) (m m' : machine) : Prop :=
  forall b, files m' !! p = Some (FileNode b) <-> files m !! p = Some (FileNode b).

#[export] Instance keeps_preorder p : PreOrder (keeps p).
Proof. split; [done|]. intros a b c H1 H2. unfold keeps in *. congruence. Qed.
#[export] Instance held_preorder p : PreOrder (held p).
Proof. split; [by intros m b|]. intros a b c H1 H2 x. by rewrite (H2 x), (H1 x). Qed.

Definition op_keeps {A} (p : path) (op : outcome -> fs -> fs * option A) : Prop :=
  forall o f, (op o f).1 !! p = f !! p.
Definition op_holds {A} (p : path) (op : outcome -> fs -> fs * option A) : Prop :=
  forall o f b, (op o f).1 !! p = Some (FileNode b) <-> f !! p = Some (FileNode b).

Lemma file_call_keeps {A} (p : path) (op : outcome -> fs -> fs * option A) e : op_keeps p op -> preserves (keeps p) (file_call op e).
Proof. intros H m. unfold file_call, keeps. specialize (H (hd Works (outcomes m)) (files m)). by destruct (op _ _). Qed.
Lemma file_call_holds {A} (p : path) (op : outcome -> fs -> fs * option A) e : op_holds p op -> preserves (held p) (file_call op e).
Proof.
  intros H m b. unfold file_call. specialize (H (hd Works (outcomes m)) (files m) b). by destruct (op _ _).
Qed.
Lemma db_call_keeps {A} (p : path) (op : outcome -> migration_table -> migration_table * option A) e :
  preserves (keeps p) (db_call op e).
Proof. intros m. unfold db_call, keeps. by destruct (op _ _). Qed.

Lemma keeps_held {A} (p : path) (pr : upd A) : preserves (keeps p) pr -> preserves (held p) pr.
Proof. intros H m b. specialize (H m). unfold keeps in H. by rewrite H. Qed.

(** The single calls. *)
Lemma reading_keeps {A} (p : path) (op : outcome -> fs -> fs * option A) : (forall o f, (op o f).1 = f) -> op_keeps p op.
Proof. intros H o f. by rewrite H. Qed.

Lemma fs_write_other f q p bytes fault : q <> p -> (FsStore.write f q bytes fault).1 !! p = f !! p.
Proof.
  intros Hq. unfold FsStore.write. destruct (_ || _); [reflexivity|].
  destruct fault as [[[part|]]|]; cbn [fst]; (reflexivity || by apply lookup_insert_ne).
Qed.
Lemma write_keeps p q bytes : q <> p -> op_keeps p (write_op q bytes).
Proof.
  intros Hq o f. unfold write_op. pose proof (fs_write_other f q p bytes (fault_of o) Hq) as H.
  destruct (FsStore.write _ _ _ _) as [f' ok]. exact H.
Qed.
Lemma copy_keeps p src dst : dst <> p -> op_keeps p (copy_op src dst).
Proof.
  intros Hq o f. unfold copy_op. destruct (f !! src) as [[bytes|]|]; [|reflexivity..]. by apply write_keeps.
Qed.
Lemma rename_keeps p src dst : src <> p -> dst <> p -> op_keeps p (rename_op src dst).
Proof.
  intros Hs Hd o f. unfold rename_op, FsStore.rename. destruct (f !! src) as [[bytes|]|]; [|reflexivity..].
  destruct (_ || _); [reflexivity|]. cbn [fst]. rewrite lookup_insert_ne by done. by apply lookup_delete_ne.
Qed.
Lemma create_dir_keeps p d : p ∉ prefixes d -> op_keeps p (create_dir_op d).
Proof.
  intros Hp o f. unfold create_dir_op, create_dir_all. destruct (make_dirs f _ _) as [f' ok] eqn:E.
  apply FsStoreProps.make_dirs_spec in E as (A & _). cbn [fst]. by destruct (A p) as [H|(_ & _ & H)].
Qed.
Lemma create_dir_holds p d : op_holds p (create_dir_op d).
Proof.
  intros o f b. unfold create_dir_op, create_dir_all. destruct (make_dirs f _ _) as [f' ok] eqn:E.
  apply FsStoreProps.make_dirs_spec in E as (A & _). cbn [fst]. destruct (A p) as [H|(H & H' & _)]; [by rewrite H|].
  by rewrite H, H'.
Qed.

(** A file in place stays where the path is kept; a missing directory is no file. *)
Lemma op_keeps_holds {A} (p : path) (op : outcome -> fs -> fs * option A) : op_keeps p op -> op_holds p op.
Proof. intros H o f b. by rewrite H. Qed.
Lemma db_call_holds {A} p (op : outcome -> migration_table -> migration_table * option A) e :
  preserves (held p) (db_call op e).
Proof. apply keeps_held, db_call_keeps. Qed.

(** Without failures left, none come. *)
Definition calm (m m' : machine) : Prop := outcomes m = [] -> outcomes m' = [].
#[export] Instance calm_preorder : PreOrder calm.
Proof. split; [intros m H; exact H|]. intros a b c H1 H2 H. exact (H2 (H1 H)). Qed.
Lemma file_call_calm {A} (op : outcome -> fs -> fs * option A) e : preserves calm (file_call op e).
Proof. intros m H. unfold file_call. destruct (op _ _). cbn. by rewrite H. Qed.
Lemma db_call_calm {A} (op : outcome -> migration_table -> migration_table * option A) e : preserves calm (db_call op e).
Proof. intros m H. unfold db_call. destruct (op _ _). cbn. by rewrite H. Qed.

Lemma print_files l m m' r : print l m = (m', r) -> files m' = files m /\ outcomes m' = outcomes m /\ r = Ok tt.
Proof. by intros [= <- <-]. Qed.
Lemma print_keeps p l : preserves (keeps p) (print l).
Proof. by intros m. Qed.
Lemma print_holds p l : preserves (held p) (print l).
Proof. by intros m. Qed.
Lemma print_calm l : preserves calm (print l).
Proof. by intros m H. Qed.

Create HintDb update_frame.
#[export] Hint Extern 0 (PreOrder _) => typeclasses eauto : update_frame.
#[export] Hint Resolve preserves_ret preserves_err preserves_read : update_frame.
#[export] Hint Resolve file_call_keeps write_keeps copy_keeps rename_keeps create_dir_keeps db_call_keeps : update_frame.
#[export] Hint Resolve file_call_holds op_keeps_holds create_dir_holds db_call_holds : update_frame.
#[export] Hint Resolve file_call_calm db_call_calm print_keeps print_holds print_calm : update_frame.
#[export] Hint Unfold println eprintln : update_frame.
#[export] Hint Extern 1 (op_keeps _ (read_op _)) => apply reading_keeps; reflexivity : update_frame.
#[export] Hint Extern 1 (op_keeps _ (exists_op _)) => apply reading_keeps; reflexivity : update_frame.
#[export] Hint Extern 1 (op_keeps _ (is_dir_op _)) => apply reading_keeps; reflexivity : update_frame.
#[export] Hint Extern 1 (op_keeps _ (read_dir_op _)) => apply reading_keeps; reflexivity : update_frame.
#[export] Hint Extern 1 (op_keeps _ (set_permissions_op _)) => apply reading_keeps; reflexivity : update_frame.

(** Through the structure of a program, the single calls by the hints. *)
Ltac framed :=
  repeat first
    [ progress intros
    | simple apply preserves_bind
    | simple apply preserves_try
    | match goal with
      | |- preserves _ (match ?x with _ => _ end) => destruct x
      | |- preserves _ (let _ := _ in _) => cbv zeta
      end
    | solve [eauto with update_frame] ].

(** ** The paths of an update *)

Definition install (paths : UpdatePaths) : path := components (install_path paths).
Definition staged (paths : UpdatePaths) : path := with_extension (install paths) (s! "tmp-update").
Definition previous_binary (paths : UpdatePaths) : path := state_file paths PREVIOUS_BINARY.
Definition STATE_FILES : list rstr := [PREVIOUS_BINARY; PREVIOUS_METADATA; CURRENT_METADATA; BACKUP_NAME].

(** The files of an update do not get in each other's way. *)
Record separate (paths : UpdatePaths) : Prop := {
  sep_install_staged : staged paths <> install paths;
  sep_artifact_staged : staged paths <> components (artifact paths);
  sep_state_staged : Forall (fun name => state_file paths name <> staged paths) STATE_FILES;
  sep_install_state : Forall (fun name => state_file paths name <> install paths) STATE_FILES;
  sep_artifact_state : Forall (fun name => state_file paths name <> components (artifact paths)) STATE_FILES;
  sep_install_dirs : install paths ∉ prefixes (components (state_dir paths));
}.

Lemma state_file_eq paths name : In name STATE_FILES ->
  state_file paths name = components (state_dir paths) ++ [Normal name].
Proof.
  intros Hin. assert (Hn : plain_name name).
  { assert (H : Forall plain_name STATE_FILES).
    { repeat constructor; try (apply (bool_decide_unpack _); vm_compute; exact I); vm_compute; discriminate. }
    by apply (proj1 (List.Forall_forall _ _) H). }
  unfold state_file. destruct (state_dir paths) as [|c d] eqn:E; [|by apply join_components].
  unfold path_join. rewrite plain_not_absolute by apply Hn. cbn [is_empty orb app].
  rewrite (components_plain name Hn). vm_compute. reflexivity.
Qed.
Lemma state_file_inj paths a b : In a STATE_FILES -> In b STATE_FILES -> a <> b -> state_file paths a <> state_file paths b.
Proof.
  intros Ha Hb Hne. rewrite !state_file_eq by done. intros H%app_inj_2; [|done]. destruct H as [_ H]. congruence.
Qed.
Ltac state_name := cbn; tauto.
Lemma previous_not_metadata paths : state_file paths PREVIOUS_METADATA <> previous_binary paths.
Proof. apply state_file_inj; [state_name..|vm_compute; discriminate]. Qed.
Lemma previous_not_current paths : state_file paths CURRENT_METADATA <> previous_binary paths.
Proof. apply state_file_inj; [state_name..|vm_compute; discriminate]. Qed.

Lemma parent_dirs p up : parent p = Some up -> p ∉ prefixes up.
Proof.
  unfold parent. destruct (rev p) as [|c l] eqn:E; [discriminate|]. intros H.
  assert (Hp : p = rev l ++ [c]) by (rewrite <- (rev_involutive p), E; reflexivity).
  assert (up = rev l) as -> by (destruct c, l; try discriminate; by injection H as <-).
  intros Hin. apply list_elem_of_In, in_map_iff in Hin as (n & Hn & Hs). apply in_seq in Hs.
  assert (length p = n) by (rewrite <- Hn, length_take; lia). subst p. rewrite length_app in *. cbn in *. lia.
Qed.
(** ** Taking programs apart *)

(** Errors of a program satisfy [P]. *)
Definition fails_with {A} (P : AppError -> Prop) (pr : upd A) : Prop := forall m m' e, pr m = (m', Err e) -> P e.
Section Failures.
Context {A B : Type} (P : AppError -> Prop).
Lemma fails_bind (pr : upd A) (f : A -> upd B) : fails_with P pr -> (forall a, fails_with P (f a)) -> fails_with P (p_bind pr f).
Proof. intros H1 H2 m m' e [(e' & H & [= <-])|(m1 & a & _ & H)]%p_bind_inv; [by eapply H1|by eapply H2]. Qed.
Lemma fails_try (pr : upd A) (f : result A AppError -> upd B) : (forall r, fails_with P (f r)) -> fails_with P (p_try pr f).
Proof. intros H m m' e. unfold p_try. destruct (pr m) as [m1 r]. apply H. Qed.
Lemma fails_ret (a : A) : fails_with P (p_ret a).
Proof. by intros m m' e [=]. Qed.
Lemma fails_err e : P e -> fails_with P (@p_err machine AppError A e).
Proof. by intros He m m' e' [= _ <-]. Qed.
Lemma fails_read (f : machine -> result A AppError) : (forall m e, f m = Err e -> P e) -> fails_with P (p_read f).
Proof. intros H m m' e [= _ He]. by eapply H. Qed.
Lemma fails_print l : fails_with P (print l).
Proof. by intros m m' e [=]. Qed.
Lemma fails_file_call (op : outcome -> fs -> fs * option A) e : P e -> fails_with P (file_call op e).
Proof. intros He m m' e'. unfold file_call. destruct (op _ _) as [f [a|]]; cbn; [discriminate|]. by intros [= _ <-]. Qed.
Lemma fails_db_call (op : outcome -> migration_table -> migration_table * option A) e : P e -> fails_with P (db_call op e).
Proof. intros He m m' e'. unfold db_call. destruct (op _ _) as [f [a|]]; cbn; [discriminate|]. by intros [= _ <-]. Qed.
End Failures.

(** Only the end of an update speaks of health. *)
Definition not_health (e : AppError) : Prop := class e <> Errors.HealthFailed.
Lemma ok_or_not_health {A} (o : option A) e x : not_health e -> ok_or o e = Err x -> not_health x.
Proof. destruct o; [discriminate|]. by intros H [= <-]. Qed.
Lemma bind_not_health {A B} (r : result A AppError) (f : A -> result B AppError) x :
  (forall e, r = Err e -> not_health e) -> (forall a e, f a = Err e -> not_health e) ->
  res_bind r f = Err x -> not_health x.
Proof. intros H1 H2. destruct r as [a|e]; cbn; [apply H2|]. intros [= <-]. by apply H1. Qed.
Lemma refuse_not_health bad e x : not_health e -> refuse_if bad e = Err x -> not_health x.
Proof. unfold refuse_if. destruct bad; [|discriminate]. by intros H [= <-]. Qed.

(** Through a program and its pure parts, down to the errors it names. *)
Ltac failing :=
  repeat first
    [ progress intros
    | progress cbv beta in *
    | apply fails_bind | apply fails_try | apply fails_ret
    | apply fails_err | apply fails_print | apply fails_file_call | apply fails_db_call | apply fails_read
    | match goal with
      | |- not_health _ => first [by cbv | eapply ok_or_not_health; [|eassumption] | eapply refuse_not_health; [|eassumption]
                                  | eapply bind_not_health; [| |eassumption]]
      | |- fails_with _ (match ?x with _ => _ end) => destruct x
      | |- fails_with _ (let _ := _ in _) => cbv zeta
      | H : (if ?b then _ else _) = Err _ |- _ => destruct b
      | H : Ok _ = Err _ |- _ => discriminate H
      | H : Err _ = Err _ |- _ => injection H as <-
      end
    | solve [eauto] ].

Section Frames.
Context {ED : Ed25519} {SM : SqlxMigrate} {PG : PgTools} {SP : SerdeParse} {SPr : SerdePretty} {SH : Sha256}.
Context (ARCH : rstr) (http_get : rstr -> health_answer).

Lemma read_keys_keeps p ps : preserves (keeps p) (read_keys ps).
Proof. induction ps as [|q ps IH]; cbn [read_keys]; unfold fs_read; framed. Qed.
Lemma verify_artifact_keeps p paths : preserves (keeps p) (verify_artifact paths).
Proof.
  unfold verify_artifact, load_public_keys, fs_read, path_is_dir. pose proof (read_keys_keeps p). framed.
Qed.
Lemma verify_artifact_calm paths : preserves calm (verify_artifact paths).
Proof.
  assert (Hk : forall ps, preserves calm (read_keys ps)).
  { induction ps as [|q ps IH]; cbn [read_keys]; unfold fs_read; framed. }
  unfold verify_artifact, load_public_keys, fs_read, path_is_dir. framed.
Qed.
Lemma verify_artifact_fails paths : fails_with not_health (verify_artifact paths).
Proof.
  assert (Hh : forall t e, decode_hex t = Err e -> not_health e) by (unfold decode_hex; failing).
  assert (Hk : forall ps, fails_with not_health (read_keys ps)).
  { induction ps as [|q ps IH]; cbn [read_keys]; unfold fs_read, parse_public_key, array_of; failing. }
  unfold verify_artifact, load_public_keys, fs_read, path_is_dir, check_artifact, parse_signature, array_of. failing.
Qed.

(** *** The parts of an update *)

Lemma pg_dump_keeps p url output : output <> p -> preserves (keeps p) (pg_dump_run url output).
Proof.
  intros Hp m. unfold pg_dump_run, keeps. destruct (hd Works (outcomes m)) as [|? [part|]].
  - pose proof (fs_write_other (files m) output p (pg_dump url (applied m, tables m)) None Hp) as H.
    destruct (FsStore.write _ _ _ _). exact H.
  - apply (fs_write_other (files m) output p part None Hp).
  - reflexivity.
Qed.
Lemma pg_dump_calm url output : preserves calm (pg_dump_run url output).
Proof.
  intros m H. unfold pg_dump_run. rewrite H. cbn [hd]. destruct (FsStore.write _ _ _ _). reflexivity.
Qed.
Lemma pg_dump_fails url output : fails_with not_health (pg_dump_run url output).
Proof.
  intros m m' e. unfold pg_dump_run. destruct (hd Works (outcomes m)) as [|? [part|]];
    [destruct (FsStore.write _ _ _ _); discriminate|discriminate|]. by intros [= _ <-].
Qed.

Lemma backup_parent paths : parent (state_file paths BACKUP_NAME) = Some (components (state_dir paths)).
Proof.
  rewrite state_file_eq by state_name. unfold parent. rewrite rev_app_distr. cbn [rev app]. by rewrite rev_involutive.
Qed.
Lemma run_backup_keeps p config paths : p ∉ prefixes (components (state_dir paths)) ->
  state_file paths BACKUP_NAME <> p -> preserves (keeps p) (run_backup config (path_join (state_dir paths) BACKUP_NAME)).
Proof.
  intros Hd Hb. unfold run_backup. fold (state_file paths BACKUP_NAME). rewrite backup_parent. cbv zeta.
  pose proof (fun url => pg_dump_keeps p url _ Hb). framed.
Qed.
Lemma run_backup_holds p config paths : state_file paths BACKUP_NAME <> p ->
  preserves (held p) (run_backup config (path_join (state_dir paths) BACKUP_NAME)).
Proof.
  intros Hb. unfold run_backup. fold (state_file paths BACKUP_NAME). cbv zeta.
  pose proof (fun url => keeps_held _ _ (pg_dump_keeps p url _ Hb)). framed.
Qed.
Lemma run_backup_calm config output : preserves calm (run_backup config output).
Proof. unfold run_backup. pose proof pg_dump_calm. framed. Qed.
Lemma run_backup_fails config output : fails_with not_health (run_backup config output).
Proof. unfold run_backup. pose proof pg_dump_fails. failing. Qed.

Lemma write_json_keeps p q md : q <> p -> preserves (keeps p) (write_json q md).
Proof. intros Hq. unfold write_json. framed. Qed.
Lemma write_json_calm q md : preserves calm (write_json q md).
Proof. unfold write_json. framed. Qed.
Lemma write_json_fails q md : fails_with not_health (write_json q md).
Proof. unfold write_json. failing. Qed.

(** Replacing: the whole source or nothing. *)
Lemma create_parent_keeps p dest : (forall up, parent dest = Some up -> p ∉ prefixes up) ->
  preserves (keeps p) (create_parent dest).
Proof. intros Hu. unfold create_parent. destruct (parent dest) as [[|c up]|]; [|specialize (Hu _ eq_refl)|]; framed. Qed.
Lemma create_parent_holds p dest : preserves (held p) (create_parent dest).
Proof. unfold create_parent. framed. Qed.
Lemma atomic_replace_holds p src dest : with_extension dest (s! "tmp-update") <> p -> dest <> p ->
  preserves (held p) (atomic_replace src dest).
Proof. intros Ht Hd. unfold atomic_replace, create_parent. framed. Qed.
Lemma atomic_replace_calm src dest : preserves calm (atomic_replace src dest).
Proof. unfold atomic_replace, create_parent. framed. Qed.
Lemma atomic_replace_fails src dest : fails_with not_health (atomic_replace src dest).
Proof. unfold atomic_replace, create_parent. failing. Qed.

Lemma fs_write_ok f p bytes fault f' : FsStore.write f p bytes fault = (f', true) -> f' = <[p := FileNode bytes]> f.
Proof.
  unfold FsStore.write. destruct (_ || _); [discriminate|]. destruct fault as [[[part|]]|]; [discriminate..|]. by intros [= <-].
Qed.
Lemma copy_ok src dst e m m' : src <> dst -> file_call (copy_op src dst) e m = (m', Ok tt) ->
  exists b, files m !! src = Some (FileNode b) /\ files m' !! dst = Some (FileNode b).
Proof.
  intros Hne. unfold file_call, copy_op, write_op. destruct (files m !! src) as [[b|]|]; [|discriminate..].
  rewrite bool_decide_eq_false_2 by done. destruct (FsStore.write _ _ _ _) as [f ok] eqn:E.
  destruct ok; [|discriminate]. intros [= <-]. apply fs_write_ok in E as ->. exists b. cbn [files].
  split; [reflexivity|apply lookup_insert_eq].
Qed.
Lemma rename_result src dst e m m' r : src <> dst -> file_call (rename_op src dst) e m = (m', r) ->
  match r with
  | Ok _ => files m' !! dst = files m !! src
  | Err _ => files m' !! dst = files m !! dst
  end.
Proof.
  intros Hne. unfold file_call, rename_op, FsStore.rename. destruct (files m !! src) as [[b|]|] eqn:E;
    [|by intros [= <- <-]..].
  destruct (_ || _); [by intros [= <- <-]|]. intros [= <- <-]. cbn [files]. apply lookup_insert_eq.
Qed.

Lemma atomic_replace_result src dest m m' r : with_extension dest (s! "tmp-update") <> dest ->
  with_extension dest (s! "tmp-update") <> src -> atomic_replace src dest m = (m', r) ->
  match r with
  | Ok _ => exists b, files m !! src = Some (FileNode b) /\ files m' !! dest = Some (FileNode b)
  | Err _ => files m' !! dest = files m !! dest
  end.
Proof.
  set (tmp := with_extension dest (s! "tmp-update")). intros Htd Hts H. unfold atomic_replace in H. fold tmp in H. cbv zeta in H.
  pose proof (create_parent_keeps dest dest (parent_dirs dest)) as Hp.
  apply p_bind_inv in H as [(e & H & ->)|(m1 & [] & H1 & H)]; [exact (preserves_run _ _ _ _ _ Hp H)|].
  pose proof (preserves_run _ _ _ _ _ Hp H1) as K1. pose proof (preserves_run _ _ _ _ _ (create_parent_holds src dest) H1) as K2.
  apply p_bind_inv in H as [(e & H & ->)|(m2 & [] & H2 & H)].
  { rewrite <- K1. eapply (preserves_run (keeps dest)); [|exact H]. framed. }
  assert (K3 : keeps dest m1 m2) by (eapply (preserves_run (keeps dest)); [|exact H2]; framed).
  apply copy_ok in H2 as (b & Hb & Hc); [|done].
  apply p_bind_inv in H as [(e & H & ->)|(m3 & [] & H3 & H)].
  { rewrite <- K1, <- K3. eapply (preserves_run (keeps dest)); [|exact H]. framed. }
  assert (K4 : files m3 = files m2) by (by injection H3 as <-).
  apply rename_result in H; [|done]. rewrite K4 in H. unfold keeps in *.
  destruct r; [exists b; split; [by eapply K2|congruence]|congruence].
Qed.

Definition same (m m' : machine) : Prop := files m' = files m /\ applied m' = applied m.
#[local] Instance same_preorder : PreOrder same.
Proof. split; [by intros m|]. intros a b c [H1 H2] [H3 H4]. split; congruence. Qed.
Lemma reading_same {A} (op : outcome -> fs -> fs * option A) e : (forall o f, (op o f).1 = f) ->
  preserves same (file_call op e).
Proof. intros H m. unfold file_call. specialize (H (hd Works (outcomes m)) (files m)). destruct (op _ _). by split. Qed.
Hint Extern 1 (preserves same (file_call _ _)) => apply reading_same; reflexivity : update_frame.

Lemma read_result p e m m' bytes : fs_read p e m = (m', Ok bytes) -> files m' = files m /\ files m !! p = Some (FileNode bytes).
Proof.
  unfold fs_read, file_call, read_op, FsStore.read. destruct (breaks _); [discriminate|].
  destruct (files m !! p) as [[b|]|]; [|discriminate..]. by intros [= <- <-].
Qed.

(** *** The snapshot *)

Context (paths : UpdatePaths) (Hsep : separate paths).

Lemma not_install name : In name STATE_FILES -> state_file paths name <> install paths.
Proof. exact (proj1 (List.Forall_forall _ _) (sep_install_state paths Hsep) name). Qed.
Lemma not_artifact name : In name STATE_FILES -> state_file paths name <> components (artifact paths).
Proof. exact (proj1 (List.Forall_forall _ _) (sep_artifact_state paths Hsep) name). Qed.

Lemma not_staged name : In name STATE_FILES -> staged paths <> state_file paths name.
Proof. intros H E. exact (proj1 (List.Forall_forall _ _) (sep_state_staged paths Hsep) name H (eq_sym E)). Qed.

Lemma snapshot_keeps p : (forall name, In name [PREVIOUS_BINARY; PREVIOUS_METADATA] -> state_file paths name <> p) ->
  preserves (keeps p) (snapshot_current ARCH paths).
Proof.
  intros H. unfold snapshot_current, path_exists, fs_read, sha256_file, fs_read.
  pose proof (H PREVIOUS_BINARY ltac:(state_name)). pose proof (H PREVIOUS_METADATA ltac:(state_name)).
  pose proof (write_json_keeps p (state_file paths PREVIOUS_METADATA)). framed.
Qed.
Lemma snapshot_calm : preserves calm (snapshot_current ARCH paths).
Proof. unfold snapshot_current, path_exists, fs_read, sha256_file, fs_read. pose proof write_json_calm. framed. Qed.
Lemma snapshot_fails : fails_with not_health (snapshot_current ARCH paths).
Proof. unfold snapshot_current, path_exists, fs_read, sha256_file, fs_read. pose proof write_json_fails. failing. Qed.

(** What is kept for a rollback: the installed binary, or what was kept before. *)
Lemma snapshot_result m m' : snapshot_current ARCH paths m = (m', Ok tt) ->
  files m' !! previous_binary paths = files m !! previous_binary paths
    /\ (outcomes m = [] -> forall b, files m !! install paths <> Some (FileNode b))
  \/ exists b, files m !! install paths = Some (FileNode b) /\ files m' !! previous_binary paths = Some (FileNode b).
Proof.
  intros H. unfold snapshot_current in H. cbv zeta in H. fold (install paths) (previous_binary paths) in H.
  apply p_bind_inv in H as [(e & _ & [=])|(m1 & present & H1 & H)].
  assert (Hf : files m1 = files m) by (by injection H1 as <-). destruct present; cbn [negb] in H; cycle 1.
  { injection H as <-. left. split; [by rewrite Hf|]. intros Ho b Hb. injection H1 as _ H1. rewrite Ho in H1.
    cbn in H1. rewrite Hb in H1. rewrite (bool_decide_eq_true_2 (is_Some (Some (FileNode b)))), andb_true_r in H1 by by eexists.
    apply negb_false_iff, bool_decide_eq_true in H1. pose proof (sep_install_staged paths Hsep) as Hs.
    apply Hs. unfold staged. by rewrite H1. }
  apply p_bind_inv in H as [(e & _ & [=])|(m2 & [] & H2 & H)]. right.
  pose proof (not_install PREVIOUS_BINARY ltac:(state_name)) as Hi.
  apply copy_ok in H2 as (b & Hb & Hc); [|intros E; by apply Hi]. exists b. split; [by rewrite <- Hf|]. rewrite <- Hc.
  eapply (preserves_run (keeps (previous_binary paths))); [|exact H]. pose proof (previous_not_metadata paths).
  pose proof (write_json_keeps (previous_binary paths) (state_file paths PREVIOUS_METADATA)).
  unfold fs_read, sha256_file, fs_read. framed.
Qed.

(** The metadata kept with it: the current one, or one made for the running binary. *)
Definition recorded_bytes (m : machine) (old : list Z) : list Z :=
  match files m !! state_file paths CURRENT_METADATA with
  | Some (FileNode bytes) => bytes
  | _ => json_to_vec_pretty (metadata_to_json (own_metadata ARCH (S3Store.hex_encode (sha256 old))))
  end.

Lemma recorded_held m m' old : held (state_file paths CURRENT_METADATA) m m' -> recorded_bytes m' old = recorded_bytes m old.
Proof.
  unfold held, recorded_bytes. generalize (files m !! state_file paths CURRENT_METADATA).
  generalize (files m' !! state_file paths CURRENT_METADATA). intros [[x|]|] [[y|]|] H; try reflexivity.
  - by injection (proj1 (H x) eq_refl) as ->.
  - by discriminate (proj1 (H x) eq_refl).
  - by discriminate (proj1 (H x) eq_refl).
  - by discriminate (proj2 (H y) eq_refl).
  - by discriminate (proj2 (H y) eq_refl).
Qed.

Lemma write_ok p bytes e m m' : file_call (write_op p bytes) e m = (m', Ok tt) ->
  files m' = <[p := FileNode bytes]> (files m).
Proof.
  unfold file_call, write_op. destruct (FsStore.write _ _ _ _) as [f ok] eqn:E. destruct ok; [|discriminate].
  intros [= <-]. by apply fs_write_ok in E as ->.
Qed.
Lemma write_json_ok p md m m' : write_json p md m = (m', Ok tt) ->
  files m' !! p = Some (FileNode (json_to_vec_pretty (metadata_to_json md))).
Proof.
  intros H. apply p_bind_inv in H as [(e & _ & [=])|(m1 & [] & _ & ->%write_ok)]. apply lookup_insert_eq.
Qed.

Lemma snapshot_recorded m m' old : outcomes m = [] -> files m !! install paths = Some (FileNode old) ->
  snapshot_current ARCH paths m = (m', Ok tt) ->
  files m' !! state_file paths PREVIOUS_METADATA = Some (FileNode (recorded_bytes m old)).
Proof.
  intros Ho Hold H. unfold snapshot_current in H. cbv zeta in H. fold (install paths) (previous_binary paths) in H.
  apply p_bind_inv in H as [(e & _ & [=])|(m1 & present & H1 & H)].
  assert (S1 : same m m1 /\ outcomes m1 = []) by (injection H1 as <- _; cbn; by rewrite Ho). destruct S1 as [[F1 _] O1].
  destruct present; cbn [negb] in H; cycle 1.
  { injection H1 as _ H1. rewrite Ho in H1. cbn in H1. rewrite Hold in H1.
    rewrite (bool_decide_eq_true_2 (is_Some (Some (FileNode old)))), andb_true_r in H1 by by eexists.
    apply negb_false_iff, bool_decide_eq_true in H1. destruct (sep_install_staged paths Hsep). unfold staged. by rewrite H1. }
  apply p_bind_inv in H as [(e & _ & [=])|(m2 & [] & H2 & H)].
  pose proof (preserves_run _ _ _ _ _ (file_call_calm _ _) H2 O1) as O2.
  assert (K : forall p, previous_binary paths <> p -> files m2 !! p = files m !! p).
  { intros p Hp. rewrite <- F1. exact (preserves_run _ _ _ _ _ (file_call_keeps p _ _ (copy_keeps p _ _ Hp)) H2). }
  pose proof (K (state_file paths CURRENT_METADATA) (fun E => previous_not_current paths (eq_sym E))) as Kc.
  pose proof (K (install paths) (not_install PREVIOUS_BINARY ltac:(state_name))) as Ki. unfold recorded_bytes. rewrite <- Kc.
  unfold p_try, fs_read at 1, file_call at 1, read_op, FsStore.read in H. rewrite O2 in H. cbn [hd breaks] in H.
  set (m3 := {| files := files m2; applied := applied m2; outcomes := tl [] |}) in H.
  destruct (files m2 !! state_file paths CURRENT_METADATA) as [[bytes|]|]; cbn [ok_or] in H;
    [apply write_ok in H as ->; apply lookup_insert_eq|..];
    (apply p_bind_inv in H as [(e & _ & [=])|(m4 & sha & H4 & H)]; apply write_json_ok in H; rewrite H;
     apply p_bind_inv in H4 as [(e & _ & [=])|(m5 & bytes & H5 & [= _ <-])]; apply read_result in H5 as [_ H5];
     cbn [files m3] in H5; by replace bytes with old by congruence).
Qed.

(** *** The way back *)

Definition previous_metadata (m : machine) (previous : UpdateMetadata) : Prop :=
  exists bytes v, files m !! state_file paths PREVIOUS_METADATA = Some (FileNode bytes)
    /\ json_from_slice bytes = Some v /\ metadata_from_json v = Some previous.
(** The binary kept for a rollback is in place, and the schema is in its range. *)
Definition rolled_back (schema : Z) (m m' : machine) : Prop :=
  exists previous b, previous_metadata m previous /\ rollback_permitted schema previous = true
    /\ files m !! previous_binary paths = Some (FileNode b) /\ files m' !! install paths = Some (FileNode b).

Lemma restore_calm schema : preserves calm (restore_previous paths schema).
Proof.
  unfold restore_previous, path_exists, fs_read. cbv zeta. pose proof write_json_calm. pose proof atomic_replace_calm. framed.
Qed.

Lemma restore_result schema m m' r : restore_previous paths schema m = (m', r) ->
  match r with
  | Ok _ => rolled_back schema m m'
  | Err _ => keeps (install paths) m m' \/ rolled_back schema m m'
  end.
Proof.
  intros H. unfold restore_previous in H. cbv zeta in H. fold (previous_binary paths) (install paths) in H.
  apply p_bind_inv in H as [(e & [=] & _)|(m1 & present & H1 & H)].
  assert (F1 : files m1 = files m) by (by injection H1 as <-). clear H1.
  destruct present; cbn [negb] in H; [|injection H as <- <-; left; unfold keeps; by rewrite F1].
  apply p_bind_inv in H as [(e & [=] & _)|(m2 & present & H2 & H)].
  assert (F2 : files m2 = files m) by (injection H2 as <-; exact F1). clear H2.
  destruct present; cbn [negb] in H; [|injection H as <- <-; left; unfold keeps; by rewrite F2].
  apply p_bind_inv in H as [(e & H & ->)|(m3 & bytes & H3 & H)].
  { left. unfold keeps. rewrite <- F2. eapply (preserves_run (keeps (install paths))); [|exact H]. unfold fs_read. framed. }
  apply read_result in H3 as [F3 Hm]. rewrite F2 in F3, Hm.
  apply p_bind_inv in H as [(e & [= -> _] & ->)|(m4 & previous & H4 & H)]; [left; unfold keeps; by rewrite F3|].
  injection H4 as -> H4. apply ok_or_ok in H4. apply bind_some in H4 as (v & Hv & Hd).
  destruct (rollback_permitted schema previous) eqn:Hp; cbn [negb] in H; [|injection H as <- <-; left; unfold keeps; by rewrite F3].
  destruct (p_bind_inv _ _ _ _ _ H) as [(e & Ha & ->)|(m5 & [] & Ha & Hw)];
    apply atomic_replace_result in Ha as Hr; try (apply (sep_install_staged paths Hsep) || (apply not_staged; state_name)).
  { left. unfold keeps. by rewrite Hr, F3. }
  destruct Hr as (b & Hb & Hi). assert (Hrb : rolled_back schema m m').
  { exists previous, b. split; [by exists bytes, v|]. split; [exact Hp|]. split; [by rewrite <- F3|]. rewrite <- Hi.
    eapply (preserves_run (keeps (install paths))); [|exact Hw]. apply write_json_keeps, not_install. state_name. }
  destruct r; [exact Hrb|by right].
Qed.

(** *** What verification establishes *)

(** A key in a file named by the operator or directly in the directory of trusted keys. *)
Definition key_at (m : machine) (p : path) (key : VerifyingKey) : Prop :=
  exists bytes text, files m !! p = Some (FileNode bytes) /\ Extractors.from_utf8 bytes = Some text
    /\ parse_public_key (trim text) = Ok key.
Definition trusted (m : machine) (key : VerifyingKey) : Prop :=
  exists p, key_at m p key
    /\ (In p (map components (public_keys paths)) \/ exists n, p = components (public_keys_directory paths) ++ [Normal n]).

Record verified (m : machine) (md : UpdateMetadata) (b : list Z) : Prop := {
  v_artifact : files m !! components (artifact paths) = Some (FileNode b);
  v_signed : exists bytes sig_bytes sig key v,
    files m !! components (metadata paths) = Some (FileNode bytes)
    /\ files m !! components (signature paths) = Some (FileNode sig_bytes) /\ parse_signature sig_bytes = Ok sig
    /\ trusted m key /\ verify key bytes sig = true
    /\ json_from_slice bytes = Some v /\ metadata_from_json v = Some md;
  v_checksum : eq_ignore_ascii_case (S3Store.hex_encode (sha256 b)) (trim (md_sha256 md)) = true;
  v_range : min_runtime_schema md <= max_runtime_schema md /\ min_runtime_schema md <= schema_version md;
}.

Lemma read_keys_same ps : preserves same (read_keys ps).
Proof. induction ps as [|q ps IH]; cbn [read_keys]; unfold fs_read; framed. Qed.
Lemma read_keys_result ps : forall m m' keys, read_keys ps m = (m', Ok keys) ->
  Forall (fun key => exists p, In p ps /\ key_at m p key) keys.
Proof.
  induction ps as [|q ps IH]; intros m m' keys H; cbn [read_keys] in H; [injection H as _ <-; constructor|]. cbv zeta in H.
  apply p_bind_inv in H as [(e & _ & [=])|(m1 & bytes & H1 & H)]. apply read_result in H1 as [F1 Hb].
  apply p_bind_inv in H as [(e & _ & [=])|(m2 & text & [= -> H2] & H)]. apply ok_or_ok in H2.
  apply p_bind_inv in H as [(e & _ & [=])|(m3 & key & [= -> H3] & H)].
  apply p_bind_inv in H as [(e & _ & [=])|(m4 & rest & H4 & [= _ <-])]. apply IH in H4. constructor.
  - exists q. split; [by left|]. by exists bytes, text.
  - eapply Forall_impl; [exact H4|]. intros k (p & Hp & Hk). exists p. split; [by right|]. unfold key_at in *. by rewrite <- F1.
Qed.

Lemma load_keys_same : preserves same (load_public_keys paths).
Proof. unfold load_public_keys, path_is_dir. pose proof read_keys_same. framed. Qed.
Lemma load_keys_result m m' keys : load_public_keys paths m = (m', Ok keys) -> Forall (trusted m) keys.
Proof.
  intros H. unfold load_public_keys in H. cbv zeta in H.
  apply p_bind_inv in H as [(e & _ & [=])|(m1 & is_directory & H1 & H)].
  assert (F1 : files m1 = files m) by (by injection H1 as <-). clear H1.
  apply p_bind_inv in H as [(e & _ & [=])|(m2 & entries & H2 & H)].
  assert (F2 : files m2 = files m /\ Forall (fun p => exists n, p = components (public_keys_directory paths) ++ [Normal n]) entries).
  { destruct is_directory; [|injection H2 as <- <-; by split; [|constructor]].
    unfold file_call, read_dir_op in H2. destruct (breaks _); [discriminate|]. injection H2 as <- <-. split; [exact F1|].
    apply List.Forall_forall. intros p (n & <- & _)%in_map_iff. by exists n. }
  clear H2. destruct F2 as [F2 He]. apply read_keys_result in H. eapply Forall_impl; [exact H|].
  intros key (p & Hp & Hk). exists p. split; [unfold key_at in *; by rewrite <- F2|].
  apply in_app_iff in Hp as [Hp|Hp]; [by left|right]. by apply (proj1 (List.Forall_forall _ _) He).
Qed.

Lemma verify_artifact_same : preserves same (verify_artifact paths).
Proof. unfold verify_artifact, fs_read. pose proof load_keys_same. framed. Qed.
Lemma verify_artifact_result m m' md : verify_artifact paths m = (m', Ok md) -> exists b, verified m md b.
Proof.
  intros H. unfold verify_artifact in H.
  apply p_bind_inv in H as [(e & _ & [=])|(m1 & bytes & H1 & H)]. apply read_result in H1 as [F1 Hb].
  apply p_bind_inv in H as [(e & _ & [=])|(m2 & sig_bytes & H2 & H)]. apply read_result in H2 as [F2 Hs]. rewrite F1 in F2, Hs.
  apply p_bind_inv in H as [(e & _ & [=])|(m3 & b & H3 & H)]. apply read_result in H3 as [F3 Ha]. rewrite F2 in F3, Ha.
  apply p_bind_inv in H as [(e & _ & [=])|(m4 & keys & H4 & H)]. apply load_keys_result in H4.
  injection H as _ H. unfold check_artifact in H. apply res_bind_ok in H as ([] & _ & H).
  apply res_bind_ok in H as (sig & Hsig & H). apply res_bind_ok in H as ([] & Hv%refuse_if_ok%negb_false_iff & H).
  apply res_bind_ok in H as (md' & Hm%ok_or_ok & H). apply res_bind_ok in H as ([] & Hc%refuse_if_ok%negb_false_iff & H).
  apply res_bind_ok in H as ([] & Hr%refuse_if_ok & H). apply ok_inj in H. subst md'.
  apply existsb_exists in Hv as (key & Hin & Hv). apply bind_some in Hm as (v & Hj & Hm).
  pose proof (proj1 (List.Forall_forall _ _) H4 key Hin) as (p & Hk & Hp). exists b.
  apply orb_false_iff in Hr as [Hr1 Hr2]. split; [exact Ha| |exact Hc|lia].
  exists bytes, sig_bytes, sig, key, v. split; [exact Hb|]. split; [exact Hs|]. split; [exact Hsig|].
  split; [exists p; split; [unfold key_at in *; by rewrite <- F3|exact Hp]|by repeat split].
Qed.

(** *** After the replacement *)

Lemma restored_message error rollback_error :
  health (s! "health check failed after update (" ++ message error ++ s! "); rollback blocked: "
          ++ message rollback_error) <> RESTORED.
Proof.
  intros H. apply (f_equal message) in H. cbn [message health new RESTORED] in H.
  apply (f_equal (fun x => x !! 33%nat)) in H. vm_compute in H. discriminate.
Qed.
Lemma schema_same : preserves same current_database_schema.
Proof. by intros m. Qed.

(** What is installed after the replacement has begun: the old file, the artifact, or
    the binary kept for a rollback; "restored" is said only of the last. *)
Definition ended (b : list Z) (m m' : machine) (r : result unit AppError) : Prop :=
  match r with
  | Ok _ => files m' !! install paths = Some (FileNode b)
  | Err e =>
      e <> RESTORED /\ (keeps (install paths) m m' \/ files m' !! install paths = Some (FileNode b))
      \/ exists c, files m !! previous_binary paths = Some (FileNode c) /\ files m' !! install paths = Some (FileNode c)
  end.

Lemma confirm_result config options schema md b m m' r : files m !! install paths = Some (FileNode b) ->
  confirm_or_restore http_get config paths options schema md m = (m', r) -> ended b m m' r.
Proof.
  intros Hb H. unfold confirm_or_restore in H. destruct (verify_health _ _); [by injection H as <- <-|].
  unfold p_try in H. destruct (current_database_schema m) as [m1 after] eqn:E1.
  pose proof (preserves_run _ _ _ _ _ schema_same E1) as [F1 _]. cbv zeta in H.
  destruct (restore_previous paths _ m1) as [m2 [[]|e']] eqn:E2; apply restore_result in E2.
  - injection H as <- <-. right. destruct E2 as (pr & c & _ & _ & Hc & Hi). exists c. by rewrite <- F1.
  - injection H as <- <-. destruct E2 as [E2|(pr & c & _ & _ & Hc & Hi)].
    + left. split; [apply restored_message|]. left. unfold keeps in *. by rewrite E2, F1.
    + right. exists c. by rewrite <- F1.
Qed.

Lemma not_health_restored e : not_health e -> e <> RESTORED.
Proof. by intros H ->. Qed.

Lemma install_result config options schema md b m m' r : files m !! components (artifact paths) = Some (FileNode b) ->
  install_artifact http_get config paths options schema md m = (m', r) -> ended b m m' r.
Proof.
  intros Hb H. unfold install_artifact in H. fold (install paths) in H.
  pose proof (not_install CURRENT_METADATA ltac:(state_name)) as Hci. pose proof (previous_not_current paths) as Hcp.
  apply p_bind_inv in H as [(e & H & ->)|(m1 & [] & H1 & H)].
  { left. split; [eapply not_health_restored, atomic_replace_fails, H|]. left.
    apply atomic_replace_result in H; [exact H|apply (sep_install_staged paths Hsep)|apply (sep_artifact_staged paths Hsep)]. }
  assert (Hp1 : held (previous_binary paths) m m1).
  { eapply preserves_run; [|exact H1]. apply atomic_replace_holds; [apply not_staged; state_name|].
    intros E. by apply (not_install PREVIOUS_BINARY ltac:(state_name)). }
  apply atomic_replace_result in H1 as (b' & Hb' & Hi1);
    [|apply (sep_install_staged paths Hsep)|apply (sep_artifact_staged paths Hsep)].
  assert (b' = b) as -> by congruence.
  apply p_bind_inv in H as [(e & H & ->)|(m2 & [] & H2 & H)].
  { left. split; [eapply not_health_restored, write_json_fails, H|]. right. rewrite <- Hi1.
    exact (preserves_run _ _ _ _ _ (write_json_keeps _ _ md Hci) H). }
  pose proof (preserves_run _ _ _ _ _ (write_json_keeps _ _ md Hci) H2) as Hi2.
  pose proof (preserves_run _ _ _ _ _ (write_json_keeps _ _ md Hcp) H2) as Hp2.
  apply p_bind_inv in H as [(e & H & ->)|(m3 & [] & H3 & H)].
  { left. destruct (skip_migrate options); [discriminate|]. split.
    - eapply not_health_restored, (fails_db_call not_health); [|exact H]. by cbv.
    - right. rewrite <- Hi1, <- Hi2. exact (preserves_run _ _ _ _ _ (db_call_keeps _ _ _) H). }
  assert (F3 : files m3 = files m2).
  { destruct (skip_migrate options); [by injection H3 as <-|]. unfold migrate, db_call in H3.
    destruct (migrator_run _ _). by injection H3 as <-. }
  unfold keeps in Hi2, Hp2. destruct (skip_health options); [injection H as <- <-; cbn; congruence|].
  apply (confirm_result config options schema md b) in H; [|congruence]. unfold ended, keeps in *. destruct r as [|e]; [exact H|].
  destruct H as [[He [Hk|Hk]]|(c & Hc & Hi)]; [left; split; [exact He|right; congruence]|by left; split; [|right]|right].
  exists c. split; [|exact Hi]. apply Hp1. congruence.
Qed.

(** *** Before the replacement *)

Definition schema_fits (m : machine) (md : UpdateMetadata) : Prop :=
  exists rows, applied m = Some rows
    /\ min_runtime_schema md <= Z.of_nat (length (List.filter snd rows)) <= schema_version md.
Lemma schema_result m m1 n md : current_database_schema m = (m1, Ok n) -> check_schema_preflight n md = Ok tt -> schema_fits m md.
Proof.
  unfold current_database_schema, db_call. intros H Hc. injection H as _ H. apply ok_or_ok in H.
  destruct (breaks _); [discriminate|]. apply bind_some in H as (rows & Hr & [= <-]). exists rows. split; [exact Hr|].
  unfold check_schema_preflight in Hc. apply res_bind_ok in Hc as ([] & H1%refuse_if_ok & H2%refuse_if_ok). lia.
Qed.

(** The state in which the replacement begins. *)
Definition prepared (m m' : machine) : Prop :=
  keeps (install paths) m m' /\ held (components (artifact paths)) m m' /\ (outcomes m = [] -> outcomes m' = [])
  /\ (held (previous_binary paths) m m' /\ (outcomes m = [] -> forall b, files m !! install paths <> Some (FileNode b))
      \/ exists b, files m !! install paths = Some (FileNode b) /\ files m' !! previous_binary paths = Some (FileNode b))
  /\ (outcomes m = [] -> forall old, files m !! install paths = Some (FileNode old) ->
       files m' !! state_file paths PREVIOUS_METADATA = Some (FileNode (recorded_bytes m old))).

Definition gentle (m m' : machine) : Prop :=
  keeps (install paths) m m' /\ held (components (artifact paths)) m m' /\ held (previous_binary paths) m m' /\ calm m m'
  /\ held (state_file paths CURRENT_METADATA) m m'.
#[local] Instance gentle_preorder : PreOrder gentle.
Proof.
  split.
  - intros m. split; [done|]. split; [done|]. split; [done|]. split; [by unfold calm|done].
  - intros a b c (H1 & H2 & H3 & H4 & H5) (K1 & K2 & K3 & K4 & K5). split; [by etransitivity|]. split; [by etransitivity|].
    split; [by etransitivity|]. split; [unfold calm in *; auto|by etransitivity].
Qed.
Lemma same_gentle m m' : same m m' -> calm m m' -> gentle m m'.
Proof. intros [H _] Hc. unfold gentle, keeps, held. rewrite H. by repeat split. Qed.
Lemma create_state_gentle e : preserves gentle (file_call (create_dir_op (components (state_dir paths))) e).
Proof.
  intros m. pose proof (sep_install_dirs paths Hsep) as Hd. split; [|split; [|split; [|split]]];
    [by apply file_call_keeps, create_dir_keeps|apply file_call_holds, create_dir_holds..|apply file_call_calm
    |apply file_call_holds, create_dir_holds].
Qed.
Lemma run_backup_gentle config : preserves gentle (run_backup config (path_join (state_dir paths) BACKUP_NAME)).
Proof.
  intros m. pose proof (sep_install_dirs paths Hsep) as Hd. split; [|split; [|split; [|split]]];
    [apply run_backup_keeps; [exact Hd|apply not_install; state_name]|apply run_backup_holds, not_artifact; state_name| |apply run_backup_calm|];
    apply run_backup_holds; apply state_file_inj; (state_name || (vm_compute; discriminate)).
Qed.

Lemma verify_gentle : preserves gentle (verify_artifact paths).
Proof. intros m. apply same_gentle; [apply verify_artifact_same|apply verify_artifact_calm]. Qed.
Lemma schema_gentle : preserves gentle current_database_schema.
Proof. intros m. apply same_gentle; [apply schema_same|apply db_call_calm]. Qed.

(** A first failure leaves the installed file alone; otherwise one goes on. *)
Definition gave_up (m m' : machine) (r : result unit AppError) : Prop :=
  exists e, r = Err e /\ not_health e /\ keeps (install paths) m m'.
Lemma early_step {A} (pr : upd A) (k : A -> upd unit) m0 m m' r :
  gentle m0 m -> preserves gentle pr -> fails_with not_health pr -> p_bind pr k m = (m', r) ->
  gave_up m0 m' r \/ exists m1 a, pr m = (m1, Ok a) /\ gentle m0 m1 /\ k a m1 = (m', r).
Proof.
  intros Hg Hp Hf [(e & H & ->)|(m1 & a & H & Hk)]%p_bind_inv; pose proof (preserves_run _ _ _ _ _ Hp H) as H1.
  - left. exists e. split; [done|]. split; [by eapply Hf|]. etransitivity; [apply Hg|apply H1].
  - right. exists m1, a. split; [exact H|]. split; [by etransitivity|exact Hk].
Qed.

Lemma apply_stages config options m m' r : run_apply ARCH http_get config paths options m = (m', r) ->
  gave_up m m' r
  \/ exists md n b m1, verified m md b /\ schema_fits m md /\ prepared m m1
       /\ install_artifact http_get config paths options n md m1 = (m', r).
Proof.
  intros H. unfold run_apply in H. destruct (yes options); cbn [negb] in H; [|injection H as <- <-; left; eexists; by repeat split].
  apply (early_step _ _ m) in H as [H|(m1 & md & H1 & G1 & H)]; [by left| |reflexivity|apply verify_gentle|apply verify_artifact_fails].
  destruct (verify_artifact_result _ _ _ H1) as (b & Hv).
  pose proof (preserves_run _ _ _ _ _ verify_artifact_same H1) as [_ S1].
  apply (early_step _ _ m) in H as [H|(m2 & n & H2 & G2 & H)];
    [by left| |exact G1|apply schema_gentle|by apply fails_db_call; cbv].
  apply (early_step _ _ m) in H as [H|(m3 & [] & [= <- H3] & _ & H)];
    [by left| |exact G2|intros x; reflexivity|unfold check_schema_preflight; failing].
  assert (Hfit : schema_fits m md) by (destruct (schema_result _ _ _ _ H2 H3) as (rows & Hr & Hn); exists rows; by rewrite <- S1).
  apply (early_step _ _ m) in H as [H|(m3 & [] & _ & G3 & H)];
    [by left| |exact G2|apply create_state_gentle|by apply fails_file_call; cbv].
  apply (early_step _ _ m) in H as [H|(m4 & [] & _ & (K1 & K2 & K3 & K4 & K5) & H)]; [by left| |exact G3|..].
  2: { destruct (skip_backup options); [intros x; reflexivity|apply run_backup_gentle]. }
  2: { destruct (skip_backup options); [apply fails_ret|apply run_backup_fails]. }
  assert (Hsnap : preserves (keeps (install paths)) (snapshot_current ARCH paths)).
  { apply snapshot_keeps. intros name Hn. apply not_install. cbn in *. tauto. }
  apply p_bind_inv in H as [(e & H & ->)|(m5 & [] & H6 & H)]; [left|right].
  { exists e. split; [done|]. split; [by eapply snapshot_fails|]. etransitivity; [exact K1|exact (preserves_run _ _ _ _ _ Hsnap H)]. }
  exists md, n, b, m5. split; [exact Hv|]. split; [exact Hfit|]. split; [|exact H].
  split; [etransitivity; [exact K1|exact (preserves_run _ _ _ _ _ Hsnap H6)]|]. split; [|split; [|split]].
  - etransitivity; [exact K2|]. eapply preserves_run; [|exact H6]. apply keeps_held, snapshot_keeps. intros name Hn.
    apply not_artifact. cbn in *. tauto.
  - intros Ho. exact (preserves_run _ _ _ _ _ snapshot_calm H6 (K4 Ho)).
  - apply snapshot_result in H6 as [[Hp Hno]|(c & Hc & Hp)].
    + left. split; [intros c; rewrite Hp; apply K3|]. intros Ho c. rewrite <- K1. by apply Hno, K4.
    + right. exists c. by rewrite <- K1.
  - intros Ho old Hold. rewrite (snapshot_recorded m4 m5 old (K4 Ho)); [|by rewrite K1|exact H6].
    by rewrite (recorded_held _ _ _ K5).
Qed.


End Frames.

End UpdateProps.
