(* ===== verification/UpdateRollback.v ===== *)
(** * An update can be taken back

    After a successful update a rollback meets nothing in its way: it restores the binary
    the update replaced exactly when the schema is in the recorded range. *)

From S2P Require Import Prelude RustStr RustStrFacts Platform Errors Paths ConfigTypes Work ReceiptTypes Provider.
From S2P Require Import Extractors FsStore S3Store ConfigLoad Insight Update FsStoreProps UpdateProps.

(** [serde_json] reads back what it prints. *)
Class SerdePrettyLaws `{SerdeParse} `{SerdePretty} : Prop := {
  pretty_parsed : forall md, json_from_slice (json_to_vec_pretty (Update.metadata_to_json md)) = Some (Update.metadata_to_json md);
}.

Module UpdateRollback.
Import Paths FsStore ConfigLoad Errors.AppError Update UpdateProps.
#[local] Opaque lit.

(** ** Directories stay, and none appears where a file is written *)

Definition dirs_kept (f f' : fs) : Prop := forall q, is_dir f q = true -> is_dir f' q = true.
Definition none_new (f f' : fs) : Prop := forall q, is_dir f q = false -> is_dir f' q = false.

Lemma insert_file_dir f p b q : is_dir f p = false -> is_dir (<[p := FileNode b]> f) q = is_dir f q.
Proof.
  intros Hp. destruct (decide (p = q)) as [<-|Hne]; unfold is_dir in *.
  - rewrite lookup_insert_eq. by rewrite Hp.
  - by rewrite lookup_insert_ne.
Qed.
Lemma delete_file_dir f p b q : f !! p = Some (FileNode b) -> is_dir (delete p f) q = is_dir f q.
Proof.
  intros Hp. destruct (decide (p = q)) as [<-|Hne]; unfold is_dir.
  - by rewrite lookup_delete_eq, Hp.
  - by rewrite lookup_delete_ne.
Qed.
Lemma make_dirs_kept d stop f f' ok : make_dirs f (prefixes d) stop = (f', ok) -> dirs_kept f f'.
Proof.
  intros (A & _)%FsStoreProps.make_dirs_spec q Hq. unfold is_dir in *. destruct (A q) as [->|(_ & -> & _)]; done.
Qed.
Lemma make_dirs_present f : forall ps, Forall (fun q => f !! q = Some DirNode) ps -> make_dirs f ps None = (f, true).
Proof. induction 1 as [|q ps Hq _ IH]; cbn [make_dirs]; [reflexivity|by rewrite Hq]. Qed.

(** The last name of a path that has one. *)
Lemma named p ext : with_extension p ext <> p -> exists up n, p = up ++ [Normal n]
  /\ with_extension p ext = up ++ [Normal (file_stem n ++ s! "." ++ ext)].
Proof.
  unfold with_extension. destruct (rev p) as [|[| | |n] l] eqn:E; try done. intros _. exists (rev l), n.
  split; [|reflexivity]. rewrite <- (rev_involutive p), E. reflexivity.
Qed.
Lemma parent_of_snoc up c : parent_of (up ++ [c]) = up.
Proof. unfold parent_of. rewrite length_app. cbn. replace (length up + 1 - 1)%nat with (length up) by lia. apply take_app_length. Qed.
Lemma parent_named up n : parent (up ++ [Normal n]) = Some up.
Proof. unfold parent. rewrite rev_app_distr. cbn [rev app]. by rewrite rev_involutive. Qed.

(** ** What the calls need, and what their success shows *)

(** A file can be put in place of [dest] through its staging file. *)
Record replaceable (f : fs) (up : path) (n : rstr) : Prop := {
  rp_up : is_dir f up = true;
  rp_dirs : Forall (fun q => f !! q = Some DirNode) (prefixes up);
  rp_dest : is_dir f (up ++ [Normal n]) = false;
  rp_staged : is_dir f (up ++ [Normal (file_stem n ++ s! "." ++ s! "tmp-update")]) = false;
}.

Lemma replaceable_kept f f' up n : dirs_kept f f' -> none_new f f' -> replaceable f up n -> replaceable f' up n.
Proof.
  intros Hk Hn [A B C D]. split; [by apply Hk| |by apply Hn..]. eapply Forall_impl; [exact B|].
  intros q Hq. assert (H : is_dir f' q = true) by (apply Hk; unfold is_dir; by rewrite Hq).
  unfold is_dir in H. by destruct (f' !! q) as [[]|].
Qed.

Lemma write_works p b e m : outcomes m = [] -> is_dir (files m) (parent_of p) = true -> is_dir (files m) p = false ->
  file_call (write_op p b) e m = ({| files := <[p := FileNode b]> (files m); applied := applied m; tables := tables m; printed := printed m; outcomes := [] |}, Ok tt).
Proof.
  intros Ho Hp Hd. unfold file_call, write_op, FsStore.write. rewrite Ho. cbn [hd fault_of]. rewrite Hp, Hd. reflexivity.
Qed.
Lemma fs_write_shown f p b fault f' : FsStore.write f p b fault = (f', true) ->
  is_dir f (parent_of p) = true /\ is_dir f p = false.
Proof.
  unfold FsStore.write. destruct (negb _ || is_dir f p) eqn:E; [discriminate|]. intros _.
  apply orb_false_iff in E as [E1%negb_false_iff E2]. done.
Qed.

Section Progress.
Context {SPr : SerdePretty}.

Lemma write_json_works p md m : outcomes m = [] -> is_dir (files m) (parent_of p) = true -> is_dir (files m) p = false ->
  exists m', write_json p md m = (m', Ok tt) /\ outcomes m' = [].
Proof.
  intros Ho Hp Hd. unfold write_json, p_bind. rewrite (write_works p [] _ m Ho Hp Hd). eexists.
  rewrite write_works; cbn [files outcomes]; [by split|done|by rewrite insert_file_dir|by rewrite insert_file_dir].
Qed.
Lemma write_json_shown p md m m' : write_json p md m = (m', Ok tt) ->
  is_dir (files m) (parent_of p) = true /\ is_dir (files m) p = false /\ forall q, is_dir (files m') q = is_dir (files m) q.
Proof.
  intros H. apply p_bind_inv in H as [(e & _ & [=])|(m1 & [] & H1 & H2)].
  pose proof (write_ok _ _ _ _ _ H1) as F1. pose proof (write_ok _ _ _ _ _ H2) as F2.
  unfold file_call, write_op in H1. destruct (FsStore.write (files m) _ _ _) as [f ok] eqn:E. destruct ok; [|discriminate].
  apply fs_write_shown in E as [Hp Hd]. split; [exact Hp|]. split; [exact Hd|]. intros q. rewrite F2, F1.
  by rewrite !insert_file_dir by (done || by rewrite insert_file_dir).
Qed.

Lemma replace_works src up n c m : let dest := up ++ [Normal n] in
  with_extension dest (s! "tmp-update") <> dest -> with_extension dest (s! "tmp-update") <> src ->
  outcomes m = [] -> replaceable (files m) up n -> files m !! src = Some (FileNode c) ->
  exists m', atomic_replace src dest m = (m', Ok tt) /\ outcomes m' = [] /\ forall q, is_dir (files m') q = is_dir (files m) q.
Proof.
  intros dest Hne Hns Ho [Hup Hdirs Hdest Hst] Hsrc. destruct (named dest _ Hne) as (up' & n' & Hd & Htmp).
  apply app_inj_tail in Hd as [<- [= <-]]. unfold atomic_replace. rewrite Htmp in *. cbv zeta.
  set (tmp := up ++ [Normal (file_stem n ++ _)]) in *.
  assert (Ptmp : parent_of tmp = up) by apply parent_of_snoc.
  assert (Pdest : parent_of dest = up) by apply parent_of_snoc.
  assert (E1 : create_parent dest m = (m, Ok tt)).
  { unfold create_parent. unfold dest. rewrite parent_named. destruct up as [|c0 up0]; [reflexivity|].
    unfold file_call, create_dir_op, create_dir_all. rewrite Ho. cbn [hd stop_of]. rewrite make_dirs_present by exact Hdirs.
    destruct m; cbn in *; by subst. }
  rewrite (p_bind_ok _ _ _ _ _ E1). unfold p_bind at 1, file_call at 1, copy_op. rewrite Hsrc, Ho.
  rewrite bool_decide_eq_false_2 by (intros E; by apply Hns). unfold write_op, FsStore.write. cbn [hd fault_of].
  rewrite Ptmp, Hup, Hst. cbn [negb orb done_if ok_or tl].
  unfold p_bind, file_call, set_permissions_op, rename_op, FsStore.rename. cbn [files outcomes hd breaks].
  rewrite lookup_insert_eq. cbn [fmap option_fmap option_map ok_or outcomes hd tl breaks files].
  rewrite !insert_file_dir by exact Hst. rewrite Pdest, Hup. unfold dest at 1. rewrite Hdest.
  cbn [negb orb done_if ok_or]. eexists. split; [reflexivity|]. split; [reflexivity|]. intros q. cbn [files].
  rewrite insert_file_dir, (delete_file_dir _ _ c) by
    (rewrite ?lookup_insert_eq; try reflexivity; rewrite (delete_file_dir _ _ c), insert_file_dir by
       (exact Hst || apply lookup_insert_eq); exact Hdest).
  by apply insert_file_dir.
Qed.

Lemma replace_shown src dest m m' : with_extension dest (s! "tmp-update") <> dest ->
  atomic_replace src dest m = (m', Ok tt) ->
  dirs_kept (files m) (files m') /\ exists up n, dest = up ++ [Normal n] /\ replaceable (files m') up n.
Proof.
  intros Hne H. destruct (named dest _ Hne) as (up & n & Hd & Htmp). unfold atomic_replace in H. rewrite Htmp in *. cbv zeta in H.
  set (tmp := up ++ [Normal (file_stem n ++ _)]) in *.
  apply p_bind_inv in H as [(e & _ & [=])|(m1 & [] & H1 & H)].
  assert (K1 : dirs_kept (files m) (files m1) /\ Forall (fun q => files m1 !! q = Some DirNode) (prefixes up)).
  { unfold create_parent in H1. rewrite Hd, parent_named in H1. destruct up as [|c0 up0]; [injection H1 as <-; split; [by intros q|constructor]|].
    unfold file_call, create_dir_op, create_dir_all in H1. destruct (make_dirs _ _ _) as [f ok] eqn:E.
    destruct ok; [|discriminate]. injection H1 as <-. split; [by eapply make_dirs_kept|].
    apply FsStoreProps.make_dirs_spec in E as (_ & B & _). by apply B. }
  destruct K1 as [K1 Hdirs]. clear H1. apply p_bind_inv in H as [(e & _ & [=])|(m2 & [] & H2 & H)].
  unfold file_call, copy_op, write_op in H2. destruct (files m1 !! src) as [[b|]|]; [|discriminate..].
  destruct (FsStore.write _ _ _ _) as [f2 ok] eqn:E2. destruct ok; [|discriminate]. injection H2 as <-.
  destruct (fs_write_shown _ _ _ _ _ E2) as [Hup Hst]. apply fs_write_ok in E2. unfold tmp in Hup. rewrite parent_of_snoc in Hup. fold tmp in Hst.
  apply p_bind_inv in H as [(e & _ & [=])|(m3 & [] & H3 & H)]. assert (F3 : files m3 = f2) by (by injection H3 as <-). clear H3.
  unfold file_call, rename_op, FsStore.rename in H. rewrite F3, E2, lookup_insert_eq in H.
  destruct (_ || _ || _) eqn:Ed; [discriminate|]. injection H as <-. cbn [files].
  apply orb_false_iff in Ed as [Ed _]. apply orb_false_iff in Ed as [_ Ed]. rewrite insert_file_dir in Ed by exact Hst.
  assert (Hsame : forall b' q, is_dir (<[dest := FileNode b']> (delete tmp (<[tmp := FileNode b']> (files m1)))) q = is_dir (files m1) q).
  { intros b' q. rewrite insert_file_dir, (delete_file_dir _ _ b'), insert_file_dir by
      (exact Hst || (rewrite ?lookup_insert_eq; reflexivity) ||
       (rewrite (delete_file_dir _ _ b'), insert_file_dir by (exact Hst || apply lookup_insert_eq); exact Ed)). reflexivity. }
  split; [intros q Hq; rewrite Hsame; by apply K1|]. exists up, n. split; [exact Hd|].
  eapply replaceable_kept; [intros q Hq; by rewrite Hsame|intros q Hq; by rewrite Hsame|]. split; [exact Hup|exact Hdirs|by rewrite <- Hd|exact Hst].
Qed.

End Progress.

(** ** The way back is open *)

Section Rollback.
Context {ED : Ed25519} {SM : SqlxMigrate} {PG : PgTools} {SP : SerdeParse} {SPr : SerdePretty} {SL : SerdePrettyLaws}.
Context {SH : Sha256} (ARCH : rstr) (http_get : rstr -> health_answer).
Context (paths : UpdatePaths) (Hsep : separate paths).

Lemma calm_eta m : outcomes m = [] ->
  {| files := files m; applied := applied m; tables := tables m; printed := printed m; outcomes := tl [] |} = m.
Proof. destruct m. cbn. by intros ->. Qed.
Lemma exists_works p x m : outcomes m = [] -> p <> [] -> files m !! p = Some x -> path_exists p m = (m, Ok true).
Proof.
  intros Ho Hp Hx. unfold path_exists, file_call, exists_op. rewrite Ho, Hx. cbn [hd breaks negb].
  rewrite bool_decide_eq_false_2, bool_decide_eq_true_2 by (done || by eexists). cbn. f_equal. by apply calm_eta.
Qed.
Lemma read_works p b e m : outcomes m = [] -> files m !! p = Some (FileNode b) -> fs_read p e m = (m, Ok b).
Proof.
  intros Ho Hx. unfold fs_read, file_call, read_op, FsStore.read. rewrite Ho, Hx. cbn. f_equal. by apply calm_eta.
Qed.
Lemma state_file_named name : In name STATE_FILES ->
  state_file paths name <> [] /\ parent_of (state_file paths name) = components (state_dir paths).
Proof. intros H. rewrite state_file_eq by exact H. split; [by destruct (components _)|apply parent_of_snoc]. Qed.

(** The state after an update, for the way back. *)
Record open_way (m : machine) (kept : list Z) (recorded : list Z) : Prop := {
  ow_calm : outcomes m = [];
  ow_kept : files m !! previous_binary paths = Some (FileNode kept);
  ow_recorded : files m !! state_file paths PREVIOUS_METADATA = Some (FileNode recorded);
  ow_install : exists up n, install paths = up ++ [Normal n] /\ replaceable (files m) up n;
  ow_state : is_dir (files m) (components (state_dir paths)) = true;
  ow_current : is_dir (files m) (state_file paths CURRENT_METADATA) = false;
}.

(** What a rollback does then. *)
Definition rollback_outcome (schema : Z) (m : machine) (kept recorded : list Z) (result : machine * result unit AppError) : Prop :=
  match json_from_slice recorded ≫= metadata_from_json with
  | None => result = (m, Err (dependency (s! "previous update metadata is invalid")))
  | Some previous =>
      if rollback_permitted schema previous
      then result.2 = Ok tt /\ files result.1 !! install paths = Some (FileNode kept)
      else result = (m, Err (blocked schema previous paths))
  end.

Lemma restore_works schema m kept recorded : open_way m kept recorded ->
  rollback_outcome schema m kept recorded (restore_previous paths schema m).
Proof.
  intros [Ho Hk Hr (up & n & Hi & Hrep) Hst Hcur]. unfold restore_previous, rollback_outcome. cbv zeta.
  fold (previous_binary paths) (install paths).
  rewrite (p_bind_ok _ _ _ _ _ (exists_works _ _ m Ho (proj1 (state_file_named PREVIOUS_BINARY ltac:(state_name))) Hk)). cbn [negb].
  rewrite (p_bind_ok _ _ _ _ _ (exists_works _ _ m Ho (proj1 (state_file_named PREVIOUS_METADATA ltac:(state_name))) Hr)). cbn [negb].
  rewrite (p_bind_ok _ _ _ _ _ (read_works _ _ _ m Ho Hr)).
  destruct (json_from_slice recorded ≫= metadata_from_json) as [previous|]; cbn [ok_or]; [|reflexivity].
  rewrite (p_bind_read _ _ _ previous) by reflexivity.
  destruct (rollback_permitted schema previous); cbn [negb]; [|reflexivity].
  pose proof (sep_install_staged paths Hsep) as Hs. unfold staged in Hs.
  pose proof (not_staged paths Hsep PREVIOUS_BINARY ltac:(state_name)) as Hs2. unfold staged in Hs2. rewrite Hi in Hs, Hs2 |- *.
  destruct (replace_works (previous_binary paths) up n kept m Hs Hs2 Ho Hrep Hk) as (m1 & Ha & Ho1 & Hdir).
  rewrite (p_bind_ok _ _ _ _ _ Ha). destruct (state_file_named CURRENT_METADATA ltac:(state_name)) as [_ Hpar].
  destruct (write_json_works (state_file paths CURRENT_METADATA) previous m1 Ho1) as (m2 & Hw & _);
    [by rewrite Hpar, Hdir|by rewrite Hdir|]. rewrite Hw. split; [reflexivity|].
  apply atomic_replace_result in Ha as (b & Hb & Hb2); [|exact Hs|exact Hs2]. cbn [fst].
  pose proof (not_install paths Hsep CURRENT_METADATA ltac:(state_name)) as Hci. rewrite Hi in Hci.
  rewrite (preserves_run _ _ _ _ _ (write_json_keeps _ _ previous Hci) Hw). congruence.
Qed.

Lemma rollback_works schema m kept recorded : open_way m kept recorded ->
  rollback_outcome schema m kept recorded (run_rollback paths true schema m).
Proof.
  intros H%(restore_works schema). unfold run_rollback, p_bind, rollback_outcome in *. cbn [negb].
  destruct (json_from_slice recorded ≫= metadata_from_json) as [previous|]; [|by rewrite H].
  destruct (rollback_permitted schema previous); [|by rewrite H].
  destruct (restore_previous paths schema m) as [m1 r]. cbn [fst snd] in H. destruct H as [-> H]. exact (conj eq_refl H).
Qed.

Lemma confirm_ok config options schema md m m' :
  confirm_or_restore http_get config paths options schema md m = (m', Ok tt) -> files m' = files m /\ outcomes m' = outcomes m.
Proof.
  unfold confirm_or_restore. destruct (verify_health _ _); [by intros (H1 & H2 & _)%print_files|]. unfold p_try.
  destruct (current_database_schema m). destruct (restore_previous _ _ _) as [? []]; discriminate.
Qed.
Lemma migrate_rest (skip : bool) m m' : (if skip then p_ret tt else migrate) m = (m', Ok tt) ->
  files m' = files m /\ (outcomes m = [] -> outcomes m' = []).
Proof.
  destruct skip; [by intros [= <-]|]. unfold migrate, db_call. destruct (migrator_run _ _). intros [= <- _]. cbn.
  split; [reflexivity|]. by intros ->.
Qed.

Lemma install_opens config options schema md m m' kept recorded :
  install_artifact http_get config paths options schema md m = (m', Ok tt) -> outcomes m = [] ->
  files m !! previous_binary paths = Some (FileNode kept) ->
  files m !! state_file paths PREVIOUS_METADATA = Some (FileNode recorded) -> open_way m' kept recorded.
Proof.
  intros H Ho Hk Hr. unfold install_artifact in H. fold (install paths) in H.
  pose proof (sep_install_staged paths Hsep) as Hs. apply p_bind_inv in H as [(e & _ & [=])|(m1 & [] & H1 & H)].
  pose proof (replace_shown _ _ _ _ Hs H1) as (_ & up & n & Hi & Hrep).
  pose proof (preserves_run _ _ _ _ _ (atomic_replace_calm _ _) H1 Ho) as O1.
  assert (Hst : forall name, In name STATE_FILES -> held (state_file paths name) m m1).
  { intros name Hin. eapply preserves_run; [|exact H1]. apply atomic_replace_holds; [by apply (not_staged paths Hsep)|].
    intros E. by apply (not_install paths Hsep name Hin). }
  apply p_bind_inv in H as [(e & _ & [=])|(m2 & [] & H2 & H)].
  pose proof (write_json_shown _ _ _ _ H2) as (Hd & Hc & Hdir).
  pose proof (preserves_run _ _ _ _ _ (write_json_calm _ _) H2 O1) as O2.
  assert (K : forall p, state_file paths CURRENT_METADATA <> p -> files m2 !! p = files m1 !! p)
    by (intros p Hp; exact (preserves_run _ _ _ _ _ (write_json_keeps _ _ md Hp) H2)).
  apply p_bind_inv in H as [(e & _ & [=])|(m3 & [] & H3 & H)]. apply migrate_rest in H3 as [F3 O3].
  assert (F4 : files m' = files m2 /\ outcomes m' = outcomes m3).
  { rewrite <- F3. destruct (skip_health options); [by apply print_files in H as (? & ? & _)|by apply confirm_ok in H]. }
  destruct F4 as [F4 O4]. clear F3 H. rename F4 into F3. rewrite <- O4 in O3. split.
  - by apply O3.
  - rewrite F3, K by apply previous_not_current. by apply (Hst PREVIOUS_BINARY ltac:(state_name)).
  - rewrite F3, K by (apply state_file_inj; [state_name..|vm_compute; discriminate]).
    by apply (Hst PREVIOUS_METADATA ltac:(state_name)).
  - exists up, n. split; [exact Hi|]. rewrite F3. eapply replaceable_kept; [| |exact Hrep]; intros q; by rewrite Hdir.
  - rewrite F3, Hdir. by rewrite <- (proj2 (state_file_named CURRENT_METADATA ltac:(state_name))).
  - by rewrite F3, Hdir.
Qed.

Lemma own_metadata_read sha :
  json_from_slice (json_to_vec_pretty (metadata_to_json (own_metadata ARCH sha))) ≫= metadata_from_json
  = Some (own_metadata ARCH sha).
Proof.
  rewrite pretty_parsed. cbn [mbind option_bind]. unfold metadata_from_json, metadata_to_json.
  cbn [Provider.struct_from_slice]. replace (forallb _ METADATA_FIELDS) with true by (vm_compute; reflexivity).
  vm_compute. reflexivity.
Qed.

(** C22. An update can be taken back: after a successful update of an installed binary in
    which no call failed, a rollback restores exactly that binary when the schema is in
    the recorded range, and otherwise changes nothing; the range is that of the metadata
    in place before, and for a first update the schema of the running binary. *)
Theorem update_rolls_back config options m m1 old schema :
  outcomes m = [] -> files m !! install paths = Some (FileNode old) ->
  run_apply ARCH http_get config paths options m = (m1, Ok tt) ->
  rollback_outcome schema m1 old (recorded_bytes ARCH paths m old) (run_rollback paths true schema m1)
  /\ run_rollback paths false schema m1 = (m1, Err (usage (s! "update rollback requires --yes")))
  /\ ((forall b, files m !! state_file paths CURRENT_METADATA <> Some (FileNode b)) ->
      json_from_slice (recorded_bytes ARCH paths m old) ≫= metadata_from_json
      = Some (own_metadata ARCH (S3Store.hex_encode (sha256 old)))).
Proof.
  intros Ho Hold H. apply (apply_stages ARCH http_get paths Hsep) in H as [(e & [=] & _)|(md & n & b & m2 & _ & _ & Hp & H)].
  destruct Hp as (_ & _ & O2 & Hkept & Hrec). split; [|split; [reflexivity|]].
  - apply rollback_works. eapply install_opens; [exact H|by apply O2| |by apply Hrec].
    destruct Hkept as [[_ Hno]|(x & Hx & Hkept)]; [by destruct (Hno Ho old)|]. congruence.
  - intros Hno. rewrite <- own_metadata_read. f_equal. unfold recorded_bytes.
    specialize (Hno). destruct (files m !! state_file paths CURRENT_METADATA) as [[x|]|]; [by destruct (Hno x)|done..].
Qed.

End Rollback.

End UpdateRollback.
