(* ===== verification/WebWitnesses.v ===== *)
(** * The theorems about the provider and the webhook on concrete calls

    One webhook body, one error of the messaging service, and one photo behind a redirect. *)

From S2P Require Import Prelude RustStr RustStrFacts Platform Errors Work Schedule ConvTypes Conversation ReceiptTypes Receipt.
From S2P Require Import Database Insight IngressTypes IngressStore IngressApply IngressApp Outbound Scheduler Jobs System Demo.
From S2P Require Import Provider ProviderProps Media MediaProps Http HttpProps.
Import Db Ingress IngressStore IngressApply Demo.

(** A JSON reader that knows one document, and URLs that are https hosts. *)
Definition hello_body : list Z := encode_utf8 (s! "hello").
Definition hello_json : Work.json := Work.JObject
  [(s! "event_name", Work.JString (s! "message.text.received"));
   (s! "message", Work.JObject
      [(s! "message_id", Work.JString (s! "m1"));
       (s! "from", Work.JObject [(s! "id", Work.JInt 42)]);
       (s! "chat", Work.JObject [(s! "id", Work.JInt 42)]);
       (s! "date", Work.JInt 0); (s! "text", Work.JString (s! "hi"))])].
#[export] Instance one_document : SerdeParse := {|
  json_from_slice := fun b => if bool_decide (b = hello_body) then Some hello_json else None;
  float_text := dec_signed |}.

Definition host_of (s : rstr) : option rstr :=
  match strip_prefix s (s! "https://") with
  | Some r => Some (hd [] (split_char r (c! "/")))
  | None => None
  end.
#[export] Instance https_hosts : UrlLib := {|
  Url := rstr; url_parse := host_of; url_join := fun _ l => host_of l; url_push := fun u _ => Some u;
  username := fun _ => []; password := fun _ => None; scheme := fun _ => s! "https"; port := fun _ => None;
  port_or_known_default := fun _ => Some 443; host_str := Some; query := fun _ => None;
  fragment := fun _ => None |}.

(** ** The webhook *)

Definition service : Http.WebhookService := {|
  Http.ws_config := {| Provider.api_base := Provider.DEFAULT_API_BASE; Provider.bot_token := s! "123:abc";
                       Provider.webhook_secret := s! "s3cret"; Provider.cfg_provider_scope := s! "zalo_bot";
                       Provider.request_timeout_secs := 10 |};
  Http.ws_store := store; Http.allowed_provider_sender_ids := [s! "42"]; Http.max_body_bytes := 65536 |}.
Definition app : Http.AppState := {|
  Http.webhook := Some service;
  Http.metrics := Some {| Http.webhook_accepted_total := 0; Http.webhook_duplicate_total := 0;
                          Http.webhook_unauthorized_total := 0 |} |}.
Definition call : Http.request := {|
  Http.rq_secret := Some (s! " s3cret"); Http.rq_content_type := Some (s! "Application/JSON; charset=utf-8");
  Http.rq_body := hello_body |}.
Definition answered : db * Http.AppState * run Http.response :=
  Http.zalo_webhook_handler (env 1) (fun _ => noon) call app migrated_db.

Lemma call_accepted : answered.2 = Ret (Http.status_json 200 (s! "accepted")).
Proof. vm_compute. reflexivity. Qed.

Lemma webhook_replay_harmless_witness :
  let w' := System.sys_run [System.OSwitch (s! "polling")] (answered.1.1, ∅) in
  Http.zalo_webhook_handler (env 2) (fun _ => noon + hour) call answered.1.2 w'.1
  = (w'.1, Http.count Http.inc_webhook_duplicate answered.1.2, Ret (Http.status_json 200 (s! "duplicate"))).
Proof.
  refine (HttpProps.webhook_replay_harmless (env 1) (fun _ => noon) call app service
    [System.OSwitch (s! "polling")] (env 2) (fun _ => noon + hour) answered.1.2 (migrated_db, ∅) _ _ _).
  - reflexivity.
  - vm_compute. reflexivity.
  - exact call_accepted.
Defined.

(** ** Sending *)

Definition refused_connection : Provider.http_answer :=
  Provider.NoResponse {| Provider.is_timeout := false; Provider.cause := s! "POST /bot123%3Aabc/sendMessage 42" |}.
Definition refused_error : Provider.ZaloProviderError :=
  Provider.map_transport_error (s! "123:abc") (s! "42") (s! "xin chao")
    {| Provider.is_timeout := false; Provider.cause := s! "POST /bot123%3Aabc/sendMessage 42" |}.

Lemma token_safe : Redaction.safe_needle (s! "123%3Aabc").
Proof.
  split; [vm_compute; discriminate|]. split; [apply (bool_decide_unpack _); vm_compute; exact I|].
  split; [apply (bool_decide_unpack _); vm_compute; exact I|].
  intros H%Redaction.contains_occurs. vm_compute in H. discriminate.
Qed.


(** ** Downloading *)

Definition photo : rstr := s! "https://zalo.zapps.me/p/1".
Definition hops (i : nat) : Media.hop_env := {|
  Media.time_left := true;
  Media.resolve := fun _ => Some (Ok [Media.V4 (Media.v4 118 69 1 1)]);
  Media.time_left_to_send := true; Media.client_builds := true;
  Media.get := fun _ _ => Some (Ok {|
    Media.rs_status := if (i =? 0)%nat then 302 else 200;
    Media.rs_location := Some (s! "https://photo.zdn.vn/a.jpg"); Media.rs_content_length := None;
    Media.rs_length_header := Some (s! "3"); Media.rs_content_type := Some (s! "image/jpeg");
    Media.rs_chunks := [Media.Chunk [255; 216; 255]] |}) |}.
Abbreviation downloaded := (Media.download_media Media.production_default hops photo).

Lemma photo_downloaded : downloaded.2 = Ok {| Jobs.bytes := [255; 216; 255]; Jobs.content_type := Some (s! "image/jpeg") |}
  /\ length downloaded.1 = 2%nat.
Proof. vm_compute. done. Qed.

Lemma media_download_safe_witness :
  (length downloaded.1 <= S (Media.max_redirects Media.production_default))%nat
  /\ Forall (MediaProps.safe_request Media.production_default) downloaded.1
  /\ (forall m, downloaded.2 = Ok m ->
        Z.of_nat (length (Jobs.bytes m)) <= Media.max_bytes Media.production_default
        /\ forall t, Jobs.content_type m = Some t -> char_count t <= 256).
Proof.
  refine (MediaProps.media_download_safe Media.production_default hops photo _ _ _).
  - reflexivity.
  - vm_compute. discriminate.
  - intros i host l [= <-]. apply Forall_singleton. vm_compute. split; [discriminate|reflexivity].
Defined.
