(* ===== verification/StoreWitnesses.v ===== *)
(** * The theorems about the configuration, the extractor and the file store on concrete inputs

    One configuration file with one environment variable over it, one answer of the
    extraction service, and one history of a file store with failures in it. *)

From S2P Require Import Prelude RustStr RustStrFacts Paths Floats Platform Errors ConfigTypes Work ConfigLayers ReceiptTypes Receipt.
From S2P Require Import Database Demo Provider Media Http Extractors FsStore ConfigLoad ConfigProps ConfigBounds.
From S2P Require Import ExtractorProps FsStoreProps WebWitnesses.
Import Db ConfigTypes ConfigLayers ConfigLoad Demo.

(** ** The configuration *)

Definition config_text : rstr := s! "server, ai".
Definition config_toml : toml := TTable
  [(s! "server", TTable [(s! "listen_address", TString (s! "127.0.0.1:9000"))]);
   (s! "extraction", TTable [(s! "backend", TString (s! "gemini")); (s! "default_profile", TString (s! "receipts"))]);
   (s! "ai", TTable [(s! "profiles", TArray [TTable
      [(s! "name", TString (s! "receipts")); (s! "provider", TString (s! "gemini"));
       (s! "model", TString (s! "gemini-2.5-flash")); (s! "credential", TString (s! "gemini_key"));
       (s! "task", TString (s! "extraction")); (s! "schema_version", TString (s! "v1"))]])])].
#[export] Instance one_toml : TomlLib := {|
  toml_parse := fun t => if str_eqb t config_text then Some config_toml else None |}.

Definition machine : host := {|
  h_env := fun name => if str_eqb name (s! "ZL_EXPENSE_LISTEN_ADDRESS") then Some (s! "127.0.0.1:9001") else None;
  h_read := fun path =>
    if str_eqb path (s! "/etc/zl.toml") then Some config_text
    else if str_eqb path (s! "/etc/zl-expense/credentials/database") then Some (s! "postgres://zl@db/zl ")
    else if str_eqb path (s! "/etc/zl-expense/credentials/gemini_key") then Some (s! " k1 ")
    else None;
  h_pg_url := fun url => starts_with url (s! "postgres://") |}.
Definition config_path : option rstr := Some (s! "/etc/zl.toml").


Lemma ok_value {A E} (d : A) (r : result A E) :
  match r with Ok _ => True | Err _ => False end -> r = Ok (match r with Ok a => a | Err _ => d end).
Proof. by destruct r. Qed.

Definition blank : ResolvedConfig := resolved default_config ∅ [] Memory Fake.
Definition loaded : ResolvedConfig := match load_config machine config_path with Ok r => r | Err _ => blank end.

Lemma machine_loads : load_config machine config_path = Ok loaded.
Proof. apply ok_value. vm_compute. exact I. Qed.

Lemma config_tables c document :
  ConfigProps.file_layer machine config_path = Some (c, document) -> ConfigProps.tables_only document.
Proof.
  unfold ConfigProps.file_layer, config_path. cbn [mbind option_bind].
  replace (h_read machine (s! "/etc/zl.toml")) with (Some config_text) by (vm_compute; reflexivity).
  cbn [mbind option_bind]. replace (toml_parse config_text) with (Some config_toml) by (vm_compute; reflexivity).
  cbn [mbind option_bind]. destruct (de_config config_toml); [|discriminate]. cbn [mbind option_bind].
  intros [_ <-]%some_inj%pair_equal_spec. eexists. split; [reflexivity|]. intros section v. cbn [table_get].
  repeat (destruct (str_eqb section _); [intros <-%some_inj; by eexists|]). discriminate.
Qed.


Lemma loaded_config_bounds_witness :
  exists p, extraction_profile loaded (r_extraction_default_profile loaded) = Some p /\ task p = s! "extraction".
Proof.
  refine (proj2 (proj2 (proj2 (proj2 (ConfigBounds.loaded_config_bounds machine config_path loaded machine_loads)))) _).
  vm_compute. reflexivity.
Defined.

Lemma credential_reads_confined_witness :
  exists path text, h_read machine path = Some text /\ s! "k1" = trim text /\ s! "k1" <> []
    /\ Paths.components path = Paths.components (r_credentials_directory loaded) ++ [Paths.Normal (s! "gemini_key")]
    /\ blen (s! "gemini_key") <= 64.
Proof.
  refine (ConfigBounds.credential_reads_confined machine loaded (s! "gemini_key") (s! "k1") _ _).
  - vm_compute. discriminate.
  - vm_compute. reflexivity.
Defined.

(** ** The extraction service *)

Module GeminiAnswer.

(** One outer and one inner document; a confidence above 1. *)
Definition outer : rstr := s! "outer".
Definition inner : rstr := s! "inner".
Definition outer_json : Work.json := Work.JObject
  [(s! "candidates", Work.JArray [Work.JObject
     [(s! "content", Work.JObject [(s! "parts", Work.JArray [Work.JObject [(s! "text", Work.JString inner)]])]);
      (s! "finishReason", Work.JString (s! "STOP"))]])].
Definition inner_json : Work.json := Work.JObject
  [(s! "merchant", Work.JString (s! "Circle K")); (s! "amount_minor", Work.JInt 118000);
   (s! "currency", Work.JString (s! "VND")); (s! "category_key", Work.JString (s! "an-uong"));
   (s! "transaction_type", Work.JString (s! "expense")); (s! "occurred_at", Work.JString (s! "2025-01-02T00:00:00Z"));
   (s! "confidence", Work.JInt 2); (s! "unsupported", Work.JBool false)].
#[export] Instance two_documents : SerdeParse := {|
  json_from_slice := fun b =>
    if bool_decide (b = encode_utf8 outer) then Some outer_json
    else if bool_decide (b = encode_utf8 inner) then Some inner_json else None;
  float_text := dec_signed |}.
#[export] Instance two_documents_laws : ExtractorProps.SerdeParseLaws.
Proof.
  split. intros b v. cbn [json_from_slice two_documents]. case_bool_decide.
  { intros <-%some_inj. vm_compute. reflexivity. }
  case_bool_decide; [|discriminate]. intros <-%some_inj. vm_compute. reflexivity.
Qed.
#[export] Instance no_base64 : Base64 := {| base64_encode := fun b => b; header_value_ok := fun _ => true |}.
#[export] Instance one_date : Rfc3339 := {| parse_from_rfc3339 := fun _ => Some noon |}.
#[export] Instance raw_images : ImageCodec := {|
  image := list Z; load_from_memory := Some; dimensions := fun _ => (640, 480); resize := fun i _ _ => i;
  write_jpeg := Some |}.

Definition adapter : Extractors.GeminiHttpExtractor := {|
  Extractors.g_api_base := s! "https://g"; Extractors.g_api_key := s! "k1"; Extractors.g_model := s! "gemini-2.5-flash";
  Extractors.g_profile_name := s! "receipts"; Extractors.g_max_input_bytes := 1000;
  Extractors.g_max_output_tokens := 256; Extractors.g_thinking_effort := s! "low"; Extractors.g_schema_version := s! "v1" |}.
Definition post (_ : Extractors.gemini_request) : Extractors.gemini_answer := Extractors.GAnswer 200 (Some outer).
Definition extracted : ReceiptTypes.ExtractedAttempt :=
  match Extractors.gemini_execute post adapter [1; 2; 3] with
  | Ok a => a
  | Err _ => {| ReceiptTypes.x_result := {| ReceiptTypes.x_merchant := []; ReceiptTypes.x_amount_minor := 0;
      ReceiptTypes.x_currency := []; ReceiptTypes.x_category_key := []; ReceiptTypes.x_transaction_type := [];
      ReceiptTypes.x_occurred_at := 0; ReceiptTypes.x_confidence := 0; ReceiptTypes.x_unsupported := false |};
      ReceiptTypes.x_meta := meta |}
  end.

Lemma extracted_ok : Extractors.gemini_execute post adapter [1; 2; 3] = Ok extracted.
Proof. vm_compute. reflexivity. Qed.


End GeminiAnswer.

(** ** The file store *)

Definition files : FsStore.FilesystemObjectStore := {| FsStore.root := s! "/srv" |}.
Definition receipt_key : rstr := ReceiptTypes.object_key 1 2 (s! "9f86d081").
(** A put that succeeds, and one whose write is cut short. *)
Definition puts : list FsStoreProps.operation :=
  [FsStoreProps.OpPut receipt_key [1; 2] 7 FsStore.no_faults;
   FsStoreProps.OpPut receipt_key [3; 4] 8
     {| FsStore.pf_dirs := None; FsStore.pf_write := Some (FsStore.WriteFails (Some [3])); FsStore.pf_rename := false;
        FsStore.pf_cleanup := true |}].

Lemma receipt_key_good : FsStoreProps.good_key receipt_key.
Proof.
  split.
  - vm_compute. reflexivity.
  - apply List.Forall_forall, forallb_forall. vm_compute. reflexivity.
  - eexists _, _, _, _. split; vm_compute; reflexivity.
Qed.

Lemma empty_represents : FsStoreProps.represents (FsStore.root files) ∅ ∅.
Proof.
  split; [intros k _; by rewrite !lookup_empty|]. intros k n _ _. unfold FsStore.is_file. by rewrite lookup_empty.
Qed.

