(* ===== verification/UpdateWitnesses.v ===== *)
(** * The theorems about updates on one machine

    A release signed by the one trusted key, installed over an older binary and taken
    back; the same release on a machine whose service does not come up. *)

From S2P Require Import Prelude RustStr RustStrFacts Paths Platform Errors ConfigTypes Work ConfigLayers ReceiptTypes Provider.
From S2P Require Import Database Demo Extractors FsStore S3Store ConfigLoad Insight Update UpdateProps UpdateRollback.

Module UpdateWitnesses.
Import Paths FsStore Update UpdateProps UpdateRollback.
Import Work (json(..)).

(** ** Libraries that meet their laws *)

(** A key signs with itself, twice. *)
#[local] Instance echo_keys : Ed25519 := {|
  VerifyingKey := list Z; key_from_bytes := Some; verify := fun key _ sig => bool_decide (sig = key ++ key) |}.
#[local] Instance no_migrations : SqlxMigrate := {| migrator_run := fun _ t => (t, true) |}.
#[local] Instance empty_dumps : PgTools := {| pg_dump := fun _ _ => [1]; pg_restore := fun _ _ t => (t, true) |}.
#[local] Instance length_digest : Sha256 := {| sha256 := fun b => repeat (Z.of_nat (length b) mod 256) 32 |}.

(** Texts with their lengths, numbers as they are. *)
Definition put_text (s : rstr) : list Z := Z.of_nat (length s) :: s.
Definition take_text (b : list Z) : option (rstr * list Z) :=
  match b with n :: b' => Some (take (Z.to_nat n) b', drop (Z.to_nat n) b') | [] => None end.
Definition print_metadata (v : json) : list Z :=
  match v with
  | JObject [(_, JString a); (_, JInt b); (_, JInt c); (_, JInt d); (_, JString e); (_, JString f)] =>
      [b; c; d] ++ put_text a ++ put_text e ++ put_text f
  | _ => []
  end.
Definition parse_metadata (bytes : list Z) : option json :=
  match bytes with
  | b :: c :: d :: rest =>
      p ← take_text rest; let '(a, rest) := p in
      p ← take_text rest; let '(e, rest) := p in
      p ← take_text rest; let '(f, _) := p in
      Some (metadata_to_json {| package_version := a; schema_version := b; min_runtime_schema := c;
                                max_runtime_schema := d; md_sha256 := e; arch := f |})
  | _ => None
  end.
#[local] Instance flat_parse : SerdeParse := {| json_from_slice := parse_metadata; float_text := dec_signed |}.
#[local] Instance flat_print : SerdePretty := {| json_to_vec_pretty := print_metadata |}.

Lemma take_put s rest : take_text (put_text s ++ rest) = Some (s, rest).
Proof. unfold put_text, take_text. cbn [app]. by rewrite Nat2Z.id, take_app_length, drop_app_length. Qed.
#[local] Instance flat_laws : SerdePrettyLaws.
Proof.
  split. intros [a b c d e f]. cbn [json_from_slice flat_parse json_to_vec_pretty flat_print metadata_to_json print_metadata
    package_version schema_version min_runtime_schema max_runtime_schema md_sha256 arch].
  cbn [app parse_metadata]. rewrite take_put. cbn [mbind option_bind]. rewrite take_put. cbn [mbind option_bind].
  pose proof (take_put f []) as H. rewrite app_nil_r in H. rewrite H. reflexivity.
Qed.

(** ** The machine *)

Definition key_text : rstr := join [] (repeat (s! "ab") 32).
Definition release : UpdateMetadata := {|
  package_version := s! "0.2.0"; schema_version := 12; min_runtime_schema := 11; max_runtime_schema := 12;
  md_sha256 := S3Store.hex_encode (sha256 [7; 7; 7]); arch := s! "aarch64" |}.
Definition update : UpdatePaths := {|
  artifact := s! "/tmp/zl"; metadata := s! "/tmp/zl.json"; signature := s! "/tmp/zl.sig"; public_keys := [];
  public_keys_directory := s! "/keys"; install_path := s! "/bin/zl"; state_dir := s! "/state" |}.
Definition text_file (s : rstr) : node := FileNode (encode_utf8 s).
Definition before : machine := {|
  files := list_to_map
    [([RootDir], DirNode); (components (s! "/tmp"), DirNode); (components (s! "/keys"), DirNode); (components (s! "/bin"), DirNode);
     (components (s! "/keys/release"), text_file key_text);
     (components (s! "/tmp/zl"), FileNode [7; 7; 7]);
     (components (s! "/tmp/zl.json"), FileNode (json_to_vec_pretty (metadata_to_json release)));
     (components (s! "/tmp/zl.sig"), text_file (key_text ++ key_text));
     (components (s! "/bin/zl"), FileNode [5])];
  applied := Some (map (fun n => (Z.of_nat n, true)) (seq 1 11)); tables := migrated_db; printed := []; outcomes := [] |}.
Definition options : ApplyOptions := {|
  yes := true; skip_backup := false; skip_migrate := false; skip_health := false; health_url := Some (s! "u") |}.
Definition config : ConfigLoad.ResolvedConfig := ConfigLoad.resolved ConfigTypes.default_config ∅ [] ConfigLoad.Memory ConfigLoad.Fake.
Definition arch_name : rstr := s! "aarch64".
Definition healthy (_ : rstr) : health_answer := Status 200.
Definition unhealthy (_ : rstr) : health_answer := Status 503.

Lemma update_separate : separate update.
Proof.
  split; try (vm_compute; discriminate).
  - apply (bool_decide_unpack _). vm_compute. exact I.
  - apply (bool_decide_unpack _). vm_compute. exact I.
  - apply (bool_decide_unpack _). vm_compute. exact I.
  - apply (bool_decide_unpack _). vm_compute. exact I.
Qed.

Definition applied_to : machine := (run_apply arch_name healthy config update options before).1.
Definition restored_to : machine := (run_apply arch_name unhealthy config update options before).1.

Lemma with_result {A B} (x : A * B) v : x.2 = v -> x = (x.1, v).
Proof. destruct x. by intros <-. Qed.
Lemma release_applied : run_apply arch_name healthy config update options before = (applied_to, Ok tt).
Proof. unfold applied_to. apply with_result. vm_compute. reflexivity. Qed.
Lemma release_restored : run_apply arch_name unhealthy config update options before = (restored_to, Err RESTORED).
Proof. unfold restored_to. apply with_result. vm_compute. reflexivity. Qed.


Lemma update_rolls_back_witness :
  rollback_outcome update 11 applied_to [5] (recorded_bytes arch_name update before [5]) (run_rollback update true 11 applied_to)
  /\ json_from_slice (recorded_bytes arch_name update before [5]) ≫= metadata_from_json
     = Some (own_metadata arch_name (S3Store.hex_encode (sha256 [5]))).
Proof.
  assert (Hi : files before !! install update = Some (FileNode [5])) by (vm_compute; reflexivity).
  destruct (UpdateRollback.update_rolls_back arch_name healthy update update_separate config options before applied_to [5] 11
    eq_refl Hi release_applied) as (H1 & _ & H3).
  split; [exact H1|]. apply H3. intros b. vm_compute. discriminate.
Defined.

End UpdateWitnesses.
