(* ===== verification/RuntimeWitnesses.v ===== *)
(** * The theorems about the runtime and the operator on concrete runs

    One machine that comes up with every role and is asked for its status; one worker that
    claims a job; one supervisor that is told to stop. *)

From S2P Require Import Prelude RustStr RustStrFacts Paths Platform Errors ConfigTypes Work WorkProps ConfigLayers ReceiptTypes Receipt ReceiptFrame.
From S2P Require Import ReceiptSpec Database Demo Insight IngressTypes IngressStore Outbound Jobs Provider Http Extractors FsStore ConfigLoad.
From S2P Require Import Update System SystemFrame SystemProps Operator Runtime RuntimeProps CliProps OperatorProps WebWitnesses.

Module RuntimeWitnesses.
Import Db Demo Http.

(** ** Start-up and status *)

#[local] Instance no_migrations : SqlxMigrate := {| migrator_run := fun _ t => (t, true) |}.

Definition config : ConfigLoad.ResolvedConfig :=
  ConfigLoad.resolved ConfigTypes.default_config ∅ [] ConfigLoad.Memory ConfigLoad.Fake.
Definition secret_file (text : rstr) : FsStore.node := FsStore.FileNode (encode_utf8 text).
Definition before : Update.machine := {|
  Update.files := list_to_map
    [(Paths.components (s! "/etc/zl-expense/credentials/zalo-bot"), secret_file (s! "1:token"));
     (Paths.components (s! "/etc/zl-expense/credentials/webhook-secret"), secret_file (s! "a long webhook secret"))];
  Update.applied := Some (map (fun n => (Z.of_nat n, true)) (seq 1 11));
  Update.tables := migrated_db; Update.printed := []; Update.outcomes := [] |}.
Definition process : Operator.process := {| Operator.p_env := fun _ => None; Operator.p_pg_url := fun _ => true |}.

Definition started : Update.machine * result (run Runtime.services) Errors.ExitCode :=
  Runtime.start process true true true config Jobs.all_roles before.

Lemma comes_up : exists m sv, started = (m, Ok (Ret sv)) /\ is_ready (Runtime.sv_readiness sv) = true.
Proof.
  destruct started as [m r] eqn:E. assert (H : match started.2 with
    | Ok (Ret sv) => is_ready (Runtime.sv_readiness sv) = true | _ => False end) by (vm_compute; reflexivity).
  rewrite E in H. cbn in H. destruct r as [[sv| |]|]; try destruct H. eauto.
Qed.


(** A queue with one job. *)
Definition request : Work.EnqueueRequest := {|
  Work.req_id := 7%N; Work.req_job_type := s! "schedule.emit"; Work.req_payload := Work.JObject [(s! "schema_version", Work.JInt 1)];
  Work.req_dedupe_key := s! "d"; Work.req_serialization_key := None; Work.req_priority := 0; Work.req_run_at := 0;
  Work.req_max_attempts := 3 |}.
Definition enqueued : System.sys_op := System.OQueue 0 (Work.OEnqueue request).
Definition busy : Update.machine := {|
  Update.files := ∅; Update.applied := Update.applied before;
  Update.tables := (System.sys_exec enqueued (migrated_db, ∅)).1; Update.printed := []; Update.outcomes := [] |}.
Definition reported : Update.machine * result Operator.StatusReport Errors.AppError :=
  Operator.collect_status 90000000 (fun _ => None) busy.


(** ** The worker *)

Definition deps : Jobs.JobDeps := {|
  Jobs.jd_receipt_config := {| ReceiptTypes.original_receipt_days := 7; ReceiptTypes.review_expiry_hours := 72;
                               ReceiptTypes.extraction_enabled := true; ReceiptTypes.monthly_extraction_pages := 80 |};
  Jobs.jd_ingress_policy := ConfigLoad.from_config config |}.
Definition claim_env : Work.ClaimEnv := {|
  Work.row_locked := fun _ => false; Work.advisory_free := fun _ => true; Work.fresh_ids := fun id => (id, (id + 1)%N) |}.
Definition idle : Runtime.worker := Runtime.start_worker (migrated_db, ∅).
Definition queued : Runtime.worker := Runtime.with_world (System.sys_exec enqueued (Runtime.wk_world idle)) idle.


(** ** The supervisor *)

Definition ready : ReadinessState := set_migrations_current true (set_db_reachable true new_ready).
Definition serving : Runtime.supervisor := Runtime.start_supervisor [Jobs.RWorker] ready.

End RuntimeWitnesses.
